(* ===== verification/_CoqProject ===== *)
-Q . S2P
Prelude.v
RustString.v
BTree.v
Net.v
Config.v
Identity.v
ProxyState.v
ProxyConc.v
Http.v
Mtls.v
Server.v
ServerConc.v
XdsProto.v
XdsConvert.v
AdsState.v
XdsClient.v
XdsReconnect.v
XdsConverge.v
XdsTyped.v
XdsChannel.v
Source.v
Build.v
Admin.v
App.v
AppClient.v
Gateway.v
GatewayRecover.v
GatewayOutage.v
MtlsTest.v
Conformance.v
LoadTests.v
