(* ===== verification/Prelude.v ===== *)
(** * dxgate: a verification development

    dxgate is a north-south HTTP proxy written in Rust. It receives its routing
    configuration from a control plane over an ADS stream (xDS), or from a static
    file, validates it, and forwards HTTP requests to the healthy endpoints of the
    clusters that the matching route names, over plaintext or mTLS. This library
    models the program as executable definitions, state passed explicitly and
    errors as values of [result], and proves what makes each part correct.

    ** The parts and their files

    - [Prelude]: [result] and its [let?] binder (Rust's [?]), integers of a width,
      lemmas on lists, the tactic [dx] and its hint database.
    - [RustString], [BTree], [Net]: what the program uses of Rust's strings, of
      [BTreeMap] and [BTreeSet] (iteration in key order) and of [SocketAddr].
    - [Config] (crates/core: config.rs, matchers.rs, error.rs): the configuration,
      [validate] with its three loops, [route_for] and the matchers.
    - [Identity] (crates/core/src/identity.rs): the node id and the metadata.
    - [ProxyState] (crates/proxy/src/state.rs): the state that all tasks share,
      [apply_config], [readiness], [pick_cluster], [pick_endpoint].
    - [ProxyConc] (the same file): each operation cut at its locks and atomics, and
      the interleavings of any number of calls as a step relation.
    - [Http] : the classes [HttpLib], [HttpLaws] and [TlsLib] for the crates http,
      hyper, rustls and rustls_pemfile, with instances on lists.
    - [Mtls], [Server] (crates/proxy/src/server.rs): the pool of mTLS clients, the
      certificate files, the verifier; the request handler [forward].
    - [ServerConc] (the same file): a request as a thread that can be interrupted
      between its accesses to shared state.
    - [XdsProto], [XdsConvert], [AdsState], [XdsClient] (crates/xds/proto and
      crates/xds/src/client.rs): the messages, their conversion, the state of a
      stream with its four [apply_*] handlers and [runtime_config], and the client:
      requests, acknowledgements, publication, the reconnecting loop.
    - [XdsReconnect], [XdsConverge], [XdsTyped]: what a client makes of a new connection
      and of resources that are no longer named; that an exchange with a control plane
      ends in its configuration; where the numbers of what is assembled come from.
    - [XdsChannel] (the same file): one connection in small steps, with the bounded
      channel of requests and the transport that takes them.
    - [Source] (crates/xds/src/source.rs): static and bootstrap files.
    - [Build] (crates/xds/build.rs, crates/xds/src/proto.rs): the walk that collects the
      protobuf files, and the module tree that includes what is generated from them.
    - [Admin] (crates/admin/src/lib.rs): the handlers of the admin server.
    - [App] (crates/app/src/main.rs): the arguments, the start of [main], and the
      configuration tasks of the running program as a transition system.
    - [AppClient]: the ADS task of [App] against the loop of [XdsClient].
    - [Gateway]: the whole program, with any number of requests and of probes of the
      admin server in flight, one access to shared state at a time; [GatewayRecover] and
      [GatewayOutage]: the same with a control plane that answers, and with one that has
      only begun to.
    - [MtlsTest], [Conformance], [LoadTests]: the tests of the repository, run on these
      definitions, and what the load tests measure.

    The files build on each other in this order: the proxy reads the configuration that
    [ProxyState] holds; the ADS client assembles configurations and puts them into a
    watch channel; a task takes them out and applies them to the state; the admin
    server reads it. [App] and [Gateway] put these together.

    ** What the theorems show

    - Configuration. [validate] accepts exactly the well-formed configurations and
      reports exactly the justified conflicts ([Config.validate_ok_iff],
      [Config.validate_conflict_iff]); [route_for] is first match in declaration
      order ([Config.route_for_iff]); an accepted configuration never leads to a
      missing cluster ([Config.route_for_valid_clusters]).
    - Shared state. [ProxyState] refines an abstract specification in which only the
      list of applied configurations matters ([ProxyState.run_ops_refines_spec]);
      picks are fair and round-robin at machine width; under interleaving the
      configuration served stays accepted ([ProxyConc.concurrent_config_accepted]),
      although [apply_config] is not atomic ([ProxyConc.torn_apply]); and although
      [readiness] holds the lock of the configuration while it reads the conflicts, no
      calls ever block each other for good ([ProxyConc.calls_finish]).
      The running cursor of a weighted pick is indexing a list in which every cluster
      stands as often as its weight ([ProxyState.pick_cluster_expanded]).
    - Forwarding. At most one upstream request per request, to an endpoint the
      configuration allows, over the connection the cluster asks for
      ([Server.forward_trace_spec]); every answer under an accepted configuration
      has its reason, down to what the network gave ([Server.forward_accepted_outcome]); the client cache
      is transparent for names without its separator ([Mtls.client_for_fresh]). The
      stepwise request of [ServerConc], run without interruption, is [forward]
      ([ServerConc.forward_steps]).
    - xDS. What a response does is the state-of-the-world rule
      ([AdsState.apply_response_applied]); the assembled configuration can only be
      incomplete ([AdsState.ads_config_conflicts]); the client asks for what it has
      learnt ([XdsClient.stream_follows]), publishes only accepted configurations
      ([XdsClient.run_publishes]) and publishes once the clusters asked for have come
      ([XdsClient.cluster_response_completes]). With a server that answers by what it
      holds, the client ends up with the server's configuration, in whatever order and
      however often its requests are answered ([XdsConverge.serve_converges]). Whatever
      arrives, the ports of the assembled configuration are those of the messages, never
      cut to 16 bits ([XdsTyped.ads_config_typed]). With the capacity of the request channel and any
      interleaving of the transport, a connection does what the sequential one does
      ([XdsChannel.stream_refines]), and never blocks on the channel for good
      ([XdsChannel.body_returns]).
    - The program. The stepwise client and its loop publish the same
      ([AppClient.client_steps_run]). However requests, probes and configuration changes
      interleave, what leaves the gateway was allowed by a published configuration
      ([Gateway.gateway_sends_published]); every request is answered, by the network or
      for a reason its own configuration gives ([Gateway.gateway_answers]); a probe that says ready names a
      published configuration, and a ready gateway stays ready
      ([Gateway.gateway_probes]); what is served catches up with what is published
      ([Gateway.gateway_catches_up]); and from every state in which the ADS task has not
      given up, a reconnection to a server that answers leads to serving its
      configuration ([GatewayRecover.gateway_recovers]). [App] proves the same of
      configurations at a coarser grain, where the applying task is one step
      ([App.app_stays_ready], [App.app_serves_latest]); [Gateway.apply_task_small_steps]
      relates the two.
    - Build and tests. The build script terminates and compiles exactly the protobuf
      files, in one order ([Build.build_compiles_protos]); the definitions pass the
      repository's tests ([Conformance.repository_tests_pass]).
    - Behaviour worth knowing, proved as it is: a wildcard domain ignores the label
      boundary, a domain with a colon matches nothing, an exact path sees the query, the
      picks of cluster and endpoint share one counter, two TLS settings can share a
      cache key, a client keeps the certificate it was made with ([Mtls.client_for_pinned]),
      clusters of inline routes are not followed, route configurations that are no longer
      named stay, a new connection first publishes a configuration without routes
      ([XdsReconnect.reconnect_drops_routes]), so that a ready gateway answers every
      request 404 until the routes come ([GatewayOutage.reconnect_outage]), and one route configuration that cannot
      be decoded takes all routes down ([XdsReconnect.malformed_routes_outage]).

    ** Choices

    Integers are [Z] with the wrap-around of their width written out ([wrap]); [u32]
    sums wrap in a release build and panic with overflow checks, by the parameter
    [checks]; [usize] has 64 bits. Strings are byte strings, [BTreeMap] and [HashMap]
    are [gmap] (with sorted enumeration where the code iterates). The loops are
    structural on the list they go through; the endless ones, [run] and [run_once], go
    through the list of connections or stream events that will have happened, with
    [None] for a loop that still waits. Fuel appears in four places: the directory walk
    of [Build] takes the depth of the tree, which is enough on every tree
    ([Build.collect_finds]), and [ServerConc.run_request] takes four steps, after which
    every request is answered ([ServerConc.request_step_rank]). Once the probes that hold
    the lock of the configuration have taken their last step ([Gateway.drain_probes]),
    fifteen steps of the applying task ([Gateway.apply_runs]) are enough from any of its
    program points: seven to end the call it is in, and eight for one more round
    ([Gateway.apply_rank_bound]). Thirteen steps bring a connection to its next wait for
    the network ([XdsChannel.relieved]): with at most three kinds of names to follow, four
    sends, each with a request to be taken first, four heads of the loop and the
    publication ([XdsChannel.stream_rank_bound]).

    The locks and channels of tokio are modelled by their documented behaviour: a fair
    read-write lock ([ProxyConc.waits]), a bounded channel ([XdsChannel.poll_send]), a
    channel that keeps its latest value ([XdsClient.watch_send]). [XdsClient] and [App]
    take the request channel as unbounded, which [XdsChannel.stream_refines] justifies.

    What is not in the repository is an argument: the crates http, hyper, rustls,
    prost, serde, the file system, the network and the environment. Hypotheses on
    them are the laws of [HttpLaws] (what a header map holds after a removal), of
    [XdsTyped.ProstLaws] (a decoded [uint32] has 32 bits), a directory tree that can be
    read ([Build.readable]), for convergence that the control plane answers each request by
    what it holds ([XdsConverge.honest]), and for the tests that the libraries read the
    tests' own inputs ([Conformance.bytes_decode], [Conformance.texts_read]) and that
    certificates and connections work ([MtlsTest.rcgen_works], [MtlsTest.rustls_works],
    [MtlsTest.network_works]). [Http.list_http], [Http.list_tls], [AdsState.example_prost],
    [XdsConverge.example_server], [MtlsTest.text_tls] and [Source.example_serde] are
    concrete instances.

    ** Not modelled

    How the two servers accept connections, and logging (I/O only); the timer between
    connection attempts; clap's parsing of the command line; the protobuf code that is
    generated when the crate is built; the limit on the size of a message, which the
    transport enforces (a message over it is a failure of the stream); how serde prints and parses the
    configuration; the clock, the sockets and the floating-point request rate of the load
    tests. *)

From stdpp Require Export prelude gmap strings pretty sorting.
From Stdlib Require Export ZArith Lia.
From Stdlib Require Ascii.
Export (notations) Stdlib.Strings.Ascii.

#[global] Open Scope Z_scope.
#[global] Open Scope stdpp_scope.

(** ** Results

    Rust's [Result<T, E>], with the [?] operator as a binder. *)

Inductive result (T E : Type) : Type :=
| Ok (v : T)
| Err (e : E).
Arguments Ok {T E} v.
Arguments Err {T E} e.

Declare Scope dx_scope.
Delimit Scope dx_scope with dx.
#[global] Open Scope dx_scope.

Notation "'let?' x ':=' c 'in' k" :=
  (match c with Ok x => k | Err e => Err e end)
  (at level 10, x name, c at level 100, k at level 200) : dx_scope.

(** [Result::map_err] and [Option::ok_or_else]. *)
Definition map_err {T E F} (f : E → F) (r : result T E) : result T F :=
  match r with Ok v => Ok v | Err e => Err (f e) end.

Definition ok_or {T E} (o : option T) (e : E) : result T E :=
  match o with Some v => Ok v | None => Err e end.

(** [Result::ok]. *)
Definition result_ok {T E} (r : result T E) : option T :=
  match r with Ok v => Some v | Err _ => None end.

Definition is_ok {T E} (r : result T E) : bool :=
  match r with Ok _ => true | Err _ => false end.

#[export] Instance result_eq_dec {T E} `{EqDecision T, EqDecision E} :
  EqDecision (result T E).
Proof. solve_decision. Defined.

(** ** Machine integers

    An unsigned integer of width [w] is a [Z] in [[0, 2^w)]; [wrap w] is the
    value an operation has when it wraps around. *)

Definition wrap (w z : Z) : Z := z mod 2 ^ w.

Definition fits (w z : Z) : Prop := 0 ≤ z < 2 ^ w.

#[export] Instance fits_dec w z : Decision (fits w z).
Proof. unfold fits. apply _. Defined.

Lemma wrap_fits w z : 0 ≤ w → fits w (wrap w z).
Proof. intros Hw. unfold fits, wrap. apply Z.mod_pos_bound. lia. Qed.

Lemma wrap_small w z : fits w z → wrap w z = z.
Proof. intros H. unfold wrap. by apply Z.mod_small. Qed.

Lemma wrap_wrap_add w a b : wrap w (wrap w a + b) = wrap w (a + b).
Proof. unfold wrap. by rewrite Zplus_mod_idemp_l. Qed.

(** ** Lists *)

(** [exists_split P l]: some element [x] of [l] satisfies [P l1 x], with [l1]
    what comes before it: the shape of a loop that looks back at what it has
    already seen. *)
Definition exists_split {A} (P : list A → A → Prop) (l : list A) : Prop :=
  ∃ l1 x l2, l = l1 ++ x :: l2 ∧ P l1 x.

Lemma exists_split_nil {A} (P : list A → A → Prop) : ¬ exists_split P [].
Proof. intros (l1 & x & l2 & Hl & _). by destruct l1. Qed.

Lemma exists_split_snoc {A} (P : list A → A → Prop) l x :
  exists_split P (l ++ [x]) ↔ exists_split P l ∨ P l x.
Proof.
  split.
  - intros (l1 & y & l2 & Hl & HP).
    destruct l2 as [|z l2 _] using rev_ind.
    + apply app_inj_tail in Hl as [-> ->]. by right.
    + left. rewrite app_comm_cons, app_assoc in Hl.
      apply app_inj_tail in Hl as [-> _]. by exists l1, y, l2.
  - intros [(l1 & y & l2 & -> & HP)|HP].
    + exists l1, y, (l2 ++ [x]). by rewrite <- app_assoc.
    + by exists l, x, [].
Qed.

Lemma exists_split_impl {A} (P Q : list A → A → Prop) l :
  (∀ l1 x, P l1 x → Q l1 x) → exists_split P l → exists_split Q l.
Proof. intros HPQ (l1 & x & l2 & -> & HP). exists l1, x, l2. auto. Qed.

(** A list without repetitions is one where no element occurs before itself. *)
Lemma NoDup_exists_split {A B} (f : A → B) l :
  NoDup (f <$> l) ↔ ¬ exists_split (λ l1 x, f x ∈ f <$> l1) l.
Proof.
  induction l as [|x l IH] using rev_ind.
  - split; [intros _; apply exists_split_nil|]. intros _. constructor.
  - rewrite exists_split_snoc, fmap_app, NoDup_app. simpl.
    rewrite IH. split.
    + intros (Hl & Hx & _) [?|Hin]; [done|]. apply (Hx (f x) Hin). by left.
    + intros Hno. split; [tauto|]. split; [|apply NoDup_singleton].
      intros y Hy Hyx%list_elem_of_singleton. subst y. tauto.
Qed.

(** A loop that pushes onto an accumulator what each element calls for. *)
Lemma elem_of_fold_left {A B} (f : list B → A → list B) (Q : A → B → Prop) :
  (∀ acc x b, b ∈ f acc x ↔ b ∈ acc ∨ Q x b) →
  ∀ l acc b, b ∈ fold_left f l acc ↔ b ∈ acc ∨ ∃ x, x ∈ l ∧ Q x b.
Proof.
  intros Hf l. induction l as [|x l IH]; intros acc b; simpl.
  - split; [by left|]. intros [?|(x & Hx & _)]; [done|].
    by apply elem_of_nil in Hx.
  - rewrite IH, Hf. setoid_rewrite elem_of_cons. naive_solver.
Qed.

(** [Iterator::find] returns the first element that passes. *)
Lemma find_Some_split {A} (f : A → bool) l x :
  List.find f l = Some x ↔
  ∃ l1 l2, l = l1 ++ x :: l2 ∧ f x = true ∧ Forall (λ y, f y = false) l1.
Proof.
  induction l as [|y l IH]; simpl.
  - split; [done|]. intros (l1 & l2 & Hl & _). by destruct l1.
  - destruct (f y) eqn:Hy.
    + split; [intros [= <-]; by exists [], l|].
      intros (l1 & l2 & Hl & Hx & Hl1). destruct l1 as [|z l1]; simplify_eq/=; [done|].
      apply Forall_cons in Hl1 as [? _]. congruence.
    + rewrite IH. split.
      * intros (l1 & l2 & -> & Hx & Hl1). exists (y :: l1), l2. eauto.
      * intros (l1 & l2 & Hl & Hx & Hl1).
        destruct l1 as [|z l1]; simplify_eq/=; [congruence|].
        apply Forall_cons in Hl1 as [_ Hl1]. eauto.
Qed.

Lemma find_None_forall {A} (f : A → bool) l :
  List.find f l = None ↔ ∀ x, x ∈ l → f x = false.
Proof.
  split.
  - intros H x Hx%list_elem_of_In. by apply (find_none f l H).
  - intros H. destruct (List.find f l) as [x|] eqn:E; [|done].
    apply find_some in E as [Hx Hf]. apply list_elem_of_In, H in Hx. congruence.
Qed.

Lemma find_Some_elem {A} (f : A → bool) l x :
  List.find f l = Some x → x ∈ l ∧ f x = true.
Proof. intros [Hx Hf]%find_some. by rewrite list_elem_of_In. Qed.

Lemma existsb_elem {A} (f : A → bool) l : existsb f l = true ↔ ∃ x, x ∈ l ∧ f x = true.
Proof. rewrite existsb_exists. by setoid_rewrite list_elem_of_In. Qed.

Lemma forallb_elem {A} (f : A → bool) l : forallb f l = true ↔ ∀ x, x ∈ l → f x = true.
Proof. rewrite forallb_forall. by setoid_rewrite list_elem_of_In. Qed.

Lemma elem_of_flat_map {A B} (f : A → list B) l y :
  y ∈ List.flat_map f l ↔ ∃ x, x ∈ l ∧ y ∈ f x.
Proof.
  rewrite list_elem_of_In, in_flat_map. by setoid_rewrite list_elem_of_In.
Qed.

Lemma elem_of_bfilter {A} (f : A → bool) l x :
  x ∈ List.filter f l ↔ x ∈ l ∧ f x = true.
Proof. rewrite !list_elem_of_In. apply filter_In. Qed.

Lemma length_S_nonnil {A} (l : list A) n : length l = S n → l ≠ [].
Proof. by destruct l. Qed.

(** The proof automation of the development: [dx] splits conjunctions,
    existentials and equations, and closes what is left by search. *)
Create HintDb dx.
#[export] Hint Resolve exists_split_nil find_Some_elem : dx.

Ltac dx := repeat (simplify_eq/= || case_match || destruct_and?); eauto with dx.
