(* ===== verification/RustString.v ===== *)
(** * Strings of the Rust standard library

    A Rust [String] is its UTF-8 bytes: here the Standard Library's [string],
    one [ascii] per byte.  The file defines the operations of [str] and of the
    integer types that dxgate calls ([starts_with], [ends_with],
    [strip_prefix], [contains], [split], [rsplit_once],
    [eq_ignore_ascii_case], [join], [u16::from_str], [Display] for the unsigned
    integers), each with the lemma that says what it computes. Searching for an
    ASCII character byte by byte is what [str] does too: a byte below 128 never
    occurs inside a multi-byte character. *)

From S2P Require Import Prelude.
From Stdlib Require Import Ascii.

(** ** Prefixes, suffixes, substrings *)

Fixpoint strip_prefix (p s : string) : option string :=
  match p, s with
  | EmptyString, _ => Some s
  | String a p', String b s' => if decide (a = b) then strip_prefix p' s' else None
  | String _ _, EmptyString => None
  end.

Definition starts_with (p s : string) : bool :=
  match strip_prefix p s with Some _ => true | None => false end.

Fixpoint ends_with (suf s : string) : bool :=
  bool_decide (s = suf) ||
  match s with
  | EmptyString => false
  | String _ s' => ends_with suf s'
  end.

Fixpoint contains (sub s : string) : bool :=
  starts_with sub s ||
  match s with
  | EmptyString => false
  | String _ s' => contains sub s'
  end.

Fixpoint contains_char (c : ascii) (s : string) : bool :=
  match s with
  | EmptyString => false
  | String a s' => bool_decide (a = c) || contains_char c s'
  end.

Lemma str_app_cons a s t : String a s +:+ t = String a (s +:+ t).
Proof. done. Qed.

Lemma str_app_nil_l s : "" +:+ s = s.
Proof. done. Qed.

Lemma str_app_nil_r s : s +:+ "" = s.
Proof. induction s as [|a s IH]; [done|]. by rewrite str_app_cons, IH. Qed.

Lemma str_app_assoc s t u : (s +:+ t) +:+ u = s +:+ (t +:+ u).
Proof. induction s as [|a s IH]; [done|]. by rewrite !str_app_cons, IH. Qed.

Lemma str_app_length s t :
  String.length (s +:+ t) = (String.length s + String.length t)%nat.
Proof. induction s as [|a s IH]; [done|]. rewrite str_app_cons. simpl. by rewrite IH. Qed.

Create Rewrite HintDb rstr.
#[export] Hint Rewrite str_app_cons str_app_nil_l str_app_nil_r str_app_assoc : rstr.

Lemma strip_prefix_Some p s r : strip_prefix p s = Some r ↔ s = p +:+ r.
Proof.
  revert s; induction p as [|a p IH]; intros s; simpl.
  - rewrite str_app_nil_l. naive_solver.
  - destruct s as [|b s]; [naive_solver|]. rewrite str_app_cons.
    case_decide; [rewrite IH|]; naive_solver.
Qed.

Lemma starts_with_spec p s : starts_with p s = true ↔ ∃ r, s = p +:+ r.
Proof.
  unfold starts_with. setoid_rewrite <- strip_prefix_Some.
  destruct (strip_prefix p s); naive_solver.
Qed.

Lemma ends_with_spec suf s : ends_with suf s = true ↔ ∃ p, s = p +:+ suf.
Proof.
  induction s as [|a s IH]; simpl; rewrite orb_true_iff, bool_decide_eq_true.
  - split; [intros [<-|?]; [by exists ""|done]|].
    intros [[|??] Hp]; [by left|done].
  - rewrite IH. split.
    + intros [<-|[p ->]]; [by exists ""|by exists (String a p)].
    + intros [[|b p] Hp]; [by left|right]. rewrite str_app_cons in Hp.
      exists p. naive_solver.
Qed.

Lemma contains_char_app c s t :
  contains_char c (s +:+ t) = contains_char c s || contains_char c t.
Proof.
  induction s as [|a s IH]; [done|]. rewrite str_app_cons. simpl.
  by rewrite IH, orb_assoc.
Qed.

(** ** ASCII case *)

(** [u8::to_ascii_lowercase]: bytes 65 to 90 gain bit 5. *)
Definition to_ascii_lowercase (c : ascii) : ascii :=
  let n := nat_of_ascii c in
  if ((65 <=? n) && (n <=? 90))%nat then ascii_of_nat (n + 32) else c.

Fixpoint eq_ignore_ascii_case (s t : string) : bool :=
  match s, t with
  | EmptyString, EmptyString => true
  | String a s', String b t' =>
      bool_decide (to_ascii_lowercase a = to_ascii_lowercase b)
      && eq_ignore_ascii_case s' t'
  | _, _ => false
  end.

Fixpoint lowercase (s : string) : string :=
  match s with
  | EmptyString => EmptyString
  | String a s' => String (to_ascii_lowercase a) (lowercase s')
  end.

(** Case-insensitive equality is equality of the lowered strings. *)
Lemma eq_ignore_ascii_case_spec s t :
  eq_ignore_ascii_case s t = true ↔ lowercase s = lowercase t.
Proof.
  revert t; induction s as [|a s IH]; intros [|b t]; simpl; [done..|].
  rewrite andb_true_iff, bool_decide_eq_true, IH.
  split; [intros [-> ->]; done|]. intros H; injection H; auto.
Qed.

Lemma eq_ignore_ascii_case_refl s : eq_ignore_ascii_case s s = true.
Proof. by apply eq_ignore_ascii_case_spec. Qed.

Lemma lowercase_colon s : contains_char ":" (lowercase s) = contains_char ":" s.
Proof.
  induction s as [|a s IH]; [done|]. simpl. rewrite IH. f_equal.
  by destruct a as [[] [] [] [] [] [] [] []].
Qed.

(** ** Splitting and joining *)

(** [str::split] on a character, collected. *)
Fixpoint split_on (c : ascii) (s : string) : list string :=
  match s with
  | EmptyString => [""]
  | String a s' =>
      if decide (a = c) then "" :: split_on c s'
      else match split_on c s' with
           | h :: t => String a h :: t
           | [] => [String a ""]
           end
  end.

(** [str::rsplit_once] on a character: at its last occurrence. *)
Fixpoint rsplit_once (c : ascii) (s : string) : option (string * string) :=
  match s with
  | EmptyString => None
  | String a s' =>
      match rsplit_once c s' with
      | Some (p, q) => Some (String a p, q)
      | None => if decide (a = c) then Some ("", s') else None
      end
  end.

(** [[String]::join]. *)
Fixpoint join (sep : string) (l : list string) : string :=
  match l with
  | [] => ""
  | [x] => x
  | x :: l' => x +:+ sep +:+ join sep l'
  end.

#[global] Arguments contains_char _%_char_scope _.
#[global] Arguments split_on _%_char_scope _.
#[global] Arguments rsplit_once _%_char_scope _.

Lemma split_on_cons c s : ∃ h t, split_on c s = h :: t.
Proof.
  induction s as [|a s (h & t & IH)]; simpl; [eauto|].
  rewrite IH. case_decide; eauto.
Qed.

Lemma join_split_on c s : join (String c "") (split_on c s) = s.
Proof.
  induction s as [|a s IH]; [done|]. simpl.
  destruct (split_on_cons c s) as (h & t & Hs). rewrite Hs in *.
  case_decide as Ha; simpl in *.
  - subst a. by rewrite IH.
  - destruct t; simpl in *; rewrite <- IH; [done|]. by rewrite str_app_cons.
Qed.

Lemma split_on_no_sep c s : Forall (λ p, contains_char c p = false) (split_on c s).
Proof.
  induction s as [|a s IH]; simpl; [by constructor|].
  destruct (split_on_cons c s) as (h & t & Hs). rewrite Hs in *.
  apply Forall_cons in IH as [Hh Ht].
  case_decide; constructor; [done|by constructor|simpl|done].
  by rewrite bool_decide_eq_false_2.
Qed.

Lemma split_on_absent c s : contains_char c s = false → split_on c s = [s].
Proof.
  induction s as [|a s IH]; simpl; [done|].
  rewrite orb_false_iff, bool_decide_eq_false. intros [Ha Hs].
  by rewrite decide_False, (IH Hs).
Qed.

Lemma split_on_app c s t :
  contains_char c s = false → split_on c (s +:+ String c t) = s :: split_on c t.
Proof.
  induction s as [|a s IH]; intros Hs.
  - rewrite str_app_nil_l. simpl. by rewrite decide_True.
  - simpl in Hs. apply orb_false_iff in Hs as [Ha%bool_decide_eq_false Hs].
    rewrite str_app_cons. simpl. by rewrite decide_False, (IH Hs).
Qed.

(** A text with a separator in it has two parts. *)
Lemma split_on_two c s t : ∃ x y l, split_on c (s +:+ String c t) = x :: y :: l.
Proof.
  induction s as [|a s (x & y & l & IH)].
  - rewrite str_app_nil_l. simpl. rewrite decide_True by done.
    destruct (split_on_cons c t) as (h & l & ->). eauto.
  - rewrite str_app_cons. simpl. rewrite IH. case_decide; eauto.
Qed.

Lemma rsplit_once_None c s : rsplit_once c s = None ↔ contains_char c s = false.
Proof.
  induction s as [|a s IH]; simpl; [done|].
  rewrite orb_false_iff, bool_decide_eq_false, <- IH.
  destruct (rsplit_once c s) as [[??]|]; [naive_solver|].
  case_decide; naive_solver.
Qed.

Lemma rsplit_once_app c p q :
  contains_char c q = false → rsplit_once c (p +:+ String c q) = Some (p, q).
Proof.
  intros Hq. induction p as [|a p IH].
  - rewrite str_app_nil_l. simpl.
    rewrite (proj2 (rsplit_once_None c q) Hq). by rewrite decide_True.
  - rewrite str_app_cons. simpl. by rewrite IH.
Qed.

Lemma rsplit_once_inv c s p q :
  rsplit_once c s = Some (p, q) → s = p +:+ String c q ∧ contains_char c q = false.
Proof.
  revert p q; induction s as [|a s IH]; intros p q; simpl; [done|].
  destruct (rsplit_once c s) as [[p' q']|] eqn:E.
  - destruct (IH p' q' eq_refl) as [-> Hq]. intros [= <- <-].
    by rewrite str_app_cons.
  - apply rsplit_once_None in E. case_decide; [|done].
    intros [= <- <-]. by subst.
Qed.

(** ** Unsigned integers as text *)

(** [Display] of an unsigned integer. *)
Definition show_u (z : Z) : string := pretty z.

(** One step of [u16::from_str]'s checked accumulation. *)
Fixpoint u16_digits (acc : Z) (s : string) : option Z :=
  match s with
  | EmptyString => Some acc
  | String a s' =>
      d ← Ascii.is_nat a;
      let acc' := acc * 10 + Z.of_nat d in
      if acc' <? 2 ^ 16 then u16_digits acc' s' else None
  end.

(** [str::parse::<u16>]: an optional [+], then at least one decimal digit, the
    value within 16 bits. *)
Definition parse_u16 (s : string) : option Z :=
  match s with
  | EmptyString => None
  | String a s' =>
      if decide (a = "+"%char)
      then match s' with EmptyString => None | String _ _ => u16_digits 0 s' end
      else u16_digits 0 s
  end.

Lemma u16_digits_fits acc s z : fits 16 acc → u16_digits acc s = Some z → fits 16 z.
Proof.
  revert acc; induction s as [|a s IH]; intros acc Hacc; simpl; [naive_solver|].
  destruct (Ascii.is_nat a) as [d|]; simpl; [|done].
  destruct (Z.ltb_spec (acc * 10 + Z.of_nat d) (2 ^ 16)); [|done].
  apply IH. unfold fits in *. lia.
Qed.

Lemma parse_u16_fits s z : parse_u16 s = Some z → fits 16 z.
Proof.
  destruct s as [|a s]; [done|]. unfold parse_u16.
  repeat case_match; try done; apply u16_digits_fits; by vm_compute.
Qed.

Lemma is_nat_pretty_N_char d :
  (d < 10)%N → Ascii.is_nat (pretty_N_char d) = Some (N.to_nat d).
Proof.
  intros Hd.
  assert (d = 0 ∨ d = 1 ∨ d = 2 ∨ d = 3 ∨ d = 4 ∨ d = 5 ∨ d = 6 ∨ d = 7 ∨ d = 8
          ∨ d = 9)%N as Hc by lia.
  by repeat destruct Hc as [->|Hc]; [..|rewrite Hc].
Qed.

Lemma u16_digits_pretty_go x s :
  (x < 2 ^ 16)%N → u16_digits 0 (pretty_N_go x s) = u16_digits (Z.of_N x) s.
Proof.
  revert s. induction (N.lt_wf_0 x) as [x _ IH]; intros s Hx.
  destruct (decide (x = 0)%N) as [->|Hne]; [done|].
  assert (Hdm := N.div_mod x 10 ltac:(done)).
  assert (Hm : (x `mod` 10 < 10)%N) by (apply N.mod_lt; done).
  rewrite pretty_N_go_step by lia.
  assert (Hlt : (x `div` 10 < x)%N) by (apply N.div_lt; lia).
  rewrite IH by (first [done | by eapply N.lt_trans]).
  simpl. rewrite is_nat_pretty_N_char by done. simpl.
  replace (Z.of_N (x `div` 10) * 10 + Z.of_nat (N.to_nat (x `mod` 10)))
    with (Z.of_N x) by lia.
  by rewrite (proj2 (Z.ltb_lt _ _)) by lia.
Qed.

Lemma pretty_N_go_no_plus x s s' :
  s ≠ String "+" s' → pretty_N_go x s ≠ String "+" s'.
Proof.
  revert s. induction (N.lt_wf_0 x) as [x _ IH]; intros s Hs.
  destruct (decide (x = 0)%N) as [->|Hne]; [done|].
  rewrite pretty_N_go_step by lia. apply IH; [apply N.div_lt; lia|].
  unfold pretty_N_char. by repeat case_match.
Qed.

(** Printing then parsing a 16-bit integer gives it back. *)
Lemma parse_u16_show z : fits 16 z → parse_u16 (show_u z) = Some z.
Proof.
  intros [Hz Hz']. destruct z as [|p|p]; [done| |lia].
  unfold show_u, pretty, pretty_Z, pretty, pretty_positive, pretty, pretty_N.
  rewrite decide_False by done.
  assert (Hd := u16_digits_pretty_go (N.pos p) "" ltac:(lia)). simpl in Hd.
  assert (Hnp := λ s', pretty_N_go_no_plus (N.pos p) "" s' ltac:(done)).
  destruct (pretty_N_go (N.pos p) "") as [|a s] eqn:E; [by simplify_eq/=|].
  unfold parse_u16. case_decide; [|done]. subst a. by destruct (Hnp s).
Qed.

(** The text of a number has only digits. *)
Lemma pretty_N_go_digits c x s :
  Ascii.is_nat c = None → contains_char c s = false → contains_char c (pretty_N_go x s) = false.
Proof.
  intros Hc. revert s. induction (N.lt_wf_0 x) as [x _ IH]; intros s Hs.
  destruct (decide (x = 0)%N) as [->|Hne]; [done|].
  rewrite pretty_N_go_step by lia. apply IH; [apply N.div_lt; lia|].
  simpl. rewrite Hs, orb_false_r. apply bool_decide_eq_false. intros <-.
  rewrite is_nat_pretty_N_char in Hc; [done|]. by apply N.mod_lt.
Qed.

Lemma show_u_no_char c z :
  Ascii.is_nat c = None → 0 ≤ z → contains_char c (show_u z) = false.
Proof.
  intros Hc Hz. destruct z as [|p|p]; [|by apply pretty_N_go_digits|lia].
  simpl. rewrite orb_false_r. apply bool_decide_eq_false. by intros <-.
Qed.
