(* ===== verification/BTree.v ===== *)
(** * Ordered collections: [BTreeMap<String, V>] and [BTreeSet<String>]

    The contents are a [gmap] or a [gset]; what the ordered collections add is
    the order of iteration, the byte order of the keys, which decides which
    listener or cluster is found first.  [btree_entries] is that iteration. Its
    canonicity lemma says it is the only strictly increasing listing of the
    contents. *)

From S2P Require Import Prelude.

(** ** The order of keys *)

Definition str_lt (a b : string) : Prop := String.le a b ∧ a ≠ b.

#[export] Instance str_lt_trans : Transitive str_lt.
Proof.
  intros a b c [Hab Hne] [Hbc Hne']. split; [by trans b|].
  intros ->. apply Hne. by apply (anti_symm String.le).
Qed.

#[export] Instance str_lt_irrefl : Irreflexive str_lt.
Proof. intros a [_ Ha]. by apply Ha. Qed.

(** A sorted list without repetitions is strictly sorted. *)
Lemma StronglySorted_lt l :
  StronglySorted String.le l → NoDup l → StronglySorted str_lt l.
Proof.
  induction 1 as [|x l Hl IH Hx]; intros Hnd; [constructor|].
  apply NoDup_cons in Hnd as [Hnx Hnd]. constructor; [by apply IH|].
  apply Forall_forall. intros y Hy. split.
  - by eapply Forall_forall in Hx.
  - by intros ->.
Qed.

Lemma StronglySorted_lt_le l : StronglySorted str_lt l → StronglySorted String.le l.
Proof.
  induction 1 as [|x l Hl IH Hx]; constructor; [done|].
  eapply Forall_impl; [done|]. by intros y [? _].
Qed.

Lemma StronglySorted_lt_NoDup l : StronglySorted str_lt l → NoDup l.
Proof.
  induction 1 as [|x l Hl IH Hx]; constructor; [|done].
  intros Hin. eapply Forall_forall in Hx; [|done].
  by eapply (irreflexivity str_lt).
Qed.

(** Two strictly sorted lists with the same members are equal. *)
Lemma strictly_sorted_ext l1 l2 :
  StronglySorted str_lt l1 → StronglySorted str_lt l2 →
  (∀ x, x ∈ l1 ↔ x ∈ l2) → l1 = l2.
Proof.
  intros H1 H2 Hext. apply (StronglySorted_unique String.le);
    [by apply StronglySorted_lt_le..|].
  apply NoDup_Permutation; eauto using StronglySorted_lt_NoDup.
Qed.

(** ** Ordered sets *)

(** The iteration of a [BTreeSet<String>]. *)
Definition btree_elements (s : gset string) : list string :=
  merge_sort String.le (elements s).

Lemma elem_of_btree_elements s x : x ∈ btree_elements s ↔ x ∈ s.
Proof.
  unfold btree_elements. rewrite merge_sort_Permutation. apply elem_of_elements.
Qed.

Lemma btree_elements_sorted s : StronglySorted str_lt (btree_elements s).
Proof.
  apply StronglySorted_lt.
  - apply StronglySorted_merge_sort; apply _.
  - unfold btree_elements. rewrite merge_sort_Permutation. apply NoDup_elements.
Qed.

Lemma btree_elements_list_to_set l :
  StronglySorted str_lt l → btree_elements (list_to_set l) = l.
Proof.
  intros Hl. apply strictly_sorted_ext; [apply btree_elements_sorted|done|].
  intros x. rewrite elem_of_btree_elements. by rewrite elem_of_list_to_set.
Qed.

(** ** Ordered maps *)

Section btree_map.
Context {V : Type}.
Implicit Types (m : gmap string V) (l : list (string * V)).

Definition key_le (p q : string * V) : Prop := String.le p.1 q.1.

#[export] Instance key_le_dec p q : Decision (key_le p q).
Proof. unfold key_le. apply _. Defined.

#[export] Instance key_le_trans : Transitive key_le.
Proof. intros [] [] []. unfold key_le. simpl. apply transitivity. Qed.

#[export] Instance key_le_total : Total key_le.
Proof. intros [] []. unfold key_le. simpl. apply (total String.le). Qed.

(** [BTreeMap::iter] and [BTreeMap::values]. *)
Definition btree_entries m : list (string * V) := merge_sort key_le (map_to_list m).
Definition btree_values m : list V := (btree_entries m).*2.

Lemma btree_entries_Permutation m : btree_entries m ≡ₚ map_to_list m.
Proof. apply merge_sort_Permutation. Qed.

Lemma elem_of_btree_entries m k v : (k, v) ∈ btree_entries m ↔ m !! k = Some v.
Proof. rewrite btree_entries_Permutation. apply elem_of_map_to_list. Qed.

Lemma elem_of_btree_values m v : v ∈ btree_values m ↔ ∃ k, m !! k = Some v.
Proof.
  unfold btree_values. rewrite list_elem_of_fmap. split.
  - intros ([k v'] & -> & Hin). exists k. by apply elem_of_btree_entries.
  - intros [k Hk]. exists (k, v). split; [done|]. by apply elem_of_btree_entries.
Qed.

Lemma btree_entries_keys_NoDup m : NoDup (btree_entries m).*1.
Proof. rewrite btree_entries_Permutation. apply NoDup_fst_map_to_list. Qed.

Lemma btree_entries_sorted m : StronglySorted str_lt (btree_entries m).*1.
Proof.
  apply StronglySorted_lt; [|apply btree_entries_keys_NoDup].
  apply (StronglySorted_fmap fst key_le); [done|].
  apply StronglySorted_merge_sort; apply _.
Qed.

(** A listing with strictly increasing keys is determined by its contents. *)
Lemma strictly_keyed_ext l1 l2 :
  StronglySorted str_lt l1.*1 → StronglySorted str_lt l2.*1 →
  (∀ p, p ∈ l1 ↔ p ∈ l2) → l1 = l2.
Proof.
  revert l2. induction l1 as [|[k1 v1] l1 IH]; intros l2 H1 H2 Hext.
  - destruct l2 as [|p l2]; [done|]. exfalso.
    apply (not_elem_of_nil (A:=string*V) p). apply Hext. by left.
  - destruct l2 as [|[k2 v2] l2].
    { exfalso. apply (not_elem_of_nil (A:=string*V) (k1, v1)). apply Hext. by left. }
    simpl in *. apply StronglySorted_cons in H1 as [Hk1 H1], H2 as [Hk2 H2].
    assert (Hlow : ∀ k l p, Forall (str_lt k) (l : list (string * V)).*1 →
                     p ∈ l → str_lt k p.1).
    { intros k l p Hf Hp. eapply Forall_forall in Hf; [done|].
      apply list_elem_of_fmap. by exists p. }
    assert ((k1, v1) = (k2, v2)) as Heq.
    { assert (Hin1 : (k1, v1) ∈ (k2, v2) :: l2) by (apply Hext; by left).
      assert (Hin2 : (k2, v2) ∈ (k1, v1) :: l1) by (apply Hext; by left).
      apply elem_of_cons in Hin1 as [?|Hin1]; [done|].
      apply elem_of_cons in Hin2 as [?|Hin2]; [done|].
      apply (Hlow _ _ _ Hk2) in Hin1. apply (Hlow _ _ _ Hk1) in Hin2.
      destruct (irreflexivity str_lt k1). by trans k2. }
    simplify_eq. f_equal. apply IH; [done..|]. intros p.
    assert (Hne : ∀ l, Forall (str_lt k2) (l : list (string * V)).*1 →
                    p ∈ l → p ≠ (k2, v2)).
    { intros l Hf Hp ->. apply (irreflexivity str_lt k2). by apply (Hlow _ _ _ Hf Hp). }
    specialize (Hext p). rewrite !elem_of_cons in Hext.
    pose proof (Hne l1 Hk1). pose proof (Hne l2 Hk2). naive_solver.
Qed.

Lemma btree_entries_canonical m l :
  StronglySorted str_lt l.*1 → (∀ k v, (k, v) ∈ l ↔ m !! k = Some v) →
  btree_entries m = l.
Proof.
  intros Hs Hl. apply strictly_keyed_ext; [apply btree_entries_sorted|done|].
  intros [k v]. by rewrite elem_of_btree_entries, Hl.
Qed.

Lemma btree_values_NoDup_key {K} (key : V → K) m :
  (∀ k v k' v', m !! k = Some v → m !! k' = Some v' → key v = key v' → k = k') →
  NoDup (key <$> btree_values m).
Proof.
  intros Hinj. unfold btree_values.
  assert (Hin : ∀ p, p ∈ btree_entries m → m !! p.1 = Some p.2)
    by (intros [??]; apply elem_of_btree_entries).
  assert (Hnd := btree_entries_keys_NoDup m). revert Hnd Hin.
  induction (btree_entries m) as [|[k v] l IH]; intros Hnd Hin; [constructor|].
  simpl in *. apply NoDup_cons in Hnd as [Hk Hnd]. constructor.
  - intros (v' & Hv & Hv')%list_elem_of_fmap.
    apply list_elem_of_fmap in Hv' as ([k' v''] & -> & Hp). simpl in *.
    assert (k = k') as ->.
    { eapply Hinj; [apply (Hin (k, v)); by left|apply (Hin (k', v'')); by right|done]. }
    apply Hk, list_elem_of_fmap. by exists (k', v'').
  - apply IH; [done|]. intros p Hp. apply Hin. by right.
Qed.

End btree_map.
