(* ===== verification/Net.v ===== *)
(** * Socket addresses of [std::net]

    [SocketAddr] with its [port], decidable equality, an instance of
    [Countable] (it is a map key in [RuntimeConfig::validate]), its [Display],
    which dxgate prints in one conflict message, and [FromStr] for IPv4 addresses,
    which reads back what [Display] prints. *)

From S2P Require Import Prelude RustString.

(** An IPv4 address is its 32 bits, an IPv6 address its 128 bits. *)
Inductive SocketAddr :=
| SocketAddrV4 (ip port : Z)
| SocketAddrV6 (ip port flowinfo scope_id : Z).

#[export] Instance SocketAddr_eq_dec : EqDecision SocketAddr.
Proof. solve_decision. Defined.

#[export] Instance SocketAddr_countable : Countable SocketAddr.
Proof.
  refine (inj_countable'
    (λ a, match a with
          | SocketAddrV4 i p => inl (i, p)
          | SocketAddrV6 i p f s => inr (i, p, f, s)
          end)
    (λ x, match x with
          | inl (i, p) => SocketAddrV4 i p
          | inr (i, p, f, s) => SocketAddrV6 i p f s
          end) _).
  by intros [].
Defined.

(** [SocketAddr::port]. *)
Definition addr_port (a : SocketAddr) : Z :=
  match a with SocketAddrV4 _ p => p | SocketAddrV6 _ p _ _ => p end.

(** ** [Display] *)

(** Byte [i] of a number, counted from the least significant one. *)
Definition octet (ip i : Z) : Z := Z.land (Z.shiftr ip (8 * i)) 255.

Definition show_ipv4 (ip : Z) : string :=
  join "." (show_u ∘ octet ip <$> [3; 2; 1; 0]).

Definition hex_digit (d : Z) : string :=
  match String.get (Z.to_nat d) "0123456789abcdef" with
  | Some c => String c ""
  | None => ""
  end.

Fixpoint drop_zeros (l : list Z) : list Z :=
  match l with
  | [] => []
  | x :: l' => if x =? 0 then drop_zeros l' else l
  end.

(** [{:x}] of a 16-bit segment. *)
Definition show_hex16 (s : Z) : string :=
  let nib i := Z.land (Z.shiftr s (4 * i)) 15 in
  match drop_zeros [nib 3; nib 2; nib 1; nib 0] with
  | [] => "0"
  | ds => join "" (hex_digit <$> ds)
  end.

(** The eight 16-bit segments of an IPv6 address. *)
Definition segments (ip : Z) : list Z :=
  (λ i, Z.land (Z.shiftr ip (16 * i)) 65535) <$> [7; 6; 5; 4; 3; 2; 1; 0].

(** The first longest run of zero segments, as a start and a length: [longest]
    and [current] are the two spans of the loop. *)
Fixpoint zero_span (i : nat) (longest current : nat * nat) (l : list Z) : nat * nat :=
  match l with
  | [] => longest
  | s :: l' =>
      if s =? 0 then
        let current := if (current.2 =? 0)%nat then (i, 1%nat) else (current.1, S current.2) in
        let longest := if (longest.2 <? current.2)%nat then current else longest in
        zero_span (S i) longest current l'
      else zero_span (S i) longest (0%nat, 0%nat) l'
  end.

Definition show_segments (l : list Z) : string := join ":" (show_hex16 <$> l).

Definition show_ipv6 (ip : Z) : string :=
  if Z.shiftr ip 32 =? 65535 then "::ffff:" +:+ show_ipv4 (Z.land ip 4294967295)
  else
    let segs := segments ip in
    let '(start, len) := zero_span 0 (0%nat, 0%nat) (0%nat, 0%nat) segs in
    if (1 <? len)%nat
    then show_segments (take start segs) +:+ "::" +:+ show_segments (drop (start + len) segs)
    else show_segments segs.

Definition show_socket_addr (a : SocketAddr) : string :=
  match a with
  | SocketAddrV4 ip port => show_ipv4 ip +:+ ":" +:+ show_u port
  | SocketAddrV6 ip port _ 0 => "[" +:+ show_ipv6 ip +:+ "]:" +:+ show_u port
  | SocketAddrV6 ip port _ scope =>
      "[" +:+ show_ipv6 ip +:+ "%" +:+ show_u scope +:+ "]:" +:+ show_u port
  end.

(** [SocketAddr::new(IpAddr::V4(Ipv4Addr::UNSPECIFIED), port)]. *)
Definition unspecified_v4 (port : Z) : SocketAddr := SocketAddrV4 0 port.

(** ** [FromStr], IPv4 *)

(** At least one decimal digit and nothing else, within 16 bits. *)
Definition read_number (s : string) : option Z :=
  if decide (s = "") then None else u16_digits 0 s.

(** Up to three digits, no leading zero, within 8 bits. *)
Definition read_octet (s : string) : option Z :=
  n ← read_number s;
  if (String.length s <=? 3)%nat && (n <? 256)
     && (bool_decide (s = "0") || negb (starts_with "0" s))
  then Some n else None.

Definition parse_socket_addr_v4 (s : string) : option SocketAddr :=
  '(ip, port) ← rsplit_once ":" s;
  p ← read_number port;
  octets ← mapM read_octet (split_on "." ip);
  match octets with
  | [a; b; c; d] => Some (SocketAddrV4 (((a * 256 + b) * 256 + c) * 256 + d) p)
  | _ => None
  end.

Lemma read_number_show z : fits 16 z → read_number (show_u z) = Some z.
Proof.
  intros Hz. pose proof (parse_u16_show z Hz) as Hp. unfold read_number, parse_u16 in *.
  assert (contains_char "+" (show_u z) = false) as Hplus.
  { apply show_u_no_char; [done|]. by destruct Hz. }
  destruct (show_u z) as [|a s]; [done|]. rewrite decide_False by done.
  simpl in Hplus. apply orb_false_iff in Hplus as [Ha%bool_decide_eq_false _].
  by rewrite decide_False in Hp.
Qed.

Lemma read_octet_show z : fits 8 z → read_octet (show_u z) = Some z.
Proof.
  intros [H0 H1].
  assert (Forall (λ z, read_octet (show_u z) = Some z) (seqZ 0 256)) as H.
  { apply (bool_decide_unpack _). vm_compute. exact I. }
  rewrite Forall_forall in H. apply H, elem_of_seqZ. lia.
Qed.

Lemma octet_div ip i : 0 ≤ i → octet ip i = (ip / 2 ^ (8 * i)) mod 256.
Proof.
  intros Hi. unfold octet. change 255 with (Z.ones 8).
  rewrite Z.land_ones, Z.shiftr_div_pow2 by lia. done.
Qed.

Lemma octet_fits ip i : 0 ≤ i → fits 8 (octet ip i).
Proof. intros Hi. rewrite octet_div by done. apply Z.mod_pos_bound. lia. Qed.

Lemma split_ipv4 ip :
  split_on "." (show_ipv4 ip) = show_u ∘ octet ip <$> [3; 2; 1; 0].
Proof.
  assert (∀ i, 0 ≤ i → contains_char "." (show_u (octet ip i)) = false) as Hdot.
  { intros i Hi. apply show_u_no_char; [done|]. by destruct (octet_fits ip i Hi). }
  assert (show_ipv4 ip = show_u (octet ip 3) +:+ String "." (show_u (octet ip 2) +:+
    String "." (show_u (octet ip 1) +:+ String "." (show_u (octet ip 0))))) as -> by done.
  rewrite !split_on_app by (by apply Hdot). by rewrite split_on_absent by (by apply Hdot).
Qed.

(** Reading back what [Display] prints for an IPv4 address. *)
Lemma parse_socket_addr_v4_show ip port :
  fits 32 ip → fits 16 port →
  parse_socket_addr_v4 (show_socket_addr (SocketAddrV4 ip port)) = Some (SocketAddrV4 ip port).
Proof.
  intros Hip Hport. unfold parse_socket_addr_v4, show_socket_addr.
  change (":" +:+ show_u port) with (String ":" (show_u port)).
  rewrite rsplit_once_app by (apply show_u_no_char; [done|by destruct Hport]).
  assert (mapM read_octet (show_u ∘ octet ip <$> [3; 2; 1; 0]) = Some (octet ip <$> [3; 2; 1; 0]))
    as Hoctets.
  { apply mapM_Some. repeat constructor; by apply read_octet_show, octet_fits. }
  cbv [mbind option_bind] in *. rewrite read_number_show by done. rewrite split_ipv4, Hoctets.
  cbv [fmap list_fmap]. rewrite !octet_div by done. destruct Hip. do 2 f_equal.
  change (2 ^ (8 * 3)) with (256 * 256 * 256). change (2 ^ (8 * 2)) with (256 * 256).
  change (2 ^ (8 * 1)) with 256. change (2 ^ (8 * 0)) with 1.
  rewrite <- !Z.div_div, Z.div_1_r by done. Z.div_mod_to_equations. lia.
Qed.

Example show_v4_any : show_socket_addr (SocketAddrV4 0 80) = "0.0.0.0:80".
Proof. vm_compute. reflexivity. Qed.

Example show_v4 : show_socket_addr (SocketAddrV4 3232235777 15021) = "192.168.1.1:15021".
Proof. vm_compute. reflexivity. Qed.

Example show_v6_loopback : show_socket_addr (SocketAddrV6 1 80 0 0) = "[::1]:80".
Proof. vm_compute. reflexivity. Qed.

Example show_v6_doc :
  show_socket_addr (SocketAddrV6 42540766411282592856903984951653826561 443 0 3)
  = "[2001:db8::1%3]:443".
Proof. vm_compute. reflexivity. Qed.
