(* ===== verification/Config.v ===== *)
(** * The runtime configuration (crates/core)

    The data model of [config.rs], [matchers.rs] and [error.rs], the matchers,
    [RuntimeConfig::validate], [listener_by_port], [cluster] and [route_for].

    The theorems give [validate] a declarative reading twice: it accepts exactly
    the well-formed configurations ([validate_ok_iff]), and the conflicts it
    reports are exactly the justified ones ([validate_conflict_iff]).
    [route_for_ok_iff] says that the route found is the first match in
    declaration order; [route_for_valid_clusters] is what the proxy relies on:
    under an accepted configuration every destination of a found route names a
    cluster that exists. *)

From S2P Require Import Prelude RustString BTree Net.

(** ** Data *)

Definition HTTP_LISTENER_PORT : Z := 80.
Definition HTTPS_LISTENER_PORT : Z := 443.
Definition ADMIN_PORT : Z := 15021.

Inductive ListenerProtocol := Http | Https.

Inductive PathMatch :=
| Prefix (prefix : string)
| Exact (exact : string).

Record HeaderMatch := { hm_name : string; hm_value : string }.

Record RouteMatch := { rm_path : PathMatch; rm_headers : list HeaderMatch }.

Record WeightedCluster := { wc_name : string; wc_weight : Z }.

Record Route := {
  r_name : string;
  r_matches : list RouteMatch;
  r_weighted_clusters : list WeightedCluster }.

Record VirtualHost := {
  vh_name : string;
  vh_domains : list string;
  vh_routes : list Route }.

Record Listener := {
  l_name : string;
  l_bind : SocketAddr;
  l_protocol : ListenerProtocol;
  l_virtual_hosts : list VirtualHost;
  l_tls_secret : option string }.

Record Endpoint := {
  ep_address : string;
  ep_port : Z;
  ep_healthy : bool;
  ep_node_name : option string }.

Record UpstreamTls := {
  tls_sni : option string;
  tls_certificate_provider : option string;
  tls_validation_provider : option string;
  tls_alpn_protocols : list string }.

Record Cluster := {
  c_name : string;
  c_endpoints : list Endpoint;
  c_tls : option UpstreamTls }.

Record TlsSecret := {
  s_name : string;
  s_certificate_chain_pem : string;
  s_private_key_pem : string }.

Record RuntimeConfig := {
  rc_version : string;
  rc_listeners : list Listener;
  rc_clusters : list Cluster;
  rc_secrets : list TlsSecret }.

#[export] Instance ListenerProtocol_eq_dec : EqDecision ListenerProtocol.
Proof. solve_decision. Defined.
#[export] Instance PathMatch_eq_dec : EqDecision PathMatch.
Proof. solve_decision. Defined.
#[export] Instance HeaderMatch_eq_dec : EqDecision HeaderMatch.
Proof. solve_decision. Defined.
#[export] Instance RouteMatch_eq_dec : EqDecision RouteMatch.
Proof. solve_decision. Defined.
#[export] Instance WeightedCluster_eq_dec : EqDecision WeightedCluster.
Proof. solve_decision. Defined.
#[export] Instance Route_eq_dec : EqDecision Route.
Proof. solve_decision. Defined.
#[export] Instance VirtualHost_eq_dec : EqDecision VirtualHost.
Proof. solve_decision. Defined.
#[export] Instance Listener_eq_dec : EqDecision Listener.
Proof. solve_decision. Defined.
#[export] Instance Endpoint_eq_dec : EqDecision Endpoint.
Proof. solve_decision. Defined.
#[export] Instance UpstreamTls_eq_dec : EqDecision UpstreamTls.
Proof. solve_decision. Defined.
#[export] Instance Cluster_eq_dec : EqDecision Cluster.
Proof. solve_decision. Defined.
#[export] Instance TlsSecret_eq_dec : EqDecision TlsSecret.
Proof. solve_decision. Defined.
#[export] Instance RuntimeConfig_eq_dec : EqDecision RuntimeConfig.
Proof. solve_decision. Defined.

(** [PathMatch::default] and the field defaults. *)
Definition PathMatch_default : PathMatch := Prefix "/".
Definition default_true : bool := true.

(** [RuntimeConfig::empty]. *)
Definition empty_config (version : string) : RuntimeConfig :=
  {| rc_version := version; rc_listeners := []; rc_clusters := []; rc_secrets := [] |}.

(** [Cluster::healthy_endpoints]. *)
Definition healthy_endpoints (c : Cluster) : list Endpoint :=
  List.filter ep_healthy (c_endpoints c).

(** ** Errors ([error.rs]) and conflicts ([matchers.rs]) *)

(** An [std::io::Error] is kept as its message. *)
Inductive DxgateError :=
| InvalidConfig (msg : string)
| RouteNotFound (host path : string)
| ClusterNotFound (name : string)
| NoHealthyEndpoints (name : string)
| Io (msg : string).

Definition show_DxgateError (e : DxgateError) : string :=
  match e with
  | InvalidConfig m => "invalid runtime config: " +:+ m
  | RouteNotFound h p => "route not found for host=" +:+ h +:+ " path=" +:+ p
  | ClusterNotFound n => "cluster " +:+ n +:+ " not found"
  | NoHealthyEndpoints n => "cluster " +:+ n +:+ " has no healthy endpoints"
  | Io m => "io error: " +:+ m
  end.

Record ConfigConflict := { cc_kind : string; cc_message : string }.

#[export] Instance ConfigConflict_eq_dec : EqDecision ConfigConflict.
Proof. solve_decision. Defined.

Record MatchInput := {
  mi_host : string;
  mi_path : string;
  mi_headers : list (string * string) }.

(** ** Matching *)

Definition path_matches (m : PathMatch) (path : string) : bool :=
  match m with
  | Prefix prefix => starts_with prefix path
  | Exact exact => bool_decide (path = exact)
  end.

Definition header_matches (h : HeaderMatch) (input : MatchInput) : bool :=
  existsb (λ '(name, value),
    eq_ignore_ascii_case name (hm_name h) && bool_decide (value = hm_value h))
    (mi_headers input).

Definition route_match_matches (m : RouteMatch) (input : MatchInput) : bool :=
  path_matches (rm_path m) (mi_path input)
  && forallb (λ h, header_matches h input) (rm_headers m).

Definition route_matches (r : Route) (input : MatchInput) : bool :=
  match r_matches r with
  | [] => true
  | ms => existsb (λ m, route_match_matches m input) ms
  end.

Definition domain_matches (host domain : string) : bool :=
  bool_decide (domain = "*")
  || eq_ignore_ascii_case domain host
  || match strip_prefix "*." domain with
     | Some suffix => ends_with suffix host
     | None => false
     end.

Definition matches_host (vh : VirtualHost) (host : string) : bool :=
  existsb (domain_matches host) (vh_domains vh).

(** ** Lookup *)

Definition listener_by_port (cfg : RuntimeConfig) (port : Z) : option Listener :=
  List.find (λ l, addr_port (l_bind l) =? port) (rc_listeners cfg).

Definition cluster (cfg : RuntimeConfig) (name : string) : option Cluster :=
  List.find (λ c, bool_decide (c_name c = name)) (rc_clusters cfg).

Definition route_for (cfg : RuntimeConfig) (port : Z) (input : MatchInput)
    : result Route DxgateError :=
  let? listener :=
    ok_or (listener_by_port cfg port) (RouteNotFound (mi_host input) (mi_path input)) in
  ok_or
    (List.find (λ r, route_matches r input)
      (List.flat_map vh_routes
        (List.filter (λ vh, matches_host vh (mi_host input)) (l_virtual_hosts listener))))
    (RouteNotFound (mi_host input) (mi_path input)).

(** ** Validation *)

Definition tls_enabled (l : Listener) : bool :=
  match l_tls_secret l with Some _ => true | None => false end.

Definition duplicate_listener (l : Listener) : ConfigConflict :=
  {| cc_kind := "duplicate-listener";
     cc_message := "listener " +:+ l_name l +:+ " is defined more than once" |}.

Definition listener_bind_conflict (existing_name : string) (l : Listener) : ConfigConflict :=
  {| cc_kind := "listener-bind-conflict";
     cc_message := "listeners " +:+ existing_name +:+ " and " +:+ l_name l +:+ " both bind "
       +:+ show_socket_addr (l_bind l) +:+ " with incompatible protocol or TLS mode" |}.

Definition duplicate_cluster (c : Cluster) : ConfigConflict :=
  {| cc_kind := "duplicate-cluster";
     cc_message := "cluster " +:+ c_name c +:+ " is defined more than once" |}.

Definition empty_route_destination (r : Route) (l : Listener) : ConfigConflict :=
  {| cc_kind := "empty-route-destination";
     cc_message := "route " +:+ r_name r +:+ " on listener " +:+ l_name l
       +:+ " has no weighted clusters" |}.

Definition missing_cluster (r : Route) (dst : WeightedCluster) : ConfigConflict :=
  {| cc_kind := "missing-cluster";
     cc_message := "route " +:+ r_name r +:+ " references missing cluster " +:+ wc_name dst |}.

Abbreviation Binds := (gmap SocketAddr (string * ListenerProtocol * bool)).

(** The body of the loop over the listeners. *)
Definition validate_listener (st : list ConfigConflict * gset string * Binds) (l : Listener)
    : list ConfigConflict * gset string * Binds :=
  let '(conflicts, listener_names, binds) := st in
  let conflicts :=
    if decide (l_name l ∈ listener_names)
    then conflicts ++ [duplicate_listener l] else conflicts in
  let conflicts :=
    match binds !! l_bind l with
    | Some (existing_name, existing_protocol, existing_tls) =>
        if bool_decide (existing_protocol ≠ l_protocol l)
           || bool_decide (existing_tls ≠ tls_enabled l)
        then conflicts ++ [listener_bind_conflict existing_name l] else conflicts
    | None => conflicts
    end in
  (conflicts, {[l_name l]} ∪ listener_names,
   <[l_bind l := (l_name l, l_protocol l, tls_enabled l)]> binds).

(** The body of the loop over the clusters. *)
Definition validate_cluster (st : list ConfigConflict * gset string) (c : Cluster)
    : list ConfigConflict * gset string :=
  let '(conflicts, clusters) := st in
  (if decide (c_name c ∈ clusters) then conflicts ++ [duplicate_cluster c] else conflicts,
   {[c_name c]} ∪ clusters).

(** The body of the innermost route loop. *)
Definition validate_route (clusters : gset string) (l : Listener)
    (conflicts : list ConfigConflict) (r : Route) : list ConfigConflict :=
  let conflicts :=
    match r_weighted_clusters r with
    | [] => conflicts ++ [empty_route_destination r l]
    | _ => conflicts
    end in
  fold_left (λ conflicts dst,
    if decide (wc_name dst ∈ clusters) then conflicts
    else conflicts ++ [missing_cluster r dst]) (r_weighted_clusters r) conflicts.

Definition validate_listener_routes (clusters : gset string)
    (conflicts : list ConfigConflict) (l : Listener) : list ConfigConflict :=
  fold_left (λ conflicts host,
    fold_left (validate_route clusters l) (vh_routes host) conflicts)
    (l_virtual_hosts l) conflicts.

Definition validate_conflicts (cfg : RuntimeConfig) : list ConfigConflict :=
  let '(conflicts, _, _) := fold_left validate_listener (rc_listeners cfg) ([], ∅, ∅) in
  let '(conflicts, clusters) := fold_left validate_cluster (rc_clusters cfg) (conflicts, ∅) in
  fold_left (validate_listener_routes clusters) (rc_listeners cfg) conflicts.

Definition validate (cfg : RuntimeConfig) : result unit (list ConfigConflict) :=
  match validate_conflicts cfg with
  | [] => Ok tt
  | conflicts => Err conflicts
  end.

(** ** What validation promises *)

(** The last listener of [ls] bound to [a]: what the map [binds] remembers. *)
Definition last_bound (ls : list Listener) (a : SocketAddr) : option Listener :=
  last (base.filter (λ l, l_bind l = a) ls).

Definition same_mode (l1 l2 : Listener) : Prop :=
  l_protocol l1 = l_protocol l2 ∧ tls_enabled l1 = tls_enabled l2.

#[export] Instance same_mode_dec l1 l2 : Decision (same_mode l1 l2).
Proof. unfold same_mode. apply _. Defined.

Definition cluster_names_of (cfg : RuntimeConfig) : list string := c_name <$> rc_clusters cfg.

(** [has_route cfg l h r]: route [r] of virtual host [h] on listener [l]. *)
Definition has_route (cfg : RuntimeConfig) (l : Listener) (h : VirtualHost) (r : Route) : Prop :=
  l ∈ rc_listeners cfg ∧ h ∈ l_virtual_hosts l ∧ r ∈ vh_routes h.

Record well_formed (cfg : RuntimeConfig) : Prop := {
  wf_listener_names : NoDup (l_name <$> rc_listeners cfg);
  wf_cluster_names : NoDup (cluster_names_of cfg);
  wf_binds l1 l2 :
    l1 ∈ rc_listeners cfg → l2 ∈ rc_listeners cfg → l_bind l1 = l_bind l2 → same_mode l1 l2;
  wf_destinations l h r : has_route cfg l h r → r_weighted_clusters r ≠ [];
  wf_references l h r d :
    has_route cfg l h r → d ∈ r_weighted_clusters r → wc_name d ∈ cluster_names_of cfg }.

(** The reasons for which a conflict may be reported. *)
Inductive justified (cfg : RuntimeConfig) : ConfigConflict → Prop :=
| J_duplicate_listener ls1 l ls2 :
    rc_listeners cfg = ls1 ++ l :: ls2 → l_name l ∈ l_name <$> ls1 →
    justified cfg (duplicate_listener l)
| J_bind_conflict ls1 l ls2 l0 :
    rc_listeners cfg = ls1 ++ l :: ls2 → last_bound ls1 (l_bind l) = Some l0 →
    ¬ same_mode l0 l → justified cfg (listener_bind_conflict (l_name l0) l)
| J_duplicate_cluster cs1 c cs2 :
    rc_clusters cfg = cs1 ++ c :: cs2 → c_name c ∈ c_name <$> cs1 →
    justified cfg (duplicate_cluster c)
| J_empty_destination l h r :
    has_route cfg l h r → r_weighted_clusters r = [] →
    justified cfg (empty_route_destination r l)
| J_missing_cluster l h r d :
    has_route cfg l h r → d ∈ r_weighted_clusters r →
    wc_name d ∉ cluster_names_of cfg → justified cfg (missing_cluster r d).

(** *** The loop over the listeners *)

Definition listener_conflict_at (c : ConfigConflict) (ls1 : list Listener) (l : Listener) : Prop :=
  (l_name l ∈ l_name <$> ls1 ∧ c = duplicate_listener l) ∨
  (∃ l0, last_bound ls1 (l_bind l) = Some l0 ∧ ¬ same_mode l0 l
         ∧ c = listener_bind_conflict (l_name l0) l).

Lemma last_bound_snoc ls l a :
  last_bound (ls ++ [l]) a = if decide (l_bind l = a) then Some l else last_bound ls a.
Proof.
  unfold last_bound. rewrite filter_app, filter_cons, filter_nil.
  case_decide; [apply last_snoc|]. by rewrite app_nil_r.
Qed.

Lemma last_bound_Some ls a l : last_bound ls a = Some l → l ∈ ls ∧ l_bind l = a.
Proof.
  intros (l' & Hf)%last_Some. assert (Hin : l ∈ base.filter (λ l, l_bind l = a) ls)
    by (rewrite Hf; set_solver).
  apply list_elem_of_filter in Hin. tauto.
Qed.

Lemma mode_test l0 l :
  bool_decide (l_protocol l0 ≠ l_protocol l) || bool_decide (tls_enabled l0 ≠ tls_enabled l)
  = bool_decide (¬ same_mode l0 l).
Proof.
  apply eq_bool_prop_intro. rewrite orb_True, !bool_decide_spec. unfold same_mode.
  destruct (decide (l_protocol l0 = l_protocol l)), (decide (tls_enabled l0 = tls_enabled l));
    tauto.
Qed.

(** What the loop knows after the listeners [ls]. *)
Definition listener_loop_inv (ls : list Listener)
    (st : list ConfigConflict * gset string * Binds) : Prop :=
  (∀ c, c ∈ st.1.1 ↔ exists_split (listener_conflict_at c) ls) ∧
  st.1.2 = list_to_set (l_name <$> ls) ∧
  (∀ a, st.2 !! a = (λ l, (l_name l, l_protocol l, tls_enabled l)) <$> last_bound ls a).

Lemma validate_listener_inv ls st l :
  listener_loop_inv ls st → listener_loop_inv (ls ++ [l]) (validate_listener st l).
Proof.
  destruct st as [[cs names] binds]. intros (Hcs & Hnames & Hbinds). simpl in *.
  split; [|split]; simpl.
  - intros c. rewrite exists_split_snoc, <- Hcs. unfold listener_conflict_at.
    rewrite Hbinds, Hnames.
    assert (Hdup : ∀ cs' : list ConfigConflict,
      c ∈ (if decide (l_name l ∈@{gset string} list_to_set (l_name <$> ls))
           then cs' ++ [duplicate_listener l] else cs') ↔
      c ∈ cs' ∨ (l_name l ∈ l_name <$> ls ∧ c = duplicate_listener l)).
    { intros cs'. case_decide as Hd; rewrite elem_of_list_to_set in Hd; set_solver. }
    destruct (last_bound ls (l_bind l)) as [l0|]; simpl.
    + rewrite mode_test. case_bool_decide as Hm.
      * rewrite elem_of_app, Hdup, list_elem_of_singleton. naive_solver.
      * rewrite Hdup. naive_solver.
    + rewrite Hdup. naive_solver.
  - rewrite Hnames, fmap_app, list_to_set_app_L. set_solver.
  - intros a. rewrite last_bound_snoc, lookup_insert, Hbinds. by case_decide.
Qed.

Lemma validate_listeners_inv ls :
  listener_loop_inv ls (fold_left validate_listener ls ([], ∅, ∅)).
Proof.
  induction ls as [|l ls IH] using rev_ind.
  - split; [|split]; simpl; [|done|done].
    intros c. split; [by intros ?%elem_of_nil|]. by intros ?%exists_split_nil.
  - rewrite fold_left_app. simpl. by apply validate_listener_inv.
Qed.

(** *** The loop over the clusters *)

Lemma validate_clusters_inv acc cs :
  let st := fold_left validate_cluster cs (acc, ∅) in
  st.2 = list_to_set (c_name <$> cs) ∧
  ∀ c, c ∈ st.1 ↔ c ∈ acc ∨
    exists_split (λ cs1 x, c_name x ∈ (c_name <$> cs1) ∧ c = duplicate_cluster x) cs.
Proof.
  simpl. induction cs as [|x cs [Hset Hcs]] using rev_ind.
  - split; [done|]. intros c. pose proof (exists_split_nil (A:=Cluster)). naive_solver.
  - rewrite fold_left_app. simpl.
    destruct (fold_left validate_cluster cs (acc, ∅)) as [cs' names]. simpl in *. split.
    + rewrite Hset, fmap_app, list_to_set_app_L. set_solver.
    + intros c. rewrite exists_split_snoc. rewrite Hset.
      case_decide as Hd; rewrite elem_of_list_to_set in Hd;
        rewrite ?elem_of_app, ?list_elem_of_singleton, Hcs; naive_solver.
Qed.

(** *** The loops over the routes *)

Definition route_conflict (clusters : gset string) (l : Listener) (r : Route)
    (c : ConfigConflict) : Prop :=
  (r_weighted_clusters r = [] ∧ c = empty_route_destination r l) ∨
  (∃ d, d ∈ r_weighted_clusters r ∧ (wc_name d ∉ clusters) ∧ c = missing_cluster r d).

Lemma elem_of_validate_route clusters l acc r c :
  c ∈ validate_route clusters l acc r ↔ c ∈ acc ∨ route_conflict clusters l r c.
Proof.
  unfold validate_route, route_conflict.
  rewrite (elem_of_fold_left _ (λ d c, (wc_name d ∉ clusters) ∧ c = missing_cluster r d)).
  - destruct (r_weighted_clusters r) eqn:E; [set_solver|]. naive_solver.
  - intros acc' d c'. case_decide; set_solver.
Qed.

Lemma elem_of_validate_listener_routes clusters acc l c :
  c ∈ validate_listener_routes clusters acc l ↔
  c ∈ acc ∨ ∃ h, h ∈ l_virtual_hosts l ∧ ∃ r, r ∈ vh_routes h ∧ route_conflict clusters l r c.
Proof.
  unfold validate_listener_routes.
  apply (elem_of_fold_left _
    (λ h c, ∃ r, r ∈ vh_routes h ∧ route_conflict clusters l r c)). intros acc' h c'.
  by rewrite (elem_of_fold_left _ _ (elem_of_validate_route clusters l)).
Qed.

(** *** The whole of [validate] *)

Lemma elem_of_validate_conflicts cfg c : c ∈ validate_conflicts cfg ↔ justified cfg c.
Proof.
  unfold validate_conflicts.
  destruct (validate_listeners_inv (rc_listeners cfg)) as (Hl & _ & _).
  destruct (fold_left validate_listener _ _) as [[cl names] binds]. simpl in Hl.
  destruct (validate_clusters_inv cl (rc_clusters cfg)) as [Hset Hc]. revert Hset Hc.
  destruct (fold_left validate_cluster _ _) as [cc clusters]. simpl. intros -> Hc.
  rewrite (elem_of_fold_left _ _ (elem_of_validate_listener_routes _)), Hc, Hl.
  unfold route_conflict. setoid_rewrite elem_of_list_to_set. split.
  - intros [[H|H]|H].
    + destruct H as (ls1 & l & ls2 & Hls & [[Hin ->]|(l0 & Hb & Hm & ->)]);
        econstructor; eauto.
    + destruct H as (cs1 & x & cs2 & Hcs & Hin & ->). by eapply J_duplicate_cluster.
    + destruct H as (l & Hl' & h & Hh & r & Hr & [[He ->]|(d & Hd & Hn & ->)]).
      * eapply J_empty_destination; [|done]. by split_and!.
      * eapply J_missing_cluster; [|done..]. by split_and!.
  - unfold listener_conflict_at, exists_split.
    destruct 1 as [| | |l h r (?&?&?)|l h r d (?&?&?)]; naive_solver.
Qed.

Lemma validate_Ok_conflicts cfg : validate cfg = Ok tt ↔ validate_conflicts cfg = [].
Proof. unfold validate. destruct (validate_conflicts cfg); naive_solver. Qed.

Lemma validate_Err_conflicts cfg cs :
  validate cfg = Err cs ↔ validate_conflicts cfg = cs ∧ cs ≠ [].
Proof. unfold validate. destruct (validate_conflicts cfg); naive_solver. Qed.

Lemma validate_Ok_justified cfg : validate cfg = Ok tt ↔ ∀ c, ¬ justified cfg c.
Proof.
  rewrite validate_Ok_conflicts. setoid_rewrite <- elem_of_validate_conflicts.
  split; [by intros -> c ?%elem_of_nil|]. intros Hno.
  destruct (validate_conflicts cfg) as [|c cs]; [done|].
  destruct (Hno c). by left.
Qed.

(** *** Bind conflicts, pairwise *)

Lemma last_bound_None ls a : last_bound ls a = None → ∀ l, l ∈ ls → l_bind l ≠ a.
Proof.
  unfold last_bound. intros H%last_None l Hl Ha.
  assert (l ∈ base.filter (λ l, l_bind l = a) ls) as Hin by (by apply list_elem_of_filter).
  rewrite H in Hin. by apply elem_of_nil in Hin.
Qed.

Definition modes_agree (ls : list Listener) : Prop :=
  ∀ l1 l2, l1 ∈ ls → l2 ∈ ls → l_bind l1 = l_bind l2 → same_mode l1 l2.

(** Comparing each listener with the last one on its address is enough to
    compare all of them. *)
Lemma modes_agree_split ls :
  modes_agree ls ↔
  ¬ exists_split (λ ls1 l, ∃ l0, last_bound ls1 (l_bind l) = Some l0 ∧ ¬ same_mode l0 l) ls.
Proof.
  induction ls as [|l ls IH] using rev_ind.
  { split; [intros _; apply exists_split_nil|]. intros _ l1 l2 H. by apply elem_of_nil in H. }
  rewrite exists_split_snoc. split.
  - intros Hag [Hs|(l0 & (Hin & Hb)%last_bound_Some & Hm)].
    + revert Hs. apply IH. intros l1 l2 ??. apply Hag; set_solver.
    + apply Hm, Hag; set_solver.
  - intros Hno. assert (Hls : modes_agree ls) by tauto.
    assert (Hl : ∀ l', l' ∈ ls → l_bind l' = l_bind l → same_mode l' l).
    { intros l' Hl' Hb. destruct (last_bound ls (l_bind l)) as [l0|] eqn:E.
      - destruct (decide (same_mode l0 l)) as [Hm|Hm]; [|naive_solver].
        apply last_bound_Some in E as [Hl0 Hb0].
        destruct (Hls l' l0 Hl' Hl0 ltac:(congruence)), Hm. split; congruence.
      - by destruct (last_bound_None _ _ E l' Hl'). }
    intros l1 l2 H1 H2 Hb. rewrite elem_of_app, list_elem_of_singleton in H1, H2.
    destruct H1 as [H1| ->], H2 as [H2| ->]; [by apply Hls|by apply Hl| |done].
    destruct (Hl l2 H2 ltac:(done)). by split.
Qed.

Lemma well_formed_justified cfg : well_formed cfg ↔ ∀ c, ¬ justified cfg c.
Proof.
  split.
  - intros [Hln Hcn Hb Hd Hr] c Hc.
    apply NoDup_exists_split in Hln, Hcn. pose proof (proj1 (modes_agree_split _) Hb) as Hb'.
    destruct Hc; [apply Hln|apply Hb'|apply Hcn| |]; unfold exists_split; naive_solver.
  - intros Hno. constructor.
    + apply NoDup_exists_split. intros (ls1 & l & ls2 & Hls & Hin).
      by eapply Hno, J_duplicate_listener.
    + apply NoDup_exists_split. intros (cs1 & x & cs2 & Hcs & Hin).
      by eapply Hno, J_duplicate_cluster.
    + apply modes_agree_split. intros (ls1 & l & ls2 & Hls & l0 & Hl0 & Hm).
      by eapply Hno, J_bind_conflict.
    + intros l h r Hr He. by eapply Hno, J_empty_destination.
    + intros l h r d Hr Hd. destruct (decide (wc_name d ∈ cluster_names_of cfg)); [done|].
      by edestruct Hno; eapply J_missing_cluster.
Qed.

Lemma validate_Ok_well_formed cfg : validate cfg = Ok tt ↔ well_formed cfg.
Proof. by rewrite validate_Ok_justified, well_formed_justified. Qed.

(** ** Lookup and routing *)

Lemma cluster_Some cfg name c :
  cluster cfg name = Some c → c ∈ rc_clusters cfg ∧ c_name c = name.
Proof. intros [Hc Hn]%find_Some_elem. by rewrite bool_decide_eq_true in Hn. Qed.

Lemma cluster_None cfg name : cluster cfg name = None ↔ name ∉ cluster_names_of cfg.
Proof.
  unfold cluster, cluster_names_of. rewrite find_None_forall, list_elem_of_fmap.
  setoid_rewrite bool_decide_eq_false. naive_solver.
Qed.

(** [first_match vhs input r]: [r] is the first route, in declaration order,
    that matches among those of the virtual hosts that match the host. *)
Definition first_match (vhs : list VirtualHost) (input : MatchInput) (r : Route) : Prop :=
  ∃ vs1 vh vs2 rs1 rs2,
    vhs = vs1 ++ vh :: vs2 ∧ vh_routes vh = rs1 ++ r :: rs2 ∧
    matches_host vh (mi_host input) = true ∧ route_matches r input = true ∧
    (∀ r', r' ∈ rs1 → route_matches r' input = false) ∧
    (∀ vh' r', vh' ∈ vs1 → matches_host vh' (mi_host input) = true →
       r' ∈ vh_routes vh' → route_matches r' input = false).

Definition no_match (vhs : list VirtualHost) (input : MatchInput) : Prop :=
  ∀ vh r, vh ∈ vhs → matches_host vh (mi_host input) = true →
    r ∈ vh_routes vh → route_matches r input = false.

Definition find_route (vhs : list VirtualHost) (input : MatchInput) : option Route :=
  List.find (λ r, route_matches r input)
    (List.flat_map vh_routes (List.filter (λ vh, matches_host vh (mi_host input)) vhs)).

Lemma find_route_None vhs input : find_route vhs input = None ↔ no_match vhs input.
Proof.
  unfold find_route, no_match. rewrite find_None_forall.
  setoid_rewrite elem_of_flat_map. setoid_rewrite elem_of_bfilter. naive_solver.
Qed.

Lemma find_app {A} (f : A → bool) l1 l2 :
  List.find f (l1 ++ l2) = match List.find f l1 with Some x => Some x | None => List.find f l2 end.
Proof. induction l1 as [|x l1 IH]; simpl; [done|]. by destruct (f x). Qed.

Lemma find_route_cons vh vhs input :
  find_route (vh :: vhs) input =
  match (if matches_host vh (mi_host input)
         then List.find (λ r, route_matches r input) (vh_routes vh) else None) with
  | Some r => Some r
  | None => find_route vhs input
  end.
Proof.
  unfold find_route. simpl. destruct (matches_host vh (mi_host input)); simpl; [|done].
  apply find_app.
Qed.

Lemma first_match_cons_ne vh vhs input r :
  (matches_host vh (mi_host input) = true → ∀ r', r' ∈ vh_routes vh → route_matches r' input = false) →
  first_match (vh :: vhs) input r ↔ first_match vhs input r.
Proof.
  intros Hno. split.
  - intros ([|v vs1] & v0 & vs2 & rs1 & rs2 & Hvs & Hrs & Hh & Hr & Hrs1 & Hvs1);
      simplify_eq/=.
    + specialize (Hno Hh r). rewrite Hrs in Hno. rewrite Hno in Hr by set_solver. done.
    + exists vs1, v0, vs2, rs1, rs2. split_and!; try done. intros v' r' Hv'.
      apply Hvs1. by right.
  - intros (vs1 & v0 & vs2 & rs1 & rs2 & -> & Hrs & Hh & Hr & Hrs1 & Hvs1).
    exists (vh :: vs1), v0, vs2, rs1, rs2. split_and!; try done.
    intros v' r' [->|Hv']%elem_of_cons; [by auto|by apply Hvs1].
Qed.

Lemma find_route_Some vhs input r : find_route vhs input = Some r ↔ first_match vhs input r.
Proof.
  induction vhs as [|vh vhs IH].
  { split; [done|]. intros ([] & ? & ? & ? & ? & ? & _); done. }
  rewrite find_route_cons.
  destruct (matches_host vh (mi_host input)) eqn:Hh; [|rewrite IH, first_match_cons_ne; [done|congruence]].
  destruct (List.find _ (vh_routes vh)) as [r0|] eqn:Hf.
  - apply find_Some_split in Hf as (rs1 & rs2 & Hrs & Hr0 & Hrs1).
    rewrite Forall_forall in Hrs1. split.
    + intros [= <-]. exists [], vh, vhs, rs1, rs2. split_and!; try done.
      by intros ?? ?%elem_of_nil.
    + intros ([|v vs1] & v0 & vs2 & rs1' & rs2' & Hvs & Hrs' & _ & Hr & Hrs1' & Hvs1);
        simplify_eq/=.
      * rewrite <- (proj2 (find_Some_split (λ r, route_matches r input) (vh_routes v0) r0)).
        { apply find_Some_split. exists rs1', rs2'. rewrite Forall_forall. eauto. }
        exists rs1, rs2. rewrite Forall_forall. eauto.
      * rewrite (Hvs1 v r0) in Hr0; [done|by left|done|]. rewrite Hrs. set_solver.
  - rewrite IH, first_match_cons_ne; [done|]. intros _. by apply find_None_forall.
Qed.

Lemma route_for_unfold cfg port input :
  route_for cfg port input =
  match listener_by_port cfg port with
  | Some l => ok_or (find_route (l_virtual_hosts l) input)
                (RouteNotFound (mi_host input) (mi_path input))
  | None => Err (RouteNotFound (mi_host input) (mi_path input))
  end.
Proof. unfold route_for. by destruct (listener_by_port cfg port). Qed.

Lemma first_match_elem vhs input r :
  first_match vhs input r → ∃ vh, vh ∈ vhs ∧ r ∈ vh_routes vh.
Proof.
  intros (vs1 & vh & vs2 & rs1 & rs2 & -> & Hrs & _). exists vh. rewrite Hrs. set_solver.
Qed.

Lemma route_for_has_route cfg port input r :
  route_for cfg port input = Ok r → ∃ l h, has_route cfg l h r.
Proof.
  rewrite route_for_unfold. destruct (listener_by_port cfg port) as [l|] eqn:El; [|done].
  destruct (find_route _ _) eqn:Ef; [|done]. intros [= ->].
  apply find_Some_elem in El as [Hl _].
  apply find_route_Some, first_match_elem in Ef as (vh & Hvh & Hr).
  exists l, vh. by split_and!.
Qed.

(** ** A configuration to evaluate: the gateway of the repository's examples *)

Definition example_endpoint : Endpoint :=
  {| ep_address := "127.0.0.1"; ep_port := 8080; ep_healthy := true; ep_node_name := None |}.

Definition example_route : Route :=
  {| r_name := "default";
     r_matches := [{| rm_path := Prefix "/"; rm_headers := [] |}];
     r_weighted_clusters := [{| wc_name := "backend"; wc_weight := 100 |}] |}.

Definition example_admin_route : Route :=
  {| r_name := "admin";
     r_matches := [{| rm_path := Exact "/admin";
                      rm_headers := [{| hm_name := "x-env"; hm_value := "prod" |}] |}];
     r_weighted_clusters := [{| wc_name := "admin"; wc_weight := 100 |}] |}.

Definition example_config (version : string) : RuntimeConfig :=
  {| rc_version := version;
     rc_listeners := [
       {| l_name := "http"; l_bind := SocketAddrV4 0 80; l_protocol := Http;
          l_virtual_hosts := [
            {| vh_name := "example"; vh_domains := ["*.example.com"];
               vh_routes := [example_admin_route; example_route] |}];
          l_tls_secret := None |}];
     rc_clusters := [
       {| c_name := "backend"; c_endpoints := [example_endpoint]; c_tls := None |};
       {| c_name := "admin"; c_endpoints := []; c_tls := None |}];
     rc_secrets := [] |}.

Definition example_input (path : string) (headers : list (string * string)) : MatchInput :=
  {| mi_host := "api.example.com"; mi_path := path; mi_headers := headers |}.

Lemma example_config_valid v : validate (example_config v) = Ok tt.
Proof. reflexivity. Qed.

Example example_routes_admin :
  route_for (example_config "v") 80 (example_input "/admin" [("X-Env", "prod")])
  = Ok example_admin_route.
Proof. vm_compute. reflexivity. Qed.

Example example_routes_default :
  route_for (example_config "v") 80 (example_input "/users" []) = Ok example_route.
Proof. vm_compute. reflexivity. Qed.

(** What a match means, without the string functions. *)
Lemma matches_host_spec vh host :
  matches_host vh host = true ↔
  ∃ d, d ∈ vh_domains vh ∧
    (d = "*" ∨ lowercase d = lowercase host ∨
     ∃ suffix p, d = "*." +:+ suffix ∧ host = p +:+ suffix).
Proof.
  unfold matches_host. rewrite existsb_elem. unfold domain_matches.
  setoid_rewrite orb_true_iff. setoid_rewrite orb_true_iff.
  setoid_rewrite bool_decide_eq_true. setoid_rewrite eq_ignore_ascii_case_spec.
  assert (Hw : ∀ d, match strip_prefix "*." d with
                    | Some suffix => ends_with suffix host | None => false end = true
                    ↔ ∃ suffix p, d = "*." +:+ suffix ∧ host = p +:+ suffix).
  { intros d. setoid_rewrite <- (strip_prefix_Some "*." d).
    destruct (strip_prefix "*." d) as [suf|].
    - rewrite ends_with_spec. split; [intros [p ->]; by exists suf, p|].
      intros (suf' & p & [= ->] & ->). by exists p.
    - split; [done|]. by intros (? & ? & ? & _). }
  setoid_rewrite Hw. split; intros (d & Hd & H); exists d; tauto.
Qed.

(** ** Properties *)

(** C5: [validate] accepts a configuration exactly when it is well-formed: listener
    and cluster names are unique, listeners on one address agree pairwise on
    protocol and TLS mode (although the code compares each listener only with
    the last one bound to its address), every route has a destination and every
    destination names a cluster of the configuration. *)
Theorem validate_ok_iff cfg : validate cfg = Ok tt ↔ well_formed cfg.
Proof. apply validate_Ok_well_formed. Qed.

(** C22: The conflicts [validate] reports are exactly the justified ones: none is
    reported without the defect it describes, and every defect is reported; an
    [Err] is never empty. *)
Theorem validate_conflict_iff cfg :
  match validate cfg with
  | Ok _ => ∀ c, ¬ justified cfg c
  | Err cs => cs ≠ [] ∧ ∀ c, c ∈ cs ↔ justified cfg c
  end.
Proof.
  destruct (validate cfg) as [[]|cs] eqn:E; [by apply validate_Ok_justified|].
  apply validate_Err_conflicts in E as [<- ?].
  split; [done|]. apply elem_of_validate_conflicts.
Qed.

(** C7: [route_for] returns a route exactly when it is the first match, in
    declaration order, on the first listener bound to the port; otherwise it
    returns [RouteNotFound] with the host and path of the request. *)
Theorem route_for_iff cfg port input :
  match route_for cfg port input with
  | Ok r => ∃ l, listener_by_port cfg port = Some l ∧ first_match (l_virtual_hosts l) input r
  | Err e => e = RouteNotFound (mi_host input) (mi_path input) ∧
      (listener_by_port cfg port = None ∨
       ∃ l, listener_by_port cfg port = Some l ∧ no_match (l_virtual_hosts l) input)
  end.
Proof.
  rewrite route_for_unfold. destruct (listener_by_port cfg port) as [l|]; [|by auto].
  destruct (find_route _ _) as [r|] eqn:Ef; simpl.
  - apply find_route_Some in Ef. eauto.
  - apply find_route_None in Ef. eauto.
Qed.

(** Under an accepted configuration every route that [route_for] finds has a
    destination, and each of its destinations resolves, by [cluster], to a
    cluster of that name. *)
Theorem route_for_valid_clusters cfg port input r :
  validate cfg = Ok tt → route_for cfg port input = Ok r →
  r_weighted_clusters r ≠ [] ∧
  ∀ d, d ∈ r_weighted_clusters r →
    ∃ c, cluster cfg (wc_name d) = Some c ∧ c_name c = wc_name d.
Proof.
  intros Hv%validate_Ok_well_formed (l & h & Hr)%route_for_has_route.
  split; [by eapply wf_destinations|]. intros d Hd.
  destruct (cluster cfg (wc_name d)) as [c|] eqn:Ec.
  - exists c. split; [done|]. by apply cluster_Some in Ec as [_ ?].
  - apply cluster_None in Ec. destruct Ec. by eapply wf_references.
Qed.

Lemma route_for_valid_clusters_witness :
  r_weighted_clusters example_route ≠ [] ∧
  ∀ d, d ∈ r_weighted_clusters example_route →
    ∃ c, cluster (example_config "v") (wc_name d) = Some c ∧ c_name c = wc_name d.
Proof.
  apply (route_for_valid_clusters (example_config "v") 80 (example_input "/users" []));
    vm_compute; reflexivity.
Defined.

(** C38: The domains of a virtual host: a host matches when some domain is [*], or
    equals the host up to ASCII case, or is [*.suffix] with the host ending in
    [suffix]. *)
Theorem matches_host_iff vh host :
  matches_host vh host = true ↔
  ∃ d, d ∈ vh_domains vh ∧
    (d = "*" ∨ lowercase d = lowercase host ∨
     ∃ suffix p, d = "*." +:+ suffix ∧ host = p +:+ suffix).
Proof. apply matches_host_spec. Qed.

(** A wildcard domain ignores the label boundary: [*.suffix] matches every
    host that ends in [suffix], [evilexample.com] and [example.com] for
    [*.example.com] among them. *)
Theorem wildcard_ignores_label_boundary name routes suffix p :
  matches_host {| vh_name := name; vh_domains := ["*." +:+ suffix]; vh_routes := routes |}
    (p +:+ suffix) = true.
Proof.
  unfold matches_host. simpl. rewrite orb_false_r. unfold domain_matches.
  rewrite (proj2 (strip_prefix_Some "*." ("*." +:+ suffix) suffix)) by done.
  rewrite (proj2 (ends_with_spec suffix (p +:+ suffix))) by eauto.
  apply orb_true_r.
Qed.
