(* ===== verification/Identity.v ===== *)
(** * The identity of the router (crates/core/src/identity.rs)

    [RouterIdentity] with [node_id] and [metadata].  The node id is a [~]
    separated line that the control plane splits back; [node_id_inj] says that it
    loses nothing of a Kubernetes identity. *)

From S2P Require Import Prelude RustString.

Definition NODE_TYPE_ROUTER : string := "router".
Definition DEFAULT_DNS_DOMAIN : string := "svc.cluster.local".
Definition DEFAULT_CLUSTER_ID : string := "Kubernetes".

Record RouterIdentity := {
  id_pod_name : string;
  id_namespace : string;
  id_pod_ip : string;
  id_node_name : option string;
  id_cluster_id : string;
  id_dns_domain : string }.

Record RouterMetadata := {
  md_generator : string;
  md_cluster_id : string;
  md_namespace : string;
  md_node_name : option string }.

Definition node_id (id : RouterIdentity) : string :=
  NODE_TYPE_ROUTER +:+ "~" +:+ id_pod_ip id +:+ "~" +:+ id_pod_name id +:+ "."
  +:+ id_namespace id +:+ "~" +:+ id_namespace id +:+ "." +:+ id_dns_domain id.

Definition metadata (id : RouterIdentity) : RouterMetadata :=
  {| md_generator := "grpc";
     md_cluster_id := id_cluster_id id;
     md_namespace := id_namespace id;
     md_node_name := id_node_name id |}.

(** A Kubernetes identity: no separator of the id inside its parts, and a
    namespace that is a DNS label, so without dots. *)
Record k8s_identity (id : RouterIdentity) : Prop := {
  k8s_ip : contains_char "~" (id_pod_ip id) = false;
  k8s_pod : contains_char "~" (id_pod_name id) = false;
  k8s_ns : contains_char "~" (id_namespace id) = false;
  k8s_ns_label : contains_char "." (id_namespace id) = false;
  k8s_domain : contains_char "~" (id_dns_domain id) = false }.

Lemma contains_char_concat3 c a b :
  c ≠ "."%char → contains_char c a = false → contains_char c b = false →
  contains_char c (a +:+ "." +:+ b) = false.
Proof.
  intros Hc Ha Hb. rewrite !contains_char_app, Ha, Hb. simpl.
  by rewrite bool_decide_eq_false_2.
Qed.

Lemma node_id_split id :
  k8s_identity id →
  split_on "~" (node_id id) =
  ["router"; id_pod_ip id; id_pod_name id +:+ "." +:+ id_namespace id;
   id_namespace id +:+ "." +:+ id_dns_domain id].
Proof.
  intros [Hip Hpod Hns _ Hdom]. unfold node_id.
  change ("~" +:+ ?s) with (String "~" s).
  rewrite (split_on_app "~" NODE_TYPE_ROUTER) by done.
  change ("~" +:+ id_pod_name id +:+ ?s) with (String "~" (id_pod_name id +:+ s)).
  rewrite split_on_app by done.
  replace (id_pod_name id +:+ "." +:+ id_namespace id +:+ "~" +:+ id_namespace id +:+ "."
           +:+ id_dns_domain id)
    with ((id_pod_name id +:+ "." +:+ id_namespace id)
          +:+ String "~" (id_namespace id +:+ "." +:+ id_dns_domain id))
    by (by rewrite !str_app_assoc).
  rewrite split_on_app by (by apply contains_char_concat3).
  by rewrite split_on_absent by (by apply contains_char_concat3).
Qed.

Lemma str_app_inj_r s a b : a +:+ s = b +:+ s → a = b.
Proof.
  revert b. induction a as [|x a IH]; intros b H.
  - destruct b as [|y b]; [done|]. apply (f_equal String.length) in H.
    rewrite !str_app_length in H. simpl in H. lia.
  - destruct b as [|y b].
    + apply (f_equal String.length) in H. rewrite !str_app_length in H. simpl in H. lia.
    + rewrite !str_app_cons in H. simplify_eq. f_equal. by apply IH.
Qed.

Definition example_identity : RouterIdentity :=
  {| id_pod_name := "dxgate-abc"; id_namespace := "dubbo-system"; id_pod_ip := "10.0.0.10";
     id_node_name := Some "node-a"; id_cluster_id := DEFAULT_CLUSTER_ID;
     id_dns_domain := DEFAULT_DNS_DOMAIN |}.

(** The node id determines the address, pod, namespace and domain of a
    Kubernetes identity: two identities with the same id agree on them. *)
Theorem node_id_inj id1 id2 :
  k8s_identity id1 → k8s_identity id2 → node_id id1 = node_id id2 →
  id_pod_ip id1 = id_pod_ip id2 ∧ id_pod_name id1 = id_pod_name id2 ∧
  id_namespace id1 = id_namespace id2 ∧ id_dns_domain id1 = id_dns_domain id2.
Proof.
  intros H1 H2 Heq. apply (f_equal (split_on "~")) in Heq.
  rewrite !node_id_split in Heq by done. injection Heq as Hip Hpod Hns.
  assert (id_namespace id1 = id_namespace id2 ∧ id_dns_domain id1 = id_dns_domain id2)
    as [Hn Hd].
  { apply (f_equal (split_on ".")) in Hns as Hs.
    change ("." +:+ ?s) with (String "." s) in Hs.
    change ("." +:+ id_dns_domain id2) with (String "." (id_dns_domain id2)) in Hs.
    rewrite !split_on_app in Hs by (by apply k8s_ns_label). injection Hs as Hn _.
    split; [done|]. rewrite Hn in Hns. by simplify_eq. }
  split_and!; [done| |done|done].
  rewrite Hn in Hpod. by apply str_app_inj_r in Hpod.
Qed.

(** The same pod before its node is known. *)
Definition example_identity_unscheduled : RouterIdentity :=
  {| id_pod_name := "dxgate-abc"; id_namespace := "dubbo-system"; id_pod_ip := "10.0.0.10";
     id_node_name := None; id_cluster_id := "other"; id_dns_domain := DEFAULT_DNS_DOMAIN |}.

Lemma node_id_inj_witness :
  node_id example_identity = node_id example_identity_unscheduled ∧
  id_pod_ip example_identity = id_pod_ip example_identity_unscheduled ∧
  id_pod_name example_identity = id_pod_name example_identity_unscheduled ∧
  id_namespace example_identity = id_namespace example_identity_unscheduled ∧
  id_dns_domain example_identity = id_dns_domain example_identity_unscheduled.
Proof.
  split; [reflexivity|].
  apply (node_id_inj example_identity example_identity_unscheduled);
    [constructor; reflexivity..|reflexivity].
Defined.
