(* ===== verification/ProxyState.v ===== *)
(** * The shared state of the proxy (crates/proxy/src/state.rs)

    [ProxyState] is one [Inner] behind an [Arc]: every clone sees the same
    fields.  The operations are state-passing functions on [Inner]; their
    interleavings are in [ProxyConc].

    Arithmetic is at its width.  [u32] addition wraps in a release build and
    panics in a build with overflow checks; the parameter [checks] chooses.
    [fetch_add] on the [AtomicU64] wraps in both.  [usize] has 64 bits. *)

From S2P Require Import Prelude RustString Config.

(** ** State *)

Record Inner := {
  st_config : RuntimeConfig;
  st_conflicts : list ConfigConflict;
  st_ready : bool;
  st_picker_counter : Z }.

Record Readiness := {
  rd_ready : bool;
  rd_version : string;
  rd_conflicts : list ConfigConflict }.

(** A call returns, or panics. *)
Inductive outcome (A : Type) := Ret (a : A) | Panic.
Arguments Ret {A} a.
Arguments Panic {A}.

(** [ProxyState::new]. *)
Definition new_state (initial : RuntimeConfig) : Inner :=
  {| st_config := initial; st_conflicts := []; st_ready := false; st_picker_counter := 0 |}.

(** ** The stores of [apply_config], one per lock or atomic *)

Definition store_config (cfg : RuntimeConfig) (st : Inner) : Inner :=
  {| st_config := cfg; st_conflicts := st_conflicts st; st_ready := st_ready st;
     st_picker_counter := st_picker_counter st |}.

Definition store_conflicts (cs : list ConfigConflict) (st : Inner) : Inner :=
  {| st_config := st_config st; st_conflicts := cs; st_ready := st_ready st;
     st_picker_counter := st_picker_counter st |}.

Definition store_ready (b : bool) (st : Inner) : Inner :=
  {| st_config := st_config st; st_conflicts := st_conflicts st; st_ready := b;
     st_picker_counter := st_picker_counter st |}.

(** [picker_counter.fetch_add(1)]: the old value, and the counter one further. *)
Definition fetch_add (st : Inner) : Z * Inner :=
  (st_picker_counter st,
   {| st_config := st_config st; st_conflicts := st_conflicts st; st_ready := st_ready st;
      st_picker_counter := wrap 64 (st_picker_counter st + 1) |}).

(** ** Operations *)

Definition apply_config (cfg : RuntimeConfig) (st : Inner)
    : result unit (list ConfigConflict) * Inner :=
  match validate cfg with
  | Ok tt => (Ok tt, store_ready true (store_conflicts [] (store_config cfg st)))
  | Err conflicts => (Err conflicts, store_ready false (store_conflicts conflicts st))
  end.

Definition readiness (st : Inner) : Readiness :=
  {| rd_ready := st_ready st;
     rd_version := rc_version (st_config st);
     rd_conflicts := st_conflicts st |}.

(** [u32] addition. *)
Definition add_u32 (checks : bool) (a b : Z) : outcome Z :=
  if checks && (2 ^ 32 <=? a + b) then Panic else Ret (wrap 32 (a + b)).

(** [clusters.iter().map(|c| c.weight).sum()]. *)
Fixpoint sum_u32 (checks : bool) (acc : Z) (ws : list WeightedCluster) : outcome Z :=
  match ws with
  | [] => Ret acc
  | w :: ws' =>
      match add_u32 checks acc (wc_weight w) with
      | Ret acc' => sum_u32 checks acc' ws'
      | Panic => Panic
      end
  end.

(** The closure of [find], with its captured [cursor]. *)
Fixpoint find_cursor (checks : bool) (next cursor : Z) (ws : list WeightedCluster)
    : outcome (option WeightedCluster) :=
  match ws with
  | [] => Ret None
  | w :: ws' =>
      match add_u32 checks cursor (wc_weight w) with
      | Ret cursor' =>
          if next <? cursor' then Ret (Some w) else find_cursor checks next cursor' ws'
      | Panic => Panic
      end
  end.

Definition pick_cluster (checks : bool) (clusters : list WeightedCluster) (st : Inner)
    : outcome (option WeightedCluster) * Inner :=
  match sum_u32 checks 0 clusters with
  | Panic => (Panic, st)
  | Ret total =>
      if total =? 0 then (Ret (head clusters), st)
      else
        let '(old, st') := fetch_add st in
        let next := wrap 32 old mod total in
        (find_cursor checks next 0 clusters, st')
  end.

(** Indexing out of range would panic. *)
Definition pick_endpoint (cluster_name : string) (endpoints : list Endpoint) (st : Inner)
    : outcome (result Endpoint DxgateError) * Inner :=
  let healthy := List.filter ep_healthy endpoints in
  match healthy with
  | [] => (Ret (Err (NoHealthyEndpoints cluster_name)), st)
  | _ =>
      let '(old, st') := fetch_add st in
      let idx := old mod Z.of_nat (length healthy) in
      (match healthy !! Z.to_nat idx with Some ep => Ret (Ok ep) | None => Panic end, st')
  end.

#[export] Instance outcome_eq_dec {A} `{EqDecision A} : EqDecision (outcome A).
Proof. solve_decision. Defined.

(** ** Weighted choice, without machine integers *)

Definition weights_fit (ws : list WeightedCluster) : Prop :=
  Forall (λ w, fits 32 (wc_weight w)) ws.

Definition total_weight (ws : list WeightedCluster) : Z :=
  foldr (λ w t, wc_weight w + t) 0 ws.

(** The reference: cluster [w] owns the next [wc_weight w] numbers. *)
Fixpoint select (next : Z) (ws : list WeightedCluster) : option WeightedCluster :=
  match ws with
  | [] => None
  | w :: ws' => if next <? wc_weight w then Some w else select (next - wc_weight w) ws'
  end.

(** The weight [ws] gives to [d]. *)
Definition weight_of (d : WeightedCluster) (ws : list WeightedCluster) : Z :=
  total_weight (base.filter (λ w, w = d) ws).

Lemma total_weight_nonneg ws : weights_fit ws → 0 ≤ total_weight ws.
Proof. induction 1 as [|w ws [Hw _] _ IH]; simpl; lia. Qed.

Lemma sum_u32_release acc ws :
  fits 32 acc → sum_u32 false acc ws = Ret (wrap 32 (acc + total_weight ws)).
Proof.
  revert acc. induction ws as [|w ws IH]; intros acc Hacc; simpl.
  - by rewrite Z.add_0_r, wrap_small.
  - rewrite IH by (by apply wrap_fits). by rewrite wrap_wrap_add, Z.add_assoc.
Qed.

Lemma add_u32_small checks a b : fits 32 (a + b) → add_u32 checks a b = Ret (a + b).
Proof.
  intros H. unfold add_u32. rewrite wrap_small by done.
  destruct (Z.leb_spec (2 ^ 32) (a + b)); [unfold fits in H; lia|].
  by rewrite andb_false_r.
Qed.

Lemma sum_u32_small checks acc ws :
  0 ≤ acc → weights_fit ws → acc + total_weight ws < 2 ^ 32 →
  sum_u32 checks acc ws = Ret (acc + total_weight ws).
Proof.
  intros Hacc Hws. revert acc Hacc. induction Hws as [|w ws [Hw _] Hws IH];
    intros acc Hacc Hsum; simpl in *; [by rewrite Z.add_0_r|].
  pose proof (total_weight_nonneg ws Hws).
  rewrite add_u32_small by (unfold fits; lia). rewrite IH by lia. f_equal. lia.
Qed.

Lemma sum_u32_checked_panic acc ws :
  fits 32 acc → weights_fit ws → 2 ^ 32 ≤ acc + total_weight ws →
  sum_u32 true acc ws = Panic.
Proof.
  intros Hacc Hws. revert acc Hacc. induction Hws as [|w ws [Hw _] Hws IH];
    intros acc Hacc Hsum; simpl in *; [unfold fits in Hacc; lia|].
  destruct (Z.lt_ge_cases (acc + wc_weight w) (2 ^ 32)).
  - unfold fits in *. rewrite add_u32_small by (unfold fits; lia). apply IH; lia.
  - unfold add_u32. by rewrite (proj2 (Z.leb_le _ _)) by lia.
Qed.

Lemma find_cursor_select checks next cursor ws :
  0 ≤ cursor → weights_fit ws → cursor + total_weight ws < 2 ^ 32 →
  find_cursor checks next cursor ws = Ret (select (next - cursor) ws).
Proof.
  intros Hc Hws. revert cursor Hc. induction Hws as [|w ws [Hw _] Hws IH];
    intros cursor Hc Hsum; simpl in *; [done|].
  pose proof (total_weight_nonneg ws Hws).
  rewrite add_u32_small by (unfold fits; lia).
  destruct (Z.ltb_spec next (cursor + wc_weight w)),
    (Z.ltb_spec (next - cursor) (wc_weight w)); try lia; [done|].
  rewrite IH by lia. do 2 f_equal. lia.
Qed.

(** Even when sums wrap, the search stops: its last cursor is the wrapped total,
    and [next] is below it. *)
Lemma find_cursor_release next cursor ws :
  fits 32 cursor → cursor ≤ next → next < wrap 32 (cursor + total_weight ws) →
  ∃ w, w ∈ ws ∧ find_cursor false next cursor ws = Ret (Some w).
Proof.
  revert cursor. induction ws as [|w ws IH]; intros cursor Hc Hle Hlt; simpl in *.
  - rewrite Z.add_0_r, wrap_small in Hlt by done. lia.
  - destruct (Z.ltb_spec next (wrap 32 (cursor + wc_weight w))) as [|Hge].
    + exists w. split; [by left|done].
    + destruct (IH (wrap 32 (cursor + wc_weight w))) as (w' & Hin & Hf).
      * by apply wrap_fits.
      * done.
      * by rewrite wrap_wrap_add, <- Z.add_assoc.
      * exists w'. split; [by right|done].
Qed.

Definition bump (st : Inner) : Inner := (fetch_add st).2.

Lemma pick_cluster_small checks ws st :
  weights_fit ws → 0 < total_weight ws < 2 ^ 32 →
  pick_cluster checks ws st =
  (Ret (select (wrap 32 (st_picker_counter st) mod total_weight ws) ws), bump st).
Proof.
  intros Hws [Hpos Hlt]. unfold pick_cluster.
  rewrite sum_u32_small by (done || lia). rewrite Z.add_0_l. simpl.
  destruct (Z.eqb_spec (total_weight ws) 0); [lia|].
  rewrite find_cursor_select by (done || lia). by rewrite Z.sub_0_r.
Qed.

Lemma pick_cluster_zero checks ws st :
  weights_fit ws → total_weight ws = 0 → pick_cluster checks ws st = (Ret (head ws), st).
Proof.
  intros Hws Hz. unfold pick_cluster. rewrite sum_u32_small by (done || lia).
  by rewrite Z.add_0_l, Hz.
Qed.

Lemma pick_cluster_overflow ws st :
  weights_fit ws → 2 ^ 32 ≤ total_weight ws → pick_cluster true ws st = (Panic, st).
Proof.
  intros Hws H. unfold pick_cluster. by rewrite sum_u32_checked_panic.
Qed.

Lemma pick_cluster_release ws st :
  ∃ r st', pick_cluster false ws st = (Ret r, st') ∧
    match r with Some w => w ∈ ws | None => ws = [] end.
Proof.
  unfold pick_cluster. rewrite sum_u32_release by (by vm_compute).
  rewrite Z.add_0_l. simpl. set (total := wrap 32 (total_weight ws)).
  assert (Ht : fits 32 total) by (by apply wrap_fits).
  destruct (Z.eqb_spec total 0) as [_|Hne].
  - exists (head ws), st. split; [done|]. destruct ws; [done|by left].
  - pose proof (Z.mod_pos_bound (wrap 32 (st_picker_counter st)) total) as Hn.
    unfold fits in Ht.
    destruct (find_cursor_release (wrap 32 (st_picker_counter st) mod total) 0 ws)
      as (w & Hin & ->); [done|lia|rewrite Z.add_0_l; lia|]. eauto.
Qed.

Lemma find_cursor_elem checks next cursor ws w :
  find_cursor checks next cursor ws = Ret (Some w) → w ∈ ws.
Proof.
  revert cursor. induction ws as [|x ws IH]; intros cursor; simpl; [done|].
  destruct (add_u32 checks cursor (wc_weight x)) as [cursor'|]; [|done].
  case_match; [intros [= ->]; by left|]. intros Hf. right. by eapply IH.
Qed.

(** Whatever the build, the cluster picked is one of the list. *)
Lemma pick_cluster_elem checks ws st w :
  (pick_cluster checks ws st).1 = Ret (Some w) → w ∈ ws.
Proof.
  unfold pick_cluster. destruct (sum_u32 checks 0 ws) as [total|]; [|done].
  case_match; simpl; [|apply find_cursor_elem].
  destruct ws; simpl; [done|]. intros [= ->]. by left.
Qed.

(** Only clusters with a positive weight own numbers. *)
Lemma select_positive next ws w :
  0 ≤ next → select next ws = Some w → w ∈ ws ∧ 0 < wc_weight w.
Proof.
  revert next. induction ws as [|x ws IH]; intros next Hn; simpl; [done|].
  destruct (Z.ltb_spec next (wc_weight x)).
  - intros [= ->]. split; [by left|lia].
  - intros Hs. destruct (IH (next - wc_weight x)); [lia|done|]. split; [by right|done].
Qed.

(** The reference list: every cluster as often as its weight, in order. *)
Definition expanded (ws : list WeightedCluster) : list WeightedCluster :=
  List.flat_map (λ w, replicate (Z.to_nat (wc_weight w)) w) ws.

Lemma length_expanded ws : weights_fit ws → Z.of_nat (length (expanded ws)) = total_weight ws.
Proof.
  induction 1 as [|w ws [Hw _] _ IH]; [done|]. unfold expanded in *. simpl.
  rewrite length_app, length_replicate. lia.
Qed.

Lemma select_expanded n ws :
  weights_fit ws → 0 ≤ n → select n ws = expanded ws !! Z.to_nat n.
Proof.
  intros Hws. revert n. induction Hws as [|w ws [Hw _] _ IH]; intros n Hn; [done|].
  unfold expanded. simpl. destruct (Z.ltb_spec n (wc_weight w)).
  - rewrite lookup_app_l by (rewrite length_replicate; lia).
    by rewrite lookup_replicate_2 by lia.
  - rewrite IH by lia. rewrite lookup_app_r by (rewrite length_replicate; lia).
    rewrite length_replicate. unfold expanded. f_equal. lia.
Qed.

(** ** Counting *)

Lemma length_filter_fmap {A B} (f : A → B) (P : B → Prop) `{∀ x, Decision (P x)} l :
  length (base.filter P (f <$> l)) = length (base.filter (λ x, P (f x)) l).
Proof.
  induction l as [|x l IH]; [done|]. rewrite fmap_cons, !filter_cons.
  case_decide; simpl; by rewrite IH.
Qed.

Lemma length_filter_ext {A} (P Q : A → Prop) `{∀ x, Decision (P x), ∀ x, Decision (Q x)} l :
  (∀ x, x ∈ l → P x ↔ Q x) → length (base.filter P l) = length (base.filter Q l).
Proof.
  induction l as [|x l IH]; intros Hx; [done|]. rewrite !filter_cons.
  assert (Hpq : P x ↔ Q x) by (apply Hx; by left).
  assert (IH' := IH ltac:(intros; apply Hx; by right)).
  do 2 case_decide; simpl; tauto || lia.
Qed.

Lemma length_filter_all {A} (P : A → Prop) `{∀ x, Decision (P x)} l :
  (∀ x, x ∈ l → P x) → length (base.filter P l) = length l.
Proof.
  induction l as [|x l IH]; intros HP; [done|].
  rewrite filter_cons, decide_True by (apply HP; by left).
  simpl. f_equal. apply IH. intros. apply HP. by right.
Qed.

Lemma length_filter_none {A} (P : A → Prop) `{∀ x, Decision (P x)} l :
  (∀ x, x ∈ l → ¬ P x) → length (base.filter P l) = 0%nat.
Proof.
  induction l as [|x l IH]; intros HP; [done|].
  rewrite filter_cons, decide_False by (apply HP; by left).
  apply IH. intros. apply HP. by right.
Qed.

(** Among the numbers below the total, [d] owns as many as its weight. *)
Lemma select_count d ws :
  weights_fit ws →
  Z.of_nat (length (base.filter (λ r, select r ws = Some d) (seqZ 0 (total_weight ws))))
  = weight_of d ws.
Proof.
  induction 1 as [|w ws [Hw _] Hws IH]; [done|].
  pose proof (total_weight_nonneg ws Hws) as HT. simpl.
  rewrite seqZ_app, Z.add_0_l by lia.
  replace (seqZ (wc_weight w) (total_weight ws))
    with (Z.add (wc_weight w) <$> seqZ 0 (total_weight ws))
    by (by rewrite fmap_add_seqZ, Z.add_0_r).
  rewrite filter_app, length_app, length_filter_fmap, Nat2Z.inj_add.
  assert (Hrest : length (base.filter (λ r, (if wc_weight w + r <? wc_weight w then Some w
                     else select (wc_weight w + r - wc_weight w) ws) = Some d)
                     (seqZ 0 (total_weight ws)))
                  = length (base.filter (λ r, select r ws = Some d) (seqZ 0 (total_weight ws)))).
  { apply length_filter_ext. intros r [Hr _]%elem_of_seqZ.
    destruct (Z.ltb_spec (wc_weight w + r) (wc_weight w)); [lia|].
    by replace (wc_weight w + r - wc_weight w) with r by lia. }
  rewrite Hrest, IH. unfold weight_of. rewrite filter_cons.
  assert (Hfirst : ∀ r, r ∈ seqZ 0 (wc_weight w) →
            (if r <? wc_weight w then Some w else select (r - wc_weight w) ws) = Some w).
  { intros r [_ Hr]%elem_of_seqZ. by rewrite (proj2 (Z.ltb_lt _ _)) by lia. }
  case_decide as Hd; simpl.
  - subst d. rewrite length_filter_all by done. rewrite length_seqZ. lia.
  - rewrite length_filter_none; [lia|]. intros r Hr. rewrite Hfirst by done. congruence.
Qed.

(** A window of [T] consecutive numbers meets every residue modulo [T] once. *)
Lemma window_residues a T :
  0 < T → (λ k, (a + k) mod T) <$> seqZ 0 T ≡ₚ seqZ 0 T.
Proof.
  intros HT. apply NoDup_Permutation; [|apply NoDup_seqZ|].
  - apply NoDup_fmap_2_strong; [|apply NoDup_seqZ].
    intros x y Hx%elem_of_seqZ Hy%elem_of_seqZ Heq.
    assert ((a + x - (a + y)) mod T = 0) as Hz
      by (by rewrite Zminus_mod, Heq, Z.sub_diag, Zmod_0_l).
    replace (a + x - (a + y)) with (x - y) in Hz by lia.
    apply Z.mod_divide in Hz as [q Hq]; [|lia].
    assert (q < 1 ∧ -1 < q) as [??] by (split; apply (Z.mul_lt_mono_pos_r T); lia).
    replace q with 0 in Hq by lia. lia.
  - intros y. rewrite list_elem_of_fmap. setoid_rewrite elem_of_seqZ. split.
    + intros (k & -> & _). pose proof (Z.mod_pos_bound (a + k) T HT). lia.
    + intros Hy. exists ((y - a) mod T). split.
      * rewrite Zplus_mod_idemp_r. replace (a + (y - a)) with y by lia.
        symmetry. apply Z.mod_small. lia.
      * pose proof (Z.mod_pos_bound (y - a) T HT). lia.
Qed.

(** ** Sequences of calls *)

(** [n] calls of [op], one after the other: their results in order. *)
Fixpoint repeat_op {A} (op : Inner → A * Inner) (n : nat) (st : Inner) : list A * Inner :=
  match n with
  | O => ([], st)
  | S n' =>
      let '(a, st') := op st in
      let '(rest, st'') := repeat_op op n' st' in (a :: rest, st'')
  end.

(** When each call reads the counter and advances it, the [k]-th call reads the
    counter [k] further. *)
Lemma repeat_op_counter {A} (op : Inner → A * Inner) (f : Z → A) n st :
  (∀ st, op st = (f (st_picker_counter st), bump st)) →
  fits 64 (st_picker_counter st) →
  (repeat_op op n st).1 =
  (λ k, f (wrap 64 (st_picker_counter st + k))) <$> seqZ 0 (Z.of_nat n).
Proof.
  intros Hop. revert st. induction n as [|n IH]; intros st Hst; [done|].
  replace (Z.of_nat (S n)) with (1 + Z.of_nat n) by lia.
  rewrite seqZ_app, fmap_app by lia. simpl. rewrite Hop.
  specialize (IH (bump st)). destruct (repeat_op op n (bump st)) as [rest st''].
  simpl in *. rewrite Z.add_0_r, wrap_small by done. f_equal.
  rewrite IH by (by apply wrap_fits).
  replace (seqZ (0 + 1) (Z.of_nat n)) with (Z.add 1 <$> seqZ 0 (Z.of_nat n))
    by (by rewrite fmap_add_seqZ).
  rewrite <- list_fmap_compose. apply list_fmap_ext. intros i k _. simpl.
  by rewrite wrap_wrap_add, Z.add_assoc.
Qed.

Lemma wrap32_wrap64 z : wrap 32 (wrap 64 z) = wrap 32 z.
Proof.
  unfold wrap. apply Z.mod_mod_divide. by exists (2 ^ 32).
Qed.

Lemma picks_residues checks ws st :
  weights_fit ws → 0 < total_weight ws < 2 ^ 32 → fits 64 (st_picker_counter st) →
  wrap 32 (st_picker_counter st) + total_weight ws ≤ 2 ^ 32 →
  (repeat_op (pick_cluster checks ws) (Z.to_nat (total_weight ws)) st).1 ≡ₚ
  (λ r, Ret (select r ws)) <$> seqZ 0 (total_weight ws).
Proof.
  intros Hws Ht Hst Hwin.
  rewrite (repeat_op_counter _ (λ c, Ret (select (wrap 32 c mod total_weight ws) ws)))
    by (done || intros; by apply pick_cluster_small).
  rewrite Z2Nat.id by lia.
  rewrite <- (window_residues (wrap 32 (st_picker_counter st))) at 2 by lia.
  rewrite <- list_fmap_compose. apply Permutation_refl'.
  apply list_fmap_ext. intros i k Hk. simpl.
  apply list_elem_of_lookup_2, elem_of_seqZ in Hk.
  do 3 f_equal. rewrite wrap32_wrap64. rewrite <- wrap_wrap_add.
  apply wrap_small. pose proof (wrap_fits 32 (st_picker_counter st) ltac:(lia)).
  unfold fits in *. lia.
Qed.

(** ** Endpoints *)

Lemma pick_endpoint_healthy name eps st :
  List.filter ep_healthy eps ≠ [] →
  ∃ ep, pick_endpoint name eps st = (Ret (Ok ep), bump st) ∧
    List.filter ep_healthy eps !!
      Z.to_nat (st_picker_counter st mod Z.of_nat (length (List.filter ep_healthy eps))) = Some ep.
Proof.
  intros Hne. unfold pick_endpoint. destruct (List.filter ep_healthy eps) as [|e l] eqn:E; [done|].
  rewrite <- E. simpl.
  pose proof (Z.mod_pos_bound (st_picker_counter st)
    (Z.of_nat (length (List.filter ep_healthy eps))) ltac:(rewrite E; simpl; lia)).
  destruct (lookup_lt_is_Some_2 (List.filter ep_healthy eps)
    (Z.to_nat (st_picker_counter st mod Z.of_nat (length (List.filter ep_healthy eps)))))
    as [ep Hep]; [lia|].
  exists ep. by rewrite Hep.
Qed.

(** Indices that run over all positions list the whole list. *)
Lemma lookup_seqZ_all {A} (l : list A) (d : A) :
  (λ i, default d (l !! Z.to_nat i)) <$> seqZ 0 (Z.of_nat (length l)) = l.
Proof.
  induction l as [|x l IH] using rev_ind; [done|].
  rewrite length_app. simpl. rewrite Nat2Z.inj_add, seqZ_app, fmap_app by lia. f_equal.
  - rewrite <- IH at 2. apply list_fmap_ext. intros i k Hk.
    apply list_elem_of_lookup_2, elem_of_seqZ in Hk. rewrite lookup_app_l by lia. done.
  - change (seqZ (0 + Z.of_nat (length l)) (Z.of_nat 1)) with [0 + Z.of_nat (length l)].
    rewrite Z.add_0_l, list_fmap_singleton, Nat2Z.id, lookup_app_r by done.
    by rewrite Nat.sub_diag.
Qed.

(** ** Invariant *)

(** What every reachable state satisfies: the counter is a [u64]; a ready proxy
    serves an accepted configuration and has no conflict to report. *)
Record state_inv (st : Inner) : Prop := {
  inv_counter : fits 64 (st_picker_counter st);
  inv_ready : st_ready st = true →
    validate (st_config st) = Ok tt ∧ st_conflicts st = [] }.

(** The operations a client of [ProxyState] can perform. *)
Inductive op :=
| OpApply (cfg : RuntimeConfig)
| OpPickCluster (clusters : list WeightedCluster)
| OpPickEndpoint (name : string) (endpoints : list Endpoint).

Definition run_op (checks : bool) (o : op) (st : Inner) : Inner :=
  match o with
  | OpApply cfg => (apply_config cfg st).2
  | OpPickCluster ws => (pick_cluster checks ws st).2
  | OpPickEndpoint name eps => (pick_endpoint name eps st).2
  end.

Definition run_ops (checks : bool) (os : list op) (st : Inner) : Inner :=
  fold_left (λ st o, run_op checks o st) os st.

(** The picks change nothing but the counter. *)
Definition same_but_counter (st st' : Inner) : Prop :=
  st_config st' = st_config st ∧ st_conflicts st' = st_conflicts st ∧
  st_ready st' = st_ready st.

Lemma pick_cluster_state checks ws st :
  (pick_cluster checks ws st).2 = st ∨ (pick_cluster checks ws st).2 = bump st.
Proof. unfold pick_cluster. destruct (sum_u32 _ _ _); [case_match|]; simpl; auto. Qed.

Lemma pick_endpoint_state name eps st :
  (pick_endpoint name eps st).2 = st ∨ (pick_endpoint name eps st).2 = bump st.
Proof. unfold pick_endpoint. destruct (List.filter _ _); simpl; auto. Qed.

Lemma bump_inv st : state_inv st → state_inv (bump st).
Proof. intros [Hc Hr]. constructor; simpl; [by apply wrap_fits|done]. Qed.

Lemma new_state_inv cfg : state_inv (new_state cfg).
Proof. by constructor. Qed.

Lemma run_op_inv checks o st : state_inv st → state_inv (run_op checks o st).
Proof.
  intros Hst. destruct o as [cfg|ws|name eps]; simpl.
  - unfold apply_config. destruct (validate cfg) as [[]|cs] eqn:E; simpl;
      destruct Hst; constructor; simpl; auto; by intros.
  - destruct (pick_cluster_state checks ws st) as [-> | ->]; auto using bump_inv.
  - destruct (pick_endpoint_state name eps st) as [-> | ->]; auto using bump_inv.
Qed.

#[export] Hint Resolve new_state_inv run_op_inv bump_inv : dx.

Lemma run_ops_inv checks os st : state_inv st → state_inv (run_ops checks os st).
Proof.
  revert st. induction os as [|o os IH]; intros st Hst; [done|]. simpl.
  apply IH. by apply run_op_inv.
Qed.

(** ** The abstract specification: what was applied decides what is served *)

(** The configurations applied, in order. *)
Definition applied (os : list op) : list RuntimeConfig :=
  omap (λ o, match o with OpApply cfg => Some cfg | _ => None end) os.

Definition accepted (cfg : RuntimeConfig) : Prop := validate cfg = Ok tt.

#[export] Instance accepted_dec cfg : Decision (accepted cfg).
Proof.
  refine (match validate cfg as r return validate cfg = r → Decision (accepted cfg) with
          | Ok tt => λ H, left H
          | Err _ => λ H, right _
          end eq_refl).
  unfold accepted. congruence.
Defined.

(** The last accepted configuration, or the initial one. *)
Definition spec_config (init : RuntimeConfig) (cfgs : list RuntimeConfig) : RuntimeConfig :=
  default init (last (base.filter accepted cfgs)).

(** What the last application reported. *)
Definition spec_conflicts (cfgs : list RuntimeConfig) : list ConfigConflict :=
  match last cfgs with Some cfg => validate_conflicts cfg | None => [] end.

Definition spec_ready (cfgs : list RuntimeConfig) : bool :=
  match last cfgs with Some cfg => bool_decide (accepted cfg) | None => false end.

Definition spec_readiness (init : RuntimeConfig) (cfgs : list RuntimeConfig) : Readiness :=
  {| rd_ready := spec_ready cfgs;
     rd_version := rc_version (spec_config init cfgs);
     rd_conflicts := spec_conflicts cfgs |}.

Definition meets_spec (init : RuntimeConfig) (cfgs : list RuntimeConfig) (st : Inner) : Prop :=
  st_config st = spec_config init cfgs ∧ st_conflicts st = spec_conflicts cfgs ∧
  st_ready st = spec_ready cfgs.

Lemma apply_config_meets init cfgs cfg st :
  meets_spec init cfgs st → meets_spec init (cfgs ++ [cfg]) (apply_config cfg st).2.
Proof.
  intros (Hc & _ & _). unfold meets_spec, spec_config, spec_conflicts, spec_ready, apply_config.
  rewrite !last_snoc, filter_app, filter_cons, filter_nil.
  destruct (validate cfg) as [[]|cs] eqn:E.
  - rewrite bool_decide_eq_true_2, decide_True by done. rewrite last_snoc. simpl.
    apply validate_Ok_conflicts in E. by rewrite E.
  - rewrite bool_decide_eq_false_2, decide_False by (unfold accepted; congruence).
    rewrite app_nil_r. simpl. apply validate_Err_conflicts in E as [-> _]. by rewrite Hc.
Qed.

Lemma run_ops_meets checks init cfgs os st :
  meets_spec init cfgs st → meets_spec init (cfgs ++ applied os) (run_ops checks os st).
Proof.
  revert cfgs st. induction os as [|o os IH]; intros cfgs st Hst; simpl.
  { by rewrite app_nil_r. }
  destruct o as [cfg|ws|name eps]; simpl.
  - change (cfg :: applied os) with ([cfg] ++ applied os). rewrite app_assoc.
    apply IH. by apply apply_config_meets.
  - apply IH. by destruct (pick_cluster_state checks ws st) as [-> | ->].
  - apply IH. by destruct (pick_endpoint_state name eps st) as [-> | ->].
Qed.

(** ** Properties *)

(** C6: [ProxyState] implements its specification: after any sequence of
    operations on a fresh state, what is served is the last accepted
    configuration (a rejected one never replaces it), and [readiness] reports
    the verdict of the last application with its conflicts. *)
Theorem run_ops_refines_spec checks init os :
  let st := run_ops checks os (new_state init) in
  st_config st = spec_config init (applied os) ∧
  readiness st = spec_readiness init (applied os).
Proof.
  destruct (run_ops_meets checks init [] os (new_state init)) as (Hc & Hf & Hr); [done|].
  simpl in *. split; [done|]. unfold readiness, spec_readiness. by rewrite Hc, Hf, Hr.
Qed.

(** After any sequence of operations on a fresh state, a ready proxy serves an
    accepted configuration and reports no conflict, and the picker counter is a
    64-bit number. *)
Theorem proxy_state_invariant checks init os :
  state_inv (run_ops checks os (new_state init)).
Proof. apply run_ops_inv, new_state_inv. Qed.

(** C28: In a release build [pick_cluster] always returns, and returns a cluster of
    the list whenever the list has one, even when the sum of the weights or the
    running cursor wraps around 32 bits. *)
Theorem pick_cluster_total ws st :
  ∃ r st', pick_cluster false ws st = (Ret r, st') ∧
    (r = None ↔ ws = []) ∧ ∀ w, r = Some w → w ∈ ws.
Proof.
  destruct (pick_cluster_release ws st) as (r & st' & Hp & Hr). exists r, st'.
  split; [done|]. destruct r as [w|].
  - split; [|by intros ? [= ->]]. split; [done|]. intros ->. by apply elem_of_nil in Hr.
  - done.
Qed.

(** A build with overflow checks panics exactly when the weights sum to
    [2^32] or more, before it touches the counter; otherwise it behaves as the
    release build does. *)
Theorem pick_cluster_checked ws st :
  weights_fit ws →
  pick_cluster true ws st =
    if 2 ^ 32 <=? total_weight ws then (Panic, st) else pick_cluster false ws st.
Proof.
  intros Hws. pose proof (total_weight_nonneg ws Hws).
  destruct (Z.leb_spec (2 ^ 32) (total_weight ws)); [by apply pick_cluster_overflow|].
  destruct (Z.eq_dec (total_weight ws) 0).
  - by rewrite !pick_cluster_zero.
  - by rewrite !pick_cluster_small by (done || lia).
Qed.

Definition weights_2_1 : list WeightedCluster :=
  [{| wc_name := "a"; wc_weight := 2 |}; {| wc_name := "b"; wc_weight := 1 |}].

Lemma weights_2_1_fit : weights_fit weights_2_1.
Proof. repeat constructor; vm_compute; done. Qed.

Lemma pick_cluster_checked_witness :
  pick_cluster true weights_2_1 (new_state (empty_config "t")) =
  pick_cluster false weights_2_1 (new_state (empty_config "t")).
Proof.
  exact (pick_cluster_checked weights_2_1 (new_state (empty_config "t")) weights_2_1_fit).
Defined.

(** C27: Weighted picking is fair: over as many consecutive calls as the total
    weight, each cluster is picked exactly as often as its weight (as long as
    the low 32 bits of the counter do not wrap within the window). *)
Theorem pick_cluster_fair checks ws st d :
  weights_fit ws → 0 < total_weight ws < 2 ^ 32 → fits 64 (st_picker_counter st) →
  wrap 32 (st_picker_counter st) + total_weight ws ≤ 2 ^ 32 →
  Z.of_nat (length (base.filter (λ o, o = Ret (Some d))
    (repeat_op (pick_cluster checks ws) (Z.to_nat (total_weight ws)) st).1))
  = weight_of d ws.
Proof.
  intros Hws Ht Hst Hwin. rewrite <- select_count by done.
  rewrite (picks_residues checks ws st) by done. rewrite length_filter_fmap. f_equal.
  apply length_filter_ext. intros r _. split; congruence.
Qed.

Lemma pick_cluster_fair_witness :
  Z.of_nat (length (base.filter (λ o, o = Ret (Some {| wc_name := "a"; wc_weight := 2 |}))
    (repeat_op (pick_cluster false weights_2_1) 3 (new_state (empty_config "t"))).1)) = 2.
Proof.
  apply (pick_cluster_fair false weights_2_1 (new_state (empty_config "t"))
    {| wc_name := "a"; wc_weight := 2 |} weights_2_1_fit); vm_compute; done.
Defined.

(** C26: Where the weights are not all zero and their sum fits 32 bits, the running cursor
    of [pick_cluster] is equivalent to indexing the list in which every cluster stands as
    often as its weight, with the low 32 bits of the counter modulo the length of that
    list; the counter moves by one, with and without overflow checks. *)
Theorem pick_cluster_expanded checks ws st :
  weights_fit ws → 0 < total_weight ws < 2 ^ 32 →
  pick_cluster checks ws st =
  (Ret (expanded ws !! Z.to_nat (wrap 32 (st_picker_counter st) mod Z.of_nat (length (expanded ws)))),
   bump st).
Proof.
  intros Hws Ht. rewrite pick_cluster_small, length_expanded by done.
  rewrite select_expanded; [done..|]. apply Z.mod_pos_bound. lia.
Qed.

Lemma pick_cluster_expanded_witness :
  (pick_cluster true weights_2_1 (bump (new_state (empty_config "test")))).1 =
  Ret (Some {| wc_name := "a"; wc_weight := 2 |}).
Proof.
  rewrite (pick_cluster_expanded true weights_2_1 (bump (new_state (empty_config "test")))).
  - reflexivity.
  - exact weights_2_1_fit.
  - split; reflexivity.
Defined.

(** A cluster of weight zero gets no traffic while another has some: the
    cluster picked has a positive weight. *)
Theorem pick_cluster_positive checks ws st w :
  weights_fit ws → 0 < total_weight ws < 2 ^ 32 →
  (pick_cluster checks ws st).1 = Ret (Some w) → w ∈ ws ∧ 0 < wc_weight w.
Proof.
  intros Hws Ht. rewrite pick_cluster_small by done. simpl. intros [= Hs].
  eapply select_positive; [|done]. apply Z.mod_pos_bound. lia.
Qed.

Lemma pick_cluster_positive_witness :
  {| wc_name := "a"; wc_weight := 2 |} ∈ weights_2_1 ∧ 0 < 2.
Proof.
  apply (pick_cluster_positive false weights_2_1 (new_state (empty_config "t"))
    {| wc_name := "a"; wc_weight := 2 |} weights_2_1_fit); vm_compute; done.
Defined.

(** [pick_endpoint] never panics: it returns a healthy endpoint of the list
    and advances the counter, or, when there is none, [NoHealthyEndpoints] with
    the name of the cluster and the counter untouched. *)
Theorem pick_endpoint_spec name eps st :
  if existsb ep_healthy eps
  then ∃ ep, pick_endpoint name eps st = (Ret (Ok ep), bump st) ∧ ep ∈ eps ∧ ep_healthy ep = true
  else pick_endpoint name eps st = (Ret (Err (NoHealthyEndpoints name)), st).
Proof.
  destruct (existsb ep_healthy eps) eqn:E.
  - apply existsb_elem in E as (ep0 & Hin & Hh).
    destruct (pick_endpoint_healthy name eps st) as (ep & Hp & Hl).
    { intros Hnil. assert (Hf : ep0 ∈ List.filter ep_healthy eps) by (by apply elem_of_bfilter).
      rewrite Hnil in Hf. by apply elem_of_nil in Hf. }
    exists ep. split; [done|]. apply elem_of_bfilter. by eapply list_elem_of_lookup_2.
  - unfold pick_endpoint. replace (List.filter ep_healthy eps) with (@nil Endpoint); [done|].
    symmetry. induction eps as [|e eps IH]; [done|]. simpl in *.
    apply orb_false_iff in E as [-> E]. auto.
Qed.

(** C29: Endpoint picking is round-robin: over as many consecutive calls as there
    are healthy endpoints, each healthy endpoint is picked exactly once (as long
    as the 64-bit counter does not wrap within the window). *)
Theorem pick_endpoint_round_robin name eps st :
  List.filter ep_healthy eps ≠ [] →
  fits 64 (st_picker_counter st) →
  st_picker_counter st + Z.of_nat (length (List.filter ep_healthy eps)) ≤ 2 ^ 64 →
  (repeat_op (pick_endpoint name eps) (length (List.filter ep_healthy eps)) st).1
  ≡ₚ (Ret ∘ Ok) <$> List.filter ep_healthy eps.
Proof.
  set (h := List.filter ep_healthy eps). intros Hne Hst Hwin.
  destruct h as [|d h'] eqn:Eh; [done|]. rewrite <- Eh in *. clear Hne.
  set (n := Z.of_nat (length h)) in *. assert (Hn : 0 < n) by (unfold n; rewrite Eh; simpl; lia).
  rewrite (repeat_op_counter _ (λ c, Ret (Ok (default d (h !! Z.to_nat (c mod n)))))).
  - fold n. trans ((Ret ∘ @Ok _ DxgateError) <$> ((λ i, default d (h !! Z.to_nat i)) <$> seqZ 0 n));
      [|unfold n; by rewrite lookup_seqZ_all].
    rewrite <- list_fmap_compose.
    etrans; [|apply fmap_Permutation, (window_residues (st_picker_counter st) n Hn)].
    rewrite <- list_fmap_compose. apply Permutation_refl'. apply list_fmap_ext.
    intros i k Hk. apply list_elem_of_lookup_2, elem_of_seqZ in Hk. simpl.
    rewrite wrap_small; [done|]. unfold fits in *. lia.
  - intros st'. destruct (pick_endpoint_healthy name eps st') as (ep & Hp & Hl).
    { fold h. by rewrite Eh. }
    rewrite Hp. fold h in Hl. fold n in Hl. by rewrite Hl.
  - done.
Qed.

Definition two_endpoints : list Endpoint :=
  [{| ep_address := "10.0.0.1"; ep_port := 8080; ep_healthy := true; ep_node_name := None |};
   {| ep_address := "10.0.0.2"; ep_port := 8080; ep_healthy := true; ep_node_name := None |}].

Lemma pick_endpoint_round_robin_witness :
  (repeat_op (pick_endpoint "backend" two_endpoints) 2 (new_state (empty_config "t"))).1
  ≡ₚ (Ret ∘ Ok) <$> two_endpoints.
Proof.
  apply (pick_endpoint_round_robin "backend" two_endpoints (new_state (empty_config "t")));
    vm_compute; done.
Defined.
