(* ===== verification/ProxyConc.v ===== *)
(** * Interleavings of [ProxyState] calls

    [apply_config] takes its locks one at a time and [readiness] reads one field
    at a time, so calls that run concurrently interleave between those accesses.
    Here a call is a thread at a program point, one step per access, and the
    system steps any thread at any moment; new calls start at any moment.

    Locks matter in one place. The guards of [apply_config] are dropped at the end of
    their statement, so a write is one step; but [readiness] builds its answer in one
    expression, and the guard of its read of the configuration is a temporary that lives
    to the end of it. Between its second and its third read it holds the lock of the
    configuration for reading. A writer that comes then queues up, and as the lock is
    fair, readers that come after it wait. Nobody waits forever ([no_deadlock]).

    Whatever the interleaving, only accepted configurations are ever served
    after the initial one, and a [ready] answer carries the version of an
    accepted configuration.  Two concurrent [apply_config] calls can still leave
    a ready proxy with conflicts to report ([torn_apply]); a single writer
    cannot, since a call that runs alone is the atomic operation
    ([apply_thread_alone]). *)

From S2P Require Import Prelude Config ProxyState.

(** ** Threads *)

(** The program points of [apply_config] and of [readiness]. *)
Inductive thread :=
| ApplyStart (cfg : RuntimeConfig)
| ApplyConfig (cfg : RuntimeConfig)
| ApplyQueued (cfg : RuntimeConfig)
| ApplyClear
| ApplyReady
| RejectConflicts (cs : list ConfigConflict)
| RejectReady (cs : list ConfigConflict)
| ApplyDone (r : result unit (list ConfigConflict))
| ReadReady
| ReadVersion (ready : bool)
| ReadConflicts (ready : bool) (version : string)
| ReadDone (r : Readiness).

(** The points at which a call starts. *)
Definition thread_entry (t : thread) : bool :=
  match t with ApplyStart _ | ReadReady => true | _ => false end.

Definition thread_done (t : thread) : bool :=
  match t with ApplyDone _ | ReadDone _ => true | _ => false end.

(** ** The lock of the configuration *)

(** The calls that hold it for reading, and those in its queue for writing. *)
Definition holds_config (t : thread) : bool :=
  match t with ReadConflicts _ _ => true | _ => false end.

Definition queued (t : thread) : bool :=
  match t with ApplyQueued _ => true | _ => false end.

(** A call that cannot go on, with the lock held and others queued or not. *)
Definition waits (held others : bool) (t : thread) : bool :=
  match t with
  | ApplyConfig _ => held || others
  | ApplyQueued _ => held
  | ReadVersion _ => others
  | _ => false
  end.

(** One access to the shared state, by a call that does not wait. *)
Definition thread_step (t : thread) (st : Inner) : option (thread * Inner) :=
  match t with
  | ApplyStart cfg =>
      Some (match validate cfg with
            | Ok _ => ApplyConfig cfg
            | Err cs => RejectConflicts cs
            end, st)
  | ApplyConfig cfg | ApplyQueued cfg => Some (ApplyClear, store_config cfg st)
  | ApplyClear => Some (ApplyReady, store_conflicts [] st)
  | ApplyReady => Some (ApplyDone (Ok tt), store_ready true st)
  | RejectConflicts cs => Some (RejectReady cs, store_conflicts cs st)
  | RejectReady cs => Some (ApplyDone (Err cs), store_ready false st)
  | ApplyDone _ => None
  | ReadReady => Some (ReadVersion (st_ready st), st)
  | ReadVersion b => Some (ReadConflicts b (rc_version (st_config st)), st)
  | ReadConflicts b v =>
      Some (ReadDone {| rd_ready := b; rd_version := v; rd_conflicts := st_conflicts st |}, st)
  | ReadDone _ => None
  end.

(** ** The system *)

Record sys := { shared : Inner; threads : list thread }.

Definition initial_sys (init : RuntimeConfig) : sys :=
  {| shared := new_state init; threads := [] |}.

Definition blocked (s : sys) (t : thread) : bool :=
  waits (existsb holds_config (threads s)) (existsb queued (threads s)) t.

Inductive step : sys → sys → Prop :=
| step_call s t :
    thread_entry t = true → step s {| shared := shared s; threads := threads s ++ [t] |}
| step_thread s i t t' st' :
    threads s !! i = Some t → blocked s t = false → thread_step t (shared s) = Some (t', st') →
    step s {| shared := st'; threads := <[i := t']> (threads s) |}
| step_queue s i cfg :
    threads s !! i = Some (ApplyConfig cfg) → blocked s (ApplyConfig cfg) = true →
    step s {| shared := shared s; threads := <[i := ApplyQueued cfg]> (threads s) |}
| step_pick s :
    step s {| shared := bump (shared s); threads := threads s |}.

Definition reachable (init : RuntimeConfig) (s : sys) : Prop := rtc step (initial_sys init) s.

(** ** The invariant *)

(** What a thread knows at its program point. *)
Definition thread_inv (st : Inner) (t : thread) : Prop :=
  match t with
  | ApplyConfig cfg | ApplyQueued cfg => accepted cfg
  | ApplyClear | ApplyReady => accepted (st_config st)
  | RejectConflicts cs | RejectReady cs => cs ≠ []
  | ReadVersion true => accepted (st_config st)
  | ReadConflicts true v => ∃ cfg, accepted cfg ∧ rc_version cfg = v
  | ReadDone r => rd_ready r = true → ∃ cfg, accepted cfg ∧ rc_version cfg = rd_version r
  | _ => True
  end.

Record sys_inv (init : RuntimeConfig) (s : sys) : Prop := {
  si_config : st_config (shared s) = init ∨ accepted (st_config (shared s));
  si_ready : st_ready (shared s) = true → accepted (st_config (shared s));
  si_threads : Forall (thread_inv (shared s)) (threads s) }.

(** A step of one thread keeps what the others know: a configuration, once
    accepted, is only ever replaced by an accepted one. *)
Lemma thread_inv_stable st st' t :
  (accepted (st_config st) → accepted (st_config st')) → thread_inv st t → thread_inv st' t.
Proof. destruct t as [| | | | | | | | |[]|[]|]; simpl; auto. Qed.

Lemma thread_step_inv init st t t' st' :
  (st_config st = init ∨ accepted (st_config st)) →
  (st_ready st = true → accepted (st_config st)) →
  thread_inv st t → thread_step t st = Some (t', st') →
  (st_config st' = init ∨ accepted (st_config st')) ∧
  (st_ready st' = true → accepted (st_config st')) ∧
  (accepted (st_config st) → accepted (st_config st')) ∧
  thread_inv st' t'.
Proof.
  intros Hc Hr Ht Hs. destruct t as [cfg| | | | | | | | |b|b v|]; simplify_eq/=; try by auto.
  - destruct (validate cfg) as [[]|cs] eqn:E; simpl; [by auto|].
    apply validate_Err_conflicts in E as [_ ?]. auto.
  - split_and!; auto. destruct (st_ready st'); auto.
  - split_and!; auto. destruct b; eauto.
  - split_and!; auto. simpl. intros ->. auto.
Qed.

Lemma step_inv init s s' : sys_inv init s → step s s' → sys_inv init s'.
Proof.
  intros [Hc Hr Ht] Hstep. destruct Hstep as [s t He|s i t t' st' Hi _ Hs|s i cfg Hi _|s]; simpl in *.
  - constructor; simpl; auto. apply Forall_app. split; [done|].
    constructor; [|done]. by destruct t.
  - pose proof (Forall_lookup_1 _ _ _ _ Ht Hi) as Hti.
    destruct (thread_step_inv init _ _ _ _ Hc Hr Hti Hs) as (Hc' & Hr' & Hst & Ht').
    constructor; simpl; [done..|]. apply Forall_insert; [|done].
    eapply Forall_impl; [done|]. intros x. by apply thread_inv_stable.
  - constructor; simpl; [done..|]. apply Forall_insert; [done|].
    exact (Forall_lookup_1 _ _ _ _ Ht Hi).
  - constructor; simpl; [done..|].
    eapply Forall_impl; [done|]. intros x. by apply thread_inv_stable.
Qed.

Lemma reachable_inv init s : reachable init s → sys_inv init s.
Proof.
  intros Hr. assert (H0 : sys_inv init (initial_sys init)) by (constructor; simpl; auto; done).
  revert H0. induction Hr as [|s1 s2 s3 Hs _ IH]; eauto using step_inv.
Qed.

(** ** A call that runs alone *)

(** [n] steps of one thread, with nothing in between. *)
Fixpoint run_thread (n : nat) (t : thread) (st : Inner) : thread * Inner :=
  match n with
  | O => (t, st)
  | S n' =>
      match thread_step t st with
      | Some (t', st') => run_thread n' t' st'
      | None => (t, st)
      end
  end.

(** ** Schedules *)

Inductive move := Call (t : thread) | Run (i : nat) | Pick.

Definition exec_move (m : move) (s : sys) : option sys :=
  match m with
  | Call t =>
      if thread_entry t then Some {| shared := shared s; threads := threads s ++ [t] |} else None
  | Run i =>
      t ← threads s !! i;
      if blocked s t
      then match t with
           | ApplyConfig cfg =>
               Some {| shared := shared s; threads := <[i := ApplyQueued cfg]> (threads s) |}
           | _ => None
           end
      else '(t', st') ← thread_step t (shared s);
           Some {| shared := st'; threads := <[i := t']> (threads s) |}
  | Pick => Some {| shared := bump (shared s); threads := threads s |}
  end.

Fixpoint exec (ms : list move) (s : sys) : option sys :=
  match ms with
  | [] => Some s
  | m :: ms' => s' ← exec_move m s; exec ms' s'
  end.

Lemma exec_move_step m s s' : exec_move m s = Some s' → step s s'.
Proof.
  destruct m as [t|i|]; simpl.
  - destruct (thread_entry t) eqn:E; [|done]. intros [= <-]. by constructor.
  - destruct (threads s !! i) as [t|] eqn:Ei; [|done]. simpl.
    destruct (blocked s t) eqn:Eb.
    { destruct t; try done. intros [= <-]. by apply step_queue. }
    destruct (thread_step t (shared s)) as [[t' st']|] eqn:Et; [|done]. intros [= <-].
    by econstructor.
  - intros [= <-]. constructor.
Qed.

Lemma exec_rtc ms s s' : exec ms s = Some s' → rtc step s s'.
Proof.
  revert s. induction ms as [|m ms IH]; intros s; simpl; [by intros [= <-]|].
  destruct (exec_move m s) as [s1|] eqn:E; [|done]. simpl. intros H.
  eapply rtc_l; [by eapply exec_move_step|by apply IH].
Qed.

(** ** Progress *)

(** The steps a call has left. *)
Definition call_rank (t : thread) : nat :=
  match t with
  | ApplyStart _ => 5
  | ApplyConfig _ => 4
  | ApplyQueued _ => 3
  | ApplyClear | RejectConflicts _ => 2
  | ApplyReady | RejectReady _ => 1
  | ReadReady => 3
  | ReadVersion _ => 2
  | ReadConflicts _ _ => 1
  | ApplyDone _ | ReadDone _ => 0
  end.

Lemma call_rank_done t : thread_done t = bool_decide (call_rank t = 0%nat).
Proof. by destruct t. Qed.

Lemma thread_step_rank t st :
  match thread_step t st with
  | Some (t', _) => (call_rank t' < call_rank t)%nat
  | None => thread_done t = true
  end.
Proof. destruct t; simpl; try lia; try done. destruct (validate _); simpl; lia. Qed.

(** Some call can go on: one that holds the lock, else one that is queued for it, else
    any. *)
Lemma no_deadlock s :
  existsb (λ t, negb (thread_done t)) (threads s) = true →
  ∃ i t, threads s !! i = Some t ∧ thread_done t = false ∧ blocked s t = false.
Proof.
  intros Hopen. assert (∀ f, existsb f (threads s) = true →
    (∀ t, f t = true → thread_done t = false ∧ blocked s t = false) →
    ∃ i t, threads s !! i = Some t ∧ thread_done t = false ∧ blocked s t = false) as Hfind.
  { intros f (t & Hin & Ht)%existsb_exists Hf. apply list_elem_of_In, list_elem_of_lookup in Hin as [i Hi].
    exists i, t. by destruct (Hf t Ht). }
  unfold blocked in *. destruct (existsb holds_config (threads s)) eqn:Eh.
  { apply (Hfind holds_config Eh). by intros []. }
  destruct (existsb queued (threads s)) eqn:Eq.
  { apply (Hfind queued Eq). by intros []. }
  apply (Hfind _ Hopen). intros t Ht. apply negb_true_iff in Ht. split; [done|]. by destruct t.
Qed.

Definition sys_rank (s : sys) : nat := sum_list_with call_rank (threads s).

Lemma sum_list_with_insert {A} (f : A → nat) l i x y :
  l !! i = Some x → (sum_list_with f (<[i := y]> l) + f x = sum_list_with f l + f y)%nat.
Proof.
  revert i. induction l as [|z l IH]; intros [|i]; simpl; [done..| |].
  - intros [= ->]. lia.
  - intros Hi%IH. lia.
Qed.

(** A step of a call that has begun. *)
Definition run_step (s s' : sys) : Prop := ∃ i, exec_move (Run i) s = Some s'.

Lemma run_step_rank s s' : run_step s s' → (sys_rank s' < sys_rank s)%nat.
Proof.
  intros [i Hi]. unfold sys_rank. simpl in Hi.
  destruct (threads s !! i) as [t|] eqn:Et; [|done]. simpl in Hi. destruct (blocked s t).
  - destruct t; try done. injection Hi as <-. simpl.
    pose proof (sum_list_with_insert call_rank _ _ _ (ApplyQueued cfg) Et). simpl in *. lia.
  - pose proof (thread_step_rank t (shared s)) as Hr.
    destruct (thread_step t (shared s)) as [[t' st']|]; [|done]. injection Hi as <-. simpl.
    pose proof (sum_list_with_insert call_rank _ _ _ t' Et). lia.
Qed.

Lemma run_step_exists s :
  existsb (λ t, negb (thread_done t)) (threads s) = true → ∃ s', run_step s s'.
Proof.
  intros (i & t & Hi & Ht & Hb)%no_deadlock. pose proof (thread_step_rank t (shared s)) as Hr.
  destruct (thread_step t (shared s)) as [[t' st']|] eqn:E; [|congruence].
  eexists. exists i. simpl. rewrite Hi. simpl. by rewrite Hb, E.
Qed.

(** ** Properties *)

(** C19: The calls that have begun finish, whatever the scheduler does: however they share
    the lock of the configuration, as long as one has not returned some call can take a
    step, every step brings the end nearer, and so no run is longer than the number of
    steps that are left in all. *)
Theorem calls_finish s :
  (∀ n s', nsteps run_step n s s' → (n + sys_rank s' ≤ sys_rank s)%nat) ∧
  (∀ s', rtc run_step s s' → (∀ s'', ¬ run_step s' s'') → forallb thread_done (threads s') = true).
Proof.
  split.
  - intros n. revert s. induction n as [|n IH]; intros s s' Hn.
    + inversion Hn; subst. lia.
    + inversion Hn as [|? ? s1 ? Hs Hrest]; subst. apply run_step_rank in Hs. apply IH in Hrest. lia.
  - intros s' _ Hstop. destruct (forallb _ _) eqn:E; [done|].
    destruct (run_step_exists s') as [s'' Hs]; [|by destruct (Hstop s'')].
    apply not_true_iff_false in E. destruct (existsb _ _) eqn:Ex; [done|]. exfalso. apply E.
    apply forallb_forall. intros t Hin. destruct (thread_done t) eqn:Et; [done|].
    apply not_true_iff_false in Ex. exfalso. apply Ex, existsb_exists. exists t. by rewrite Et.
Qed.

(** C33: Whatever the interleaving of [apply_config], [readiness] and picks, the
    configuration served is the initial one or an accepted one, and it is an
    accepted one whenever the ready flag is set. *)
Theorem concurrent_config_accepted init s :
  reachable init s →
  (st_config (shared s) = init ∨ accepted (st_config (shared s))) ∧
  (st_ready (shared s) = true → accepted (st_config (shared s))).
Proof. intros [Hc Hr _]%reachable_inv. auto. Qed.

(** Whatever the interleaving, a readiness answer that says ready carries the
    version of an accepted configuration, although its fields are read one at a
    time. *)
Theorem concurrent_readiness_version init s r :
  reachable init s → ReadDone r ∈ threads s → rd_ready r = true →
  ∃ cfg, accepted cfg ∧ rc_version cfg = rd_version r.
Proof.
  intros [_ _ Ht]%reachable_inv Hin Hr. eapply Forall_forall in Ht; [|done].
  by apply Ht.
Qed.

(** A call of [apply_config] that runs alone finishes within four steps and is
    the atomic operation: same result, same state. *)
Theorem apply_thread_alone cfg st :
  run_thread 4 (ApplyStart cfg) st =
  (ApplyDone (apply_config cfg st).1, (apply_config cfg st).2).
Proof. unfold apply_config. simpl. destruct (validate cfg) as [[]|cs]; done. Qed.

(** A configuration with one defect. *)
Definition broken_config (version : string) : RuntimeConfig :=
  {| rc_version := version; rc_listeners := rc_listeners (example_config version);
     rc_clusters := []; rc_secrets := [] |}.

(** Any schedule of calls that are already there. *)
Lemma exec_runs (l : list nat) s s' : exec (Run <$> l) s = Some s' → rtc run_step s s'.
Proof.
  revert s. induction l as [|i l IH]; intros s; [by intros [= <-]|].
  cbn [fmap list_fmap exec]. destruct (exec_move (Run i) s) as [s1|] eqn:E; [|done].
  intros H. eapply rtc_l; [by exists i|]. by apply IH.
Qed.

(** C34: [apply_config] is not atomic. Let one call apply a configuration that is accepted
    and another one that is rejected, in any state. If they run at once, they can end with
    the first answered [Ok] and the second its conflicts, and leave the accepted
    configuration served and ready while the conflicts of the rejected one are reported. One
    after the other, in either order, they never do: either the state is not ready, with
    these conflicts, or it is ready and there are none. *)
Theorem torn_apply st good bad cs :
  validate good = Ok tt → validate bad = Err cs →
  (∃ s, rtc run_step {| shared := st; threads := [ApplyStart good; ApplyStart bad] |} s ∧
     threads s = [ApplyDone (Ok tt); ApplyDone (Err cs)] ∧
     st_config (shared s) = good ∧ st_ready (shared s) = true ∧
     st_conflicts (shared s) = cs ∧ cs ≠ []) ∧
  (let st' := (apply_config bad (apply_config good st).2).2 in
   st_config st' = good ∧ st_ready st' = false ∧ st_conflicts st' = cs) ∧
  (let st' := (apply_config good (apply_config bad st).2).2 in
   st_config st' = good ∧ st_ready st' = true ∧ st_conflicts st' = []).
Proof.
  intros Hg Hb. split; [|unfold apply_config; rewrite Hg, Hb; by split_and!].
  pose proof Hb as [_ Hne]%validate_Err_conflicts.
  eexists. split; [apply (exec_runs [0; 0; 0; 1; 1; 1; 0]%nat); simpl; rewrite Hg; simpl;
    rewrite Hb; simpl; reflexivity|]. by split_and!.
Qed.

Lemma torn_apply_witness :
  ∃ s, rtc run_step {| shared := new_state (empty_config "bootstrap");
      threads := [ApplyStart (example_config "ok"); ApplyStart (broken_config "bad")] |} s ∧
    st_ready (shared s) = true ∧ st_conflicts (shared s) ≠ [].
Proof.
  destruct (validate (broken_config "bad")) as [[]|cs] eqn:E; [vm_compute in E; discriminate E|].
  destruct (torn_apply (new_state (empty_config "bootstrap")) (example_config "ok")
    (broken_config "bad") cs) as [(s & Hs & _ & _ & Hr & Hc & Hne) _]; [reflexivity|exact E|].
  exists s. split; [exact Hs|]. split; [exact Hr|]. rewrite Hc. exact Hne.
Defined.

Definition served_schedule : list move :=
  [Call (ApplyStart (example_config "ok")); Call ReadReady;
   Run 0; Run 0; Run 0; Run 0; Run 1; Run 1; Run 1]%nat.

Definition served_sys : sys :=
  default (initial_sys (empty_config "bootstrap"))
    (exec served_schedule (initial_sys (empty_config "bootstrap"))).

Lemma served_sys_reachable : reachable (empty_config "bootstrap") served_sys.
Proof. apply (exec_rtc served_schedule). vm_compute. reflexivity. Qed.

(** A probe that holds the lock while a configuration comes: the writer queues up, and a
    second probe waits behind it. *)
Definition contended_schedule : list move :=
  [Call ReadReady; Call (ApplyStart (example_config "ok")); Call ReadReady;
   Run 0; Run 0; Run 1; Run 1; Run 2]%nat.

Definition contended_sys : sys :=
  default (initial_sys (empty_config "bootstrap"))
    (exec contended_schedule (initial_sys (empty_config "bootstrap"))).

Lemma contended_waits :
  (blocked contended_sys <$> threads contended_sys) = [false; true; true] ∧
  sys_rank contended_sys = 6%nat.
Proof. vm_compute. done. Qed.

Definition contended_end : list nat := [0; 1; 1; 1; 2; 2]%nat.

Definition contended_done : sys := default contended_sys (exec (Run <$> contended_end) contended_sys).

Lemma contended_run : rtc run_step contended_sys contended_done.
Proof. apply (exec_runs contended_end). vm_compute. reflexivity. Qed.

Lemma calls_finish_witness :
  ∃ s', rtc run_step contended_sys s' ∧ forallb thread_done (threads s') = true.
Proof.
  exists contended_done. pose proof contended_run as Hr. split; [exact Hr|].
  apply (proj2 (calls_finish contended_sys) contended_done Hr).
  intros s'' [i Hi]. destruct i as [|[|[|i]]]; vm_compute in Hi; discriminate Hi.
Defined.

Lemma concurrent_config_accepted_witness : accepted (st_config (shared served_sys)).
Proof.
  apply (concurrent_config_accepted (empty_config "bootstrap") served_sys served_sys_reachable).
  vm_compute. reflexivity.
Defined.

Lemma concurrent_readiness_version_witness :
  ∃ cfg, accepted cfg ∧ rc_version cfg = "ok".
Proof.
  apply (concurrent_readiness_version (empty_config "bootstrap") served_sys
    {| rd_ready := true; rd_version := "ok"; rd_conflicts := [] |} served_sys_reachable).
  - apply (list_elem_of_lookup_2 _ 1%nat). vm_compute. reflexivity.
  - reflexivity.
Defined.
