(* ===== verification/Http.v ===== *)
(** * Interfaces to the HTTP and TLS libraries

    dxgate calls the crates [http], [hyper], [rustls], [rustls_pemfile] and
    [serde_json].  None of them is part of the repository: each is a class of
    operations here, an argument of everything that uses it, and what the proofs
    rely on is a class of laws ([HttpLaws]) that state documented behaviour of
    [HeaderMap].  [list_http] is an instance on lists that satisfies the laws, so
    that the definitions evaluate. *)

From S2P Require Import Prelude RustString.

(** ** The [http] crate *)

Class HttpLib := {
  HeaderValue : Type;
  (** [HeaderValue::to_str], [None] for a value that is not visible ASCII. *)
  to_str : HeaderValue → option string;
  HeaderMap : Type;
  hm_get : HeaderMap → string → option HeaderValue;
  hm_iter : HeaderMap → list (string * HeaderValue);
  hm_remove : HeaderMap → string → HeaderMap;
  Uri : Type;
  path_and_query : Uri → option string;
  (** [str::parse::<Uri>], with the message of the error. *)
  parse_uri : string → result Uri string;
  Method : Type;
  Body : Type;
  Response : Type;
  (** [Response::builder().status(_).body(_)] and [Response::new]. *)
  build_response : Z → string → option Response;
  new_response : string → Response }.

(** What [HeaderMap] documents. *)
Class HttpLaws (H : HttpLib) : Prop := {
  hm_get_iter h n v : hm_get h n = Some v → (n, v) ∈ hm_iter h;
  hm_remove_iter h n k v : (k, v) ∈ hm_iter (hm_remove h n) ↔ (k, v) ∈ hm_iter h ∧ k ≠ n }.

Record Request {H : HttpLib} := {
  req_method : Method;
  req_uri : Uri;
  req_headers : HeaderMap;
  req_body : Body }.
Arguments Request : clear implicits.
Arguments Request H : rename.

(** [http::header::HOST]. *)
Definition HOST : string := "host".

(** Status codes. *)
Definition NOT_FOUND : Z := 404.
Definition BAD_GATEWAY : Z := 502.
Definition SERVICE_UNAVAILABLE : Z := 503.

Lemma hm_remove_get {H : HttpLib} {L : HttpLaws H} h n : hm_get (hm_remove h n) n = None.
Proof.
  destruct (hm_get (hm_remove h n) n) as [v|] eqn:E; [|done].
  apply hm_get_iter, hm_remove_iter in E as [_ ?]. done.
Qed.

(** ** TLS, PEM and the bootstrap reader *)

(** A file holds bytes; opening it can fail with a message. *)
Abbreviation FileSystem := (string → result string string).

Class TlsLib := {
  (** [rustls_pemfile]: the DER blobs of one kind found in a PEM text. *)
  pem_certs : string → result (list string) string;
  pem_pkcs8_private_keys : string → result (list string) string;
  pem_rsa_private_keys : string → result (list string) string;
  (** [rustls::RootCertStore]. *)
  RootCertStore : Type;
  roots_empty : RootCertStore;
  roots_add : RootCertStore → string → result RootCertStore string;
  (** What a verifier is asked (certificate chain, name, time), and what it can
      answer. *)
  VerifyArgs : Type;
  TlsError : Type;
  (** [InvalidCertificate(CertificateError::NotValidForName)]. *)
  not_valid_for_name : TlsError → bool;
  (** [WebPkiVerifier::new(roots, None).verify_server_cert]. *)
  webpki_verify : RootCertStore → VerifyArgs → result unit TlsError;
  ClientConfig : Type;
  (** [ClientConfig::builder()] with a custom verifier and a client certificate. *)
  build_client_config :
    (VerifyArgs → result unit TlsError) → list string → string → result ClientConfig string }.

(** ** An instance on lists *)

(** Names are lower case, as in [http]; a URI is its text; a response is its
    status and text. *)
Definition list_http : HttpLib := {|
  HeaderValue := string;
  to_str := Some;
  HeaderMap := list (string * string);
  hm_get h n := snd <$> List.find (λ p, bool_decide (p.1 = n)) h;
  hm_iter h := h;
  hm_remove h n := List.filter (λ p, bool_decide (p.1 ≠ n)) h;
  Uri := string;
  path_and_query u := Some u;
  parse_uri s := if contains_char " " s then Err "invalid uri character" else Ok s;
  Method := string;
  Body := string;
  Response := Z * string;
  build_response status body := Some (status, body);
  new_response body := (200, body) |}.

Lemma list_http_laws : HttpLaws list_http.
Proof.
  split.
  - intros h n v. simpl. destruct (List.find _ h) as [[k v']|] eqn:E; [|done].
    intros [= <-]. apply find_Some_elem in E as [Hin Hb]. simpl in Hb.
    apply bool_decide_eq_true in Hb. by subst.
  - intros h n k v. simpl. rewrite elem_of_bfilter, bool_decide_eq_true. done.
Qed.

(** A TLS library that reads a PEM text as one blob per line, [cert:], [key:] or
    [rsa:] in front. *)
Definition pem_lines (kind : string) (s : string) : result (list string) string :=
  Ok (omap (strip_prefix kind) (split_on "010" s)).

Definition list_tls : TlsLib := {|
  pem_certs := pem_lines "cert:";
  pem_pkcs8_private_keys := pem_lines "key:";
  pem_rsa_private_keys := pem_lines "rsa:";
  RootCertStore := list string;
  roots_empty := [];
  roots_add rs c := if decide (c = "") then Err "bad certificate" else Ok (rs ++ [c]);
  VerifyArgs := string * string;
  TlsError := string;
  not_valid_for_name e := bool_decide (e = "name");
  webpki_verify rs '(issuer, name) :=
    if decide (issuer ∈ rs)
    then (if decide (name = "ok") then Ok tt else Err "name") else Err "unknown issuer";
  ClientConfig := list string * string;
  build_client_config _ certs key := Ok (certs, key) |}.
