(* ===== verification/Mtls.v ===== *)
(** * Upstream mTLS (crates/proxy/src/server.rs)

    The gRPC bootstrap with its certificate providers, the loaders of PEM files,
    the certificate verifier and the pool of mTLS clients with its cache.

    The pool never evicts: [client_for_fresh] says when a cached client is the
    one a fresh build would give (the provider names and the SNI are free of the
    separator [|]), [mtls_cache_key_collision] that without it the cache hands
    out a client with another identity. *)

From S2P Require Import Prelude RustString Config Http.

(** ** Bootstrap *)

Record FileWatcherConfig := {
  fw_certificate_file : option string;
  fw_private_key_file : option string;
  fw_ca_certificate_file : option string }.

Record CertificateProvider := { cp_config : FileWatcherConfig }.

Record GrpcBootstrap := { gb_certificate_providers : gmap string CertificateProvider }.

(** The [Debug] of a [str]: quoted, with quotes, backslashes and control
    characters escaped. Characters beyond ASCII are printed as they are. *)
Definition debug_char (c : Ascii.ascii) : string :=
  let n := Ascii.nat_of_ascii c in
  if (n =? 34)%nat || (n =? 92)%nat then String "092" (String c "")
  else if (n =? 9)%nat then "\t"
  else if (n =? 10)%nat then "\n"
  else if (n =? 13)%nat then "\r"
  else if (n =? 0)%nat then "\0"
  else if (n <? 32)%nat || (n =? 127)%nat
  then
    "\u{" +:+ (if (n <? 16)%nat then "" else pretty (N.of_nat (n / 16)))
    +:+ match String.get (n mod 16)%nat "0123456789abcdef" with
        | Some d => String d "}" | None => "}" end
  else String c "".

Fixpoint debug_chars (s : string) : string :=
  match s with
  | EmptyString => ""
  | String c s' => debug_char c +:+ debug_chars s'
  end.

Definition debug_str (s : string) : string :=
  String "034" (debug_chars s +:+ String "034" "").

(** [GrpcBootstrap::provider]. *)
Definition provider (bs : GrpcBootstrap) (name : string) : result FileWatcherConfig string :=
  ok_or (cp_config <$> gb_certificate_providers bs !! name)
    ("certificate_providers[" +:+ debug_str name +:+ "] not found").

(** [FileWatcherConfig::required_path]. *)
Definition required_path (fw : FileWatcherConfig) (field prov : string) : result string string :=
  let? path :=
    (if decide (field = "certificate_file") then Ok (fw_certificate_file fw)
     else if decide (field = "private_key_file") then Ok (fw_private_key_file fw)
     else if decide (field = "ca_certificate_file") then Ok (fw_ca_certificate_file fw)
     else Err ("unknown file watcher field " +:+ field)) in
  ok_or path
    ("certificate_providers[" +:+ debug_str prov +:+ "].config." +:+ field +:+ " is required").

(** [mtls_cache_key]. *)
Definition mtls_cache_key (tls : UpstreamTls) : string :=
  default "" (tls_sni tls) +:+ "|"
  +:+ default "default" (tls_certificate_provider tls) +:+ "|"
  +:+ default "default" (tls_validation_provider tls) +:+ "|"
  +:+ join "," (tls_alpn_protocols tls).

Inductive KeyFormat := Pkcs8 | Rsa.

Section mtls.
Context {T : TlsLib}.

(** ** Loading PEM files *)

Definition load_certs (fs : FileSystem) (path label : string) : result (list string) string :=
  let? file := map_err (λ e, "open " +:+ label +:+ " " +:+ path +:+ ": " +:+ e) (fs path) in
  let? certs :=
    map_err (λ e, "parse " +:+ label +:+ " " +:+ path +:+ ": " +:+ e) (pem_certs file) in
  match certs with
  | [] => Err ("parse " +:+ label +:+ " " +:+ path +:+ ": no certificates found")
  | _ => Ok certs
  end.

(** The loop of [load_roots]. *)
Fixpoint add_roots (path : string) (roots : RootCertStore) (certs : list string)
    : result RootCertStore string :=
  match certs with
  | [] => Ok roots
  | cert :: certs' =>
      let? roots' :=
        map_err (λ e, "add data-plane CA certificate " +:+ path +:+ ": " +:+ e)
          (roots_add roots cert) in
      add_roots path roots' certs'
  end.

Definition load_roots (fs : FileSystem) (path : string) : result RootCertStore string :=
  let? certs := load_certs fs path "data-plane CA certificate" in
  add_roots path roots_empty certs.

Definition load_private_keys (fs : FileSystem) (path : string) (format : KeyFormat)
    : result (list string) string :=
  let? file :=
    map_err (λ e, "open data-plane client private key " +:+ path +:+ ": " +:+ e) (fs path) in
  map_err (λ e, "parse data-plane client private key " +:+ path +:+ ": " +:+ e)
    (match format with
     | Pkcs8 => pem_pkcs8_private_keys file
     | Rsa => pem_rsa_private_keys file
     end).

Definition load_private_key (fs : FileSystem) (path : string) : result string string :=
  let? pkcs8 := load_private_keys fs path Pkcs8 in
  match pkcs8 with
  | key :: _ => Ok key
  | [] =>
      let? rsa := load_private_keys fs path Rsa in
      match rsa with
      | key :: _ => Ok key
      | [] => Err ("parse data-plane client private key " +:+ path
                   +:+ ": no PKCS8 or RSA keys found")
      end
  end.

(** ** Verification *)

(** [SpiffeCompatibleVerifier::verify_server_cert]. *)
Definition spiffe_verify (roots : RootCertStore) (args : VerifyArgs) : result unit TlsError :=
  match webpki_verify roots args with
  | Ok verified => Ok verified
  | Err err => if not_valid_for_name err then Ok tt else Err err
  end.

(** ** The pool of clients *)

(** A client is what it is built from: its TLS configuration and the server name
    it overrides, if any. *)
Record MtlsClient := {
  mc_config : ClientConfig;
  mc_server_name : option string }.

(** A [Mutex] is poisoned once a thread panicked while holding it. *)
Record MtlsClientPool := {
  mp_bootstrap : GrpcBootstrap;
  mp_clients : gmap string MtlsClient;
  mp_poisoned : bool }.

Definition tls_config (fs : FileSystem) (bs : GrpcBootstrap) (tls : UpstreamTls)
    : result ClientConfig string :=
  let cert_provider := default "default" (tls_certificate_provider tls) in
  let root_provider := default "default" (tls_validation_provider tls) in
  let? cert_config := provider bs cert_provider in
  let? root_config := provider bs root_provider in
  let? cert_file := required_path cert_config "certificate_file" cert_provider in
  let? key_file := required_path cert_config "private_key_file" cert_provider in
  let? ca_file := required_path root_config "ca_certificate_file" root_provider in
  let? certs := load_certs fs cert_file "data-plane client certificate" in
  let? key := load_private_key fs key_file in
  let? roots := load_roots fs ca_file in
  map_err (λ e, "build data-plane mTLS client config: " +:+ e)
    (build_client_config (spiffe_verify roots) certs key).

(** The part of [client_for] that builds a client. *)
Definition build_client (fs : FileSystem) (bs : GrpcBootstrap) (tls : UpstreamTls)
    : result MtlsClient string :=
  let? config := tls_config fs bs tls in
  Ok {| mc_config := config;
        mc_server_name :=
          match tls_sni tls with
          | Some sni => if decide (sni = "") then None else Some sni
          | None => None
          end |}.

Definition client_for (fs : FileSystem) (tls : UpstreamTls) (pool : MtlsClientPool)
    : result MtlsClient string * MtlsClientPool :=
  let key := mtls_cache_key tls in
  if mp_poisoned pool then (Err "mTLS client cache lock poisoned", pool)
  else
    match mp_clients pool !! key with
    | Some client => (Ok client, pool)
    | None =>
        match build_client fs (mp_bootstrap pool) tls with
        | Err e => (Err e, pool)
        | Ok client =>
            (Ok client,
             {| mp_bootstrap := mp_bootstrap pool;
                mp_clients := <[key := client]> (mp_clients pool);
                mp_poisoned := mp_poisoned pool |})
        end
    end.

(** [MtlsClientPool::from_bootstrap]; reading the JSON is [serde_json]'s. *)
Definition from_bootstrap (parse : string → result GrpcBootstrap string) (fs : FileSystem)
    (path : string) : result MtlsClientPool string :=
  let? file := map_err (λ e, "open gRPC xDS bootstrap " +:+ path +:+ ": " +:+ e) (fs path) in
  let? bootstrap :=
    map_err (λ e, "parse gRPC xDS bootstrap " +:+ path +:+ ": " +:+ e) (parse file) in
  Ok {| mp_bootstrap := bootstrap; mp_clients := ∅; mp_poisoned := false |}.

Inductive MtlsSupport :=
| MtlsDisabled
| MtlsAvailable (pool : MtlsClientPool)
| MtlsError (err : string).

(** [UpstreamClients::from_env], of the variable [GRPC_XDS_BOOTSTRAP]. *)
Definition mtls_from_env (parse : string → result GrpcBootstrap string) (fs : FileSystem)
    (var : option string) : MtlsSupport :=
  match var with
  | Some path =>
      if decide (path = "") then MtlsDisabled
      else match from_bootstrap parse fs path with
           | Ok pool => MtlsAvailable pool
           | Err err => MtlsError err
           end
  | None => MtlsDisabled
  end.

(** ** When a key identifies what is built *)

(** Nothing in the first three components of the key is the separator. *)
Definition clean_tls (tls : UpstreamTls) : Prop :=
  contains_char "|" (default "" (tls_sni tls)) = false ∧
  contains_char "|" (default "default" (tls_certificate_provider tls)) = false ∧
  contains_char "|" (default "default" (tls_validation_provider tls)) = false.

Lemma mtls_cache_key_split tls :
  clean_tls tls →
  split_on "|" (mtls_cache_key tls) =
  default "" (tls_sni tls) :: default "default" (tls_certificate_provider tls)
  :: default "default" (tls_validation_provider tls)
  :: split_on "|" (join "," (tls_alpn_protocols tls)).
Proof.
  intros (Hs & Hc & Hv). unfold mtls_cache_key.
  change ("|" +:+ ?s) with (String "|" s). rewrite split_on_app by done. f_equal.
  change ("|" +:+ ?s) with (String "|" s). rewrite split_on_app by done. f_equal.
  change ("|" +:+ ?s) with (String "|" s). rewrite split_on_app by done. done.
Qed.

(** A build reads the SNI up to emptiness and the providers up to their default. *)
Lemma build_client_ext fs bs t1 t2 :
  default "" (tls_sni t1) = default "" (tls_sni t2) →
  default "default" (tls_certificate_provider t1) = default "default" (tls_certificate_provider t2) →
  default "default" (tls_validation_provider t1) = default "default" (tls_validation_provider t2) →
  build_client fs bs t1 = build_client fs bs t2.
Proof.
  intros Hs Hc Hv. unfold build_client, tls_config. rewrite Hc, Hv.
  assert (Hsni : match tls_sni t1 with
                 | Some sni => if decide (sni = "") then None else Some sni | None => None end
               = match tls_sni t2 with
                 | Some sni => if decide (sni = "") then None else Some sni | None => None end).
  { destruct (tls_sni t1), (tls_sni t2); simpl in Hs; subst; repeat case_decide; done. }
  by rewrite Hsni.
Qed.

Lemma mtls_cache_key_build fs bs t1 t2 :
  clean_tls t1 → clean_tls t2 → mtls_cache_key t1 = mtls_cache_key t2 →
  build_client fs bs t1 = build_client fs bs t2.
Proof.
  intros H1 H2 Hk. apply (f_equal (split_on "|")) in Hk.
  rewrite !mtls_cache_key_split in Hk by done. injection Hk as Hs Hc Hv _.
  by apply build_client_ext.
Qed.

(** Every cached client was built, from these files, for a clean configuration
    with its key. *)
Definition pool_inv (fs : FileSystem) (pool : MtlsClientPool) : Prop :=
  ∀ k c, mp_clients pool !! k = Some c →
    ∃ tls, clean_tls tls ∧ mtls_cache_key tls = k ∧
      build_client fs (mp_bootstrap pool) tls = Ok c.

Lemma client_for_inv fs tls pool :
  clean_tls tls → pool_inv fs pool → pool_inv fs (client_for fs tls pool).2.
Proof.
  intros Ht Hp. unfold client_for. destruct (mp_poisoned pool); [done|].
  destruct (mp_clients pool !! mtls_cache_key tls); [done|].
  destruct (build_client fs (mp_bootstrap pool) tls) as [c|e] eqn:Eb; [|done].
  intros k c'. simpl. rewrite lookup_insert. case_decide; [|by apply Hp].
  intros [= <-]. eauto.
Qed.

Lemma client_for_bootstrap fs tls pool :
  mp_bootstrap (client_for fs tls pool).2 = mp_bootstrap pool ∧
  mp_poisoned (client_for fs tls pool).2 = mp_poisoned pool.
Proof. unfold client_for. repeat case_match; done. Qed.

(** The clients asked for one after the other. *)
Definition client_for_all (fs : FileSystem) (tlss : list UpstreamTls) (pool : MtlsClientPool)
    : MtlsClientPool :=
  fold_left (λ pool tls, (client_for fs tls pool).2) tlss pool.

Lemma client_for_all_inv fs tlss pool :
  Forall clean_tls tlss → pool_inv fs pool →
  pool_inv fs (client_for_all fs tlss pool) ∧
  mp_bootstrap (client_for_all fs tlss pool) = mp_bootstrap pool ∧
  mp_poisoned (client_for_all fs tlss pool) = mp_poisoned pool.
Proof.
  intros Hf. revert pool. induction Hf as [|tls tlss Ht _ IH]; intros pool Hp; [done|].
  simpl. destruct (client_for_bootstrap fs tls pool) as [<- <-].
  by apply IH, client_for_inv.
Qed.

(** The clients asked for one after the other, while the files change. *)
Definition client_for_steps (uses : list (FileSystem * UpstreamTls)) (pool : MtlsClientPool)
    : MtlsClientPool :=
  fold_left (λ pool use, (client_for use.1 use.2 pool).2) uses pool.

(** A client in the cache stays there. *)
Lemma client_for_keeps fs tls pool k c :
  mp_poisoned pool = false → mp_clients pool !! k = Some c →
  mp_poisoned (client_for fs tls pool).2 = false ∧
  mp_clients (client_for fs tls pool).2 !! k = Some c.
Proof.
  intros Hp Hk. unfold client_for. rewrite Hp.
  destruct (mp_clients pool !! mtls_cache_key tls) eqn:E; [done|].
  destruct (build_client _ _ _); [|done]. split; [done|]. simpl.
  rewrite lookup_insert_ne; [done|]. congruence.
Qed.

Lemma client_for_steps_keeps uses pool k c :
  mp_poisoned pool = false → mp_clients pool !! k = Some c →
  mp_poisoned (client_for_steps uses pool) = false ∧
  mp_clients (client_for_steps uses pool) !! k = Some c.
Proof.
  revert pool. induction uses as [|[fs tls] uses IH]; intros pool Hp Hk; [done|]. simpl.
  destruct (client_for_keeps fs tls pool k c Hp Hk). by apply IH.
Qed.

Lemma client_for_caches fs tls pool c pool' :
  client_for fs tls pool = (Ok c, pool') →
  mp_poisoned pool' = false ∧ mp_clients pool' !! mtls_cache_key tls = Some c.
Proof.
  unfold client_for. destruct (mp_poisoned pool) eqn:Hp; [done|].
  destruct (mp_clients pool !! _) eqn:E; [by intros [= <- <-]|].
  destruct (build_client _ _ _); [|done]. intros [= <- <-]. simpl. by rewrite lookup_insert_eq.
Qed.

Definition empty_pool (bs : GrpcBootstrap) : MtlsClientPool :=
  {| mp_bootstrap := bs; mp_clients := ∅; mp_poisoned := false |}.

End mtls.

Arguments MtlsSupport : clear implicits.
Arguments MtlsSupport T : rename.
Arguments MtlsClientPool : clear implicits.
Arguments MtlsClientPool T : rename.
Arguments MtlsClient : clear implicits.
Arguments MtlsClient T : rename.

(** ** Data to evaluate *)

Definition example_fs : FileSystem := λ path,
  if decide (path = "/a/cert.pem") then Ok "cert:A"
  else if decide (path = "/a/key.pem") then Ok "key:KA"
  else if decide (path = "/b/cert.pem") then Ok "cert:B"
  else if decide (path = "/b/key.pem") then Ok "rsa:KB"
  else if decide (path = "/root.pem") then Ok "cert:R"
  else Err "No such file or directory (os error 2)".

Definition file_watcher (dir : string) : CertificateProvider :=
  {| cp_config := {| fw_certificate_file := Some (dir +:+ "/cert.pem");
                     fw_private_key_file := Some (dir +:+ "/key.pem");
                     fw_ca_certificate_file := Some "/root.pem" |} |}.

Definition example_bootstrap : GrpcBootstrap :=
  {| gb_certificate_providers :=
       {[ "default" := file_watcher "/a"; "b" := file_watcher "/a";
          "b|b" := file_watcher "/b" ]} |}.

Definition tls_of (sni cert validation : string) : UpstreamTls :=
  {| tls_sni := Some sni; tls_certificate_provider := Some cert;
     tls_validation_provider := Some validation; tls_alpn_protocols := ["h2"] |}.

Example cache_key_tracks_provider_and_alpn :
  mtls_cache_key {| tls_sni := Some "nginx.app.svc.cluster.local";
                    tls_certificate_provider := Some "workload";
                    tls_validation_provider := Some "roots";
                    tls_alpn_protocols := ["h2"; "http/1.1"] |}
  = "nginx.app.svc.cluster.local|workload|roots|h2,http/1.1".
Proof. reflexivity. Qed.

(** ** Properties *)

(** C35: The client cache is transparent: after any sequence of requests on a fresh
    pool whose SNI and provider names are free of [|], [client_for] answers what
    building the client anew from the same files would answer. *)
Theorem client_for_fresh {T : TlsLib} (fs : FileSystem) bs (tlss : list UpstreamTls) tls :
  Forall clean_tls tlss → clean_tls tls →
  (client_for fs tls (client_for_all fs tlss (empty_pool bs))).1 = build_client fs bs tls.
Proof.
  intros Hs Ht.
  destruct (client_for_all_inv fs tlss (empty_pool bs) Hs) as (Hinv & Hb & Hp); [by intros ??|].
  unfold client_for. rewrite Hp, Hb. simpl.
  destruct (mp_clients _ !! mtls_cache_key tls) as [c|] eqn:E.
  - destruct (Hinv _ _ E) as (tls' & Ht' & Hk & Hc). rewrite Hb in Hc. simpl in *.
    rewrite <- Hc. by apply mtls_cache_key_build.
  - by destruct (build_client fs bs tls).
Qed.

Lemma client_for_fresh_witness :
  (client_for (T := list_tls) example_fs (tls_of "x" "b" "default")
     (client_for_all example_fs [tls_of "x" "default" "b"; tls_of "x" "b" "default"]
        (empty_pool example_bootstrap))).1
  = Ok (@Build_MtlsClient list_tls (["A"], "KA") (Some "x")).
Proof.
  etransitivity; [apply (client_for_fresh (T := list_tls) example_fs example_bootstrap
    [tls_of "x" "default" "b"; tls_of "x" "b" "default"] (tls_of "x" "b" "default"))|].
  - repeat constructor; reflexivity.
  - repeat constructor; reflexivity.
  - vm_compute. reflexivity.
Defined.

(** C36: Certificates are read once. When a client has been made for a cluster's TLS
    settings, every later call for these settings answers with that client and
    changes nothing, whatever the certificate, key and root files hold by then and
    whatever other clients were asked for in between: a rotated certificate or root
    is not used until the program is restarted. *)
Theorem client_for_pinned {T : TlsLib} fs tls pool c pool' uses fs' :
  client_for fs tls pool = (Ok c, pool') →
  client_for fs' tls (client_for_steps uses pool') = (Ok c, client_for_steps uses pool').
Proof.
  intros [Hp Hk]%client_for_caches. destruct (client_for_steps_keeps uses _ _ _ Hp Hk) as [Hp' Hk'].
  unfold client_for at 1. by rewrite Hp', Hk'.
Qed.

(** The certificate of provider [default] after it was rotated. *)
Definition rotated_fs : FileSystem := λ path,
  if decide (path = "/a/cert.pem") then Ok "cert:A2"
  else if decide (path = "/a/key.pem") then Ok "key:KA2" else example_fs path.

Definition pinned_tls : UpstreamTls := tls_of "x" "default" "default".

Lemma rotated_build :
  build_client (T := list_tls) rotated_fs example_bootstrap pinned_tls
  = Ok (@Build_MtlsClient list_tls (["A2"], "KA2") (Some "x")).
Proof. vm_compute. reflexivity. Qed.

Definition pinned_pool : MtlsClientPool list_tls :=
  (client_for example_fs pinned_tls (empty_pool example_bootstrap)).2.

Lemma pinned_first :
  client_for example_fs pinned_tls (empty_pool example_bootstrap)
  = (Ok (@Build_MtlsClient list_tls (["A"], "KA") (Some "x")), pinned_pool).
Proof.
  rewrite (surjective_pairing (client_for _ _ _)). apply (f_equal (λ r, (r, pinned_pool))).
  vm_compute. reflexivity.
Qed.

Lemma client_for_pinned_witness :
  (client_for rotated_fs pinned_tls
     (client_for_steps [(rotated_fs, tls_of "y" "default" "default")] pinned_pool)).1
  = Ok (@Build_MtlsClient list_tls (["A"], "KA") (Some "x")).
Proof.
  exact (f_equal fst (client_for_pinned example_fs pinned_tls (empty_pool example_bootstrap)
    (@Build_MtlsClient list_tls (["A"], "KA") (Some "x")) pinned_pool
    [(rotated_fs, tls_of "y" "default" "default")] rotated_fs pinned_first)).
Defined.

(** The cache key does not determine the client: for a provider name or SNI
    that contains the separator, two clusters that ask for different
    certificates share a key, and the second is handed the client that presents
    the first one's certificate. *)
Theorem mtls_cache_key_collision :
  let t1 := tls_of "s|b" "b" "default" in
  let t2 := tls_of "s" "b|b" "default" in
  let bs := example_bootstrap in
  let pool := (client_for (T := list_tls) example_fs t1 (empty_pool bs)).2 in
  mtls_cache_key t1 = mtls_cache_key t2 ∧
  build_client (T := list_tls) example_fs bs t1 ≠ build_client example_fs bs t2 ∧
  (client_for example_fs t2 pool).1 = build_client example_fs bs t1.
Proof. split_and!; [reflexivity|vm_compute; congruence|vm_compute; reflexivity]. Qed.

(** The data-plane verifier accepts a certificate exactly when WebPKI does or
    when WebPKI's only objection is the name of the server; every other error is
    returned as it is. *)
Theorem spiffe_verify_spec {T : TlsLib} roots args :
  (is_ok (spiffe_verify roots args) = true ↔
     is_ok (webpki_verify roots args) = true ∨
     ∃ e, webpki_verify roots args = Err e ∧ not_valid_for_name e = true) ∧
  (∀ e, spiffe_verify roots args = Err e → webpki_verify roots args = Err e).
Proof.
  unfold spiffe_verify. destruct (webpki_verify roots args) as [v|e]; simpl; [naive_solver|].
  destruct (not_valid_for_name e) eqn:E; naive_solver.
Qed.
