(* ===== verification/Server.v ===== *)
(** * The proxy server (crates/proxy/src/server.rs)

    [forward] and what it calls: the host header, the header pairs, the choice of
    an upstream, its authority, and the plaintext and mTLS requests. The network
    is an argument, [net]; what leaves the proxy is recorded as a trace of
    requests, each with the client that sent it, so that theorems can say what
    is sent and over which kind of connection. *)

From S2P Require Import Prelude RustString Net Config ProxyState Http Mtls.

(** [endpoint_authority]. *)
Definition endpoint_authority (ep : Endpoint) : string :=
  if contains_char ":" (ep_address ep) && negb (starts_with "[" (ep_address ep))
  then "[" +:+ ep_address ep +:+ "]:" +:+ show_u (ep_port ep)
  else ep_address ep +:+ ":" +:+ show_u (ep_port ep).

(** What a reader of URIs makes of an authority with a port (RFC 3986, 3.2): before the
    last colon stands an IP literal in brackets, or a host, which has no colon. *)
Definition read_authority (authority : string) : option (string * Z) :=
  '(host, port) ← rsplit_once ":" authority;
  port ← parse_u16 port;
  match strip_prefix "[" host with
  | Some literal =>
      match rsplit_once "]" literal with
      | Some (address, EmptyString) => Some (address, port)
      | _ => None
      end
  | None => if contains_char ":" host then None else Some (host, port)
  end.

Lemma show_port_no_colon z : fits 16 z → contains_char ":" (show_u z) = false.
Proof. intros [Hz _]. by apply show_u_no_char. Qed.

Lemma read_bracketed address port :
  fits 16 port → read_authority ("[" +:+ address +:+ "]:" +:+ show_u port) = Some (address, port).
Proof.
  intros Hp. unfold read_authority.
  replace ("[" +:+ address +:+ "]:" +:+ show_u port)
    with (("[" +:+ address +:+ "]") +:+ String ":" (show_u port)) by (by rewrite !str_app_assoc).
  rewrite rsplit_once_app by by apply show_port_no_colon. simpl.
  rewrite parse_u16_show by done. simpl. rewrite str_app_nil_l. by rewrite (rsplit_once_app "]").
Qed.

Lemma read_plain host port :
  fits 16 port → starts_with "[" host = false → contains_char ":" host = false →
  read_authority (host +:+ ":" +:+ show_u port) = Some (host, port).
Proof.
  intros Hp Hs Hc. unfold read_authority.
  assert (rsplit_once ":" (host +:+ ":" +:+ show_u port) = Some (host, show_u port)) as ->
    by (apply (rsplit_once_app ":"); by apply show_port_no_colon).
  unfold starts_with in Hs. cbn [mbind option_bind]. rewrite parse_u16_show by done.
  cbn [mbind option_bind]. destruct (strip_prefix "[" host); [done|]. by rewrite Hc.
Qed.

Section server.
Context {H : HttpLib} {T : TlsLib}.

(** ** Reading the request *)

Definition host_header (headers : HeaderMap) : option string :=
  v ← hm_get headers HOST;
  host ← to_str v;
  Some (default host (head (split_on ":" host))).

Definition header_pairs (headers : HeaderMap) : list (string * string) :=
  omap (λ '(name, value), (λ v, (name, v)) <$> to_str value) (hm_iter headers).

(** The path and the [MatchInput] that [forward] builds. *)
Definition request_path (req : Request H) : string :=
  default "/" (path_and_query (req_uri req)).

Definition match_input (req : Request H) : MatchInput :=
  {| mi_host := default "*" (host_header (req_headers req));
     mi_path := request_path req;
     mi_headers := header_pairs (req_headers req) |}.

(** ** Choosing an upstream *)

Abbreviation HttpError := (Z * string)%type.

(** The part of [forward] that chooses a cluster and an endpoint. *)
Definition choose_upstream (checks : bool) (cfg : RuntimeConfig) (input : MatchInput) (st : Inner)
    : outcome (result (Cluster * Endpoint) HttpError) * Inner :=
  match route_for cfg HTTP_LISTENER_PORT input with
  | Err e => (Ret (Err (NOT_FOUND, show_DxgateError e)), st)
  | Ok route =>
      let '(picked, st1) := pick_cluster checks (r_weighted_clusters route) st in
      match picked with
      | Panic => (Panic, st1)
      | Ret None => (Ret (Err (SERVICE_UNAVAILABLE, "route has no clusters")), st1)
      | Ret (Some weighted) =>
          match cluster cfg (wc_name weighted) with
          | None =>
              (Ret (Err (SERVICE_UNAVAILABLE, "cluster " +:+ wc_name weighted +:+ " not found")),
               st1)
          | Some c =>
              let '(endpoint, st2) := pick_endpoint (c_name c) (c_endpoints c) st1 in
              match endpoint with
              | Panic => (Panic, st2)
              | Ret (Err e) => (Ret (Err (SERVICE_UNAVAILABLE, show_DxgateError e)), st2)
              | Ret (Ok ep) => (Ret (Ok (c, ep)), st2)
              end
          end
      end
  end.

Definition scheme (c : Cluster) : string :=
  match c_tls c with Some _ => "https" | None => "http" end.

(** The text of the upstream URI. *)
Definition upstream_uri (c : Cluster) (ep : Endpoint) (path : string) : string :=
  scheme c +:+ "://" +:+ endpoint_authority ep +:+ path.

(** The request that goes upstream. *)
Definition upstream_request (req : Request H) (uri : Uri) : Request H :=
  {| req_method := req_method req; req_uri := uri;
     req_headers := hm_remove (req_headers req) HOST; req_body := req_body req |}.

(** ** Sending *)

Inductive OutClient :=
| PlainClient
| TlsClient (client : MtlsClient T).

Abbreviation Network := (OutClient → Request H → result Response string).
Abbreviation Trace := (list (OutClient * Request H)).

(** [client.request(req).await], with what it leaves in the trace. *)
Definition send_request (net : Network) (c : OutClient) (req : Request H)
    : result Response HttpError * Trace :=
  (map_err (λ e, (BAD_GATEWAY, e)) (net c req), [(c, req)]).

Definition request_plain (net : Network) (req : Request H) : result Response HttpError * Trace :=
  send_request net PlainClient req.

Definition request_mtls (fs : FileSystem) (net : Network) (mtls : MtlsSupport T)
    (c : Cluster) (tls : UpstreamTls) (req : Request H)
    : result Response HttpError * MtlsSupport T * Trace :=
  match mtls with
  | MtlsAvailable pool =>
      let '(client, pool') := client_for fs tls pool in
      match client with
      | Ok client =>
          let '(r, tr) := send_request net (TlsClient client) req in
          (r, MtlsAvailable pool', tr)
      | Err err =>
          (Err (BAD_GATEWAY, "cluster " +:+ c_name c +:+ " mTLS setup failed: " +:+ err),
           MtlsAvailable pool', [])
      end
  | MtlsDisabled =>
      (Err (BAD_GATEWAY, "cluster " +:+ c_name c
              +:+ " requires mTLS but GRPC_XDS_BOOTSTRAP is not configured"), mtls, [])
  | MtlsError err =>
      (Err (BAD_GATEWAY, "cluster " +:+ c_name c
              +:+ " requires mTLS but bootstrap loading failed: " +:+ err), mtls, [])
  end.

(** ** The handler *)

Record ProxyServer := {
  sv_state : Inner;
  sv_mtls : MtlsSupport T }.

Definition with_state (srv : ProxyServer) (st : Inner) : ProxyServer :=
  {| sv_state := st; sv_mtls := sv_mtls srv |}.

Definition forward (checks : bool) (fs : FileSystem) (net : Network) (srv : ProxyServer)
    (req : Request H) : outcome (result Response HttpError) * ProxyServer * Trace :=
  let cfg := st_config (sv_state srv) in
  let path := request_path req in
  let '(chosen, st') := choose_upstream checks cfg (match_input req) (sv_state srv) in
  match chosen with
  | Panic => (Panic, with_state srv st', [])
  | Ret (Err e) => (Ret (Err e), with_state srv st', [])
  | Ret (Ok (c, ep)) =>
      match parse_uri (upstream_uri c ep path) with
      | Err e =>
          (Ret (Err (BAD_GATEWAY, "invalid upstream uri: " +:+ e)), with_state srv st', [])
      | Ok uri =>
          let req' := upstream_request req uri in
          match c_tls c with
          | Some tls =>
              let '(r, mtls', tr) := request_mtls fs net (sv_mtls srv) c tls req' in
              (Ret r, {| sv_state := st'; sv_mtls := mtls' |}, tr)
          | None =>
              let '(r, tr) := request_plain net req' in (Ret r, with_state srv st', tr)
          end
      end
  end.

Definition proxy_request (checks : bool) (fs : FileSystem) (net : Network) (srv : ProxyServer)
    (req : Request H) : outcome Response * ProxyServer * Trace :=
  let '(r, srv', tr) := forward checks fs net srv req in
  (match r with
   | Panic => Panic
   | Ret (Ok resp) => Ret resp
   | Ret (Err (status, message)) =>
       Ret (default (new_response "proxy error") (build_response status message))
   end, srv', tr).

(** ** What a choice promises *)

(** [upstream_of cfg input c ep]: [c] and [ep] may serve [input] under [cfg]. *)
Definition upstream_of (cfg : RuntimeConfig) (input : MatchInput) (c : Cluster) (ep : Endpoint)
    : Prop :=
  ∃ route w, route_for cfg HTTP_LISTENER_PORT input = Ok route ∧
    w ∈ r_weighted_clusters route ∧ cluster cfg (wc_name w) = Some c ∧
    ep ∈ c_endpoints c ∧ ep_healthy ep = true.

Lemma pick_endpoint_cases name eps st :
  (∃ ep, pick_endpoint name eps st = (Ret (Ok ep), bump st) ∧ ep ∈ eps ∧ ep_healthy ep = true) ∨
  (List.filter ep_healthy eps = [] ∧
   pick_endpoint name eps st = (Ret (Err (NoHealthyEndpoints name)), st)).
Proof.
  destruct (List.filter ep_healthy eps) as [|e l] eqn:E.
  - right. split; [done|]. unfold pick_endpoint. by rewrite E.
  - left. destruct (pick_endpoint_healthy name eps st) as (ep & Hp & Hl); [by rewrite E|].
    exists ep. split; [done|]. apply elem_of_bfilter. by eapply list_elem_of_lookup_2.
Qed.

Lemma choose_upstream_Ok checks cfg input st c ep st' :
  choose_upstream checks cfg input st = (Ret (Ok (c, ep)), st') → upstream_of cfg input c ep.
Proof.
  unfold choose_upstream. destruct (route_for _ _ _) as [route|e] eqn:Er; [|done].
  destruct (pick_cluster checks (r_weighted_clusters route) st) as [[[w|]|] st1] eqn:Ep; [|done..].
  destruct (cluster cfg (wc_name w)) as [c'|] eqn:Ec; [|done].
  destruct (pick_endpoint_cases (c_name c') (c_endpoints c') st1)
    as [(ep' & -> & Hin & Hh)|[_ ->]]; [|done].
  intros [= <- <- <-]. exists route, w. split_and!; [done| |done..].
  eapply (pick_cluster_elem checks). by rewrite Ep.
Qed.

(** The choice changes only the counter. *)
Lemma choose_upstream_state checks cfg input st :
  same_but_counter st (choose_upstream checks cfg input st).2.
Proof.
  unfold choose_upstream, same_but_counter. destruct (route_for _ _ _) as [route|e]; [|done].
  pose proof (pick_cluster_state checks (r_weighted_clusters route) st) as Hs.
  destruct (pick_cluster _ _ _) as [[[w|]|] st1]; simpl in Hs;
    try (destruct Hs as [-> | ->]; done).
  destruct (cluster cfg (wc_name w)) as [c|]; [|destruct Hs as [-> | ->]; done].
  pose proof (pick_endpoint_state (c_name c) (c_endpoints c) st1) as Hs2.
  destruct (pick_endpoint _ _ _) as [[[ep|e]|] st2]; simpl in *;
    destruct Hs as [-> | ->], Hs2 as [-> | ->]; done.
Qed.

(** The client a cluster's request goes through. *)
Definition client_matches (fs : FileSystem) (mtls : MtlsSupport T) (c : Cluster)
    (cl : OutClient) : Prop :=
  match c_tls c with
  | None => cl = PlainClient
  | Some tls => ∃ pool m, mtls = MtlsAvailable pool ∧ (client_for fs tls pool).1 = Ok m
                          ∧ cl = TlsClient m
  end.

(** A request that may leave for [req] under the state [srv]. *)
Definition may_send (fs : FileSystem) (srv : ProxyServer) (req : Request H)
    (cl : OutClient) (req' : Request H) : Prop :=
  ∃ c ep uri, upstream_of (st_config (sv_state srv)) (match_input req) c ep ∧
    parse_uri (upstream_uri c ep (request_path req)) = Ok uri ∧
    req' = upstream_request req uri ∧ client_matches fs (sv_mtls srv) c cl.

(** What the trace of a call may be, given its result. *)
Definition trace_ok (fs : FileSystem) (net : Network) (srv : ProxyServer) (req : Request H)
    (r : outcome (result Response HttpError)) (tr : Trace) : Prop :=
  match tr with
  | [] => ∀ resp, r ≠ Ret (Ok resp)
  | [(cl, req')] =>
      may_send fs srv req cl req' ∧ r = Ret (map_err (λ e, (BAD_GATEWAY, e)) (net cl req'))
  | _ => False
  end.

Lemma forward_trace_ok checks fs net srv req :
  let '(r, _, tr) := forward checks fs net srv req in trace_ok fs net srv req r tr.
Proof.
  unfold forward.
  destruct (choose_upstream _ _ _ _) as [[[[c ep]|e]|] st'] eqn:Ec; [|done..].
  apply choose_upstream_Ok in Ec.
  destruct (parse_uri _) as [uri|e] eqn:Eu; [|done].
  assert (Hm : ∀ cl, client_matches fs (sv_mtls srv) c cl →
                 may_send fs srv req cl (upstream_request req uri)).
  { intros cl Hcl. exists c, ep, uri. split_and!; done. }
  unfold client_matches in Hm. destruct (c_tls c) as [tls|] eqn:Et; simpl; [|by auto].
  unfold request_mtls. destruct (sv_mtls srv) as [|pool|err]; [done| |done].
  destruct (client_for fs tls pool) as [[m|err] pool'] eqn:Ecf; [|done]. simpl.
  split; [|done]. apply Hm. exists pool, m. by rewrite Ecf.
Qed.

(** ** Error statuses *)

(** Why no upstream is chosen under an accepted configuration. *)
Inductive refused (cfg : RuntimeConfig) (input : MatchInput) : Z → string → Prop :=
| refused_no_route :
    route_for cfg HTTP_LISTENER_PORT input = Err (RouteNotFound (mi_host input) (mi_path input)) →
    refused cfg input NOT_FOUND
      (show_DxgateError (RouteNotFound (mi_host input) (mi_path input)))
| refused_unhealthy route w c :
    route_for cfg HTTP_LISTENER_PORT input = Ok route → w ∈ r_weighted_clusters route →
    cluster cfg (wc_name w) = Some c → List.filter ep_healthy (c_endpoints c) = [] →
    refused cfg input SERVICE_UNAVAILABLE (show_DxgateError (NoHealthyEndpoints (c_name c))).

(** Why nothing can be sent to the endpoint [ep] of [c] once it is chosen: its URI does
    not parse, or the cluster asks for mTLS and there is no bootstrap, the bootstrap did
    not load, or no client can be built from it. *)
Inductive unsendable (fs : FileSystem) (mtls : MtlsSupport T) (path : string)
    (c : Cluster) (ep : Endpoint) : string → Prop :=
| unsendable_uri e :
    parse_uri (upstream_uri c ep path) = Err e →
    unsendable fs mtls path c ep ("invalid upstream uri: " +:+ e)
| unsendable_disabled tls :
    c_tls c = Some tls → mtls = MtlsDisabled →
    unsendable fs mtls path c ep ("cluster " +:+ c_name c
      +:+ " requires mTLS but GRPC_XDS_BOOTSTRAP is not configured")
| unsendable_bootstrap tls e :
    c_tls c = Some tls → mtls = MtlsError e →
    unsendable fs mtls path c ep ("cluster " +:+ c_name c
      +:+ " requires mTLS but bootstrap loading failed: " +:+ e)
| unsendable_client tls pool e :
    c_tls c = Some tls → mtls = MtlsAvailable pool → (client_for fs tls pool).1 = Err e →
    unsendable fs mtls path c ep ("cluster " +:+ c_name c +:+ " mTLS setup failed: " +:+ e).

(** The answers that [req] may get under [cfg], with what is sent for it: it is
    refused, an upstream is chosen that nothing can be sent to, or what is sent to the
    upstream is answered by the network, by a response or a failure. *)
Inductive answered (cfg : RuntimeConfig) (fs : FileSystem) (net : Network) (mtls : MtlsSupport T)
    (req : Request H) : result Response HttpError → Trace → Prop :=
| answered_refused status message :
    refused cfg (match_input req) status message →
    answered cfg fs net mtls req (Err (status, message)) []
| answered_unsendable c ep message :
    upstream_of cfg (match_input req) c ep → unsendable fs mtls (request_path req) c ep message →
    answered cfg fs net mtls req (Err (BAD_GATEWAY, message)) []
| answered_failure c ep uri cl e :
    upstream_of cfg (match_input req) c ep →
    parse_uri (upstream_uri c ep (request_path req)) = Ok uri → client_matches fs mtls c cl →
    net cl (upstream_request req uri) = Err e →
    answered cfg fs net mtls req (Err (BAD_GATEWAY, e)) [(cl, upstream_request req uri)]
| answered_response c ep uri cl resp :
    upstream_of cfg (match_input req) c ep →
    parse_uri (upstream_uri c ep (request_path req)) = Ok uri → client_matches fs mtls c cl →
    net cl (upstream_request req uri) = Ok resp →
    answered cfg fs net mtls req (Ok resp) [(cl, upstream_request req uri)].

(** Sending by a client that fits the cluster. *)
Lemma send_answered cfg fs net mtls req c ep uri cl :
  upstream_of cfg (match_input req) c ep →
  parse_uri (upstream_uri c ep (request_path req)) = Ok uri → client_matches fs mtls c cl →
  let '(r, tr) := send_request net cl (upstream_request req uri) in
  answered cfg fs net mtls req r tr.
Proof.
  intros Hup Hu Hcl. unfold send_request. destruct (net cl _) eqn:E; simpl.
  - by eapply answered_response.
  - by eapply answered_failure.
Qed.

Lemma request_plain_answered cfg fs net mtls req c ep uri :
  upstream_of cfg (match_input req) c ep →
  parse_uri (upstream_uri c ep (request_path req)) = Ok uri → c_tls c = None →
  let '(r, tr) := request_plain net (upstream_request req uri) in
  answered cfg fs net mtls req r tr.
Proof. intros Hup Hu Ht. apply (send_answered _ _ _ _ _ c ep); [done..|]. by unfold client_matches; rewrite Ht. Qed.

Lemma request_mtls_answered cfg fs net mtls req c ep uri tls :
  upstream_of cfg (match_input req) c ep →
  parse_uri (upstream_uri c ep (request_path req)) = Ok uri → c_tls c = Some tls →
  let '(r, _, tr) := request_mtls fs net mtls c tls (upstream_request req uri) in
  answered cfg fs net mtls req r tr.
Proof.
  intros Hup Hu Ht. unfold request_mtls. destruct mtls as [|pool|err] eqn:Em.
  - eapply answered_unsendable; [done|]. by eapply unsendable_disabled.
  - destruct (client_for fs tls pool) as [[m|err] pool'] eqn:Ec.
    + apply (send_answered cfg fs net (MtlsAvailable pool) req c ep uri (TlsClient m)); [done..|].
      unfold client_matches. rewrite Ht. exists pool, m. by rewrite Ec.
    + eapply answered_unsendable; [done|]. eapply unsendable_client; [done..|]. by rewrite Ec.
  - eapply answered_unsendable; [done|]. by eapply unsendable_bootstrap.
Qed.

Lemma choose_upstream_valid cfg input st :
  accepted cfg →
  match (choose_upstream false cfg input st).1 with
  | Ret (Ok (c, ep)) => upstream_of cfg input c ep
  | Ret (Err (status, message)) => refused cfg input status message
  | Panic => False
  end.
Proof.
  intros Hv. destruct (choose_upstream false cfg input st) as [[[[c ep]|e]|] st'] eqn:E; simpl;
    [by eapply choose_upstream_Ok| |]; revert E; unfold choose_upstream.
  - destruct (route_for _ _ _) as [route|e'] eqn:Er.
    + apply validate_Ok_well_formed in Hv. pose proof Er as (l & h & Hr)%route_for_has_route.
      destruct (pick_cluster_release (r_weighted_clusters route) st) as ([w|] & st1 & -> & Hw).
      2: { by apply (wf_destinations _ Hv) in Hr. }
      destruct (cluster cfg (wc_name w)) as [c|] eqn:Ec.
      2: { apply cluster_None in Ec. destruct Ec. by eapply wf_references. }
      destruct (pick_endpoint_cases (c_name c) (c_endpoints c) st1)
        as [(ep' & -> & _)|[Hno ->]]; [done|].
      intros [= <- _]. by eapply refused_unhealthy.
    + intros [= <- _]. rewrite route_for_unfold in Er.
      assert (e' = RouteNotFound (mi_host input) (mi_path input)) as ->.
      { repeat case_match; simplify_eq/=; try done.
        destruct (find_route _ _); simplify_eq/=; done. }
      apply refused_no_route. by rewrite route_for_unfold.
  - destruct (route_for _ _ _) as [route|e']; [|done].
    destruct (pick_cluster_release (r_weighted_clusters route) st) as ([w|] & st1 & -> & _);
      [|done].
    destruct (cluster cfg (wc_name w)) as [c|]; [|done].
    by destruct (pick_endpoint_cases (c_name c) (c_endpoints c) st1) as [(ep' & -> & _)|[_ ->]].
Qed.

(** ** Sequences of requests, and the shared counter *)

(** Requests handled one after the other: the trace of each. *)
Fixpoint serve_all (checks : bool) (fs : FileSystem) (net : Network) (srv : ProxyServer)
    (reqs : list (Request H)) : list Trace * ProxyServer :=
  match reqs with
  | [] => ([], srv)
  | req :: reqs' =>
      let '(_, srv', tr) := forward checks fs net srv req in
      let '(trs, srv'') := serve_all checks fs net srv' reqs' in (tr :: trs, srv'')
  end.

(** Every route has some weight to distribute and every cluster an endpoint to
    offer: each request that finds a route makes both picks. *)
Record all_serving (cfg : RuntimeConfig) : Prop := {
  as_accepted : accepted cfg;
  as_weights l h r : has_route cfg l h r →
    weights_fit (r_weighted_clusters r) ∧ 0 < total_weight (r_weighted_clusters r) < 2 ^ 32;
  as_healthy c : c ∈ rc_clusters cfg → List.filter ep_healthy (c_endpoints c) ≠ [] }.

Definition counter_even (st : Inner) : Prop := Z.even (st_picker_counter st) = true.

Lemma even_wrap64 z : Z.even (wrap 64 z) = Z.even z.
Proof.
  unfold wrap. rewrite (Z.div_mod z (2 ^ 64)) at 2 by lia.
  rewrite Z.even_add, Z.even_mul. simpl. by destruct (Z.even (z mod 2 ^ 64)).
Qed.

Lemma bump_even st : Z.even (st_picker_counter (bump st)) = negb (Z.even (st_picker_counter st)).
Proof. simpl. rewrite even_wrap64, Z.even_add. by destruct (Z.even _). Qed.

(** If the healthy endpoints of [c] are even in number, [ep] is one at an odd position,
    counted from zero. *)
Definition odd_position (c : Cluster) (ep : Endpoint) : Prop :=
  let healthy := List.filter ep_healthy (c_endpoints c) in
  Nat.even (length healthy) = true → ∃ k, Nat.odd k = true ∧ healthy !! k = Some ep.

Lemma odd_mod_even z n :
  0 < n → Z.even n = true → Z.even z = false → Nat.odd (Z.to_nat (z mod n)) = true.
Proof.
  intros Hn He Hz. pose proof (Z.mod_pos_bound z n Hn).
  assert (Z.even (z mod n) = false) as Hm.
  { rewrite (Z.div_mod z n) in Hz by lia. rewrite Z.even_add, Z.even_mul, He in Hz. simpl in Hz.
    by destruct (Z.even (z mod n)). }
  rewrite <- Nat.negb_even. apply negb_true_iff. rewrite <- Hm.
  rewrite <- (Z2Nat.id (z mod n)) at 2 by lia.
  destruct (Nat.even (Z.to_nat (z mod n))) eqn:E, (Z.even (Z.of_nat _)) eqn:E'; try done; exfalso.
  - apply Nat.even_spec in E as [k Hk]. rewrite Hk in E'.
    by rewrite Nat2Z.inj_mul, Z.even_mul in E'.
  - apply Z.even_spec in E' as [k Hk]. assert (Nat.even (Z.to_nat (z mod n)) = true); [|congruence].
    apply Nat.even_spec. exists (Z.to_nat k). lia.
Qed.

(** The two picks of a request: the endpoint is chosen at an odd counter. *)
Lemma choose_upstream_odd checks cfg input st :
  all_serving cfg → counter_even st →
  counter_even (choose_upstream checks cfg input st).2 ∧
  ∀ c ep, (choose_upstream checks cfg input st).1 = Ret (Ok (c, ep)) → odd_position c ep.
Proof.
  intros [Hv Hw Hh] He. unfold choose_upstream.
  destruct (route_for _ _ _) as [route|e] eqn:Er; [|done].
  pose proof Er as (l & h & Hr)%route_for_has_route. destruct (Hw _ _ _ Hr) as [Hwf Ht].
  rewrite pick_cluster_small by done.
  set (n := wrap 32 (st_picker_counter st) mod total_weight (r_weighted_clusters route)).
  destruct (select n (r_weighted_clusters route)) as [w|] eqn:Es.
  2: { exfalso. destruct (pick_cluster_release (r_weighted_clusters route) st)
         as (r & st' & Hp & Hr'). rewrite pick_cluster_small in Hp by done.
       injection Hp as <- _. fold n in Hr'. rewrite Es in Hr'. rewrite Hr' in Ht.
       simpl in Ht. lia. }
  assert (Hin : w ∈ r_weighted_clusters route)
    by (eapply select_positive; [|done]; apply Z.mod_pos_bound; lia).
  destruct (cluster cfg (wc_name w)) as [c|] eqn:Ec.
  2: { apply cluster_None in Ec. destruct Ec. apply validate_Ok_well_formed in Hv.
       by eapply wf_references. }
  apply cluster_Some in Ec as [Hc _].
  destruct (pick_endpoint_healthy (c_name c) (c_endpoints c) (bump st) (Hh c Hc))
    as (ep & -> & Hl). simpl.
  unfold counter_even in *. split; [rewrite !bump_even, He; done|].
  intros c' ep' [= <- <-] Hlen. eexists. split; [|exact Hl]. apply odd_mod_even.
  - specialize (Hh c Hc). destruct (List.filter ep_healthy (c_endpoints c)); [done|]. simpl. lia.
  - apply Nat.even_spec in Hlen as [k ->]. by rewrite Nat2Z.inj_mul, Z.even_mul.
  - by rewrite bump_even, He.
Qed.

Lemma forward_state checks fs net srv req :
  sv_state (forward checks fs net srv req).1.2 =
  (choose_upstream checks (st_config (sv_state srv)) (match_input req) (sv_state srv)).2.
Proof.
  unfold forward. destruct (choose_upstream _ _ _ _) as [[[[c ep]|e]|] st']; [|done..].
  destruct (parse_uri _) as [uri|e]; [|done]. destruct (c_tls c) as [tls|]; [|done].
  by destruct (request_mtls _ _ _ _ _ _) as [[r mtls'] tr].
Qed.

(** What a request that leaves says about the endpoint chosen. *)
Definition sent_to_odd (cfg : RuntimeConfig) (req : Request H) (req' : Request H) : Prop :=
  ∃ c ep, upstream_of cfg (match_input req) c ep ∧
    parse_uri (upstream_uri c ep (request_path req)) = Ok (req_uri req') ∧ odd_position c ep.

Lemma forward_odd checks fs net srv req cl req' :
  all_serving (st_config (sv_state srv)) → counter_even (sv_state srv) →
  (cl, req') ∈ (forward checks fs net srv req).2 →
  sent_to_odd (st_config (sv_state srv)) req req'.
Proof.
  intros Ha He. destruct (choose_upstream_odd checks _ (match_input req) _ Ha He) as [_ Hodd].
  unfold forward.
  destruct (choose_upstream _ _ _ _) as [[[[c ep]|e]|] st'] eqn:Ec; [|by intros ?%elem_of_nil..].
  simpl in Hodd. apply choose_upstream_Ok in Ec.
  destruct (parse_uri _) as [uri|e] eqn:Eu; [|by intros ?%elem_of_nil].
  assert (Hreq : sent_to_odd (st_config (sv_state srv)) req (upstream_request req uri)).
  { exists c, ep. split_and!; [done..|]. by apply Hodd. }
  destruct (c_tls c) as [tls|]; simpl.
  - unfold request_mtls. destruct (sv_mtls srv) as [|pool|err]; simpl; try by intros ?%elem_of_nil.
    destruct (client_for fs tls pool) as [[m|err] pool']; simpl; [|by intros ?%elem_of_nil].
    by intros [= -> ->]%list_elem_of_singleton.
  - by intros [= -> ->]%list_elem_of_singleton.
Qed.

Lemma serve_all_odd checks fs net reqs srv :
  all_serving (st_config (sv_state srv)) → counter_even (sv_state srv) →
  Forall2 (λ req tr, ∀ cl req', (cl, req') ∈ tr →
             sent_to_odd (st_config (sv_state srv)) req req')
    reqs (serve_all checks fs net srv reqs).1.
Proof.
  revert srv. induction reqs as [|req reqs IH]; intros srv Ha He; [constructor|]. simpl.
  pose proof (forward_odd checks fs net srv req) as Hf.
  pose proof (forward_state checks fs net srv req) as Hst.
  destruct (forward checks fs net srv req) as [[r srv'] tr]. simpl in *.
  pose proof (choose_upstream_state checks (st_config (sv_state srv)) (match_input req)
    (sv_state srv)) as (Hc & _ & _).
  destruct (choose_upstream_odd checks _ (match_input req) _ Ha He) as [He' _].
  rewrite <- Hst in Hc, He'. specialize (IH srv'). rewrite Hc in IH. specialize (IH Ha He').
  destruct (serve_all checks fs net srv' reqs) as [trs srv'']. simpl in *.
  constructor; [|done]. intros cl req' Hin. by eapply Hf.
Qed.

(** ** Exact paths and query strings *)

(** A request path with a query is matched by no exact path without one. *)
Lemma exact_ignores_query p path :
  contains_char "?" path = true → contains_char "?" p = false →
  path_matches (Exact p) path = false.
Proof.
  intros H1 H2. simpl. apply bool_decide_eq_false. intros ->. congruence.
Qed.

End server.

Arguments ProxyServer : clear implicits.
Arguments ProxyServer T : rename.
Arguments OutClient : clear implicits.
Arguments OutClient T : rename.

(** ** Data to evaluate *)

Definition two_endpoint_config : RuntimeConfig :=
  {| rc_version := "v1";
     rc_listeners := [
       {| l_name := "http"; l_bind := SocketAddrV4 0 80; l_protocol := Http;
          l_virtual_hosts := [
            {| vh_name := "all"; vh_domains := ["*"]; vh_routes := [example_route] |}];
          l_tls_secret := None |}];
     rc_clusters := [{| c_name := "backend"; c_endpoints := two_endpoints; c_tls := None |}];
     rc_secrets := [] |}.

Definition tls_cluster : Cluster :=
  {| c_name := "backend"; c_endpoints := [example_endpoint];
     c_tls := Some (tls_of "nginx" "default" "default") |}.

Definition tls_config_example : RuntimeConfig :=
  {| rc_version := "v1"; rc_listeners := rc_listeners two_endpoint_config;
     rc_clusters := [tls_cluster]; rc_secrets := [] |}.

Definition example_request : Request list_http :=
  @Build_Request list_http "GET" "/orders/42?debug=true"
    [("host", "shop.example.com:8080"); ("x-env", "prod")] "".

Definition example_server (cfg : RuntimeConfig) (mtls : MtlsSupport list_tls)
    : ProxyServer list_tls :=
  {| sv_state := store_ready true (store_config cfg (new_state cfg)); sv_mtls := mtls |}.

(** An upstream that echoes the path it was asked for. *)
Definition echo_net (c : OutClient list_tls) (req : Request list_http)
    : result (@Response list_http) string :=
  Ok (200, req_uri req).

Example forwards_to_backend :
  (forward false example_fs echo_net (example_server two_endpoint_config MtlsDisabled)
     example_request).1.1
  = Ret (Ok (200, "http://10.0.0.2:8080/orders/42?debug=true")).
Proof. vm_compute. reflexivity. Qed.

(** ** Properties *)

(** C8: A request causes at most one upstream request. The one that leaves is for
    a healthy endpoint of a cluster that the matched route names, at the URI made
    of that endpoint; it goes over the plaintext client only if the cluster has
    no TLS, and over the cluster's mTLS client if it has. The answer is the
    upstream's, or its failure as 502; without an upstream request there is no
    successful answer. *)
Theorem forward_trace_spec {H : HttpLib} {T : TlsLib} checks fs
    (net : OutClient T → Request H → result Response string) srv req :
  let '(r, _, tr) := forward checks fs net srv req in
  match tr with
  | [] => ∀ resp, r ≠ Ret (Ok resp)
  | [(cl, req')] =>
      may_send fs srv req cl req' ∧ r = Ret (map_err (λ e, (BAD_GATEWAY, e)) (net cl req'))
  | _ => False
  end.
Proof. apply (forward_trace_ok checks fs net srv req). Qed.

(** C9: Under an accepted configuration, in a release build, a request never makes the
    handler panic, and every answer has its reason. 404: no route on port 80 matches;
    503: a cluster that the matched route names has no healthy endpoint; in both cases
    nothing is sent. 502 with nothing sent: an endpoint was chosen, and either its URI
    does not parse, or its cluster asks for mTLS and there is no bootstrap, the bootstrap
    failed to load, or the client could not be set up. 502 after one request was sent: the
    network failed it, with the message the network gave. Any other answer is the response
    of the network to the one request sent, to an endpoint the route allows. The
    answers for a route without clusters and for a missing cluster never occur. *)
Theorem forward_accepted_outcome {H : HttpLib} {T : TlsLib} fs
    (net : OutClient T → Request H → result Response string) srv req :
  accepted (st_config (sv_state srv)) →
  let '(r, _, tr) := forward false fs net srv req in
  ∃ answer, r = Ret answer ∧
    answered (st_config (sv_state srv)) fs net (sv_mtls srv) req answer tr.
Proof.
  intros Hv. pose proof (choose_upstream_valid _ (match_input req) (sv_state srv) Hv) as Hc.
  unfold forward.
  destruct (choose_upstream _ _ _ _) as [[[[c ep]|[s m]]|] st']; simpl in *; [| |done].
  2:{ eexists. split; [done|]. by apply answered_refused. }
  destruct (parse_uri _) as [uri|e] eqn:Eu.
  2:{ eexists. split; [done|]. eapply answered_unsendable; [done|]. by apply unsendable_uri. }
  destruct (c_tls c) as [tls|] eqn:Et.
  - pose proof (request_mtls_answered _ fs net (sv_mtls srv) req c ep uri tls Hc Eu Et) as Ha.
    destruct (request_mtls _ _ _ _ _ _) as [[r mtls'] tr]. eauto.
  - pose proof (request_plain_answered _ fs net (sv_mtls srv) req c ep uri Hc Eu Et) as Ha.
    eexists. split; [done|exact Ha].
Qed.

(** The example's request is answered by the second endpoint of its cluster. *)
Lemma forward_accepted_outcome_witness :
  ∃ answer, (forward false example_fs echo_net (example_server two_endpoint_config MtlsDisabled)
      example_request).1.1 = Ret answer ∧
    answered two_endpoint_config example_fs echo_net MtlsDisabled example_request answer
      (forward false example_fs echo_net (example_server two_endpoint_config MtlsDisabled)
         example_request).2.
Proof.
  pose proof (forward_accepted_outcome example_fs echo_net
    (example_server two_endpoint_config MtlsDisabled) example_request eq_refl) as Hf.
  destruct (forward _ _ _ _ _) as [[r srv'] tr]. exact Hf.
Defined.

(** C10: The upstream request is the client's request with its URI replaced and its
    [Host] header removed: method, body and every other header are kept, and no other
    header is added. *)
Theorem forward_strips_host {H : HttpLib} {L : HttpLaws H} {T : TlsLib} checks fs
    (net : OutClient T → Request H → result Response string) srv req cl req' :
  (cl, req') ∈ (forward checks fs net srv req).2 →
  req_method req' = req_method req ∧ req_body req' = req_body req ∧
  hm_get (req_headers req') HOST = None ∧
  ∀ k v, (k, v) ∈ hm_iter (req_headers req') ↔ (k, v) ∈ hm_iter (req_headers req) ∧ k ≠ HOST.
Proof.
  pose proof (forward_trace_ok checks fs net srv req) as Hok.
  destruct (forward checks fs net srv req) as [[r srv'] tr]. simpl.
  destruct tr as [|[cl0 req0] [|]]; [by intros ?%elem_of_nil| |done].
  intros [= -> ->]%list_elem_of_singleton.
  destruct Hok as [(c & ep & uri & _ & _ & -> & _) _]. simpl.
  split_and!; [done|done|by apply hm_remove_get|]. intros k v. apply hm_remove_iter.
Qed.

Lemma forward_strips_host_witness :
  @hm_get list_http [("x-env", "prod")] HOST = None.
Proof.
  apply (forward_strips_host (L := list_http_laws) false example_fs echo_net
    (example_server two_endpoint_config MtlsDisabled) example_request PlainClient
    (@Build_Request list_http "GET" "http://10.0.0.2:8080/orders/42?debug=true"
       [("x-env", "prod")] "")).
  apply (list_elem_of_lookup_2 _ 0%nat). vm_compute. reflexivity.
Defined.

(** A cluster marked with TLS is never reached without mTLS: when no usable
    gRPC bootstrap was loaded, a request for it is answered 502 and nothing
    leaves the proxy. *)
Theorem tls_cluster_needs_bootstrap {H : HttpLib} {T : TlsLib} checks fs
    (net : OutClient T → Request H → result Response string) srv req c ep tls st' :
  choose_upstream checks (st_config (sv_state srv)) (match_input req) (sv_state srv)
    = (Ret (Ok (c, ep)), st') →
  c_tls c = Some tls →
  (match sv_mtls srv with MtlsAvailable _ => False | _ => True end) →
  ∃ message, forward checks fs net srv req
    = (Ret (Err (BAD_GATEWAY, message)), with_state srv st', []).
Proof.
  intros Hc Ht Hm. unfold forward. rewrite Hc.
  destruct (parse_uri _) as [uri|e]; [|eauto]. rewrite Ht. unfold request_mtls, with_state.
  destruct (sv_mtls srv) as [|pool|err]; [|done|]; eauto.
Qed.

Lemma tls_cluster_needs_bootstrap_witness :
  ∃ message st', forward false example_fs echo_net
      (example_server tls_config_example MtlsDisabled) example_request
    = (Ret (Err (BAD_GATEWAY, message)), st', []).
Proof.
  edestruct (tls_cluster_needs_bootstrap false example_fs echo_net
    (example_server tls_config_example MtlsDisabled) example_request tls_cluster example_endpoint)
    as [m Hm]; [vm_compute; reflexivity|reflexivity|exact I|].
  eexists _, _. exact Hm.
Defined.

(** C37: Requests handled one after the other starve endpoints. The pick of a cluster and
    the pick of an endpoint advance the same counter. So when the counter is even, as it
    is at the start, and under an accepted configuration in which every route has some
    weight to distribute (with a sum below 2^32) and every cluster a healthy endpoint,
    whatever the requests, each one that is sent upstream goes to an endpoint that
    its route allows, and if the healthy endpoints of its cluster are even in number, to
    one at an odd position, counted from zero: of two, only ever to the second. *)
Theorem first_of_two_endpoints_starves {H : HttpLib} {T : TlsLib} checks fs
    (net : OutClient T → Request H → result Response string) srv reqs :
  all_serving (st_config (sv_state srv)) → Z.even (st_picker_counter (sv_state srv)) = true →
  Forall2 (λ req tr, ∀ cl req', (cl, req') ∈ tr →
    ∃ c ep, upstream_of (st_config (sv_state srv)) (match_input req) c ep ∧
      parse_uri (upstream_uri c ep (request_path req)) = Ok (req_uri req') ∧
      let healthy := List.filter ep_healthy (c_endpoints c) in
      (Nat.even (length healthy) = true → ∃ k, Nat.odd k = true ∧ healthy !! k = Some ep) ∧
      ∀ e0 e1, healthy = [e0; e1] → ep = e1)
    reqs (serve_all checks fs net srv reqs).1.
Proof.
  intros Ha H0. eapply Forall2_impl; [by apply (serve_all_odd checks fs net reqs srv Ha)|].
  intros req tr Hs cl req' Hin. destruct (Hs cl req' Hin) as (c & ep & Hup & Hu & Hodd).
  exists c, ep. split; [done|]. split; [done|]. split; [exact Hodd|].
  intros e0 e1 Hf. unfold odd_position in Hodd.
  rewrite Hf in Hodd. destruct (Hodd eq_refl) as (k & Hk & Hl).
  destruct k as [|[|k]]; simplify_eq/=; done.
Qed.

Lemma two_endpoint_config_serving : all_serving two_endpoint_config.
Proof.
  split.
  - reflexivity.
  - intros l h r (Hl & Hh & Hr). cbn in Hl, Hh, Hr. apply list_elem_of_singleton in Hl as ->.
    cbn in Hh. apply list_elem_of_singleton in Hh as ->. cbn in Hr.
    apply list_elem_of_singleton in Hr as ->.
    split; [repeat constructor; vm_compute; done|vm_compute; done].
  - intros c Hc. cbn in Hc. by apply list_elem_of_singleton in Hc as ->.
Qed.

Lemma first_of_two_endpoints_starves_witness :
  Forall2 (λ req tr, ∀ cl req', (cl, req') ∈ tr →
    ∃ c ep, upstream_of two_endpoint_config (match_input req) c ep ∧
      parse_uri (upstream_uri c ep (request_path req)) = Ok (req_uri req') ∧
      let healthy := List.filter ep_healthy (c_endpoints c) in
      (Nat.even (length healthy) = true → ∃ k, Nat.odd k = true ∧ healthy !! k = Some ep) ∧
      ∀ e0 e1, healthy = [e0; e1] → ep = e1)
    [example_request; example_request]
    (serve_all false example_fs echo_net (example_server two_endpoint_config MtlsDisabled)
       [example_request; example_request]).1.
Proof.
  apply (first_of_two_endpoints_starves false example_fs echo_net
    (example_server two_endpoint_config MtlsDisabled) [example_request; example_request]);
    [apply two_endpoint_config_serving|reflexivity].
Defined.

(** Exact path matching sees the query string: a route whose matches are all
    exact paths never matches a request that carries a query, whatever its path. *)
Theorem exact_route_misses_query {H : HttpLib} (r : Route) (req : Request H) pq :
  path_and_query (req_uri req) = Some pq → contains_char "?" pq = true →
  r_matches r ≠ [] →
  Forall (λ m, ∃ p, rm_path m = Exact p ∧ contains_char "?" p = false) (r_matches r) →
  route_matches r (match_input req) = false.
Proof.
  intros Hpq Hq Hne Hall. unfold route_matches.
  destruct (r_matches r) as [|m ms] eqn:E; [done|]. rewrite <- E in *. clear Hne.
  apply not_true_iff_false. intros (m' & Hin & Hm)%existsb_elem.
  eapply Forall_forall in Hall as (p & Hp & Hp'); [|done].
  unfold route_match_matches in Hm. rewrite Hp in Hm.
  rewrite exact_ignores_query in Hm; [done| |done].
  simpl. unfold request_path. by rewrite Hpq.
Qed.

Definition admin_query_request : Request list_http :=
  @Build_Request list_http "GET" "/admin?tab=1" [("host", "api.example.com"); ("x-env", "prod")] "".

Lemma exact_route_misses_query_witness :
  route_matches example_admin_route (match_input admin_query_request) = false.
Proof.
  apply (exact_route_misses_query (H := list_http) example_admin_route admin_query_request
    "/admin?tab=1"); [reflexivity|reflexivity|discriminate|].
  repeat constructor. by exists "/admin".
Defined.

(** C39: The authority of an endpoint is one that a URI reader takes apart again
    ([read_authority]: a port after the last colon, and before it an IP literal in
    brackets or a host without a colon). It yields the port, and the address: of a name,
    an IPv4 or a bare IPv6 address the address itself, of an IPv6 address that comes in
    brackets what they enclose. *)
Theorem endpoint_authority_roundtrip ep address :
  fits 16 (ep_port ep) →
  (ep_address ep = address ∧ starts_with "[" address = false) ∨
    ep_address ep = "[" +:+ address +:+ "]" →
  read_authority (endpoint_authority ep) = Some (address, ep_port ep).
Proof.
  intros Hp [[<- Hs]|Ha]; unfold endpoint_authority.
  - rewrite Hs, andb_true_r. destruct (contains_char ":" (ep_address ep)) eqn:Ec.
    + by apply read_bracketed.
    + by apply read_plain.
  - rewrite Ha, andb_false_r, <- (read_bracketed address (ep_port ep) Hp). f_equal.
    by rewrite !str_app_assoc.
Qed.

Lemma endpoint_authority_roundtrip_witness :
  read_authority "[::1]:8080" = Some ("::1", 8080).
Proof.
  apply (endpoint_authority_roundtrip {| ep_address := "::1"; ep_port := 8080;
    ep_healthy := true; ep_node_name := None |} "::1"); [vm_compute; done|].
  left. split; reflexivity.
Defined.

(** ** Domains with a colon *)

Lemma host_no_colon {H : HttpLib} (req : Request H) :
  contains_char ":" (mi_host (match_input req)) = false.
Proof.
  simpl. unfold host_header. destruct (hm_get _ _) as [v|]; [|done]. simpl.
  destruct (to_str v) as [host|]; [|done]. simpl.
  pose proof (split_on_no_sep ":" host) as Hs.
  destruct (split_on_cons ":" host) as (x & l & E). rewrite E in *. by apply Forall_cons in Hs as [Hx _].
Qed.

(** The host of a request is cut at its first colon, so a domain with a colon in
    it, a name with a port or an IPv6 literal, matches no request at all, whatever the
    [Host] header says; of an IPv6 literal only what precedes the first colon is left. *)
Theorem colon_domain_matches_nothing {H : HttpLib} (req : Request H) vh :
  Forall (λ d, contains_char ":" d = true) (vh_domains vh) →
  matches_host vh (mi_host (match_input req)) = false.
Proof.
  intros Hd. pose proof (host_no_colon req) as Hh. apply not_true_iff_false.
  rewrite matches_host_spec. intros (d & Hin & Hm).
  eapply Forall_forall in Hd; [|exact Hin]. destruct Hm as [->|[E|(suffix & p & -> & E)]].
  - done.
  - rewrite <- lowercase_colon, E, lowercase_colon in Hd. congruence.
  - rewrite contains_char_app in Hd. simpl in Hd. rewrite E, contains_char_app, Hd in Hh.
    by rewrite orb_true_r in Hh.
Qed.

Lemma colon_domain_matches_nothing_witness :
  matches_host {| vh_name := "v6"; vh_domains := ["[::1]"; "[::1]:8080"]; vh_routes := [] |}
    (mi_host (match_input (@Build_Request list_http "GET" "/" [("host", "[::1]:8080")] ""))) = false.
Proof.
  apply (colon_domain_matches_nothing (H := list_http)
    (@Build_Request list_http "GET" "/" [("host", "[::1]:8080")] "")
    {| vh_name := "v6"; vh_domains := ["[::1]"; "[::1]:8080"]; vh_routes := [] |}).
  repeat constructor.
Defined.
