(* ===== verification/ServerConc.v ===== *)
(** * Requests in flight (crates/proxy/src/server.rs)

    [forward] suspends between its accesses to shared state: it clones the
    configuration, advances the picker counter for the cluster, again for the
    endpoint, and then takes a client of the pool and sends. Here a request is a
    thread that goes through these points one step at a time, so that other requests
    and configuration changes can come in between.

    A thread that runs alone is [forward] ([forward_steps]); whatever comes in
    between, it works with the one configuration it cloned, and its last step answers
    what the files and the network of that moment give ([request_step_inv]). *)

From S2P Require Import Prelude RustString Net Config ProxyState Http Mtls Server.

Section requests.
Context {H : HttpLib} {T : TlsLib}.

(** ** Threads *)

(** The points of [forward]: before the clone of the configuration, before either
    pick, before the request is sent, and after the answer. *)
Inductive request_thread :=
| RqStart (req : Request H)
| RqPickCluster (cfg : RuntimeConfig) (req : Request H)
| RqPickEndpoint (cfg : RuntimeConfig) (req : Request H) (c : Cluster)
| RqSend (cfg : RuntimeConfig) (req : Request H) (c : Cluster) (ep : Endpoint)
| RqDone (cfg : RuntimeConfig) (req : Request H) (r : outcome (result Response (Z * string))).

Definition pick_cluster_step (checks : bool) (cfg : RuntimeConfig) (req : Request H) (st : Inner)
    : request_thread * Inner :=
  match route_for cfg HTTP_LISTENER_PORT (match_input req) with
  | Err e => (RqDone cfg req (Ret (Err (NOT_FOUND, show_DxgateError e))), st)
  | Ok route =>
      let '(picked, st1) := pick_cluster checks (r_weighted_clusters route) st in
      match picked with
      | Panic => (RqDone cfg req Panic, st1)
      | Ret None =>
          (RqDone cfg req (Ret (Err (SERVICE_UNAVAILABLE, "route has no clusters"))), st1)
      | Ret (Some weighted) =>
          match cluster cfg (wc_name weighted) with
          | None =>
              (RqDone cfg req (Ret (Err (SERVICE_UNAVAILABLE,
                 "cluster " +:+ wc_name weighted +:+ " not found"))), st1)
          | Some c => (RqPickEndpoint cfg req c, st1)
          end
      end
  end.

Definition pick_endpoint_step (cfg : RuntimeConfig) (req : Request H) (c : Cluster) (st : Inner)
    : request_thread * Inner :=
  let '(endpoint, st2) := pick_endpoint (c_name c) (c_endpoints c) st in
  (match endpoint with
   | Panic => RqDone cfg req Panic
   | Ret (Err e) => RqDone cfg req (Ret (Err (SERVICE_UNAVAILABLE, show_DxgateError e)))
   | Ret (Ok ep) => RqSend cfg req c ep
   end, st2).

Definition send_step (fs : FileSystem) (net : OutClient T → Request H → result Response string)
    (cfg : RuntimeConfig) (req : Request H) (c : Cluster) (ep : Endpoint) (mtls : MtlsSupport T)
    : request_thread * MtlsSupport T * list (OutClient T * Request H) :=
  match parse_uri (upstream_uri c ep (request_path req)) with
  | Err e => (RqDone cfg req (Ret (Err (BAD_GATEWAY, "invalid upstream uri: " +:+ e))), mtls, [])
  | Ok uri =>
      let req' := upstream_request req uri in
      match c_tls c with
      | Some tls =>
          let '(r, mtls', tr) := request_mtls fs net mtls c tls req' in
          (RqDone cfg req (Ret r), mtls', tr)
      | None => let '(r, tr) := request_plain net req' in (RqDone cfg req (Ret r), mtls, tr)
      end
  end.

(** One step of a request, with what it sends. *)
Definition request_step (checks : bool) (fs : FileSystem)
    (net : OutClient T → Request H → result Response string) (t : request_thread)
    (srv : ProxyServer T)
    : option (request_thread * ProxyServer T * list (OutClient T * Request H)) :=
  match t with
  | RqStart req => Some (RqPickCluster (st_config (sv_state srv)) req, srv, [])
  | RqPickCluster cfg req =>
      let '(t', st') := pick_cluster_step checks cfg req (sv_state srv) in
      Some (t', with_state srv st', [])
  | RqPickEndpoint cfg req c =>
      let '(t', st') := pick_endpoint_step cfg req c (sv_state srv) in
      Some (t', with_state srv st', [])
  | RqSend cfg req c ep =>
      let '(t', mtls', tr) := send_step fs net cfg req c ep (sv_mtls srv) in
      Some (t', {| sv_state := sv_state srv; sv_mtls := mtls' |}, tr)
  | RqDone _ _ _ => None
  end.

(** Up to [n] steps of one thread, with nothing in between. *)
Fixpoint run_request (checks : bool) (fs : FileSystem)
    (net : OutClient T → Request H → result Response string) (n : nat) (t : request_thread)
    (srv : ProxyServer T) : request_thread * ProxyServer T * list (OutClient T * Request H) :=
  match n with
  | O => (t, srv, [])
  | S n' =>
      match request_step checks fs net t srv with
      | None => (t, srv, [])
      | Some (t', srv', tr) =>
          let '(t'', srv'', tr') := run_request checks fs net n' t' srv' in (t'', srv'', tr ++ tr')
      end
  end.

(** ** What a thread knows *)

Definition destination_of (cfg : RuntimeConfig) (input : MatchInput) (c : Cluster) : Prop :=
  ∃ route w, route_for cfg HTTP_LISTENER_PORT input = Ok route ∧
    w ∈ r_weighted_clusters route ∧ cluster cfg (wc_name w) = Some c.

(** [known cfg]: a configuration that was served at some time. *)
Definition request_inv (known : RuntimeConfig → Prop) (t : request_thread) : Prop :=
  match t with
  | RqStart _ => True
  | RqPickCluster cfg _ => known cfg
  | RqPickEndpoint cfg req c => known cfg ∧ destination_of cfg (match_input req) c
  | RqSend cfg req c ep => known cfg ∧ upstream_of cfg (match_input req) c ep
  | RqDone cfg _ _ => known cfg
  end.

(** The configuration a thread works with. *)
Definition thread_config (t : request_thread) : option (RuntimeConfig * Request H) :=
  match t with
  | RqStart _ => None
  | RqPickCluster cfg req | RqPickEndpoint cfg req _ | RqSend cfg req _ _ | RqDone cfg req _ =>
      Some (cfg, req)
  end.

(** A request that leaves for [req] under [cfg]: for a healthy endpoint of a cluster
    the route names, over TLS exactly when the cluster asks for it. *)
Definition sent_for (cfg : RuntimeConfig) (req : Request H) (cl : OutClient T) (req' : Request H)
    : Prop :=
  ∃ c ep uri, upstream_of cfg (match_input req) c ep ∧
    parse_uri (upstream_uri c ep (request_path req)) = Ok uri ∧
    req' = upstream_request req uri ∧ (c_tls c = None ↔ cl = PlainClient).

Lemma request_inv_mono (known known' : RuntimeConfig → Prop) t :
  (∀ cfg, known cfg → known' cfg) → request_inv known t → request_inv known' t.
Proof. intros Hk. destruct t; simpl; naive_solver. Qed.

(** The same right after a step, with the files, the network and the clients of that
    step and what it sent: the answer it gives, if it gives one, is theirs. *)
Definition request_after (known : RuntimeConfig → Prop) (fs : FileSystem)
    (net : OutClient T → Request H → result Response string) (mtls : MtlsSupport T)
    (t : request_thread) (tr : list (OutClient T * Request H)) : Prop :=
  match t with
  | RqDone cfg req r =>
      known cfg ∧ ∃ answer, r = Ret answer ∧ answered cfg fs net mtls req answer tr
  | _ => request_inv known t ∧ tr = []
  end.

Lemma request_after_inv known fs net mtls t tr :
  request_after known fs net mtls t tr → request_inv known t.
Proof. destruct t; simpl; by intros []. Qed.

Lemma route_refused cfg input e :
  route_for cfg HTTP_LISTENER_PORT input = Err e →
  refused cfg input NOT_FOUND (show_DxgateError e).
Proof.
  intros Er. pose proof Er as Er'. rewrite route_for_unfold in Er.
  assert (e = RouteNotFound (mi_host input) (mi_path input)) as ->.
  { repeat case_match; simplify_eq/=; try done.
    destruct (find_route _ _); simplify_eq/=; done. }
  by apply refused_no_route.
Qed.

Lemma refused_after (known : RuntimeConfig → Prop) fs net mtls cfg req status message :
  known cfg → refused cfg (match_input req) status message →
  request_after known fs net mtls (RqDone cfg req (Ret (Err (status, message)))) [].
Proof. intros Hk Hr. split; [done|]. eexists. split; [done|]. by apply answered_refused. Qed.

Lemma pick_cluster_step_inv (known : RuntimeConfig → Prop) fs net mtls cfg req st :
  known cfg → accepted cfg →
  request_after known fs net mtls (pick_cluster_step false cfg req st).1 [].
Proof.
  intros Hk Hv%validate_Ok_well_formed. unfold pick_cluster_step.
  destruct (route_for _ _ _) as [route|e] eqn:Er; [|by apply refused_after, route_refused].
  pose proof Er as (l & h & Hr)%route_for_has_route.
  destruct (pick_cluster_release (r_weighted_clusters route) st) as ([w|] & st1 & -> & Hw).
  2:{ by apply (wf_destinations _ Hv) in Hr. }
  destruct (cluster cfg (wc_name w)) as [c|] eqn:Ec; simpl.
  - split_and!; [done| |done]. by exists route, w.
  - apply cluster_None in Ec. destruct Ec. by eapply wf_references.
Qed.

Lemma pick_endpoint_step_inv (known : RuntimeConfig → Prop) fs net mtls cfg req c st :
  known cfg → destination_of cfg (match_input req) c →
  request_after known fs net mtls (pick_endpoint_step cfg req c st).1 [].
Proof.
  intros Hk (route & w & Hr & Hw & Hc). unfold pick_endpoint_step.
  destruct (pick_endpoint_cases (c_name c) (c_endpoints c) st)
    as [(ep & -> & Hin & Hh)|[Hno ->]].
  - split; [|done]. split; [done|]. by exists route, w.
  - apply refused_after; [done|]. by eapply refused_unhealthy.
Qed.

Lemma send_step_inv (known : RuntimeConfig → Prop) fs net cfg req c ep mtls t' mtls' tr :
  known cfg → upstream_of cfg (match_input req) c ep →
  send_step fs net cfg req c ep mtls = (t', mtls', tr) → request_after known fs net mtls t' tr.
Proof.
  intros Hk Hup. unfold send_step. destruct (parse_uri _) as [uri|e] eqn:Eu.
  2:{ intros [= <- _ <-]. split; [done|]. eexists. split; [done|].
      eapply answered_unsendable; [done|]. by apply unsendable_uri. }
  destruct (c_tls c) as [tls|] eqn:Et.
  - pose proof (request_mtls_answered cfg fs net mtls req c ep uri tls Hup Eu Et) as Ha.
    destruct (request_mtls _ _ _ _ _ _) as [[r m] tr0]. intros [= <- _ <-]. split; [done|]. eauto.
  - pose proof (request_plain_answered cfg fs net mtls req c ep uri Hup Eu Et) as Ha.
    destruct (request_plain _ _) as [r tr0]. intros [= <- _ <-]. split; [done|]. eauto.
Qed.

(** What is sent along with an answer is allowed. *)
Lemma client_matches_tls fs mtls c (cl : OutClient T) :
  client_matches fs mtls c cl → c_tls c = None ↔ cl = PlainClient.
Proof.
  unfold client_matches. destruct (c_tls c); [|done]. intros (pool & m & _ & _ & ->). done.
Qed.

Lemma answered_sent cfg fs net mtls req answer tr cl req' :
  answered cfg fs net mtls req answer tr → (cl, req') ∈ tr → sent_for cfg req cl req'.
Proof.
  intros [? ? _|? ? ? _ _|c ep uri cl0 e Hup Hu Hcl _|c ep uri cl0 resp Hup Hu Hcl _];
    [by intros ?%elem_of_nil..| |]; intros [= -> ->]%list_elem_of_singleton;
    exists c, ep, uri; split_and!; try done; by apply client_matches_tls in Hcl.
Qed.

Lemma request_after_sent known fs net mtls t tr cl req' :
  request_after known fs net mtls t tr → (cl, req') ∈ tr →
  ∃ cfg req, thread_config t = Some (cfg, req) ∧ known cfg ∧ sent_for cfg req cl req'.
Proof.
  destruct t as [|cfg req|cfg req|cfg req|cfg req r];
    [by intros [_ ->] ?%elem_of_nil..|].
  intros (Hk & answer & _ & Ha) Hin. exists cfg, req. split_and!; [done..|].
  by eapply answered_sent.
Qed.

(** A step of a request advances the picker counter by one, or leaves the state. *)
Lemma request_step_state checks fs net t srv t' srv' tr :
  request_step checks fs net t srv = Some (t', srv', tr) →
  sv_state srv' = sv_state srv ∨ sv_state srv' = bump (sv_state srv).
Proof.
  destruct t as [req|cfg req|cfg req c|cfg req c ep|]; simpl; [..|done].
  - intros [= _ <- _]. by left.
  - unfold pick_cluster_step. destruct (route_for _ _ _) as [route|]; [|intros [= _ <- _]; by left].
    pose proof (pick_cluster_state checks (r_weighted_clusters route) (sv_state srv)) as Hs.
    destruct (pick_cluster _ _ _) as [[[w|]|] st1]; simpl in Hs; try destruct (cluster _ _);
      intros [= _ <- _]; done.
  - unfold pick_endpoint_step.
    pose proof (pick_endpoint_state (c_name c) (c_endpoints c) (sv_state srv)) as Hs.
    destruct (pick_endpoint _ _ _) as [r st2]. by intros [= _ <- _].
  - destruct (send_step _ _ _ _ _ _ _) as [[t1 m1] tr1]. intros [= _ <- _]. by left.
Qed.

(** A step of a request keeps what the thread knows, and sends and answers only what its
    configuration allows. *)
Lemma request_step_inv (known : RuntimeConfig → Prop) fs net t srv t' srv' tr :
  (∀ cfg, known cfg → accepted cfg) → known (st_config (sv_state srv)) →
  request_inv known t → request_step false fs net t srv = Some (t', srv', tr) →
  request_after known fs net (sv_mtls srv) t' tr.
Proof.
  intros Hacc Hk Ht. destruct t as [req|cfg req|cfg req c|cfg req c ep|]; simpl; [..|done].
  - by intros [= <- _ <-].
  - pose proof (pick_cluster_step_inv known fs net (sv_mtls srv) cfg req (sv_state srv) Ht
      (Hacc _ Ht)) as Hi.
    destruct (pick_cluster_step _ _ _ _) as [t1 st1]. by intros [= <- _ <-].
  - destruct Ht as [Hkc Hd].
    pose proof (pick_endpoint_step_inv known fs net (sv_mtls srv) cfg req c (sv_state srv) Hkc Hd)
      as Hi.
    destruct (pick_endpoint_step _ _ _ _) as [t1 st1]. by intros [= <- _ <-].
  - destruct Ht as [Hkc Hu]. destruct (send_step _ _ _ _ _ _ _) as [[t1 m1] tr1] eqn:E.
    intros [= <- _ <-]. by eapply send_step_inv.
Qed.

(** How many steps a thread still takes at most. *)
Definition thread_rank (t : request_thread) : nat :=
  match t with
  | RqStart _ => 4 | RqPickCluster _ _ => 3 | RqPickEndpoint _ _ _ => 2 | RqSend _ _ _ _ => 1
  | RqDone _ _ _ => 0
  end.

Lemma request_step_rank checks fs net t srv :
  match request_step checks fs net t srv with
  | Some (t', _, _) => (thread_rank t' < thread_rank t)%nat
  | None => thread_rank t = 0%nat
  end.
Proof.
  destruct t as [req|cfg req|cfg req c|cfg req c ep|]; simpl; [lia|..|done].
  - unfold pick_cluster_step. repeat case_match; simplify_eq/=; lia.
  - unfold pick_endpoint_step. repeat case_match; simplify_eq/=; lia.
  - unfold send_step. repeat case_match; simplify_eq/=; lia.
Qed.

(** ** A request that runs alone *)

Lemma run_request_done checks fs net n cfg req r srv :
  run_request checks fs net n (RqDone cfg req r) srv = (RqDone cfg req r, srv, []).
Proof. by destruct n. Qed.

(** The points at which a request can be interrupted are the ones of [forward]: run with
    nothing in between, four steps at most, a request is the handler. *)
Lemma forward_steps checks fs net req srv :
  run_request checks fs net 4 (RqStart req) srv =
  let '(r, srv', tr) := forward checks fs net srv req in
  (RqDone (st_config (sv_state srv)) req r, srv', tr).
Proof.
  simpl. unfold forward, choose_upstream, pick_cluster_step.
  destruct (route_for _ _ _) as [route|e]; [|done].
  destruct (pick_cluster _ _ _) as [[[w|]|] st1]; [|done..].
  destruct (cluster _ _) as [c|]; [|done]. simpl. unfold pick_endpoint_step. simpl.
  destruct (pick_endpoint _ _ _) as [[[ep|e]|] st2]; [|done..]. simpl. unfold send_step. simpl.
  destruct (parse_uri _) as [uri|e]; [|done].
  destruct (c_tls c) as [tls|]; [|done].
  destruct (request_mtls _ _ _ _ _ _) as [[r mtls'] tr]. simpl. by rewrite app_nil_r.
Qed.

End requests.

Arguments request_thread : clear implicits.
Arguments request_thread H : rename.
