(* ===== verification/XdsProto.v ===== *)
(** * The xDS messages (crates/xds/proto)

    One record per protobuf message that the client reads or writes, one
    inductive type per [oneof]. The Rust types are generated by [prost] when the
    crate is built; a message field is an [option], an absent scalar is its
    default, an enumeration is its [i32] and a wrapper such as [UInt32Value] is an
    optional scalar. Fields that the client never looks at are left out.

    Decoding is [prost]'s, so it is a parameter: the class [ProstLib]. Bytes are a
    [string]. *)

From S2P Require Import Prelude.

(** [google.protobuf.Any]. *)
Record Any := { any_type_url : string; any_value : string }.

(** ** core.v1 *)

(** [oneof port_specifier]; the port is a [uint32]. *)
Inductive PbPortSpecifier := PortValue (port : Z).

Record PbSocketAddress := {
  sa_address : string;
  sa_port_specifier : option PbPortSpecifier }.

Record PbPipe := { pipe_path : string }.

Inductive PbAddressKind :=
| AddrSocketAddress (s : PbSocketAddress)
| AddrPipe (p : PbPipe).

Record PbAddress := { addr_address : option PbAddressKind }.

Inductive PbTransportSocketConfig := TsTypedConfig (a : Any).

Record PbTransportSocket := {
  ts_name : string;
  ts_config_type : option PbTransportSocketConfig }.

Inductive HealthStatus :=
| HsUnknown | HsHealthy | HsUnhealthy | HsDraining | HsTimeout | HsDegraded.

(** [HealthStatus::try_from(i32)]. *)
Definition HealthStatus_try_from (n : Z) : option HealthStatus :=
  match n with
  | 0 => Some HsUnknown
  | 1 => Some HsHealthy
  | 2 => Some HsUnhealthy
  | 3 => Some HsDraining
  | 4 => Some HsTimeout
  | 5 => Some HsDegraded
  | _ => None
  end.

(** A [google.protobuf.Value] that is a string, the only kind the client builds. *)
Inductive PbValue := StringValue (s : string).

Record PbNode := {
  node_id_field : string;
  node_cluster : string;
  node_metadata : option (gmap string PbValue) }.

(** ** endpoint.v1 *)

Record PbEndpoint := { pe_address : option PbAddress }.

Inductive PbHostIdentifier :=
| HiEndpoint (e : PbEndpoint)
| HiEndpointName (n : string).

Record PbLbEndpoint := {
  lb_host_identifier : option PbHostIdentifier;
  lb_health_status : Z }.

Record PbLocalityLbEndpoints := { loc_lb_endpoints : list PbLbEndpoint }.

Record PbClusterLoadAssignment := {
  cla_cluster_name : string;
  cla_endpoints : list PbLocalityLbEndpoints }.

(** ** route.v1 *)

Record PbRegexMatcher := { regex : string }.

Inductive PbPathSpecifier :=
| PsPrefix (s : string)
| PsPath (s : string)
| PsSafeRegex (r : PbRegexMatcher).

Inductive PbHeaderMatchSpecifier :=
| HsExactMatch (s : string)
| HsSafeRegexMatch (r : PbRegexMatcher).

Record PbHeaderMatcher := {
  phm_name : string;
  phm_specifier : option PbHeaderMatchSpecifier }.

Record PbRouteMatch := {
  prm_path_specifier : option PbPathSpecifier;
  prm_headers : list PbHeaderMatcher }.

Record PbClusterWeight := {
  cw_name : string;
  cw_weight : option Z }.

Record PbWeightedCluster := { pwc_clusters : list PbClusterWeight }.

Inductive PbClusterSpecifier :=
| CsCluster (name : string)
| CsWeightedClusters (w : PbWeightedCluster).

Record PbRouteAction := { ra_cluster_specifier : option PbClusterSpecifier }.

Inductive PbAction :=
| ActRoute (a : PbRouteAction)
| ActNonForwarding.

Record PbRoute := {
  pr_name : string;
  pr_match : option PbRouteMatch;
  pr_action : option PbAction }.

Record PbVirtualHost := {
  pvh_name : string;
  pvh_domains : list string;
  pvh_routes : list PbRoute }.

Record PbRouteConfiguration := {
  prc_name : string;
  prc_virtual_hosts : list PbVirtualHost }.

(** ** extensions: the HTTP connection manager and TLS *)

Record PbRds := { rds_route_config_name : string }.

Inductive PbRouteSpecifier :=
| RsRds (r : PbRds)
| RsRouteConfig (r : PbRouteConfiguration).

Record PbHttpConnectionManager := { hcm_route_specifier : option PbRouteSpecifier }.

Record PbCertificateProviderInstance := {
  cpi_instance_name : string;
  cpi_certificate_name : string }.

Record PbCombinedValidationContext := {
  cvc_provider_instance : option PbCertificateProviderInstance }.

Inductive PbValidationContextType :=
| CombinedValidationContext (c : PbCombinedValidationContext).

Record PbCommonTlsContext := {
  ctc_certificate_provider_instance : option PbCertificateProviderInstance;
  ctc_alpn_protocols : list string;
  ctc_validation_context_type : option PbValidationContextType }.

Record PbUpstreamTlsContext := {
  utc_common_tls_context : option PbCommonTlsContext;
  utc_sni : string }.

(** ** listener.v1 *)

Inductive PbFilterConfigType := FcTypedConfig (a : Any).

Record PbFilter := {
  pf_name : string;
  pf_config_type : option PbFilterConfigType }.

Record PbFilterChain := { fc_filters : list PbFilter }.

Record PbApiListener := { al_api_listener : option Any }.

Record PbListener := {
  pl_name : string;
  pl_address : option PbAddress;
  pl_filter_chains : list PbFilterChain;
  pl_api_listener : option PbApiListener }.

(** ** cluster.v1 *)

Record PbEdsClusterConfig := { eds_service_name_field : string }.

Record PbCluster := {
  pc_name : string;
  pc_eds_cluster_config : option PbEdsClusterConfig;
  pc_load_assignment : option PbClusterLoadAssignment;
  pc_transport_socket : option PbTransportSocket }.

(** ** service.discovery.v1 *)

(** [google.rpc.Status]. *)
Record PbStatus := { status_code : Z; status_message : string }.

Record DiscoveryRequest := {
  dq_version_info : string;
  dq_node : option PbNode;
  dq_resource_names : list string;
  dq_type_url : string;
  dq_response_nonce : string;
  dq_error_detail : option PbStatus }.

Record DiscoveryResponse := {
  dr_version_info : string;
  dr_resources : list Any;
  dr_type_url : string;
  dr_nonce : string }.

(** ** Decoding *)

(** [Message::decode] of [prost], with the message of its error. *)
Class ProstLib := {
  decode_PbListener : string → result PbListener string;
  decode_PbRouteConfiguration : string → result PbRouteConfiguration string;
  decode_PbCluster : string → result PbCluster string;
  decode_PbClusterLoadAssignment : string → result PbClusterLoadAssignment string;
  decode_PbHttpConnectionManager : string → result PbHttpConnectionManager string;
  decode_PbUpstreamTlsContext : string → result PbUpstreamTlsContext string }.
