(* ===== verification/XdsConvert.v ===== *)
(** * From xDS messages to the runtime configuration (crates/xds/src/client.rs)

    The conversions of [client.rs]: TLS contexts, listeners and their HTTP
    connection managers, virtual hosts and routes, load assignments. *)

From S2P Require Import Prelude RustString BTree Net Config XdsProto.

(** ** Constants and errors *)

Definition CLUSTER_TYPE : string := "type.googleapis.com/cluster.v1.Cluster".
Definition ENDPOINT_TYPE : string := "type.googleapis.com/endpoint.v1.ClusterLoadAssignment".
Definition LISTENER_TYPE : string := "type.googleapis.com/listener.v1.Listener".
Definition ROUTE_TYPE : string := "type.googleapis.com/route.v1.RouteConfiguration".

Definition HCM_TYPE : string :=
  "type.googleapis.com/extensions.filters.network.http_connection_manager.v1.HttpConnectionManager".

(** The errors of [tonic] and [prost] are kept as their messages. *)
Inductive XdsError :=
| InvalidEndpoint (endpoint source : string)
| Connect (endpoint source : string)
| StreamOpen (status : string)
| StreamReceive (status : string)
| RequestChannelClosed
| Decode (type_url source : string)
| RuntimeConfigClosed.

(** ** Names *)

(** [sorted_unique]: through a [BTreeSet]. *)
Definition sorted_unique (names : list string) : list string :=
  btree_elements (list_to_set names).

Definition instance_name (i : PbCertificateProviderInstance) : option string :=
  if decide (cpi_instance_name i = "") then None else Some (cpi_instance_name i).

Definition certificate_provider_name (common : PbCommonTlsContext) : option string :=
  i ← ctc_certificate_provider_instance common; instance_name i.

Definition validation_provider_name (common : PbCommonTlsContext) : option string :=
  ty ← ctc_validation_context_type common;
  let '(CombinedValidationContext combined) := ty in
  i ← cvc_provider_instance combined; instance_name i.

Definition cluster_authority (name : string) : option string :=
  authority ← split_on "|" name !! 3%nat;
  if decide (authority = "") then None else Some authority.

Definition first_non_empty (value : string) (fallback : option string) : option string :=
  if decide (value = "") then fallback else Some value.

(** ** Addresses *)

Definition socket_address (address : option PbAddress) : option (string * Z) :=
  match address ≫= addr_address with
  | Some (AddrSocketAddress socket) =>
      match sa_port_specifier socket with
      | Some (PortValue port) => if port <? 2 ^ 16 then Some (sa_address socket, port) else None
      | None => None
      end
  | _ => None
  end.

Definition listener_port (l : PbListener) : option Z :=
  match socket_address (pl_address l) with
  | Some (_, port) => Some port
  | None => '(_, port) ← rsplit_once ":" (pl_name l); parse_u16 port
  end.

(** ** Endpoints *)

Definition endpoint_is_healthy (status : Z) : bool :=
  match default HsUnknown (HealthStatus_try_from status) with
  | HsUnhealthy | HsDraining | HsTimeout => false
  | _ => true
  end.

(** The body of the loops over localities and their endpoints. *)
Definition lb_endpoint (lb : PbLbEndpoint) : option Endpoint :=
  match lb_host_identifier lb with
  | Some (HiEndpoint endpoint) =>
      match socket_address (pe_address endpoint) with
      | Some (address, port) =>
          Some {| ep_address := address; ep_port := port;
                  ep_healthy := endpoint_is_healthy (lb_health_status lb);
                  ep_node_name := None |}
      | None => None
      end
  | _ => None
  end.

(** [a.address.cmp(&b.address).then_with(|| a.port.cmp(&b.port))] is at most
    [Equal]. *)
Definition endpoint_leb (a b : Endpoint) : bool :=
  match String.compare (ep_address a) (ep_address b) with
  | Lt => true
  | Gt => false
  | Eq => ep_port a <=? ep_port b
  end.

(** [sort_by] is stable: an element goes before those it equals that come later. *)
Fixpoint insert_endpoint (x : Endpoint) (l : list Endpoint) : list Endpoint :=
  match l with
  | [] => [x]
  | y :: l' => if endpoint_leb x y then x :: l else y :: insert_endpoint x l'
  end.

Definition sort_endpoints (l : list Endpoint) : list Endpoint := foldr insert_endpoint [] l.

Definition endpoints_from_assignment (a : PbClusterLoadAssignment) : list Endpoint :=
  sort_endpoints (List.flat_map (λ loc, omap lb_endpoint (loc_lb_endpoints loc)) (cla_endpoints a)).

(** ** Routes *)

(** The loop over the header matchers: a regex gives up, an absent matcher is
    skipped. *)
Fixpoint convert_headers (hs : list PbHeaderMatcher) : option (list HeaderMatch) :=
  match hs with
  | [] => Some []
  | h :: hs' =>
      match phm_specifier h with
      | Some (HsExactMatch value) =>
          rest ← convert_headers hs';
          Some ({| hm_name := phm_name h; hm_value := value |} :: rest)
      | Some (HsSafeRegexMatch _) => None
      | None => convert_headers hs'
      end
  end.

Definition convert_route_match (m : PbRouteMatch) : option RouteMatch :=
  path ← match prm_path_specifier m with
         | Some (PsPrefix prefix) => Some (Prefix prefix)
         | Some (PsPath path) => Some (Exact path)
         | Some (PsSafeRegex _) => None
         | None => Some (Prefix "/")
         end;
  headers ← convert_headers (prm_headers m);
  Some {| rm_path := path; rm_headers := headers |}.

Definition convert_route_action (action : PbRouteAction) : list WeightedCluster :=
  match ra_cluster_specifier action with
  | Some (CsCluster name) =>
      if decide (name = "") then [] else [{| wc_name := name; wc_weight := 100 |}]
  | Some (CsWeightedClusters weighted) =>
      (λ cw, {| wc_name := cw_name cw; wc_weight := default 1 (cw_weight cw) |})
      <$> List.filter (λ cw, bool_decide (cw_name cw ≠ "")) (pwc_clusters weighted)
  | None => []
  end.

Definition convert_route (route : PbRoute) : option Route :=
  action ← pr_action route;
  let weighted_clusters :=
    match action with
    | ActRoute action => convert_route_action action
    | ActNonForwarding => []
    end in
  match weighted_clusters with
  | [] => None
  | _ =>
      matches ← match pr_match route with
                | Some m => m' ← convert_route_match m; Some [m']
                | None => Some []
                end;
      Some {| r_name := pr_name route; r_matches := matches;
              r_weighted_clusters := weighted_clusters |}
  end.

Definition convert_virtual_hosts (vhosts : list PbVirtualHost) : list VirtualHost :=
  (λ vh, {| vh_name := pvh_name vh; vh_domains := pvh_domains vh;
            vh_routes := omap convert_route (pvh_routes vh) |}) <$> vhosts.

Section convert.
Context {P : ProstLib}.

(** ** Decoding *)

(** [decode_resource], of the decoder of the message type. *)
Definition decode_resource {A} (decode : string → result A string) (type_url : string)
    (resource : Any) : result A XdsError :=
  map_err (Decode type_url) (decode (any_value resource)).

Definition decode_hcm (a : Any) : result PbHttpConnectionManager XdsError :=
  decode_resource decode_PbHttpConnectionManager HCM_TYPE a.

(** ** Clusters *)

Definition upstream_tls_from_cluster (c : PbCluster) : option UpstreamTls :=
  ts ← pc_transport_socket c;
  ct ← ts_config_type ts;
  let '(TsTypedConfig typed_config) := ct in
  if ends_with "extensions.transport_sockets.tls.v1.UpstreamTlsContext"
       (any_type_url typed_config)
  then
    tls ← result_ok (decode_PbUpstreamTlsContext (any_value typed_config));
    let common := utc_common_tls_context tls in
    Some {| tls_sni := first_non_empty (utc_sni tls) (cluster_authority (pc_name c));
            tls_certificate_provider := common ≫= certificate_provider_name;
            tls_validation_provider := common ≫= validation_provider_name;
            tls_alpn_protocols := default [] (ctc_alpn_protocols <$> common) |}
  else None.

(** ** Listeners *)

Definition is_http_connection_manager (name : string) (a : Any) : bool :=
  contains "http_connection_manager" name
  || ends_with "extensions.filters.network.http_connection_manager.v1.HttpConnectionManager"
       (any_type_url a).

(** The body of the loop over the filters. *)
Fixpoint filter_managers (fs : list PbFilter) : result (list PbHttpConnectionManager) XdsError :=
  match fs with
  | [] => Ok []
  | f :: fs' =>
      match pf_config_type f with
      | Some (FcTypedConfig a) =>
          if is_http_connection_manager (pf_name f) a
          then let? m := decode_hcm a in let? ms := filter_managers fs' in Ok (m :: ms)
          else filter_managers fs'
      | None => filter_managers fs'
      end
  end.

Definition http_connection_managers (l : PbListener)
    : result (list PbHttpConnectionManager) XdsError :=
  let? api :=
    match pl_api_listener l ≫= al_api_listener with
    | Some a => let? m := decode_hcm a in Ok [m]
    | None => Ok []
    end in
  let? rest := filter_managers (List.flat_map fc_filters (pl_filter_chains l)) in
  Ok (api ++ rest).

Record ListenerSnapshot := {
  ls_listener : Listener;
  ls_route_names : list string;
  ls_inline_virtual_hosts : list VirtualHost }.

(** The loop over the managers: the route names and the inline virtual hosts. *)
Definition snapshot_routes (st : list string * list VirtualHost) (hcm : PbHttpConnectionManager)
    : list string * list VirtualHost :=
  let '(route_names, inline) := st in
  match hcm_route_specifier hcm with
  | Some (RsRds rds) =>
      (if decide (rds_route_config_name rds = "") then route_names
       else route_names ++ [rds_route_config_name rds], inline)
  | Some (RsRouteConfig rc) =>
      (route_names, inline ++ convert_virtual_hosts (prc_virtual_hosts rc))
  | None => (route_names, inline)
  end.

Definition listener_snapshot (l : PbListener) : result ListenerSnapshot XdsError :=
  let port := default 80 (listener_port l) in
  let? hcms := http_connection_managers l in
  let '(route_names, inline) := fold_left snapshot_routes hcms ([], []) in
  Ok {| ls_listener :=
          {| l_name := pl_name l; l_bind := unspecified_v4 port;
             l_protocol := if port =? 443 then Https else Http;
             l_virtual_hosts := []; l_tls_secret := None |};
        ls_route_names := sorted_unique route_names;
        ls_inline_virtual_hosts := inline |}.

End convert.

(** ** Sorted names *)

Lemma elem_of_sorted_unique x l : x ∈ sorted_unique l ↔ x ∈ l.
Proof. unfold sorted_unique. by rewrite elem_of_btree_elements, elem_of_list_to_set. Qed.

Lemma sorted_unique_sorted l : StronglySorted str_lt (sorted_unique l).
Proof. apply btree_elements_sorted. Qed.

Lemma sorted_unique_idem l : sorted_unique (sorted_unique l) = sorted_unique l.
Proof. apply btree_elements_list_to_set, sorted_unique_sorted. Qed.

Lemma elem_of_sorted_unique_all l : ∀ x, x ∈ sorted_unique l ↔ x ∈ l.
Proof. intros x. apply elem_of_sorted_unique. Qed.

Lemma sorted_unique_same l l' : (∀ x, x ∈ l' ↔ x ∈ l) → sorted_unique l' = sorted_unique l.
Proof. intros H. unfold sorted_unique. f_equal. apply set_eq. intros x. rewrite !elem_of_list_to_set. apply H. Qed.

Lemma sorted_unique_of_sorted l : StronglySorted str_lt l → sorted_unique l = l.
Proof. apply btree_elements_list_to_set. Qed.

Lemma sorted_unique_nil l : sorted_unique l = [] ↔ l = [].
Proof.
  split; [|by intros ->]. intros H. destruct l as [|x l]; [done|].
  assert (x ∈ sorted_unique (x :: l)) as Hx by (apply elem_of_sorted_unique; by left).
  rewrite H in Hx. by apply elem_of_nil in Hx.
Qed.

(** ** Sorted endpoints *)

Definition endpoint_le (a b : Endpoint) : Prop := endpoint_leb a b = true.

Lemma endpoint_leb_total a b : endpoint_leb a b = false → endpoint_le b a.
Proof.
  unfold endpoint_le, endpoint_leb. rewrite (String.compare_antisym (ep_address b)).
  destruct (String.compare (ep_address a) (ep_address b)); simpl; [|done..]. lia.
Qed.

Lemma string_compare_le s t : String.compare s t ≠ Gt ↔ String.le s t.
Proof. unfold String.le, String.leb. destruct (String.compare s t); simpl; naive_solver. Qed.

#[export] Instance endpoint_le_trans : Transitive endpoint_le.
Proof.
  intros a b c. unfold endpoint_le, endpoint_leb.
  destruct (String.compare (ep_address a) (ep_address b)) eqn:Eab; [| |done];
    destruct (String.compare (ep_address b) (ep_address c)) eqn:Ebc; try done; intros Hab Hbc.
  - apply String.compare_eq_iff in Eab as ->. rewrite Ebc. lia.
  - apply String.compare_eq_iff in Eab as ->. by rewrite Ebc.
  - apply String.compare_eq_iff in Ebc as <-. by rewrite Eab.
  - assert (Hac : String.compare (ep_address a) (ep_address c) ≠ Gt).
    { apply string_compare_le. trans (ep_address b); apply string_compare_le; congruence. }
    destruct (String.compare (ep_address a) (ep_address c)) eqn:Eac; [|done|done].
    apply String.compare_eq_iff in Eac. rewrite Eac in Eab.
    rewrite String.compare_antisym, Ebc in Eab. done.
Qed.

Lemma insert_endpoint_perm x l : insert_endpoint x l ≡ₚ x :: l.
Proof.
  induction l as [|y l IH]; simpl; [done|]. case_match; [done|].
  rewrite IH. apply Permutation_swap.
Qed.

Lemma sort_endpoints_perm l : sort_endpoints l ≡ₚ l.
Proof. induction l as [|x l IH]; simpl; [done|]. by rewrite insert_endpoint_perm, IH. Qed.

Lemma insert_endpoint_sorted x l :
  StronglySorted endpoint_le l → StronglySorted endpoint_le (insert_endpoint x l).
Proof.
  induction 1 as [|y l Hl IH Hy]; simpl; [by repeat constructor|].
  destruct (endpoint_leb x y) eqn:E.
  - constructor; [by constructor|]. constructor; [done|].
    eapply Forall_impl; [done|]. intros z Hz. by trans y.
  - constructor; [done|]. apply Forall_forall. intros z. rewrite insert_endpoint_perm.
    intros [->|Hz]%elem_of_cons; [by apply endpoint_leb_total|].
    by eapply Forall_forall in Hy.
Qed.

Lemma sort_endpoints_sorted l : StronglySorted endpoint_le (sort_endpoints l).
Proof. induction l as [|x l IH]; simpl; [constructor|]. by apply insert_endpoint_sorted. Qed.

(** Endpoints with the address and port of [k]. *)
Definition same_key (k e : Endpoint) : bool :=
  bool_decide (ep_address e = ep_address k) && (ep_port e =? ep_port k).

Lemma same_key_le k x y : same_key k x = true → same_key k y = true → endpoint_le x y.
Proof.
  unfold same_key, endpoint_le, endpoint_leb.
  rewrite !andb_true_iff, !bool_decide_eq_true, !Z.eqb_eq. intros [-> ->] [-> ->].
  assert (String.compare (ep_address k) (ep_address k) = Eq) as ->.
  { pose proof (String.compare_antisym (ep_address k) (ep_address k)) as Ha.
    by destruct (String.compare (ep_address k) (ep_address k)). }
  apply Z.leb_refl.
Qed.

Lemma insert_endpoint_stable k x l :
  List.filter (same_key k) (insert_endpoint x l) = List.filter (same_key k) (x :: l).
Proof.
  induction l as [|y l IH]; [done|]. simpl insert_endpoint.
  destruct (endpoint_leb x y) eqn:E; [done|]. simpl in *. rewrite IH.
  destruct (same_key k x) eqn:Ex, (same_key k y) eqn:Ey; try done.
  pose proof (same_key_le k x y Ex Ey) as Hle. unfold endpoint_le in Hle. congruence.
Qed.

Lemma sort_endpoints_stable k l :
  List.filter (same_key k) (sort_endpoints l) = List.filter (same_key k) l.
Proof.
  induction l as [|x l IH]; [done|]. simpl sort_endpoints.
  rewrite insert_endpoint_stable. simpl. by rewrite IH.
Qed.

Definition assignment_endpoints (a : PbClusterLoadAssignment) : list Endpoint :=
  List.flat_map (λ loc, omap lb_endpoint (loc_lb_endpoints loc)) (cla_endpoints a).

(** ** What a conversion produces *)

(** A port is a [uint32]. *)
Definition port_ok (address : option PbAddress) : Prop :=
  match address ≫= addr_address with
  | Some (AddrSocketAddress s) =>
      match sa_port_specifier s with Some (PortValue p) => fits 32 p | None => True end
  | _ => True
  end.

Lemma socket_address_port a addr p : port_ok a → socket_address a = Some (addr, p) → fits 16 p.
Proof.
  unfold port_ok, socket_address. destruct (a ≫= addr_address) as [[s|pp]|]; [|done..].
  destruct (sa_port_specifier s) as [[port]|]; [|done].
  destruct (Z.ltb_spec port (2 ^ 16)); [|done]. intros [? _] [= _ <-]. by split.
Qed.

(** Routes with somewhere to go. *)
Definition routes_forward (vhs : list VirtualHost) : Prop :=
  ∀ vh r, vh ∈ vhs → r ∈ vh_routes vh →
    r_weighted_clusters r ≠ [] ∧ ∀ d, d ∈ r_weighted_clusters r → wc_name d ≠ "".

Lemma convert_route_action_names a d : d ∈ convert_route_action a → wc_name d ≠ "".
Proof.
  unfold convert_route_action. destruct (ra_cluster_specifier a) as [[n|w]|]; [| |set_solver].
  - case_decide; [set_solver|]. by intros ->%list_elem_of_singleton.
  - intros (cw & -> & Hcw)%list_elem_of_fmap. apply elem_of_bfilter in Hcw as [_ Hcw].
    by apply bool_decide_eq_true in Hcw.
Qed.

Lemma convert_route_forward pr r :
  convert_route pr = Some r →
  r_weighted_clusters r ≠ [] ∧ ∀ d, d ∈ r_weighted_clusters r → wc_name d ≠ "".
Proof.
  unfold convert_route. destruct (pr_action pr) as [[a|]|]; simpl; [|done..].
  destruct (convert_route_action a) as [|w ws] eqn:Ea; [done|].
  destruct (match pr_match pr with Some _ => _ | None => _ end) as [ms|]; simpl; [|done].
  intros [= <-]. simpl. split; [done|]. rewrite <- Ea. apply convert_route_action_names.
Qed.

Lemma convert_virtual_hosts_forward vhs : routes_forward (convert_virtual_hosts vhs).
Proof.
  intros vh r (pvh & -> & _)%list_elem_of_fmap. simpl.
  intros (pr & _ & Hr)%list_elem_of_omap. by apply convert_route_forward in Hr.
Qed.

(** The listeners that a snapshot can hold. *)
Record snapshot_ok (s : ListenerSnapshot) : Prop := {
  so_bind : ∃ port, l_bind (ls_listener s) = unspecified_v4 port ∧
    l_protocol (ls_listener s) = (if port =? 443 then Https else Http);
  so_tls : l_tls_secret (ls_listener s) = None;
  so_inline : routes_forward (ls_inline_virtual_hosts s);
  so_names : StronglySorted str_lt (ls_route_names s) }.

Lemma snapshot_routes_forward hcms st :
  routes_forward st.2 → routes_forward (fold_left snapshot_routes hcms st).2.
Proof.
  revert st. induction hcms as [|h hcms IH]; intros [names inline] Hst; [done|].
  simpl. apply IH. destruct (hcm_route_specifier h) as [[rds|rc]|]; [done| |done].
  simpl in *. intros vh r [Hvh|Hvh]%elem_of_app Hr; [by apply (Hst vh)|].
  by eapply convert_virtual_hosts_forward.
Qed.

Lemma listener_snapshot_ok {P : ProstLib} l s : listener_snapshot l = Ok s → snapshot_ok s.
Proof.
  unfold listener_snapshot. destruct (http_connection_managers l) as [hcms|e]; [|done].
  pose proof (snapshot_routes_forward hcms ([], [])) as Hf.
  destruct (fold_left snapshot_routes hcms ([], [])) as [names inline]. intros [= <-].
  constructor; simpl; [by eexists|done| |apply sorted_unique_sorted].
  apply Hf. intros ?? ?%elem_of_nil. done.
Qed.

(** ** Properties *)

(** [sorted_unique] is the canonical form of a set of names: strictly
    increasing in byte order, with exactly the names given, and equal for any two
    lists with the same names, whatever their order and repetitions. *)
Theorem sorted_unique_canonical l :
  StronglySorted str_lt (sorted_unique l) ∧ (∀ x, x ∈ sorted_unique l ↔ x ∈ l) ∧
  ∀ l', (∀ x, x ∈ l ↔ x ∈ l') ↔ sorted_unique l = sorted_unique l'.
Proof.
  split; [apply sorted_unique_sorted|]. split; [intros; apply elem_of_sorted_unique|].
  intros l'. split.
  - intros Hext. apply strictly_sorted_ext; [apply sorted_unique_sorted..|].
    intros x. by rewrite !elem_of_sorted_unique.
  - intros Heq x. by rewrite <- (elem_of_sorted_unique x l), Heq, elem_of_sorted_unique.
Qed.

(** The endpoints of a load assignment are those of its localities that have a
    socket address with a 16-bit port, in increasing order of address and port;
    those with the same address and port keep the order in which they came. *)
Theorem endpoints_from_assignment_spec a :
  endpoints_from_assignment a ≡ₚ assignment_endpoints a ∧
  StronglySorted endpoint_le (endpoints_from_assignment a) ∧
  ∀ k, List.filter (same_key k) (endpoints_from_assignment a)
       = List.filter (same_key k) (assignment_endpoints a).
Proof.
  split; [apply sort_endpoints_perm|]. split; [apply sort_endpoints_sorted|].
  intros k. apply sort_endpoints_stable.
Qed.

(** ** Example messages *)

Definition example_pb_route : PbRoute :=
  {| pr_name := "orders-default";
     pr_match := Some {| prm_path_specifier := Some (PsPrefix "/"); prm_headers := [] |};
     pr_action := Some (ActRoute {| ra_cluster_specifier := Some (CsCluster "orders") |}) |}.

Definition example_pb_vhost : PbVirtualHost :=
  {| pvh_name := "orders"; pvh_domains := ["orders.example.com"];
     pvh_routes := [example_pb_route] |}.
