(* ===== verification/AdsState.v ===== *)
(** * The state of an ADS stream (crates/xds/src/client.rs)

    [AdsState] with its four kinds of resources, the subscriptions, the four
    [apply_*] handlers and [runtime_config], which assembles what has been
    received. A handler that fails part way leaves what it already changed: the
    state comes back beside the error. *)

From S2P Require Import Prelude RustString BTree Net Config XdsProto XdsConvert.

Record ClusterSnapshot := {
  cs_name : string;
  cs_eds_service_name : string;
  cs_tls : option UpstreamTls }.

Record AdsState := {
  ads_subscriptions : gmap string (list string);
  ads_listeners : gmap string ListenerSnapshot;
  ads_routes : gmap string (list VirtualHost);
  ads_clusters : gmap string ClusterSnapshot;
  ads_endpoints : gmap string (list Endpoint) }.

(** [AdsState::default]. *)
Definition ads_default : AdsState :=
  {| ads_subscriptions := ∅; ads_listeners := ∅; ads_routes := ∅; ads_clusters := ∅;
     ads_endpoints := ∅ |}.

Record DiscoveryUpdates := {
  du_route_names : list string;
  du_cluster_names : list string;
  du_eds_names : list string }.

Definition updates_default : DiscoveryUpdates :=
  {| du_route_names := []; du_cluster_names := []; du_eds_names := [] |}.

(** [DiscoveryUpdates::subscriptions]. *)
Definition updates_subscriptions (u : DiscoveryUpdates) : list (string * list string) :=
  (if decide (du_route_names u = []) then [] else [(ROUTE_TYPE, du_route_names u)])
  ++ (if decide (du_cluster_names u = []) then [] else [(CLUSTER_TYPE, du_cluster_names u)])
  ++ (if decide (du_eds_names u = []) then [] else [(ENDPOINT_TYPE, du_eds_names u)]).

(** ** Field updates *)

Definition set_subscriptions (m : gmap string (list string)) (st : AdsState) : AdsState :=
  {| ads_subscriptions := m; ads_listeners := ads_listeners st; ads_routes := ads_routes st;
     ads_clusters := ads_clusters st; ads_endpoints := ads_endpoints st |}.

Definition set_listeners (m : gmap string ListenerSnapshot) (st : AdsState) : AdsState :=
  {| ads_subscriptions := ads_subscriptions st; ads_listeners := m; ads_routes := ads_routes st;
     ads_clusters := ads_clusters st; ads_endpoints := ads_endpoints st |}.

Definition set_routes (m : gmap string (list VirtualHost)) (st : AdsState) : AdsState :=
  {| ads_subscriptions := ads_subscriptions st; ads_listeners := ads_listeners st;
     ads_routes := m; ads_clusters := ads_clusters st; ads_endpoints := ads_endpoints st |}.

Definition set_clusters (m : gmap string ClusterSnapshot) (st : AdsState) : AdsState :=
  {| ads_subscriptions := ads_subscriptions st; ads_listeners := ads_listeners st;
     ads_routes := ads_routes st; ads_clusters := m; ads_endpoints := ads_endpoints st |}.

Definition set_endpoints (m : gmap string (list Endpoint)) (st : AdsState) : AdsState :=
  {| ads_subscriptions := ads_subscriptions st; ads_listeners := ads_listeners st;
     ads_routes := ads_routes st; ads_clusters := ads_clusters st; ads_endpoints := m |}.

(** ** Subscriptions *)

Definition subscription (type_url : string) (st : AdsState) : list string :=
  default [] (ads_subscriptions st !! type_url).

Definition set_subscription (type_url : string) (names : list string) (st : AdsState)
    : bool * AdsState :=
  let names := sorted_unique names in
  if decide (ads_subscriptions st !! type_url = Some names) then (false, st)
  else (true, set_subscriptions (<[type_url := names]> (ads_subscriptions st)) st).

(** [prune_requested]: an empty request list is a wildcard. *)
Definition prune_requested {V} (requested : list string) (resources : gmap string V)
    : gmap string V :=
  match requested with
  | [] => ∅
  | _ => fold_left (λ m name, delete name m) requested resources
  end.

(** ** Names to follow *)

Definition route_names (st : AdsState) : list string :=
  sorted_unique (List.flat_map ls_route_names (btree_values (ads_listeners st))).

Definition cluster_names (st : AdsState) : list string :=
  sorted_unique
    (List.flat_map (λ vhosts, List.flat_map (λ vh, List.flat_map (λ route,
        wc_name <$> r_weighted_clusters route) (vh_routes vh)) vhosts)
      (btree_values (ads_routes st))).

Definition eds_names (st : AdsState) : list string :=
  sorted_unique (cs_eds_service_name <$> btree_values (ads_clusters st)).

(** ** Applying a response *)

(** A loop over resources that stops at the first error, keeping the state. *)
Fixpoint apply_each {A} (f : A → AdsState → result unit XdsError * AdsState) (l : list A)
    (st : AdsState) : result unit XdsError * AdsState :=
  match l with
  | [] => (Ok tt, st)
  | x :: l' =>
      match f x st with
      | (Ok _, st') => apply_each f l' st'
      | (Err e, st') => (Err e, st')
      end
  end.

Section ads.
Context {P : ProstLib}.

Definition apply_listener (resource : Any) (st : AdsState) : result unit XdsError * AdsState :=
  match (let? l := decode_resource decode_PbListener LISTENER_TYPE resource in
         listener_snapshot l) with
  | Err e => (Err e, st)
  | Ok snapshot =>
      (Ok tt, set_listeners (<[l_name (ls_listener snapshot) := snapshot]> (ads_listeners st)) st)
  end.

Definition apply_listeners (resources : list Any) (st : AdsState)
    : result DiscoveryUpdates XdsError * AdsState :=
  let requested := subscription LISTENER_TYPE st in
  let st := set_listeners (prune_requested requested (ads_listeners st)) st in
  let '(r, st) := apply_each apply_listener resources st in
  (let? _tt := r in
   Ok {| du_route_names := route_names st; du_cluster_names := []; du_eds_names := [] |}, st).

Definition apply_route (resource : Any) (st : AdsState) : result unit XdsError * AdsState :=
  match decode_resource decode_PbRouteConfiguration ROUTE_TYPE resource with
  | Err e => (Err e, st)
  | Ok route =>
      (Ok tt, set_routes (<[prc_name route := convert_virtual_hosts (prc_virtual_hosts route)]>
                            (ads_routes st)) st)
  end.

Definition apply_routes (resources : list Any) (st : AdsState)
    : result DiscoveryUpdates XdsError * AdsState :=
  let requested := subscription ROUTE_TYPE st in
  let st := set_routes (prune_requested requested (ads_routes st)) st in
  let '(r, st) := apply_each apply_route resources st in
  (let? _tt := r in
   Ok {| du_route_names := []; du_cluster_names := cluster_names st; du_eds_names := [] |}, st).

(** The name under which a cluster's endpoints are discovered. *)
Definition eds_service_name (c : PbCluster) : string :=
  match pc_eds_cluster_config c with
  | Some eds => if decide (eds_service_name_field eds = "") then pc_name c
                else eds_service_name_field eds
  | None => pc_name c
  end.

Definition apply_cluster (resource : Any) (st : AdsState) : result unit XdsError * AdsState :=
  match decode_resource decode_PbCluster CLUSTER_TYPE resource with
  | Err e => (Err e, st)
  | Ok c =>
      if decide (pc_name c = "") then (Ok tt, st)
      else
        let eds := eds_service_name c in
        let st :=
          match pc_load_assignment c with
          | Some assignment =>
              set_endpoints (<[eds := endpoints_from_assignment assignment]> (ads_endpoints st)) st
          | None => st
          end in
        (Ok tt, set_clusters (<[pc_name c :=
                   {| cs_name := pc_name c; cs_eds_service_name := eds;
                      cs_tls := upstream_tls_from_cluster c |}]> (ads_clusters st)) st)
  end.

Definition apply_clusters (resources : list Any) (st : AdsState)
    : result DiscoveryUpdates XdsError * AdsState :=
  let requested := subscription CLUSTER_TYPE st in
  let st := set_clusters (prune_requested requested (ads_clusters st)) st in
  let '(r, st) := apply_each apply_cluster resources st in
  (let? _tt := r in
   Ok {| du_route_names := []; du_cluster_names := []; du_eds_names := eds_names st |}, st).

Definition apply_endpoint (resource : Any) (st : AdsState) : result unit XdsError * AdsState :=
  match decode_resource decode_PbClusterLoadAssignment ENDPOINT_TYPE resource with
  | Err e => (Err e, st)
  | Ok a =>
      if decide (cla_cluster_name a = "") then (Ok tt, st)
      else (Ok tt, set_endpoints (<[cla_cluster_name a := endpoints_from_assignment a]>
                                    (ads_endpoints st)) st)
  end.

Definition apply_endpoints (resources : list Any) (st : AdsState)
    : result DiscoveryUpdates XdsError * AdsState :=
  let requested := subscription ENDPOINT_TYPE st in
  let st := set_endpoints (prune_requested requested (ads_endpoints st)) st in
  let '(r, st) := apply_each apply_endpoint resources st in
  (let? _tt := r in Ok updates_default, st).

Definition apply_response (resp : DiscoveryResponse) (st : AdsState)
    : result DiscoveryUpdates XdsError * AdsState :=
  let ty := dr_type_url resp in
  if decide (ty = LISTENER_TYPE) then apply_listeners (dr_resources resp) st
  else if decide (ty = ROUTE_TYPE) then apply_routes (dr_resources resp) st
  else if decide (ty = CLUSTER_TYPE) then apply_clusters (dr_resources resp) st
  else if decide (ty = ENDPOINT_TYPE) then apply_endpoints (dr_resources resp) st
  else (Ok updates_default, st).

End ads.

(** ** The configuration assembled from the state *)

Definition snapshot_listener (st : AdsState) (snapshot : ListenerSnapshot) : Listener :=
  {| l_name := l_name (ls_listener snapshot);
     l_bind := l_bind (ls_listener snapshot);
     l_protocol := l_protocol (ls_listener snapshot);
     l_virtual_hosts :=
       fold_left (λ vhs route_name,
         match ads_routes st !! route_name with
         | Some vhosts => vhs ++ vhosts
         | None => vhs
         end) (ls_route_names snapshot) (ls_inline_virtual_hosts snapshot);
     l_tls_secret := l_tls_secret (ls_listener snapshot) |}.

Definition snapshot_cluster (st : AdsState) (c : ClusterSnapshot) : Cluster :=
  {| c_name := cs_name c;
     c_endpoints := default [] (ads_endpoints st !! cs_eds_service_name c);
     c_tls := cs_tls c |}.

Definition runtime_config (version : string) (st : AdsState) : RuntimeConfig :=
  {| rc_version := if decide (version = "") then "ads" else version;
     rc_listeners := snapshot_listener st <$> btree_values (ads_listeners st);
     rc_clusters := snapshot_cluster st <$> btree_values (ads_clusters st);
     rc_secrets := [] |}.

(** ** Pruning *)

Lemma lookup_delete_all {V} (names : list string) (m : gmap string V) k :
  fold_left (λ m name, delete name m) names m !! k = if decide (k ∈ names) then None else m !! k.
Proof.
  revert m. induction names as [|n names IH]; intros m; simpl.
  - by destruct (decide (k ∈ [])) as [?%elem_of_nil|].
  - rewrite IH, lookup_delete. repeat case_decide; try done; set_solver.
Qed.

Lemma lookup_prune {V} (requested : list string) (m : gmap string V) k :
  prune_requested requested m !! k =
  if decide (requested = [] ∨ k ∈ requested) then None else m !! k.
Proof.
  destruct requested as [|n l]; simpl prune_requested.
  - rewrite decide_True by (by left). apply lookup_empty.
  - change (fold_left _ l (delete n m)) with (fold_left (λ m name, delete name m) (n :: l) m).
    rewrite lookup_delete_all. repeat case_decide; try done; naive_solver.
Qed.

Lemma lookup_prune_Some {V} requested (m : gmap string V) k v :
  prune_requested requested m !! k = Some v → m !! k = Some v.
Proof. rewrite lookup_prune. by case_decide. Qed.

(** ** The invariant *)

Record ads_inv (st : AdsState) : Prop := {
  ai_listeners k s : ads_listeners st !! k = Some s → l_name (ls_listener s) = k ∧ snapshot_ok s;
  ai_routes k vhs : ads_routes st !! k = Some vhs → routes_forward vhs;
  ai_clusters k c : ads_clusters st !! k = Some c → cs_name c = k;
  ai_subscriptions ty names :
    ads_subscriptions st !! ty = Some names → StronglySorted str_lt names }.

Lemma ads_default_inv : ads_inv ads_default.
Proof. by constructor. Qed.

Lemma set_subscription_inv ty names st :
  ads_inv st → ads_inv (set_subscription ty names st).2.
Proof.
  intros [Hl Hr Hc Hs]. unfold set_subscription. case_decide; [by constructor|].
  constructor; simpl; [done..|]. intros ty' names'. rewrite lookup_insert.
  case_decide; [|apply Hs]. intros [= <-]. apply sorted_unique_sorted.
Qed.

Lemma apply_each_inv {A} (I : AdsState → Prop) (f : A → AdsState → result unit XdsError * AdsState)
    l st :
  (∀ x st, x ∈ l → I st → I (f x st).2) → I st → I (apply_each f l st).2.
Proof.
  revert st. induction l as [|x l IH]; intros st Hf Hst; [done|]. simpl.
  pose proof (Hf x st (list_elem_of_here x l) Hst) as Hx.
  destruct (f x st) as [[u|e] st']; simpl in *; [|done].
  apply IH; [|done]. intros y st1 Hy. apply Hf. by right.
Qed.

Section ads_lemmas.
Context {P : ProstLib}.

Lemma apply_listener_inv res st : ads_inv st → ads_inv (apply_listener res st).2.
Proof.
  intros [Hl Hr Hc Hs]. unfold apply_listener.
  destruct (decode_resource _ _ _) as [l|e]; [|by constructor].
  destruct (listener_snapshot l) as [s|e] eqn:E; [|by constructor].
  constructor; simpl; [|done..]. intros k s'. rewrite lookup_insert.
  case_decide; [|apply Hl]. intros [= <-]. split; [done|]. by eapply listener_snapshot_ok.
Qed.

Lemma apply_route_inv res st : ads_inv st → ads_inv (apply_route res st).2.
Proof.
  intros [Hl Hr Hc Hs]. unfold apply_route.
  destruct (decode_resource _ _ _) as [rc|e]; [|by constructor].
  constructor; simpl; [done| |done..]. intros k vhs. rewrite lookup_insert.
  case_decide; [|apply Hr]. intros [= <-]. apply convert_virtual_hosts_forward.
Qed.

Lemma apply_cluster_inv res st : ads_inv st → ads_inv (apply_cluster res st).2.
Proof.
  intros [Hl Hr Hc Hs]. unfold apply_cluster.
  destruct (decode_resource _ _ _) as [c|e]; [|by constructor].
  case_decide; [by constructor|].
  assert (Hk : ∀ k x, <[pc_name c := {| cs_name := pc_name c;
      cs_eds_service_name := eds_service_name c; cs_tls := upstream_tls_from_cluster c |}]>
      (ads_clusters st) !! k = Some x → cs_name x = k).
  { intros k x. rewrite lookup_insert. case_decide; [|apply Hc]. by intros [= <-]. }
  destruct (pc_load_assignment c); constructor; simpl; done.
Qed.

Lemma apply_endpoint_inv res st : ads_inv st → ads_inv (apply_endpoint res st).2.
Proof.
  intros [Hl Hr Hc Hs]. unfold apply_endpoint.
  destruct (decode_resource _ _ _) as [a|e]; [|by constructor].
  case_decide; by constructor.
Qed.

(** The four handlers have one shape, prune, then go through the resources, so an
    invariant of the pruning and of the four loop bodies, on the resources of the
    response and its type, is one of a response. *)
Lemma apply_response_ind (I : AdsState → Prop) resp st :
  (∀ st names, I st → I (set_listeners (prune_requested names (ads_listeners st)) st)) →
  (∀ st names, I st → I (set_routes (prune_requested names (ads_routes st)) st)) →
  (∀ st names, I st → I (set_clusters (prune_requested names (ads_clusters st)) st)) →
  (∀ st names, I st → I (set_endpoints (prune_requested names (ads_endpoints st)) st)) →
  (∀ res st, dr_type_url resp = LISTENER_TYPE → res ∈ dr_resources resp → I st →
     I (apply_listener res st).2) →
  (∀ res st, dr_type_url resp = ROUTE_TYPE → res ∈ dr_resources resp → I st →
     I (apply_route res st).2) →
  (∀ res st, dr_type_url resp = CLUSTER_TYPE → res ∈ dr_resources resp → I st →
     I (apply_cluster res st).2) →
  (∀ res st, dr_type_url resp = ENDPOINT_TYPE → res ∈ dr_resources resp → I st →
     I (apply_endpoint res st).2) →
  I st → I (apply_response resp st).2.
Proof.
  intros Pl Pr Pc Pe Hl Hr Hc He Hst.
  assert (∀ {A} (f : A → AdsState → result unit XdsError * AdsState) l st
      (k : AdsState → DiscoveryUpdates),
    (∀ x st, x ∈ l → I st → I (f x st).2) → I st →
    I (let '(r, st) := apply_each f l st in (let? _tt := r in Ok (k st), st)).2) as Hloop.
  { intros A f l st0 k Hf Hst0. pose proof (apply_each_inv I f l st0 Hf Hst0) as H.
    by destruct (apply_each f l st0). }
  unfold apply_response, apply_listeners, apply_routes, apply_clusters, apply_endpoints.
  repeat case_decide; [..|done].
  - apply (Hloop _ apply_listener _ _ (λ st, _)); [auto|by apply Pl].
  - apply (Hloop _ apply_route _ _ (λ st, _)); [auto|by apply Pr].
  - apply (Hloop _ apply_cluster _ _ (λ st, _)); [auto|by apply Pc].
  - apply (Hloop _ apply_endpoint _ _ (λ st, _)); [auto|by apply Pe].
Qed.

Lemma apply_response_inv resp st : ads_inv st → ads_inv (apply_response resp st).2.
Proof.
  apply apply_response_ind.
  1-4: intros st0 names [Hl Hr Hc Hs]; constructor; simpl; try done.
  - intros k s Hk%lookup_prune_Some. by apply Hl.
  - intros k v Hk%lookup_prune_Some. by eapply Hr.
  - intros k c Hk%lookup_prune_Some. by eapply Hc.
  - intros res st0 _ _. apply apply_listener_inv.
  - intros res st0 _ _. apply apply_route_inv.
  - intros res st0 _ _. apply apply_cluster_inv.
  - intros res st0 _ _. apply apply_endpoint_inv.
Qed.

(** The operations of a stream on its state. *)
Inductive ads_op :=
| AdsApply (resp : DiscoveryResponse)
| AdsSubscribe (type_url : string) (names : list string).

Definition run_ads (ops : list ads_op) (st : AdsState) : AdsState :=
  fold_left (λ st o,
    match o with
    | AdsApply resp => (apply_response resp st).2
    | AdsSubscribe ty names => (set_subscription ty names st).2
    end) ops st.

Lemma run_ads_inv ops st : ads_inv st → ads_inv (run_ads ops st).
Proof.
  revert st. induction ops as [|[resp|ty names] ops IH]; intros st Hst; simpl; [done| |];
    apply IH; auto using apply_response_inv, set_subscription_inv.
Qed.

End ads_lemmas.

#[export] Hint Resolve ads_default_inv set_subscription_inv apply_response_inv run_ads_inv : dx.

(** ** The assembled configuration *)

Lemma snapshot_vhosts_elem st names vhs vh :
  vh ∈ fold_left (λ vhs route_name,
         match ads_routes st !! route_name with
         | Some vhosts => vhs ++ vhosts
         | None => vhs
         end) names vhs ↔
  vh ∈ vhs ∨ ∃ n, n ∈ names ∧ ∃ vhosts, ads_routes st !! n = Some vhosts ∧ vh ∈ vhosts.
Proof.
  apply (elem_of_fold_left _ (λ n vh, ∃ vhosts, ads_routes st !! n = Some vhosts ∧ vh ∈ vhosts)).
  intros acc n b. destruct (ads_routes st !! n) as [vhosts|]; [rewrite elem_of_app|]; naive_solver.
Qed.

Lemma runtime_config_listener v st l :
  l ∈ rc_listeners (runtime_config v st) ↔
  ∃ k s, ads_listeners st !! k = Some s ∧ l = snapshot_listener st s.
Proof.
  simpl. rewrite list_elem_of_fmap. setoid_rewrite elem_of_btree_values. naive_solver.
Qed.

Lemma runtime_config_cluster_names v st name :
  ads_inv st → name ∈ cluster_names_of (runtime_config v st) ↔ is_Some (ads_clusters st !! name).
Proof.
  intros Hst. unfold cluster_names_of. simpl. rewrite <- list_fmap_compose, list_elem_of_fmap.
  setoid_rewrite elem_of_btree_values. simpl. split.
  - intros (c & -> & k & Hk). pose proof (ai_clusters _ Hst k c Hk) as ->. eauto.
  - intros [c Hc]. exists c. split; [|eauto]. symmetry. by apply (ai_clusters _ Hst).
Qed.

Lemma runtime_config_forward v st l h r :
  ads_inv st → has_route (runtime_config v st) l h r → r_weighted_clusters r ≠ [].
Proof.
  intros Hst (Hl & Hh & Hr). apply runtime_config_listener in Hl as (k & s & Hk & ->).
  simpl in Hh. apply snapshot_vhosts_elem in Hh as [Hh|(n & _ & vhosts & Hn & Hh)].
  - destruct (ai_listeners _ Hst _ _ Hk) as [_ Hs]. by eapply (so_inline _ Hs).
  - by eapply (ai_routes _ Hst).
Qed.

(** Names and binds can never clash, and no route is without a destination. *)
Lemma runtime_config_consistent v st :
  ads_inv st →
  NoDup (l_name <$> rc_listeners (runtime_config v st)) ∧
  NoDup (cluster_names_of (runtime_config v st)) ∧
  (∀ l1 l2, l1 ∈ rc_listeners (runtime_config v st) → l2 ∈ rc_listeners (runtime_config v st) →
     l_bind l1 = l_bind l2 → same_mode l1 l2) ∧
  (∀ l h r, has_route (runtime_config v st) l h r → r_weighted_clusters r ≠ []).
Proof.
  intros Hst. split_and!.
  - simpl. rewrite <- list_fmap_compose. apply btree_values_NoDup_key. simpl.
    intros k s k' s' Hk Hk' Heq.
    apply (ai_listeners _ Hst) in Hk as [<- _], Hk' as [<- _]. done.
  - unfold cluster_names_of. simpl. rewrite <- list_fmap_compose.
    apply btree_values_NoDup_key. simpl. intros k c k' c' Hk Hk' Heq.
    apply (ai_clusters _ Hst) in Hk as <-, Hk' as <-. done.
  - intros l1 l2 (k1 & s1 & H1 & ->)%runtime_config_listener
      (k2 & s2 & H2 & ->)%runtime_config_listener. simpl. intros Hb.
    apply (ai_listeners _ Hst) in H1 as [_ [(p1 & B1 & P1) T1 _ _]],
      H2 as [_ [(p2 & B2 & P2) T2 _ _]].
    unfold same_mode, tls_enabled. simpl. rewrite T1, T2, P1, P2.
    rewrite B1, B2 in Hb. injection Hb as ->. done.
  - intros l h r Hr. by eapply runtime_config_forward.
Qed.

Lemma runtime_config_wf v st :
  ads_inv st →
  well_formed (runtime_config v st) ↔
  ∀ l h r d, has_route (runtime_config v st) l h r → d ∈ r_weighted_clusters r →
    is_Some (ads_clusters st !! wc_name d).
Proof.
  intros Hst. split.
  - intros Hwf l h r d Hr Hd. apply (runtime_config_cluster_names v); [done|].
    by eapply wf_references.
  - intros Hrefs. destruct (runtime_config_consistent v st Hst) as (? & ? & ? & ?).
    constructor; try done. intros l h r d Hr Hd.
    apply runtime_config_cluster_names; [done|]. by eapply Hrefs.
Qed.

(** All that validation can find wrong with such a configuration. *)
Lemma justified_ads v st c :
  ads_inv st →
  justified (runtime_config v st) c ↔
  ∃ l h r d, has_route (runtime_config v st) l h r ∧ d ∈ r_weighted_clusters r ∧
    ads_clusters st !! wc_name d = None ∧ c = missing_cluster r d.
Proof.
  intros Hst. split.
  - destruct (runtime_config_consistent v st Hst) as (Hln & Hcn & Hb & Hd).
    intros [ls1 l ls2 Hl Hin|ls1 l ls2 l0 Hl Hlast Hm|cs1 x cs2 Hc Hin|l h r Hr He|l h r d Hr Hin Hx].
    + apply NoDup_exists_split in Hln as []. by exists ls1, l, ls2.
    + destruct Hm. apply last_Some_elem_of, list_elem_of_filter in Hlast as [Heq Hin].
      apply Hb; [rewrite Hl; set_solver..|done].
    + unfold cluster_names_of in Hcn. apply NoDup_exists_split in Hcn as []. by exists cs1, x, cs2.
    + by destruct (Hd l h r Hr).
    + exists l, h, r, d. split_and!; [done..| |done].
      rewrite (runtime_config_cluster_names v), <- eq_None_not_Some in Hx; done.
  - intros (l & h & r & d & Hr & Hd & Hn & ->). econstructor; [done..|].
    rewrite (runtime_config_cluster_names v), <- eq_None_not_Some; done.
Qed.

(** ** The state of the world

    What a response leaves in the map of its type: the resources it carries, the
    last one of each name; of the rest, what was not asked for. *)

(** Decoding a list of resources, up to the first error. *)
Fixpoint collect {A B E} (f : A → result B E) (l : list A) : result (list B) E :=
  match l with
  | [] => Ok []
  | x :: l' => let? b := f x in let? bs := collect f l' in Ok (b :: bs)
  end.

Definition latest {V} (entries : list (string * V)) (k : string) (old : option V) : option V :=
  match last (base.filter (λ e, e.1 = k) entries) with
  | Some e => Some e.2
  | None => old
  end.

Definition state_of_the_world {V} (requested : list string) (entries : list (string * V))
    (old : gmap string V) (k : string) : option V :=
  latest entries k (if decide (requested = [] ∨ k ∈ requested) then None else old !! k).

Lemma latest_nil {V} k (old : option V) : latest [] k old = old.
Proof. done. Qed.

Lemma latest_cons {V} k0 v es k (old : option V) :
  latest ((k0, v) :: es) k old = latest es k (if decide (k0 = k) then Some v else old).
Proof.
  unfold latest. rewrite filter_cons. simpl. case_decide; [|done].
  rewrite last_cons. by destruct (last _).
Qed.

Lemma omap_entry_cons {A B} (f : A → option B) x l :
  omap f (x :: l) = match f x with Some y => y :: omap f l | None => omap f l end.
Proof. done. Qed.

(** A field of the state that every step either leaves alone or inserts into. *)
Lemma fold_entries {B V} (upd : B → AdsState → AdsState) (get : AdsState → gmap string V)
    (entry : B → option (string * V)) bs st k :
  (∀ b st, get (upd b st) =
     match entry b with Some e => <[e.1 := e.2]> (get st) | None => get st end) →
  get (fold_left (λ st b, upd b st) bs st) !! k = latest (omap entry bs) k (get st !! k).
Proof.
  intros Hupd. revert st. induction bs as [|b bs IH]; intros st; [done|]. simpl.
  rewrite IH, Hupd. destruct (entry b) as [[k0 v]|]; [|done]. simpl.
  rewrite latest_cons, lookup_insert. done.
Qed.

(** A field that no step touches. *)
Lemma fold_field {B C} (upd : B → AdsState → AdsState) (get : AdsState → C) bs st :
  (∀ b st, get (upd b st) = get st) → get (fold_left (λ st b, upd b st) bs st) = get st.
Proof.
  intros Hupd. revert st. induction bs as [|b bs IH]; intros st; [done|]. simpl.
  by rewrite IH, Hupd.
Qed.

Lemma apply_each_collect {A B} (f : A → AdsState → result unit XdsError * AdsState)
    (dec : A → result B XdsError) (upd : B → AdsState → AdsState) l st st' :
  (∀ x st, f x st = match dec x with Ok b => (Ok tt, upd b st) | Err e => (Err e, st) end) →
  apply_each f l st = (Ok tt, st') →
  ∃ bs, collect dec l = Ok bs ∧ st' = fold_left (λ st b, upd b st) bs st.
Proof.
  intros Hf. revert st. induction l as [|x l IH]; intros st; simpl.
  - intros [= <-]. by exists [].
  - rewrite Hf. destruct (dec x) as [b|e]; [|done].
    intros (bs & -> & ->)%IH. by exists (b :: bs).
Qed.

Lemma apply_each_total {A B} (f : A → AdsState → result unit XdsError * AdsState)
    (dec : A → result B XdsError) l st bs :
  (∀ x st b, dec x = Ok b → (f x st).1 = Ok tt) →
  collect dec l = Ok bs → ∃ st', apply_each f l st = (Ok tt, st').
Proof.
  intros Hf. revert st bs. induction l as [|x l IH]; intros st bs; [by eexists|]. simpl.
  specialize (Hf x st). destruct (dec x) as [b|]; [|done]. specialize (Hf b eq_refl).
  destruct (f x st) as [[[]|] st']; [|done].
  destruct (collect dec l) as [bs'|]; [|done]. intros _. by eapply IH.
Qed.

Section sotw.
Context {P : ProstLib}.

Definition decode_listener (resource : Any) : result ListenerSnapshot XdsError :=
  let? l := decode_resource decode_PbListener LISTENER_TYPE resource in listener_snapshot l.

Definition listener_entry (s : ListenerSnapshot) : option (string * ListenerSnapshot) :=
  Some (l_name (ls_listener s), s).

Definition route_entry (rc : PbRouteConfiguration) : option (string * list VirtualHost) :=
  Some (prc_name rc, convert_virtual_hosts (prc_virtual_hosts rc)).

Definition cluster_entry (c : PbCluster) : option (string * ClusterSnapshot) :=
  if decide (pc_name c = "") then None
  else Some (pc_name c, {| cs_name := pc_name c; cs_eds_service_name := eds_service_name c;
                           cs_tls := upstream_tls_from_cluster c |}).

(** The endpoints a cluster brings along. *)
Definition cluster_load_entry (c : PbCluster) : option (string * list Endpoint) :=
  if decide (pc_name c = "") then None
  else a ← pc_load_assignment c; Some (eds_service_name c, endpoints_from_assignment a).

Definition endpoint_entry (a : PbClusterLoadAssignment) : option (string * list Endpoint) :=
  if decide (cla_cluster_name a = "") then None
  else Some (cla_cluster_name a, endpoints_from_assignment a).

Lemma apply_listeners_sotw rs st u st' :
  apply_listeners rs st = (Ok u, st') →
  ∃ ss, collect decode_listener rs = Ok ss ∧
    (∀ k, ads_listeners st' !! k = state_of_the_world (subscription LISTENER_TYPE st)
       (omap listener_entry ss) (ads_listeners st) k) ∧
    ads_routes st' = ads_routes st ∧ ads_clusters st' = ads_clusters st ∧
    ads_endpoints st' = ads_endpoints st ∧ ads_subscriptions st' = ads_subscriptions st ∧
    u = {| du_route_names := route_names st'; du_cluster_names := []; du_eds_names := [] |}.
Proof.
  unfold apply_listeners. destruct (apply_each _ _ _) as [[[]|e] st1] eqn:E; [|done].
  intros [= <- <-].
  apply (apply_each_collect _ decode_listener (λ s st, set_listeners
    (<[l_name (ls_listener s) := s]> (ads_listeners st)) st)) in E as (ss & Hss & ->).
  2:{ intros x st0. unfold apply_listener, decode_listener. by destruct (let? _ := _ in _). }
  exists ss. split; [done|]. split.
  - intros k. rewrite (fold_entries _ ads_listeners listener_entry) by done. simpl.
    by rewrite lookup_prune.
  - repeat split; try done; (etrans; [by apply fold_field|done]).
Qed.

Lemma apply_routes_sotw rs st u st' :
  apply_routes rs st = (Ok u, st') →
  ∃ rcs, collect (decode_resource decode_PbRouteConfiguration ROUTE_TYPE) rs = Ok rcs ∧
    (∀ k, ads_routes st' !! k = state_of_the_world (subscription ROUTE_TYPE st)
       (omap route_entry rcs) (ads_routes st) k) ∧
    ads_listeners st' = ads_listeners st ∧ ads_clusters st' = ads_clusters st ∧
    ads_endpoints st' = ads_endpoints st ∧ ads_subscriptions st' = ads_subscriptions st ∧
    u = {| du_route_names := []; du_cluster_names := cluster_names st'; du_eds_names := [] |}.
Proof.
  unfold apply_routes. destruct (apply_each _ _ _) as [[[]|e] st1] eqn:E; [|done].
  intros [= <- <-].
  apply (apply_each_collect _ (decode_resource decode_PbRouteConfiguration ROUTE_TYPE)
    (λ rc st, set_routes (<[prc_name rc := convert_virtual_hosts (prc_virtual_hosts rc)]>
       (ads_routes st)) st)) in E as (rcs & Hrcs & ->).
  2:{ intros x st0. unfold apply_route. by destruct (decode_resource _ _ _). }
  exists rcs. split; [done|]. split.
  - intros k. rewrite (fold_entries _ ads_routes route_entry) by done. simpl.
    by rewrite lookup_prune.
  - repeat split; try done; (etrans; [by apply fold_field|done]).
Qed.

Definition apply_decoded_cluster (c : PbCluster) (st : AdsState) : AdsState :=
  let st := match cluster_load_entry c with
            | Some e => set_endpoints (<[e.1 := e.2]> (ads_endpoints st)) st
            | None => st
            end in
  match cluster_entry c with
  | Some e => set_clusters (<[e.1 := e.2]> (ads_clusters st)) st
  | None => st
  end.

Lemma apply_clusters_sotw rs st u st' :
  apply_clusters rs st = (Ok u, st') →
  ∃ cs, collect (decode_resource decode_PbCluster CLUSTER_TYPE) rs = Ok cs ∧
    (∀ k, ads_clusters st' !! k = state_of_the_world (subscription CLUSTER_TYPE st)
       (omap cluster_entry cs) (ads_clusters st) k) ∧
    (∀ k, ads_endpoints st' !! k = latest (omap cluster_load_entry cs) k (ads_endpoints st !! k)) ∧
    ads_listeners st' = ads_listeners st ∧ ads_routes st' = ads_routes st ∧
    ads_subscriptions st' = ads_subscriptions st ∧
    u = {| du_route_names := []; du_cluster_names := []; du_eds_names := eds_names st' |}.
Proof.
  unfold apply_clusters. destruct (apply_each _ _ _) as [[[]|e] st1] eqn:E; [|done].
  intros [= <- <-].
  apply (apply_each_collect _ (decode_resource decode_PbCluster CLUSTER_TYPE)
    apply_decoded_cluster) in E as (cs & Hcs & ->).
  2:{ intros x st0. unfold apply_cluster, apply_decoded_cluster, cluster_load_entry, cluster_entry.
      destruct (decode_resource _ _ _) as [c|]; [|done].
      case_decide; [done|]. by destruct (pc_load_assignment c). }
  exists cs. split; [done|].
  unfold apply_decoded_cluster. split; [|split].
  - intros k. rewrite (fold_entries _ ads_clusters cluster_entry); [simpl; by rewrite lookup_prune|].
    intros b st0. by destruct (cluster_load_entry b), (cluster_entry b).
  - intros k. rewrite (fold_entries _ ads_endpoints cluster_load_entry); [done|].
    intros b st0. by destruct (cluster_load_entry b), (cluster_entry b).
  - repeat split; try done; (etrans; [apply fold_field|done]); intros b st0;
      by destruct (cluster_load_entry b), (cluster_entry b).
Qed.

Lemma apply_endpoints_sotw rs st u st' :
  apply_endpoints rs st = (Ok u, st') →
  ∃ els, collect (decode_resource decode_PbClusterLoadAssignment ENDPOINT_TYPE) rs = Ok els ∧
    (∀ k, ads_endpoints st' !! k = state_of_the_world (subscription ENDPOINT_TYPE st)
       (omap endpoint_entry els) (ads_endpoints st) k) ∧
    ads_listeners st' = ads_listeners st ∧ ads_routes st' = ads_routes st ∧
    ads_clusters st' = ads_clusters st ∧ ads_subscriptions st' = ads_subscriptions st ∧
    u = updates_default.
Proof.
  unfold apply_endpoints. destruct (apply_each _ _ _) as [[[]|e] st1] eqn:E; [|done].
  intros [= <- <-].
  apply (apply_each_collect _ (decode_resource decode_PbClusterLoadAssignment ENDPOINT_TYPE)
    (λ a st, match endpoint_entry a with
             | Some e => set_endpoints (<[e.1 := e.2]> (ads_endpoints st)) st
             | None => st
             end)) in E as (els & Hels & ->).
  2:{ intros x st0. unfold apply_endpoint, endpoint_entry.
      destruct (decode_resource _ _ _) as [a|]; [|done]. by case_decide. }
  exists els. split; [done|]. split.
  - intros k. rewrite (fold_entries _ ads_endpoints endpoint_entry); [simpl; by rewrite lookup_prune|].
    intros b st0. by destruct (endpoint_entry b).
  - repeat split; try done; (etrans; [apply fold_field|done]); intros b st0;
      by destruct (endpoint_entry b).
Qed.

(** A response whose resources all decode is taken. *)
Lemma apply_listeners_total rs st ss :
  collect decode_listener rs = Ok ss →
  ∃ u st', apply_listeners rs st = (Ok u, st').
Proof.
  intros H. unfold apply_listeners.
  destruct (apply_each_total apply_listener decode_listener rs
    (set_listeners (prune_requested (subscription LISTENER_TYPE st) (ads_listeners st)) st) ss)
    as [st1 E]; [|done|].
  - intros x st0 b Hb. unfold apply_listener, decode_listener in *. by rewrite Hb.
  - rewrite E. by eexists _, _.
Qed.

Lemma apply_routes_total rs st rcs :
  collect (decode_resource decode_PbRouteConfiguration ROUTE_TYPE) rs = Ok rcs →
  ∃ u st', apply_routes rs st = (Ok u, st').
Proof.
  intros H. unfold apply_routes.
  destruct (apply_each_total apply_route
    (decode_resource decode_PbRouteConfiguration ROUTE_TYPE) rs
    (set_routes (prune_requested (subscription ROUTE_TYPE st) (ads_routes st)) st) rcs)
    as [st1 E]; [|done|].
  - intros x st0 b Hb. unfold apply_route. by rewrite Hb.
  - rewrite E. by eexists _, _.
Qed.

Lemma apply_clusters_total rs st cs :
  collect (decode_resource decode_PbCluster CLUSTER_TYPE) rs = Ok cs →
  ∃ u st', apply_clusters rs st = (Ok u, st').
Proof.
  intros H. unfold apply_clusters.
  destruct (apply_each_total apply_cluster
    (decode_resource decode_PbCluster CLUSTER_TYPE) rs
    (set_clusters (prune_requested (subscription CLUSTER_TYPE st) (ads_clusters st)) st) cs)
    as [st1 E]; [|done|].
  - intros x st0 b Hb. unfold apply_cluster. rewrite Hb. by case_decide.
  - rewrite E. by eexists _, _.
Qed.

Lemma apply_endpoints_total rs st els :
  collect (decode_resource decode_PbClusterLoadAssignment ENDPOINT_TYPE) rs = Ok els →
  ∃ u st', apply_endpoints rs st = (Ok u, st').
Proof.
  intros H. unfold apply_endpoints.
  destruct (apply_each_total apply_endpoint
    (decode_resource decode_PbClusterLoadAssignment ENDPOINT_TYPE) rs
    (set_endpoints (prune_requested (subscription ENDPOINT_TYPE st) (ads_endpoints st)) st) els)
    as [st1 E]; [|done|].
  - intros x st0 b Hb. unfold apply_endpoint. rewrite Hb. by case_decide.
  - rewrite E. by eexists _, _.
Qed.

End sotw.

(** ** The properties of the state *)

(** C24: Whatever a server sends and however the names are followed, the
    configuration assembled from the state can only be incomplete, never
    inconsistent: it is accepted exactly when every destination of every route is
    a known cluster, and the conflicts reported otherwise are exactly the
    references to unknown clusters. *)
Theorem ads_config_conflicts {P : ProstLib} ops version :
  let st := run_ads ops ads_default in
  let cfg := runtime_config version st in
  match validate cfg with
  | Ok _ => ∀ l h r d, has_route cfg l h r → d ∈ r_weighted_clusters r →
              is_Some (ads_clusters st !! wc_name d)
  | Err cs => cs ≠ [] ∧ ∀ c, c ∈ cs ↔ ∃ l h r d, has_route cfg l h r ∧
                d ∈ r_weighted_clusters r ∧ ads_clusters st !! wc_name d = None ∧
                c = missing_cluster r d
  end.
Proof.
  intros st cfg. assert (ads_inv st) as Hst by (apply run_ads_inv, ads_default_inv).
  destruct (validate cfg) as [[]|cs] eqn:E.
  - apply validate_Ok_well_formed in E. by apply (runtime_config_wf version st Hst).
  - apply validate_Err_conflicts in E as [<- Hne]. split; [done|]. intros c.
    rewrite elem_of_validate_conflicts. by apply justified_ads.
Qed.

(** [set_subscription] answers [true], so that a request is sent, exactly when
    the names are not, as a set, those already asked for; afterwards they are, the
    other types are as before, and asking again changes nothing. *)
Theorem set_subscription_spec {P : ProstLib} ops ty names :
  let st := run_ads ops ads_default in
  let '(changed, st') := set_subscription ty names st in
  ads_subscriptions st' !! ty = Some (sorted_unique names) ∧
  (∀ ty', ty' ≠ ty → ads_subscriptions st' !! ty' = ads_subscriptions st !! ty') ∧
  (changed = false ↔ ∃ old, ads_subscriptions st !! ty = Some old ∧ ∀ n, n ∈ old ↔ n ∈ names) ∧
  ∀ names', (∀ n, n ∈ names' ↔ n ∈ names) → set_subscription ty names' st' = (false, st').
Proof.
  intros st. assert (ads_inv st) as Hst by (apply run_ads_inv, ads_default_inv).
  pose proof (sorted_unique_same names) as Hsame.
  unfold set_subscription at 1. case_decide as Hd; simpl.
  - split; [done|]. split; [done|]. split.
    + split; [|done]. intros _. exists (sorted_unique names).
      split; [done|]. apply elem_of_sorted_unique_all.
    + intros names' Hn. unfold set_subscription. rewrite (Hsame names') by done.
      by rewrite decide_True.
  - rewrite lookup_insert_eq. split; [done|].
    split; [intros ty' ?; by rewrite lookup_insert_ne|]. split.
    + split; [done|]. intros (old & Hold & Hn). destruct Hd. rewrite Hold. f_equal.
      rewrite <- (Hsame old) by done. symmetry.
      by apply sorted_unique_of_sorted, (ai_subscriptions _ Hst ty).
    + intros names' Hn. unfold set_subscription. simpl.
      by rewrite (Hsame names'), lookup_insert_eq, decide_True.
Qed.

(** What a response that is taken does to the state, type by type: the abstract
    state-of-the-world semantics. *)
Inductive applied {P : ProstLib} (resp : DiscoveryResponse) (st st' : AdsState) : Prop :=
| Applied_listeners ss :
    dr_type_url resp = LISTENER_TYPE → collect decode_listener (dr_resources resp) = Ok ss →
    (∀ k, ads_listeners st' !! k = state_of_the_world (subscription LISTENER_TYPE st)
       (omap listener_entry ss) (ads_listeners st) k) →
    ads_routes st' = ads_routes st → ads_clusters st' = ads_clusters st →
    ads_endpoints st' = ads_endpoints st → applied resp st st'
| Applied_routes rcs :
    dr_type_url resp = ROUTE_TYPE →
    collect (decode_resource decode_PbRouteConfiguration ROUTE_TYPE) (dr_resources resp) = Ok rcs →
    (∀ k, ads_routes st' !! k = state_of_the_world (subscription ROUTE_TYPE st)
       (omap route_entry rcs) (ads_routes st) k) →
    ads_listeners st' = ads_listeners st → ads_clusters st' = ads_clusters st →
    ads_endpoints st' = ads_endpoints st → applied resp st st'
| Applied_clusters cs :
    dr_type_url resp = CLUSTER_TYPE →
    collect (decode_resource decode_PbCluster CLUSTER_TYPE) (dr_resources resp) = Ok cs →
    (∀ k, ads_clusters st' !! k = state_of_the_world (subscription CLUSTER_TYPE st)
       (omap cluster_entry cs) (ads_clusters st) k) →
    (∀ k, ads_endpoints st' !! k =
       latest (omap cluster_load_entry cs) k (ads_endpoints st !! k)) →
    ads_listeners st' = ads_listeners st → ads_routes st' = ads_routes st → applied resp st st'
| Applied_endpoints els :
    dr_type_url resp = ENDPOINT_TYPE →
    collect (decode_resource decode_PbClusterLoadAssignment ENDPOINT_TYPE) (dr_resources resp)
      = Ok els →
    (∀ k, ads_endpoints st' !! k = state_of_the_world (subscription ENDPOINT_TYPE st)
       (omap endpoint_entry els) (ads_endpoints st) k) →
    ads_listeners st' = ads_listeners st → ads_routes st' = ads_routes st →
    ads_clusters st' = ads_clusters st → applied resp st st'
| Applied_other :
    dr_type_url resp ∉ [LISTENER_TYPE; ROUTE_TYPE; CLUSTER_TYPE; ENDPOINT_TYPE] → st' = st →
    applied resp st st'.

Section applied.
Context {P : ProstLib}.

Lemma apply_response_applied_sub resp st u st' :
  apply_response resp st = (Ok u, st') →
  applied resp st st' ∧ ads_subscriptions st' = ads_subscriptions st.
Proof.
  unfold apply_response.
  case_decide as H1; [|case_decide as H2; [|case_decide as H3; [|case_decide as H4]]].
  - intros (? & ? & ? & ? & ? & ? & ? & _)%apply_listeners_sotw.
    split; [by eapply Applied_listeners|done].
  - intros (? & ? & ? & ? & ? & ? & ? & _)%apply_routes_sotw.
    split; [by eapply Applied_routes|done].
  - intros (? & ? & ? & ? & ? & ? & ? & _)%apply_clusters_sotw.
    split; [by eapply Applied_clusters|done].
  - intros (? & ? & ? & ? & ? & ? & ? & _)%apply_endpoints_sotw.
    split; [by eapply Applied_endpoints|done].
  - intros [= <- <-]. split; [|done]. apply Applied_other; [|done].
    rewrite !not_elem_of_cons. repeat split; try done. apply not_elem_of_nil.
Qed.

(** C23: A response that is taken changes the state by the state-of-the-world rule:
    of the resources of its type, those it carries replace what there was, the last
    one of each name, those asked for and not carried are gone, and the others
    stay; no other type is touched, save that a cluster's own load assignment sets
    the endpoints of its service, and the subscriptions stay as they are. *)
Theorem apply_response_applied resp st u st' :
  apply_response resp st = (Ok u, st') →
  applied resp st st' ∧ ads_subscriptions st' = ads_subscriptions st.
Proof. apply apply_response_applied_sub. Qed.

End applied.

(** ** A concrete decoder

    Messages as they come from the control plane, each encoded by a short name. *)

Definition example_rds_hcm : PbHttpConnectionManager :=
  {| hcm_route_specifier := Some (RsRds {| rds_route_config_name := "http.80" |}) |}.

(** The listener after it has moved to another route configuration. *)
Definition example_moved_hcm : PbHttpConnectionManager :=
  {| hcm_route_specifier := Some (RsRds {| rds_route_config_name := "http.81" |}) |}.

Definition example_route_configuration : PbRouteConfiguration :=
  {| prc_name := "http.80"; prc_virtual_hosts := [example_pb_vhost] |}.

Definition example_inline_hcm : PbHttpConnectionManager :=
  {| hcm_route_specifier := Some (RsRouteConfig example_route_configuration) |}.

Definition example_pb_listener (hcm : string) : PbListener :=
  {| pl_name := "0.0.0.0:80"; pl_address := None; pl_filter_chains := [];
     pl_api_listener := Some {| al_api_listener :=
       Some {| any_type_url := HCM_TYPE; any_value := hcm |} |} |}.

Definition example_pb_cluster : PbCluster :=
  {| pc_name := "orders"; pc_eds_cluster_config := None; pc_load_assignment := None;
     pc_transport_socket := None |}.

Definition example_pb_assignment : PbClusterLoadAssignment :=
  {| cla_cluster_name := "orders";
     cla_endpoints := [{| loc_lb_endpoints := [
       {| lb_host_identifier := Some (HiEndpoint {| pe_address := Some {| addr_address :=
            Some (AddrSocketAddress {| sa_address := "10.0.0.7";
              sa_port_specifier := Some (PortValue 8080) |}) |} |});
          lb_health_status := 1 |}] |}] |}.

Definition only {A} (bytes : string) (msg : A) (s : string) : result A string :=
  if decide (s = bytes) then Ok msg else Err "invalid wire type".

Definition example_prost : ProstLib :=
  {| decode_PbListener := λ s,
       if decide (s = "listener-inline") then Ok (example_pb_listener "hcm-inline")
       else if decide (s = "listener-moved") then Ok (example_pb_listener "hcm-moved")
       else only "listener" (example_pb_listener "hcm-rds") s;
     decode_PbRouteConfiguration := only "routes" example_route_configuration;
     decode_PbCluster := only "cluster" example_pb_cluster;
     decode_PbClusterLoadAssignment := only "endpoints" example_pb_assignment;
     decode_PbHttpConnectionManager := λ s,
       if decide (s = "hcm-inline") then Ok example_inline_hcm
       else if decide (s = "hcm-moved") then Ok example_moved_hcm
       else only "hcm-rds" example_rds_hcm s;
     decode_PbUpstreamTlsContext := λ _, Err "invalid wire type" |}.

Definition example_response (type_url version nonce : string) (bytes : list string)
    : DiscoveryResponse :=
  {| dr_version_info := version; dr_type_url := type_url; dr_nonce := nonce;
     dr_resources := (λ b, {| any_type_url := type_url; any_value := b |}) <$> bytes |}.

Lemma apply_response_applied_witness :
  applied (P := example_prost) (example_response ROUTE_TYPE "v1" "n1" ["routes"]) ads_default
    (set_routes {["http.80" := convert_virtual_hosts [example_pb_vhost]]} ads_default).
Proof.
  apply (apply_response_applied (P := example_prost) (example_response ROUTE_TYPE "v1" "n1" ["routes"]) ads_default
    {| du_route_names := []; du_cluster_names := ["orders"]; du_eds_names := [] |}).
  vm_compute. reflexivity.
Defined.
