(* ===== verification/XdsClient.v ===== *)
(** * The ADS client (crates/xds/src/client.rs)

    [XdsClient]: the node it announces, the requests it sends, the loop over the
    responses of one stream ([run_once]) and the reconnecting loop ([run]).

    What the network does is an argument: a connection attempt is a [Connection],
    the outcome of each library call and the events of the stream in order. The
    channel of requests keeps all that was sent, the watch channel all that was
    published, so that theorems can talk about both. The capacity of the channel of
    requests is in [XdsChannel]. *)

From S2P Require Import Prelude RustString BTree Net Config Identity XdsProto XdsConvert AdsState.

(** ** Configuration and node *)

Record XdsClientConfig := {
  xc_endpoint : string;
  xc_identity : RouterIdentity;
  xc_listener_names : list string;
  xc_reconnect_delay : Z }.

Definition string_value (s : string) : PbValue := StringValue s.

Definition node (cfg : XdsClientConfig) : PbNode :=
  let md := metadata (xc_identity cfg) in
  let fields : gmap string PbValue := ∅ in
  let fields := <["GENERATOR" := string_value (md_generator md)]> fields in
  let fields := <["CLUSTER_ID" := string_value (md_cluster_id md)]> fields in
  let fields := <["NAMESPACE" := string_value (md_namespace md)]> fields in
  let fields :=
    match md_node_name md with
    | Some node_name => <["KUBE_NODE_NAME" := string_value node_name]> fields
    | None => fields
    end in
  {| node_id_field := node_id (xc_identity cfg);
     node_cluster := id_cluster_id (xc_identity cfg);
     node_metadata := Some fields |}.

(** ** Channels *)

(** The [mpsc] channel of requests: what was sent, and whether the receiving end
    still exists. *)
Record RequestChannel := {
  rq_sent : list DiscoveryRequest;
  rq_open : bool }.

(** The sending end of the [watch] channel: its first value, the values sent since
    and whether a receiver still exists. *)
Record WatchSender := {
  w_initial : RuntimeConfig;
  w_sent : list RuntimeConfig;
  w_receivers : bool }.

(** [Sender::borrow]. *)
Definition watch_value (w : WatchSender) : RuntimeConfig := default (w_initial w) (last (w_sent w)).

(** [Sender::send]: fails, and changes nothing, without a receiver. *)
Definition watch_send (cfg : RuntimeConfig) (w : WatchSender) : option WatchSender :=
  if w_receivers w
  then Some {| w_initial := w_initial w; w_sent := w_sent w ++ [cfg];
               w_receivers := w_receivers w |}
  else None.

Definition send_discovery_request (n : PbNode) (type_url : string) (resource_names : list string)
    (version_info response_nonce : string) (ch : RequestChannel)
    : result unit XdsError * RequestChannel :=
  if rq_open ch
  then (Ok tt, {| rq_sent := rq_sent ch ++ [
          {| dq_version_info := version_info; dq_node := Some n;
             dq_resource_names := resource_names; dq_type_url := type_url;
             dq_response_nonce := response_nonce; dq_error_detail := None |}];
          rq_open := rq_open ch |})
  else (Err RequestChannelClosed, ch).

(** ** One stream *)

Record Session := {
  ss_ads : AdsState;
  ss_requests : RequestChannel;
  ss_watch : WatchSender }.

Definition set_ads (ads : AdsState) (s : Session) : Session :=
  {| ss_ads := ads; ss_requests := ss_requests s; ss_watch := ss_watch s |}.

Definition set_requests (ch : RequestChannel) (s : Session) : Session :=
  {| ss_ads := ss_ads s; ss_requests := ch; ss_watch := ss_watch s |}.

Definition set_watch (w : WatchSender) (s : Session) : Session :=
  {| ss_ads := ss_ads s; ss_requests := ss_requests s; ss_watch := w |}.

(** [send_discovery_request] on the session's channel. *)
Definition session_send (n : PbNode) (type_url : string) (names : list string)
    (version nonce : string) (s : Session) : result unit XdsError * Session :=
  let '(r, ch) := send_discovery_request n type_url names version nonce (ss_requests s) in
  (r, set_requests ch s).

(** The loop over [updates.subscriptions()]. *)
Fixpoint follow_subscriptions (n : PbNode) (subs : list (string * list string)) (s : Session)
    : result unit XdsError * Session :=
  match subs with
  | [] => (Ok tt, s)
  | (type_url, names) :: subs' =>
      let '(changed, ads) := set_subscription type_url names (ss_ads s) in
      let s := set_ads ads s in
      let '(r, s) :=
        if changed then session_send n type_url names "" "" s else (Ok tt, s) in
      match r with
      | Ok _ => follow_subscriptions n subs' s
      | Err e => (Err e, s)
      end
  end.

(** The end of the loop body: publish the configuration if it is complete and
    new. *)
Definition publish (version : string) (s : Session) : result unit XdsError * Session :=
  let cfg := runtime_config version (ss_ads s) in
  match validate cfg with
  | Ok _ =>
      if decide (cfg = watch_value (ss_watch s)) then (Ok tt, s)
      else match watch_send cfg (ss_watch s) with
           | Some w => (Ok tt, set_watch w s)
           | None => (Err RuntimeConfigClosed, s)
           end
  | Err _ => (Ok tt, s)
  end.

(** The body of the loop over the responses of the stream. *)
Definition handle_response {P : ProstLib} (n : PbNode) (resp : DiscoveryResponse) (s : Session)
    : result unit XdsError * Session :=
  let '(applied, ads) := apply_response resp (ss_ads s) in
  let s := set_ads ads s in
  match applied with
  | Err e => (Err e, s)
  | Ok updates =>
      let '(r, s) :=
        session_send n (dr_type_url resp) (subscription (dr_type_url resp) (ss_ads s))
          (dr_version_info resp) (dr_nonce resp) s in
      match r with
      | Err e => (Err e, s)
      | Ok _ =>
          let '(r, s) := follow_subscriptions n (updates_subscriptions updates) s in
          match r with
          | Err e => (Err e, s)
          | Ok _ => publish (dr_version_info resp) s
          end
      end
  end.

(** What happens on a stream: messages, its end or failure, and the other ends of
    the two channels going away. *)
Inductive StreamEvent :=
| Message (resp : DiscoveryResponse)
| StreamEnd
| StreamFailure (status : string)
| RequestsDropped
| ReceiversDropped.

Definition close_requests (s : Session) : Session :=
  set_requests {| rq_sent := rq_sent (ss_requests s); rq_open := false |} s.

Definition drop_receivers (w : WatchSender) : WatchSender :=
  {| w_initial := w_initial w; w_sent := w_sent w; w_receivers := false |}.

(** The loop: [None] while it still waits for the stream. *)
Fixpoint run_stream {P : ProstLib} (n : PbNode) (evs : list StreamEvent) (s : Session)
    : option (result unit XdsError) * Session :=
  match evs with
  | [] => (None, s)
  | Message resp :: evs' =>
      match handle_response n resp s with
      | (Ok _, s') => run_stream n evs' s'
      | (Err e, s') => (Some (Err e), s')
      end
  | StreamEnd :: _ => (Some (Ok tt), s)
  | StreamFailure status :: _ => (Some (Err (StreamReceive status)), s)
  | RequestsDropped :: evs' =>
      run_stream n evs' (close_requests s)
  | ReceiversDropped :: evs' =>
      run_stream n evs' (set_watch (drop_receivers (ss_watch s)) s)
  end.

(** What the calls of one connection attempt answer. *)
Record Connection := {
  cn_endpoint : result unit string;
  cn_connect : result unit string;
  cn_open : result unit string;
  cn_events : list StreamEvent }.

Definition connect_channel (cfg : XdsClientConfig) (cn : Connection) : result unit XdsError :=
  let? _endpoint := map_err (InvalidEndpoint (xc_endpoint cfg)) (cn_endpoint cn) in
  map_err (Connect (xc_endpoint cfg)) (cn_connect cn).

(** The session before the first event: the listeners are subscribed and
    requested. *)
Definition start_session (cfg : XdsClientConfig) (w : WatchSender)
    : result unit XdsError * Session :=
  let listener_names := sorted_unique (xc_listener_names cfg) in
  let '(_, ads) := set_subscription LISTENER_TYPE listener_names ads_default in
  session_send (node cfg) LISTENER_TYPE listener_names "" ""
    {| ss_ads := ads; ss_requests := {| rq_sent := []; rq_open := true |}; ss_watch := w |}.

Definition run_once {P : ProstLib} (cfg : XdsClientConfig) (cn : Connection) (w : WatchSender)
    : option (result unit XdsError) * WatchSender :=
  match connect_channel cfg cn with
  | Err e => (Some (Err e), w)
  | Ok _ =>
      let '(r, s) := start_session cfg w in
      match r with
      | Err e => (Some (Err e), ss_watch s)
      | Ok _ =>
          match map_err StreamOpen (cn_open cn) with
          | Err e => (Some (Err e), ss_watch s)
          | Ok _ =>
              let '(r, s) := run_stream (node cfg) (cn_events cn) s in (r, ss_watch s)
          end
      end
  end.

(** ** The reconnecting loop *)

(** [run] over the connection attempts there will be: [None] while it runs. *)
Fixpoint run {P : ProstLib} (cfg : XdsClientConfig) (cns : list Connection) (w : WatchSender)
    : option (result unit XdsError) * WatchSender :=
  match cns with
  | [] => (None, w)
  | cn :: cns' =>
      match run_once cfg cn w with
      | (None, w') => (None, w')
      | (Some (Err (InvalidEndpoint e src)), w') => (Some (Err (InvalidEndpoint e src)), w')
      | (Some _, w') => run cfg cns' w'
      end
  end.

(** ** What one response changes *)

(** The names that a successful [apply_response] returns are the ones the state
    now calls for; a type it is silent about calls for what it did before. *)
Lemma apply_response_updates {P : ProstLib} resp st u st' :
  apply_response resp st = (Ok u, st') →
  ((du_route_names u = [] ∧ route_names st' = route_names st) ∨ du_route_names u = route_names st') ∧
  ((du_cluster_names u = [] ∧ cluster_names st' = cluster_names st) ∨
     du_cluster_names u = cluster_names st') ∧
  ((du_eds_names u = [] ∧ eds_names st' = eds_names st) ∨ du_eds_names u = eds_names st').
Proof.
  unfold apply_response, route_names, cluster_names, eds_names.
  case_decide; [|case_decide; [|case_decide; [|case_decide]]].
  - intros (ss & _ & _ & -> & -> & _ & _ & ->)%apply_listeners_sotw. simpl. tauto.
  - intros (ss & _ & _ & -> & -> & _ & _ & ->)%apply_routes_sotw. simpl. tauto.
  - intros (ss & _ & _ & _ & -> & -> & _ & ->)%apply_clusters_sotw. simpl. tauto.
  - intros (ss & _ & _ & -> & -> & -> & _ & ->)%apply_endpoints_sotw. simpl. tauto.
  - intros [= <- <-]. simpl. tauto.
Qed.

Lemma updates_sorted {P : ProstLib} resp st u st' :
  apply_response resp st = (Ok u, st') →
  Forall (λ e, StronglySorted str_lt e.2) (updates_subscriptions u).
Proof.
  intros (Hr & Hc & He)%apply_response_updates. unfold updates_subscriptions.
  assert (∀ ty names, StronglySorted str_lt names →
    Forall (λ e : string * list string, StronglySorted str_lt e.2)
      (if decide (names = []) then [] else [(ty, names)])) as Hone.
  { intros ty names Hn. case_decide; by repeat constructor. }
  rewrite !Forall_app. split_and!; apply Hone.
  - destruct Hr as [[-> _]| ->]; [constructor|apply sorted_unique_sorted].
  - destruct Hc as [[-> _]| ->]; [constructor|apply sorted_unique_sorted].
  - destruct He as [[-> _]| ->]; [constructor|apply sorted_unique_sorted].
Qed.

(** What the subscriptions are after the names of [u] were followed. *)
Lemma latest_updates u old ty :
  latest (updates_subscriptions u) ty old =
  if decide (ty = ROUTE_TYPE ∧ du_route_names u ≠ []) then Some (du_route_names u)
  else if decide (ty = CLUSTER_TYPE ∧ du_cluster_names u ≠ []) then Some (du_cluster_names u)
  else if decide (ty = ENDPOINT_TYPE ∧ du_eds_names u ≠ []) then Some (du_eds_names u)
  else old.
Proof.
  unfold updates_subscriptions.
  assert (ROUTE_TYPE ≠ CLUSTER_TYPE ∧ ROUTE_TYPE ≠ ENDPOINT_TYPE ∧ CLUSTER_TYPE ≠ ENDPOINT_TYPE)
    as (H1 & H2 & H3) by done.
  destruct (decide (du_route_names u = [])), (decide (du_cluster_names u = [])),
    (decide (du_eds_names u = [])); simpl; rewrite ?latest_cons, latest_nil;
    repeat case_decide; naive_solver congruence.
Qed.

(** ** Requests *)

Definition last_request (ty : string) (ch : RequestChannel) : option DiscoveryRequest :=
  last (base.filter (λ q, dq_type_url q = ty) (rq_sent ch)).

(** The last request of every subscribed type asks for the names subscribed. *)
Definition requests_current (s : Session) : Prop :=
  ∀ ty names, ads_subscriptions (ss_ads s) !! ty = Some names →
    dq_resource_names <$> last_request ty (ss_requests s) = Some names.

Lemma session_send_ok n ty names v nonce s s' :
  session_send n ty names v nonce s = (Ok tt, s') →
  ss_ads s' = ss_ads s ∧ ss_watch s' = ss_watch s ∧ rq_open (ss_requests s') = true ∧
  rq_sent (ss_requests s') = rq_sent (ss_requests s) ++
    [{| dq_version_info := v; dq_node := Some n; dq_resource_names := names; dq_type_url := ty;
        dq_response_nonce := nonce; dq_error_detail := None |}].
Proof.
  unfold session_send, send_discovery_request. destruct (rq_open (ss_requests s)) eqn:E; [|done].
  by intros [= <-].
Qed.

Lemma last_request_snoc ty ch ch' q :
  rq_sent ch' = rq_sent ch ++ [q] →
  last_request ty ch' = if decide (dq_type_url q = ty) then Some q else last_request ty ch.
Proof.
  intros E. unfold last_request. rewrite E, filter_app, filter_cons, filter_nil.
  case_decide; [by rewrite last_snoc|by rewrite app_nil_r].
Qed.

(** Sending a request for what is, or now becomes, the subscription of its type. *)
Lemma session_send_current n ty names v nonce s s' (m : gmap string (list string)) :
  session_send n ty names v nonce s = (Ok tt, s') →
  (∀ ty' names', ads_subscriptions (ss_ads s) !! ty' = Some names' →
     if decide (ty = ty') then names' = names else m !! ty' = Some names') →
  (∀ ty' names', m !! ty' = Some names' → ty ≠ ty' →
     dq_resource_names <$> last_request ty' (ss_requests s) = Some names') →
  requests_current s'.
Proof.
  intros (Hads & _ & _ & Hsent)%session_send_ok Hsub Hreq ty' names'. rewrite Hads.
  intros H. specialize (Hsub ty' names' H). rewrite (last_request_snoc ty' _ _ _ Hsent). simpl.
  case_decide; [by subst|]. by apply Hreq.
Qed.

Lemma follow_subs n subs s s' :
  follow_subscriptions n subs s = (Ok tt, s') → Forall (λ e, StronglySorted str_lt e.2) subs →
  ∃ m, ss_ads s' = set_subscriptions m (ss_ads s) ∧
    ∀ ty, m !! ty = latest subs ty (ads_subscriptions (ss_ads s) !! ty).
Proof.
  revert s. induction subs as [|[ty names] subs IH]; intros s; simpl.
  - intros [= <-] _. exists (ads_subscriptions (ss_ads s)). by destruct (ss_ads s).
  - intros Hrun [Hn Hs]%Forall_cons. simpl in Hn.
    unfold set_subscription in Hrun. rewrite (sorted_unique_of_sorted names Hn) in Hrun.
    case_decide as Hd.
    + apply IH in Hrun as (m & Hm & Hl); [|done]. simpl in *. exists m. split; [done|].
      intros ty'. rewrite Hl, latest_cons. case_decide; [|done]. subst. by rewrite Hd.
    + destruct (session_send _ _ _ _ _ _) as [[[]|] s1] eqn:E; [|done].
      apply session_send_ok in E as (Ha & _). simpl in Ha.
      apply IH in Hrun as (m & Hm & Hl); [|done]. exists m. split; [by rewrite Hm, Ha|].
      intros ty'. rewrite Hl, Ha, latest_cons. simpl. by rewrite lookup_insert.
Qed.

Lemma follow_current n subs s s' :
  follow_subscriptions n subs s = (Ok tt, s') →
  Forall (λ e, StronglySorted str_lt e.2) subs → requests_current s → requests_current s'.
Proof.
  revert s. induction subs as [|[ty names] subs IH]; intros s; simpl; [by intros [= <-]|].
  intros Hrun [Hn Hs]%Forall_cons Hreq. simpl in Hn.
  unfold set_subscription in Hrun. rewrite (sorted_unique_of_sorted names Hn) in Hrun.
  case_decide as Hd; [by eapply IH|].
  destruct (session_send _ _ _ _ _ _) as [[[]|] s1] eqn:E; [|done]. eapply IH; [done..|].
  eapply (session_send_current _ _ _ _ _ _ _ (ads_subscriptions (ss_ads s))); [done| |].
  - simpl. intros ty' names'. rewrite lookup_insert. case_decide; naive_solver.
  - intros. by apply Hreq.
Qed.

(** ** The invariant of a stream *)

Definition follows (ty : string) (names : list string) (st : AdsState) : Prop :=
  names = [] ∨ ads_subscriptions st !! ty = Some names.

Record session_inv (s : Session) : Prop := {
  si_ads : ads_inv (ss_ads s);
  si_routes : follows ROUTE_TYPE (route_names (ss_ads s)) (ss_ads s);
  si_clusters : follows CLUSTER_TYPE (cluster_names (ss_ads s)) (ss_ads s);
  si_eds : follows ENDPOINT_TYPE (eds_names (ss_ads s)) (ss_ads s);
  si_requests : requests_current s }.

(** The first session of a connection. *)
Definition fresh_session (cfg : XdsClientConfig) (w : WatchSender) : Session :=
  (start_session cfg w).2.

Lemma start_session_ok cfg w : start_session cfg w = (Ok tt, fresh_session cfg w).
Proof.
  unfold fresh_session, start_session. by destruct (set_subscription _ _ _).
Qed.

Lemma fresh_session_inv cfg w : session_inv (fresh_session cfg w).
Proof.
  unfold fresh_session, start_session.
  destruct (set_subscription _ _ _) as [b ads] eqn:E.
  pose proof (set_subscription_inv LISTENER_TYPE (sorted_unique (xc_listener_names cfg))
    ads_default ads_default_inv) as Hinv.
  rewrite E in Hinv. unfold set_subscription in E. rewrite sorted_unique_idem in E.
  case_decide; [done|]. injection E as <- <-.
  constructor; [done|by left..|].
  intros ty names. simpl. rewrite lookup_insert. case_decide; [|done]; subst ty.
  intros [= <-]. unfold last_request. simpl. done.
Qed.

(** The last step of the loop body touches the watch channel only. *)
Lemma publish_session v s r s' :
  publish v s = (r, s') → ss_ads s' = ss_ads s ∧ ss_requests s' = ss_requests s.
Proof. unfold publish, watch_send. repeat case_match; by intros [= <- <-]. Qed.

(** The steps of a loop body that ends well. *)
Lemma handle_response_ok {P : ProstLib} n resp s s' :
  handle_response n resp s = (Ok tt, s') →
  ∃ u st1 s1 s2,
    apply_response resp (ss_ads s) = (Ok u, st1) ∧
    session_send n (dr_type_url resp) (subscription (dr_type_url resp) st1)
      (dr_version_info resp) (dr_nonce resp) (set_ads st1 s) = (Ok tt, s1) ∧
    follow_subscriptions n (updates_subscriptions u) s1 = (Ok tt, s2) ∧
    publish (dr_version_info resp) s2 = (Ok tt, s').
Proof.
  unfold handle_response. destruct (apply_response resp (ss_ads s)) as [[u|e] st1]; [|done].
  destruct (session_send _ _ _ _ _ _) as [[[]|] s1] eqn:E1; [|done].
  destruct (follow_subscriptions _ _ _) as [[[]|] s2] eqn:E2; [|done].
  intros E3. by exists u, st1, s1, s2.
Qed.

(** Following the names of the updates keeps what is followed. *)
Lemma follow_names ty names names' updated (m old : gmap string (list string)) :
  m !! ty = (if decide (updated ≠ []) then Some updated else old !! ty) →
  names = [] ∨ old !! ty = Some names →
  (updated = [] ∧ names' = names) ∨ updated = names' →
  names' = [] ∨ m !! ty = Some names'.
Proof.
  intros Hm Hold [[-> ->]| ->].
  - rewrite decide_False in Hm by (by intros []). by rewrite Hm.
  - case_decide as Hne; [by right|]. left. by destruct names'.
Qed.

Lemma handle_response_inv {P : ProstLib} n resp s s' :
  session_inv s → handle_response n resp s = (Ok tt, s') → session_inv s'.
Proof.
  intros [Hads Hr Hc He Hreq] (u & st1 & s1 & s2 & Happ & Hsend & Hfol & Hpub)%handle_response_ok.
  pose proof (apply_response_updates _ _ _ _ Happ) as (Ur & Uc & Ue).
  pose proof (updates_sorted _ _ _ _ Happ) as Hsorted.
  pose proof (apply_response_applied_sub _ _ _ _ Happ) as [_ Hsubs].
  pose proof (apply_response_inv resp (ss_ads s) Hads) as Hads1. rewrite Happ in Hads1. simpl in Hads1.
  assert (requests_current s1) as Hreq1.
  { eapply (session_send_current _ _ _ _ _ _ _ (ads_subscriptions (ss_ads s))); [done| |].
    - simpl. intros ty' names' H. rewrite <- Hsubs. case_decide; [|done]. subst.
      unfold subscription. by rewrite H.
    - intros. by apply Hreq. }
  apply session_send_ok in Hsend as (Ha1 & _). simpl in Ha1.
  pose proof (follow_current _ _ _ _ Hfol Hsorted Hreq1) as Hreq2.
  apply follow_subs in Hfol as (m & Ha2 & Hm); [|done].
  rewrite Ha1, Hsubs in Hm. rewrite Ha1 in Ha2.
  apply publish_session in Hpub as [Ha3 Hq3]. rewrite Ha2 in Ha3.
  setoid_rewrite latest_updates in Hm.
  constructor.
  - rewrite Ha3. destruct Hads1 as [L1 R1 C1 S1]. constructor; simpl; [done..|].
    intros ty names. rewrite Hm. intros H. repeat case_decide.
    + injection H as <-. destruct Ur as [[-> _]| ->]; [constructor|apply sorted_unique_sorted].
    + injection H as <-. destruct Uc as [[-> _]| ->]; [constructor|apply sorted_unique_sorted].
    + injection H as <-. destruct Ue as [[-> _]| ->]; [constructor|apply sorted_unique_sorted].
    + rewrite <- Hsubs in H. by eapply S1.
  - rewrite Ha3. eapply follow_names; [|exact Hr|exact Ur]. rewrite Hm. repeat case_decide; naive_solver.
  - rewrite Ha3. eapply follow_names; [|exact Hc|exact Uc]. rewrite Hm. repeat case_decide; naive_solver.
  - rewrite Ha3. eapply follow_names; [|exact He|exact Ue]. rewrite Hm. repeat case_decide; naive_solver.
  - intros ty names. rewrite Hq3, Ha3. intros H. apply Hreq2. by rewrite Ha2.
Qed.

Lemma run_stream_inv {P : ProstLib} n evs s s' :
  session_inv s → run_stream n evs s = (None, s') → session_inv s'.
Proof.
  revert s. induction evs as [|ev evs IH]; intros s Hs; simpl; [by intros [= <-]|].
  destruct ev as [resp| | | |]; [|done..| |].
  - destruct (handle_response n resp s) as [[[]|e] s1] eqn:E; [|done].
    apply IH. by eapply handle_response_inv.
  - apply IH. by destruct Hs.
  - apply IH. by destruct Hs.
Qed.

#[export] Hint Resolve fresh_session_inv handle_response_inv run_stream_inv : dx.

(** ** The effects of one response *)

Definition discovery_request (n : PbNode) (ty : string) (names : list string) (v nonce : string)
    : DiscoveryRequest :=
  {| dq_version_info := v; dq_node := Some n; dq_resource_names := names; dq_type_url := ty;
     dq_response_nonce := nonce; dq_error_detail := None |}.

(** The requests that following [subs] takes. *)
Definition new_requests (n : PbNode) (subs : list (string * list string)) (st : AdsState)
    : list DiscoveryRequest :=
  (λ e, discovery_request n e.1 e.2 "" "") <$>
  base.filter (λ e, ads_subscriptions st !! e.1 ≠ Some e.2) subs.

Lemma new_requests_insert n subs st ty names :
  ty ∉ subs.*1 →
  new_requests n subs (set_subscriptions (<[ty := names]> (ads_subscriptions st)) st) =
  new_requests n subs st.
Proof.
  unfold new_requests. intros Hty. f_equal.
  induction subs as [|[ty' names'] subs IH]; [done|]. simpl in Hty.
  apply not_elem_of_cons in Hty as [Hne Hty]. rewrite !filter_cons, IH by done. simpl.
  by rewrite lookup_insert_ne.
Qed.

Lemma follow_open n subs s :
  rq_open (ss_requests s) = true →
  Forall (λ e, StronglySorted str_lt e.2) subs → NoDup subs.*1 →
  ∃ s', follow_subscriptions n subs s = (Ok tt, s') ∧ ss_watch s' = ss_watch s ∧
    rq_sent (ss_requests s') = rq_sent (ss_requests s) ++ new_requests n subs (ss_ads s).
Proof.
  revert s. induction subs as [|[ty names] subs IH]; intros s Ho.
  - intros _ _. exists s. unfold new_requests. simpl. by rewrite app_nil_r.
  - intros [Hn Hs]%Forall_cons [Hty Hnd]%NoDup_cons. simpl in *.
    unfold set_subscription. rewrite (sorted_unique_of_sorted names Hn).
    unfold new_requests. rewrite filter_cons. simpl.
    destruct (decide (ads_subscriptions (ss_ads s) !! ty = Some names)) as [Hd|Hd].
    + destruct (IH (set_ads (ss_ads s) s) Ho Hs Hnd) as (s' & ? & ? & Hq). exists s'.
      by rewrite decide_False by tauto.
    + rewrite decide_True by done. unfold session_send, send_discovery_request. simpl. rewrite Ho.
      destruct (IH (set_requests {| rq_sent := rq_sent (ss_requests s) ++
          [discovery_request n ty names "" ""]; rq_open := true |} (set_ads (set_subscriptions
        (<[ty:=names]> (ads_subscriptions (ss_ads s))) (ss_ads s)) s))) as (s' & Hf & Hw & Hq);
        [done..|].
      exists s'. split; [exact Hf|]. split; [exact Hw|]. rewrite Hq. simpl.
      rewrite new_requests_insert by done. by rewrite <- app_assoc.
Qed.

Lemma updates_types_NoDup u : NoDup (updates_subscriptions u).*1.
Proof.
  unfold updates_subscriptions. apply (bool_decide_unpack _). by repeat case_decide.
Qed.

(** ** What is published *)

(** Each configuration sent is accepted and differs from the one before it. *)
Fixpoint published_after (prev : RuntimeConfig) (l : list RuntimeConfig) : Prop :=
  match l with
  | [] => True
  | cfg :: l' => validate cfg = Ok tt ∧ cfg ≠ prev ∧ published_after cfg l'
  end.

(** [w'] is [w] after some publications. *)
Definition publishes (w w' : WatchSender) : Prop :=
  w_initial w' = w_initial w ∧
  ∃ l, w_sent w' = w_sent w ++ l ∧ published_after (watch_value w) l.

Lemma published_after_app prev l1 l2 :
  published_after prev l1 → published_after (default prev (last l1)) l2 →
  published_after prev (l1 ++ l2).
Proof.
  revert prev. induction l1 as [|c l1 IH]; intros prev; [done|].
  intros (Hc & Hne & H1) H2. simpl. split_and!; [done..|]. apply IH; [done|].
  rewrite last_cons in H2. by destruct (last l1).
Qed.

#[export] Instance publishes_refl : Reflexive publishes.
Proof. intros w. split; [done|]. exists []. by rewrite app_nil_r. Qed.

#[export] Instance publishes_trans : Transitive publishes.
Proof.
  intros w1 w2 w3 [I1 (l1 & E1 & P1)] [I2 (l2 & E2 & P2)]. split; [congruence|].
  exists (l1 ++ l2). split; [by rewrite E2, E1, app_assoc|].
  apply published_after_app; [done|]. unfold watch_value in P2 |- *. rewrite I1, E1, last_app in P2.
  destruct (last l1); [done|]. by simpl.
Qed.

Lemma publish_publishes v s : publishes (ss_watch s) (ss_watch (publish v s).2).
Proof.
  unfold publish, watch_send. destruct (validate _) as [[]|] eqn:E; [|done].
  case_decide; [done|]. destruct (w_receivers (ss_watch s)); [|done]. simpl.
  split; [done|]. by eexists [_].
Qed.

Lemma session_send_watch n ty names v nonce s :
  ss_watch (session_send n ty names v nonce s).2 = ss_watch s.
Proof. unfold session_send. by destruct (send_discovery_request _ _ _ _ _ _). Qed.

Lemma follow_watch n subs s : ss_watch (follow_subscriptions n subs s).2 = ss_watch s.
Proof.
  revert s. induction subs as [|[ty names] subs IH]; intros s; [done|]. simpl.
  destruct (set_subscription _ _ _) as [[] ads]; [|by rewrite IH].
  pose proof (session_send_watch n ty names "" "" (set_ads ads s)) as Hw.
  destruct (session_send _ _ _ _ _ _) as [[[]|] s1]; simpl in *; [by rewrite IH|done].
Qed.

Section publishing.
Context {P : ProstLib}.

Lemma handle_response_publishes n resp s :
  publishes (ss_watch s) (ss_watch (handle_response n resp s).2).
Proof.
  unfold handle_response. destruct (apply_response _ _) as [[u|] ads]; [|done].
  pose proof (session_send_watch n (dr_type_url resp) (subscription (dr_type_url resp) ads)
    (dr_version_info resp) (dr_nonce resp) (set_ads ads s)) as H1. simpl.
  destruct (session_send _ _ _ _ _ _) as [[[]|] s1]; simpl in *; [|by rewrite H1].
  pose proof (follow_watch n (updates_subscriptions u) s1) as H2.
  destruct (follow_subscriptions _ _ _) as [[[]|] s2]; simpl in *; rewrite <- H1, <- H2; [|done].
  apply publish_publishes.
Qed.

Lemma drop_receivers_publishes w : publishes w (drop_receivers w).
Proof. split; [done|]. exists []. by rewrite app_nil_r. Qed.

Lemma run_stream_publishes n evs s : publishes (ss_watch s) (ss_watch (run_stream n evs s).2).
Proof.
  revert s. induction evs as [|ev evs IH]; intros s; [done|].
  destruct ev as [resp| | | |]; simpl; [|done..| |].
  - pose proof (handle_response_publishes n resp s) as H.
    destruct (handle_response n resp s) as [[[]|] s1]; simpl in *; [by etrans|done].
  - etrans; [|apply IH]. done.
  - etrans; [|apply IH]. apply drop_receivers_publishes.
Qed.

Lemma run_once_publishes cfg cn w : publishes w (run_once cfg cn w).2.
Proof.
  unfold run_once. destruct (connect_channel cfg cn) as [[]|]; [|done].
  rewrite start_session_ok.
  assert (ss_watch (fresh_session cfg w) = w) as Hw.
  { unfold fresh_session, start_session. by destruct (set_subscription _ _ _). }
  destruct (map_err _ _); [|by rewrite Hw].
  pose proof (run_stream_publishes (node cfg) (cn_events cn) (fresh_session cfg w)) as H.
  destruct (run_stream _ _ _) as [r s]. by rewrite Hw in H.
Qed.

(** C21: Over any number of connections, whatever the control plane sends on each
    and however each ends, every configuration that reaches the watch channel is
    accepted by [validate] and differs from the one published before it; what had
    been published stays published. *)
Theorem run_publishes cfg cns w : publishes w (run cfg cns w).2.
Proof.
  revert w. induction cns as [|cn cns IH]; intros w; [done|]. simpl.
  pose proof (run_once_publishes cfg cn w) as H.
  destruct (run_once cfg cn w) as [[[[]|e]|] w1]; simpl in *; [by etrans| |done].
  destruct e; (done || by etrans).
Qed.

End publishing.

(** ** How the loops end *)

(** The errors of a stream that has been opened. *)
Definition stream_error (e : XdsError) : Prop :=
  match e with
  | StreamReceive _ | RequestChannelClosed | Decode _ _ | RuntimeConfigClosed => True
  | _ => False
  end.

Section errors.
Context {P : ProstLib}.

Lemma decode_resource_error {A} (dec : string → result A string) ty a e :
  decode_resource dec ty a = Err e → stream_error e.
Proof. unfold decode_resource. destruct (dec _); [done|]. by intros [= <-]. Qed.

Lemma filter_managers_error fs e : filter_managers fs = Err e → stream_error e.
Proof.
  induction fs as [|f fs IH]; [done|]. simpl. repeat case_match; intros; simplify_eq; auto.
  by eapply decode_resource_error.
Qed.

Lemma listener_snapshot_error l e : listener_snapshot l = Err e → stream_error e.
Proof.
  unfold listener_snapshot, http_connection_managers. intros H.
  repeat case_match; simplify_eq; eauto using filter_managers_error, decode_resource_error.
Qed.

Lemma apply_each_error {A} (f : A → AdsState → result unit XdsError * AdsState) l st e :
  (∀ x st e, (f x st).1 = Err e → stream_error e) →
  (apply_each f l st).1 = Err e → stream_error e.
Proof.
  intros Hf. revert st. induction l as [|x l IH]; intros st; [done|]. simpl.
  specialize (Hf x st). destruct (f x st) as [[[]|e'] st']; [apply IH|]. simpl in *.
  intros [= ->]. by apply Hf.
Qed.

Lemma apply_response_error resp st e : (apply_response resp st).1 = Err e → stream_error e.
Proof.
  assert (∀ {A} (f : A → AdsState → result unit XdsError * AdsState) l st (k : AdsState → DiscoveryUpdates),
    (∀ x st e, (f x st).1 = Err e → stream_error e) →
    (let '(r, st) := apply_each f l st in (let? _tt := r in Ok (k st), st)).1 = Err e →
    stream_error e) as Hloop.
  { intros A f l st0 k Hf H. eapply (apply_each_error f l st0); [done|].
    destruct (apply_each f l st0) as [[[]|] ?]; simpl in *; congruence. }
  unfold apply_response, apply_listeners, apply_routes, apply_clusters, apply_endpoints.
  repeat case_decide; [..|done]; intros Hres;
    [eapply (Hloop _ apply_listener _ _ (λ st, _)) |eapply (Hloop _ apply_route _ _ (λ st, _))
    |eapply (Hloop _ apply_cluster _ _ (λ st, _)) |eapply (Hloop _ apply_endpoint _ _ (λ st, _))];
    try exact Hres; clear; intros x st e;
    unfold apply_listener, apply_route, apply_cluster, apply_endpoint;
    repeat case_match; simpl; intros; simplify_eq;
    eauto using decode_resource_error, listener_snapshot_error.
Qed.

Lemma handle_response_error n resp s e : (handle_response n resp s).1 = Err e → stream_error e.
Proof.
  assert (∀ ty names v nonce s e, (session_send n ty names v nonce s).1 = Err e → stream_error e)
    as Hsend.
  { intros ty names v nonce s0 e0. unfold session_send, send_discovery_request.
    destruct (rq_open (ss_requests s0)); simpl; [done|]. by intros [= <-]. }
  assert (∀ subs s e, (follow_subscriptions n subs s).1 = Err e → stream_error e) as Hfol.
  { intros subs. induction subs as [|[ty names] subs IH]; intros s0 e0; [done|]. simpl.
    destruct (set_subscription _ _ _) as [[] ads]; [|apply IH].
    specialize (Hsend ty names "" "" (set_ads ads s0)).
    destruct (session_send _ _ _ _ _ _) as [[[]|] s1]; [apply IH|]. intros [= ->]. by apply Hsend. }
  unfold handle_response. pose proof (apply_response_error resp (ss_ads s)) as Ha.
  destruct (apply_response _ _) as [[u|e1] ads]; [|intros [= ->]; by apply Ha].
  specialize (Hsend (dr_type_url resp) (subscription (dr_type_url resp) ads)
    (dr_version_info resp) (dr_nonce resp) (set_ads ads s)). simpl.
  destruct (session_send _ _ _ _ _ _) as [[[]|] s1]; [|intros [= ->]; by apply Hsend].
  specialize (Hfol (updates_subscriptions u) s1).
  destruct (follow_subscriptions _ _ _) as [[[]|] s2]; [|intros [= ->]; by apply Hfol].
  unfold publish. repeat case_match; simpl; intros; by simplify_eq.
Qed.

Lemma run_stream_error n evs s e :
  (run_stream n evs s).1 = Some (Err e) → stream_error e.
Proof.
  revert s. induction evs as [|ev evs IH]; intros s; [done|].
  destruct ev as [resp| | | |]; simpl; [|done| |apply IH..].
  - pose proof (handle_response_error n resp s) as H.
    destruct (handle_response n resp s) as [[[]|] s1]; [apply IH|]. intros [= ->]. by apply H.
  - by intros [= <-].
Qed.

Lemma run_once_error cfg cn w e :
  (run_once cfg cn w).1 = Some (Err e) →
  (∃ src, cn_endpoint cn = Err src ∧ e = InvalidEndpoint (xc_endpoint cfg) src) ∨
  match e with InvalidEndpoint _ _ => False | _ => True end.
Proof.
  unfold run_once, connect_channel. destruct (cn_endpoint cn) as [[]|src]; simpl.
  2:{ intros [= <-]. left. by exists src. }
  destruct (cn_connect cn) as [[]|src]; simpl; [|intros [= <-]; by right].
  rewrite start_session_ok. destruct (cn_open cn) as [[]|st]; simpl; [|intros [= <-]; by right].
  pose proof (run_stream_error (node cfg) (cn_events cn) (fresh_session cfg w)) as H.
  destruct (run_stream _ _ _) as [r s]. simpl in *. intros ->. right.
  specialize (H e eq_refl). by destruct e.
Qed.

(** The reconnecting loop gives up for one reason only: [run] returns only when
    the configured endpoint is not an address a channel can be made for. A refused
    connection, a stream that fails or ends, and a malformed resource all lead to
    another attempt. *)
Theorem run_ends cfg cns w r w' :
  run cfg cns w = (Some r, w') →
  ∃ cn src, cn ∈ cns ∧ cn_endpoint cn = Err src ∧
    r = Err (InvalidEndpoint (xc_endpoint cfg) src).
Proof.
  revert w. induction cns as [|cn cns IH]; intros w; [done|]. simpl.
  pose proof (run_once_error cfg cn w) as H.
  assert (∀ w0, run cfg cns w0 = (Some r, w') → ∃ cn0 src, cn0 ∈ cn :: cns ∧
    cn_endpoint cn0 = Err src ∧ r = Err (InvalidEndpoint (xc_endpoint cfg) src)) as IH'.
  { intros w0 (cn0 & src & Hin & ?)%IH. exists cn0, src. split; [by right|done]. }
  destruct (run_once cfg cn w) as [[[[]|e]|] w1]; simpl in *; [apply IH'| |done].
  destruct (H e eq_refl) as [(src & Hcn & ->)|He].
  - intros [= <- <-]. exists cn, src. split; [by left|done].
  - destruct e; [done|apply IH'..].
Qed.

End errors.

(** ** The properties of a stream *)

Lemma follow_ads n subs s r s' :
  follow_subscriptions n subs s = (r, s') →
  ∃ m, ss_ads s' = set_subscriptions m (ss_ads s).
Proof.
  revert s. induction subs as [|[ty names] subs IH]; intros s; simpl.
  { intros [= _ <-]. exists (ads_subscriptions (ss_ads s)). by destruct (ss_ads s). }
  assert (∃ m, (set_subscription ty names (ss_ads s)).2 = set_subscriptions m (ss_ads s)) as [m Hm].
  { unfold set_subscription. case_decide; [|by eexists].
    exists (ads_subscriptions (ss_ads s)). by destruct (ss_ads s). }
  destruct (set_subscription ty names (ss_ads s)) as [changed ads]. simpl in Hm. subst ads.
  unfold session_send, send_discovery_request. simpl.
  destruct changed, (rq_open (ss_requests s)); simpl;
    try (intros Hf; apply IH in Hf as [m' Hm']; exists m'; rewrite Hm'; done).
  intros [= _ <-]. by exists m.
Qed.

Lemma cluster_names_route st n vhosts vh r d :
  ads_routes st !! n = Some vhosts → vh ∈ vhosts → r ∈ vh_routes vh →
  d ∈ r_weighted_clusters r → wc_name d ∈ cluster_names st.
Proof.
  intros Hn Hvh Hr Hd. unfold cluster_names. rewrite elem_of_sorted_unique, elem_of_flat_map.
  exists vhosts. split; [apply elem_of_btree_values; by exists n|].
  apply elem_of_flat_map. exists vh. split; [done|]. apply elem_of_flat_map. exists r.
  split; [done|]. by apply list_elem_of_fmap_2.
Qed.

(** A destination of a route that came from RDS is a name that is followed. *)
Lemma rds_destination v st l h r d :
  has_route (runtime_config v st) l h r → d ∈ r_weighted_clusters r →
  (∀ k s, ads_listeners st !! k = Some s → ls_inline_virtual_hosts s = []) → ads_inv st →
  wc_name d ∈ cluster_names st ∧ wc_name d ≠ "".
Proof.
  intros (Hl & Hh & Hr) Hd Hinline Hst. apply runtime_config_listener in Hl as (k & s & Hk & ->).
  simpl in Hh. rewrite (Hinline k s Hk) in Hh.
  apply snapshot_vhosts_elem in Hh as [[]%elem_of_nil|(n & _ & vhosts & Hn & Hh)].
  split; [|by eapply (ai_routes _ Hst)].
  by eapply cluster_names_route.
Qed.

Section stream.
Context {P : ProstLib}.

Lemma handle_response_open n resp s u ads :
  rq_open (ss_requests s) = true → w_receivers (ss_watch s) = true →
  apply_response resp (ss_ads s) = (Ok u, ads) →
  ∃ s', handle_response n resp s = (Ok tt, s') ∧
    rq_sent (ss_requests s') = rq_sent (ss_requests s) ++
      discovery_request n (dr_type_url resp) (subscription (dr_type_url resp) ads)
        (dr_version_info resp) (dr_nonce resp) ::
      new_requests n (updates_subscriptions u) ads ∧
    let cfg := runtime_config (dr_version_info resp) (ss_ads s') in
    ss_watch s' =
      if is_ok (validate cfg) && bool_decide (cfg ≠ watch_value (ss_watch s))
      then {| w_initial := w_initial (ss_watch s); w_sent := w_sent (ss_watch s) ++ [cfg];
              w_receivers := true |}
      else ss_watch s.
Proof.
  intros Ho Hw E. unfold handle_response. rewrite E.
  unfold session_send at 1, send_discovery_request. simpl. rewrite Ho.
  edestruct (follow_open n (updates_subscriptions u)) as (s2 & Hf & Hw2 & Hq2);
    [|by eapply updates_sorted|apply updates_types_NoDup|rewrite Hf]; [done|].
  assert (ss_watch s2 = ss_watch s) as Hws by (by rewrite Hw2).
  unfold publish, watch_send. rewrite Hws, Hw. simpl in Hq2.
  destruct (validate _) as [[]|cs] eqn:V; [case_decide as Hd|]; eexists; (split; [done|]); simpl;
    rewrite Hq2, <- app_assoc, V; (split; [done|]); simpl; [|by rewrite bool_decide_eq_true_2|done].
  by rewrite bool_decide_eq_false_2 by tauto.
Qed.

(** A body that ends well leaves the state it computed, but for the subscriptions. *)
Lemma handle_response_state n resp s u ads s' :
  apply_response resp (ss_ads s) = (Ok u, ads) → handle_response n resp s = (Ok tt, s') →
  ∃ m, ss_ads s' = set_subscriptions m ads.
Proof.
  intros Happ (u' & ads' & s1 & s2 & Happ' & Hs1 & Hf & Hp)%handle_response_ok.
  rewrite Happ in Happ'. injection Happ' as <- <-.
  apply session_send_ok in Hs1 as (Ha1 & _). simpl in Ha1.
  pose proof (follow_ads _ _ _ _ _ Hf) as [m Ha2]. rewrite Ha1 in Ha2.
  apply publish_session in Hp as [Ha3 _]. exists m. by rewrite Ha3.
Qed.

(** What is published after an accepted configuration was assembled. *)
Lemma published_value cfg w w' :
  w' = (if is_ok (validate cfg) && bool_decide (cfg ≠ watch_value w)
        then {| w_initial := w_initial w; w_sent := w_sent w ++ [cfg]; w_receivers := true |}
        else w) →
  validate cfg = Ok tt → watch_value w' = cfg.
Proof.
  intros -> Hok. rewrite Hok. simpl. case_bool_decide as Hd; unfold watch_value at 1; simpl.
  - by rewrite last_snoc.
  - unfold watch_value in Hd. by rewrite <- Hd.
Qed.

(** C20: One response with both channels open. If a resource is malformed the body
    fails, having sent and published nothing. Otherwise exactly these are sent: the
    acknowledgement, with the version and the nonce of the response and the names
    subscribed, then one request for each kind of names that changed; and the
    assembled configuration is published exactly when it is accepted and differs
    from the one published last. *)
Theorem handle_response_effects n resp s :
  rq_open (ss_requests s) = true → w_receivers (ss_watch s) = true →
  match apply_response resp (ss_ads s) with
  | (Err e, ads) => handle_response n resp s = (Err e, set_ads ads s)
  | (Ok u, ads) =>
      ∃ s', handle_response n resp s = (Ok tt, s') ∧
        rq_sent (ss_requests s') = rq_sent (ss_requests s) ++
          discovery_request n (dr_type_url resp) (subscription (dr_type_url resp) ads)
            (dr_version_info resp) (dr_nonce resp) ::
          new_requests n (updates_subscriptions u) ads ∧
        let cfg := runtime_config (dr_version_info resp) (ss_ads s') in
        ss_watch s' =
          if is_ok (validate cfg) && bool_decide (cfg ≠ watch_value (ss_watch s))
          then {| w_initial := w_initial (ss_watch s); w_sent := w_sent (ss_watch s) ++ [cfg];
                  w_receivers := true |}
          else ss_watch s
  end.
Proof.
  intros Ho Hw. destruct (apply_response resp (ss_ads s)) as [[u|e] ads] eqn:E.
  - by apply handle_response_open.
  - unfold handle_response. by rewrite E.
Qed.

(** C14: At every moment of a stream that has not failed, the client follows what it
    has learnt: the names of the route configurations, clusters and load assignments
    that its listeners, routes and clusters refer to are the ones it is subscribed
    to, unless there are none, and the last request it sent for each type asks for
    exactly the names it is subscribed to. *)
Theorem stream_follows cfg evs w s :
  run_stream (node cfg) evs (fresh_session cfg w) = (None, s) →
  follows ROUTE_TYPE (route_names (ss_ads s)) (ss_ads s) ∧
  follows CLUSTER_TYPE (cluster_names (ss_ads s)) (ss_ads s) ∧
  follows ENDPOINT_TYPE (eds_names (ss_ads s)) (ss_ads s) ∧
  ∀ ty names, ads_subscriptions (ss_ads s) !! ty = Some names →
    dq_resource_names <$> last_request ty (ss_requests s) = Some names.
Proof.
  intros H. destruct (run_stream_inv _ _ _ _ (fresh_session_inv cfg w) H). done.
Qed.

(** The clusters that a complete answer brings are all there. *)
Lemma clusters_complete resp st u st' cs name :
  dr_type_url resp = CLUSTER_TYPE →
  apply_response resp st = (Ok u, st') →
  collect (decode_resource decode_PbCluster CLUSTER_TYPE) (dr_resources resp) = Ok cs →
  name ≠ "" → name ∈ pc_name <$> cs → is_Some (ads_clusters st' !! name).
Proof.
  intros Hty Happ Hcs Hne Hin. unfold apply_response in Happ. rewrite Hty in Happ.
  rewrite decide_False, decide_False, decide_True in Happ by done.
  apply apply_clusters_sotw in Happ as (cs' & Hcs' & Hl & _).
  rewrite Hcs in Hcs'. injection Hcs' as <-.
  rewrite Hl. unfold state_of_the_world. clear -Hin Hne.
  generalize (if decide (subscription CLUSTER_TYPE st = [] ∨ name ∈ subscription CLUSTER_TYPE st)
    then None else ads_clusters st !! name) as old.
  assert (∀ es k old, is_Some old → is_Some (latest (V:=ClusterSnapshot) es k old)) as Hkeep.
  { intros es. induction es as [|[k0 v] es IH]; intros k old Hold; [done|].
    rewrite latest_cons. apply IH. by case_decide. }
  induction cs as [|c cs IH]; [set_solver|]. intros old. simpl in Hin.
  destruct (decide (pc_name c = name)) as [Heq|Hc].
  - assert (∃ v, cluster_entry c = Some (pc_name c, v)) as [v Hv].
    { unfold cluster_entry. rewrite decide_False by congruence. eauto. }
    rewrite (omap_entry_cons cluster_entry), Hv, latest_cons, decide_True by done. by apply Hkeep.
  - rewrite (omap_entry_cons cluster_entry). destruct (cluster_entry c) as [[k v]|]; [rewrite latest_cons|]; apply IH; set_solver.
Qed.

(** Progress. Once an answer to the cluster subscription arrives that carries
    every cluster asked for, the stream has a complete configuration: with the
    listeners taking their routes from RDS, the configuration assembled is accepted,
    and it is the published one. *)
Theorem cluster_response_completes cfg evs w s resp cs :
  run_stream (node cfg) evs (fresh_session cfg w) = (None, s) →
  rq_open (ss_requests s) = true → w_receivers (ss_watch s) = true →
  (∀ k l, ads_listeners (ss_ads s) !! k = Some l → ls_inline_virtual_hosts l = []) →
  dr_type_url resp = CLUSTER_TYPE →
  collect (decode_resource decode_PbCluster CLUSTER_TYPE) (dr_resources resp) = Ok cs →
  (∀ name, name ∈ subscription CLUSTER_TYPE (ss_ads s) → name ∈ pc_name <$> cs) →
  ∃ s', handle_response (node cfg) resp s = (Ok tt, s') ∧
    validate (watch_value (ss_watch s')) = Ok tt ∧
    watch_value (ss_watch s') = runtime_config (dr_version_info resp) (ss_ads s').
Proof.
  intros Hrun Ho Hw Hinline Hty Hcs Hall.
  pose proof (run_stream_inv _ _ _ _ (fresh_session_inv cfg w) Hrun) as Hinv.
  destruct (apply_clusters_total _ (ss_ads s) _ Hcs) as (u & st1 & Happ).
  assert (apply_response resp (ss_ads s) = (Ok u, st1)) as Hresp.
  { unfold apply_response. rewrite Hty. by rewrite decide_False, decide_False, decide_True. }
  destruct (handle_response_open (node cfg) resp s u st1 Ho Hw Hresp) as (s' & Hs' & _ & Hpub).
  exists s'. split; [done|].
  pose proof (handle_response_inv _ _ _ _ Hinv Hs') as Hinv'.
  destruct (handle_response_state _ _ _ _ _ _ Hresp Hs') as [m Ha3].
  cut (validate (runtime_config (dr_version_info resp) (ss_ads s')) = Ok tt).
  { intros Hok. by rewrite (published_value _ _ _ Hpub Hok). }
  apply validate_Ok_well_formed, (runtime_config_wf _ _ (si_ads _ Hinv')).
  rewrite Ha3. simpl.
  apply apply_clusters_sotw in Happ as (_ & _ & _ & _ & Hl & Hr & _).
  intros l h r d Hroute Hd.
  destruct (rds_destination _ _ _ _ _ _ Hroute Hd) as [Hcn Hname]; simpl.
  { rewrite Hl. exact Hinline. }
  { rewrite <- Ha3. apply (si_ads _ Hinv'). }
  eapply clusters_complete; [done..|]. apply Hall.
  destruct (si_clusters _ Hinv) as [Hnil|Hsome].
  - exfalso. change (cluster_names _) with (cluster_names st1) in Hcn.
    unfold cluster_names in Hcn, Hnil. rewrite Hr, Hnil in Hcn. by apply elem_of_nil in Hcn.
  - unfold subscription. rewrite Hsome. simpl.
    change (cluster_names _) with (cluster_names st1) in Hcn.
    unfold cluster_names in Hcn |- *. by rewrite Hr in Hcn.
Qed.

End stream.

(** ** Routes that a listener carries inline *)

(** The types of the requests that following takes. *)
Lemma follow_sent n subs s r s' :
  follow_subscriptions n subs s = (r, s') →
  ∀ ty, ty ∈ dq_type_url <$> rq_sent (ss_requests s') →
    ty ∈ dq_type_url <$> rq_sent (ss_requests s) ∨ ty ∈ subs.*1.
Proof.
  revert s. induction subs as [|[ty0 names] subs IH]; intros s; simpl.
  { intros [= _ <-] ty H. by left. }
  destruct (set_subscription ty0 names (ss_ads s)) as [[] ads].
  - unfold session_send, send_discovery_request. simpl.
    destruct (rq_open (ss_requests s)); simpl.
    + intros Hf ty Hty. destruct (IH _ Hf ty Hty) as [Hin|Hin]; [|right; by right].
      simpl in Hin. rewrite fmap_app, elem_of_app in Hin. simpl in Hin.
      rewrite list_elem_of_singleton in Hin. destruct Hin as [?| ->]; [by left|right; by left].
    + intros [= _ <-] ty H. by left.
  - intros Hf ty Hty. destruct (IH _ Hf ty Hty) as [Hin|Hin]; [by left|right; by right].
Qed.

(** Nothing is known or asked about routes and clusters. *)
Record no_clusters (s : Session) : Prop := {
  nc_clusters : ads_clusters (ss_ads s) = ∅;
  nc_requests : CLUSTER_TYPE ∉ dq_type_url <$> rq_sent (ss_requests s) }.

Lemma handle_response_no_clusters {P : ProstLib} n resp s s' :
  no_clusters s → dr_type_url resp ∉ [ROUTE_TYPE; CLUSTER_TYPE] →
  handle_response n resp s = (Ok tt, s') → no_clusters s'.
Proof.
  rewrite !not_elem_of_cons. intros [Hc Hq] (Hr & Hcl & _).
  intros (u & st1 & s1 & s2 & Happ & Hsend & Hfol & Hpub)%handle_response_ok.
  assert (ads_clusters st1 = ∅ ∧ CLUSTER_TYPE ∉ (updates_subscriptions u).*1) as [Hc1 Hu].
  { unfold apply_response in Happ. case_decide; [|rewrite !decide_False in Happ by done; case_decide].
    - apply apply_listeners_sotw in Happ as (_ & _ & _ & _ & -> & _ & _ & ->). split; [done|].
      unfold updates_subscriptions. simpl. case_decide; apply (bool_decide_unpack _); by vm_compute.
    - apply apply_endpoints_sotw in Happ as (_ & _ & _ & _ & _ & -> & _ & ->).
      split; [done|]. apply not_elem_of_nil.
    - injection Happ as <- <-. split; [done|]. apply not_elem_of_nil. }
  apply session_send_ok in Hsend as (Ha1 & _ & _ & Hsent). simpl in Ha1, Hsent.
  pose proof (follow_ads _ _ _ _ _ Hfol) as [m Ha2]. pose proof (follow_sent _ _ _ _ _ Hfol) as Hs2.
  apply publish_session in Hpub as [Ha3 Hq3]. constructor.
  - by rewrite Ha3, Ha2, Ha1.
  - rewrite Hq3. intros [Hin|Hin]%Hs2; [|done]. rewrite Hsent, fmap_app, elem_of_app in Hin.
    destruct Hin as [Hin|Hin]; [done|]. simpl in Hin. by apply list_elem_of_singleton in Hin.
Qed.

Lemma run_stream_no_clusters {P : ProstLib} n evs s s' :
  no_clusters s → (∀ resp, Message resp ∈ evs → dr_type_url resp ∉ [ROUTE_TYPE; CLUSTER_TYPE]) →
  run_stream n evs s = (None, s') → no_clusters s'.
Proof.
  revert s. induction evs as [|ev evs IH]; intros s Hs Hty; simpl; [by intros [= <-]|].
  assert (∀ resp, Message resp ∈ evs → dr_type_url resp ∉ [ROUTE_TYPE; CLUSTER_TYPE]) as Hty'.
  { intros resp Hin. apply Hty. by right. }
  destruct ev as [resp| | | |]; [|done..| |].
  - destruct (handle_response n resp s) as [[[]|e] s1] eqn:E; [|done].
    apply IH; [|done]. eapply handle_response_no_clusters; [done| |done]. apply Hty. by left.
  - apply IH; [|done]. by destruct Hs.
  - apply IH; [|done]. by destruct Hs.
Qed.

Lemma fresh_session_no_clusters cfg w : no_clusters (fresh_session cfg w).
Proof.
  unfold fresh_session, start_session, set_subscription. case_decide; constructor; simpl; try done;
    apply (bool_decide_unpack _); by vm_compute.
Qed.

Lemma flat_map_elem_has_route cfg d :
  d ∈ List.flat_map r_weighted_clusters
        (List.flat_map vh_routes (List.flat_map l_virtual_hosts (rc_listeners cfg))) →
  ∃ l h r, has_route cfg l h r ∧ d ∈ r_weighted_clusters r.
Proof.
  intros (r & Hr & Hd)%elem_of_flat_map. apply elem_of_flat_map in Hr as (h & Hh & Hr).
  apply elem_of_flat_map in Hh as (l & Hl & Hh). by exists l, h, r.
Qed.

(** C32: The clusters of routes that a listener carries inline are not followed. On a
    stream that has brought listeners and load assignments but no route
    configuration and no cluster, no request for clusters has been sent, whatever
    routes the listeners carry; and a configuration with a destination in it is
    then never accepted. *)
Theorem inline_clusters_not_requested {P : ProstLib} cfg evs w s :
  run_stream (node cfg) evs (fresh_session cfg w) = (None, s) →
  (∀ resp, Message resp ∈ evs → dr_type_url resp ∉ [ROUTE_TYPE; CLUSTER_TYPE]) →
  (CLUSTER_TYPE ∉ dq_type_url <$> rq_sent (ss_requests s)) ∧
  ∀ version,
    List.flat_map r_weighted_clusters (List.flat_map vh_routes (List.flat_map l_virtual_hosts
      (rc_listeners (runtime_config version (ss_ads s))))) ≠ [] →
    validate (runtime_config version (ss_ads s)) ≠ Ok tt.
Proof.
  intros Hrun Hty. pose proof (run_stream_inv _ _ _ _ (fresh_session_inv cfg w) Hrun) as Hinv.
  destruct (run_stream_no_clusters _ _ _ _ (fresh_session_no_clusters cfg w) Hty Hrun) as [Hc Hq].
  split; [done|]. intros version Hne Hok.
  apply validate_Ok_well_formed in Hok.
  pose proof (proj1 (runtime_config_wf version _ (si_ads _ Hinv)) Hok) as Hrefs.
  destruct (List.flat_map _ _) as [|d ds] eqn:E; [done|].
  destruct (flat_map_elem_has_route (runtime_config version (ss_ads s)) d) as (l & h & r & Hroute & Hd).
  { rewrite E. by left. }
  specialize (Hrefs l h r d Hroute Hd). rewrite Hc, lookup_empty in Hrefs. by destruct Hrefs.
Qed.

(** ** A concrete stream *)

Definition example_client : XdsClientConfig :=
  {| xc_endpoint := "http://dubbod.dubbo-system.svc:15012"; xc_identity := example_identity;
     xc_listener_names := ["0.0.0.0:80"]; xc_reconnect_delay := 1 |}.

Definition example_watch : WatchSender :=
  {| w_initial := empty_config "bootstrap"; w_sent := []; w_receivers := true |}.

Definition example_events : list StreamEvent :=
  [Message (example_response LISTENER_TYPE "v1" "n1" ["listener"]);
   Message (example_response ROUTE_TYPE "v1" "n2" ["routes"])].

Definition example_clusters : DiscoveryResponse :=
  example_response CLUSTER_TYPE "v1" "n3" ["cluster"].

Definition example_session : Session :=
  (run_stream (P := example_prost) (node example_client) example_events
    (fresh_session example_client example_watch)).2.

Lemma example_run :
  run_stream (P := example_prost) (node example_client) example_events
    (fresh_session example_client example_watch) = (None, example_session).
Proof. vm_compute. reflexivity. Qed.

Lemma stream_follows_witness :
  dq_resource_names <$> last_request CLUSTER_TYPE (ss_requests example_session) = Some ["orders"].
Proof.
  apply (stream_follows (P := example_prost) example_client example_events example_watch).
  - exact example_run.
  - vm_compute. reflexivity.
Defined.

Lemma cluster_response_completes_witness :
  ∃ s', handle_response (P := example_prost) (node example_client) example_clusters example_session
          = (Ok tt, s') ∧
    validate (watch_value (ss_watch s')) = Ok tt ∧
    watch_value (ss_watch s') = runtime_config "v1" (ss_ads s').
Proof.
  apply (cluster_response_completes (P := example_prost) example_client example_events example_watch
    example_session example_clusters [example_pb_cluster]).
  - exact example_run.
  - vm_compute. reflexivity.
  - vm_compute. reflexivity.
  - apply (bool_decide_unpack (map_Forall (λ _ l, ls_inline_virtual_hosts l = [])
      (ads_listeners (ss_ads example_session)))). vm_compute. exact I.
  - reflexivity.
  - vm_compute. reflexivity.
  - apply Forall_forall, (bool_decide_unpack _). vm_compute. exact I.
Defined.

Lemma handle_response_effects_witness :
  ∃ s', handle_response (P := example_prost) (node example_client)
          (example_response LISTENER_TYPE "v1" "n1" ["listener"])
          (fresh_session example_client example_watch) = (Ok tt, s') ∧
    rq_sent (ss_requests s') =
      [discovery_request (node example_client) LISTENER_TYPE ["0.0.0.0:80"] "" "";
       discovery_request (node example_client) LISTENER_TYPE ["0.0.0.0:80"] "v1" "n1";
       discovery_request (node example_client) ROUTE_TYPE ["http.80"] "" ""].
Proof.
  destruct (handle_response_effects (P := example_prost) (node example_client)
    (example_response LISTENER_TYPE "v1" "n1" ["listener"])
    (fresh_session example_client example_watch)) as (s' & Hs' & Hq & _);
    [vm_compute; reflexivity..|].
  exists s'. split; [exact Hs'|]. rewrite Hq. vm_compute. reflexivity.
Defined.

(** The stream that carries its routes inline. *)
Definition example_inline_events : list StreamEvent :=
  [Message (example_response LISTENER_TYPE "v1" "n1" ["listener-inline"])].

Definition example_inline_session : Session :=
  (run_stream (P := example_prost) (node example_client) example_inline_events
    (fresh_session example_client example_watch)).2.

Lemma example_inline_run :
  run_stream (P := example_prost) (node example_client) example_inline_events
    (fresh_session example_client example_watch) = (None, example_inline_session).
Proof. vm_compute. reflexivity. Qed.

Lemma example_inline_destination :
  wc_name <$> List.flat_map r_weighted_clusters (List.flat_map vh_routes (List.flat_map
    l_virtual_hosts (rc_listeners (runtime_config "v1" (ss_ads example_inline_session)))))
  = ["orders"].
Proof. vm_compute. reflexivity. Qed.

Lemma inline_clusters_not_requested_witness :
  (CLUSTER_TYPE ∉ dq_type_url <$> rq_sent (ss_requests example_inline_session)) ∧
  validate (runtime_config "v1" (ss_ads example_inline_session)) ≠ Ok tt.
Proof.
  destruct (inline_clusters_not_requested (P := example_prost) example_client
    example_inline_events example_watch example_inline_session example_inline_run) as [Hq Hv].
  - intros resp Hin. apply list_elem_of_singleton in Hin. injection Hin as ->.
    apply (bool_decide_unpack _). vm_compute. exact I.
  - split; [exact Hq|]. apply Hv. apply (bool_decide_unpack _). vm_compute. exact I.
Defined.

(** A first address that cannot be parsed. *)
Lemma run_ends_witness :
  ∃ cn src, cn ∈ [{| cn_endpoint := Err "invalid uri character"; cn_connect := Ok tt;
                     cn_open := Ok tt; cn_events := [] |}] ∧ cn_endpoint cn = Err src ∧
    Err (T := unit) (InvalidEndpoint (xc_endpoint example_client) "invalid uri character") =
    Err (InvalidEndpoint (xc_endpoint example_client) src).
Proof.
  apply (run_ends (P := example_prost) example_client
    [{| cn_endpoint := Err "invalid uri character"; cn_connect := Ok tt;
        cn_open := Ok tt; cn_events := [] |}] example_watch _ example_watch).
  vm_compute. reflexivity.
Defined.
