(* ===== verification/XdsReconnect.v ===== *)
(** * Reconnecting, and resources that are no longer asked for

    Consequences of how [run_once] and [prune_requested] work
    (crates/xds/src/client.rs). A new connection starts from an empty [AdsState]
    but publishes to the same watch channel, so its first listener response
    replaces a complete configuration by one without routes; as a resource that cannot
    be decoded ends the stream, one such resource keeps it so. And a response prunes
    only names that are subscribed when it comes, so a route configuration that the
    listeners dropped stays, and its clusters stay subscribed. *)

From S2P Require Import Prelude RustString BTree Net Config Identity.
From S2P Require Import XdsProto XdsConvert AdsState XdsClient.

(** ** Publication *)

Section reconnect.
Context {P : ProstLib}.

(** What is left of a value looked up among the latest entries. *)
Lemma latest_Some {V} (es : list (string * V)) k old v :
  latest es k old = Some v → (k, v) ∈ es ∨ old = Some v.
Proof.
  unfold latest. destruct (last _) as [[k' v']|] eqn:E; [|by right].
  intros [= <-]. left. apply last_Some_elem_of, list_elem_of_filter in E as [Hk Hin].
  simpl in Hk. by subst.
Qed.

(** The configuration of a state that knows listeners only. *)
Lemma listeners_only_routes v st port input :
  ads_routes st = ∅ →
  (∀ k l, ads_listeners st !! k = Some l → ls_inline_virtual_hosts l = []) →
  route_for (runtime_config v st) port input = Err (RouteNotFound (mi_host input) (mi_path input)).
Proof.
  intros Hr Hin. unfold route_for.
  destruct (listener_by_port _ port) as [l|] eqn:E; [|done]. simpl.
  apply find_Some_elem in E as [Hl _]. apply runtime_config_listener in Hl as (k & s & Hk & ->).
  assert (l_virtual_hosts (snapshot_listener st s) = []) as Hnil.
  { simpl. apply (Hin k s) in Hk. rewrite Hk, Hr. clear.
    induction (ls_route_names s) as [|n ns IH]; [done|]. simpl. by rewrite lookup_empty. }
  by rewrite Hnil.
Qed.

Lemma listeners_only_wf v st :
  ads_inv st → ads_routes st = ∅ →
  (∀ k l, ads_listeners st !! k = Some l → ls_inline_virtual_hosts l = []) →
  validate (runtime_config v st) = Ok tt.
Proof.
  intros Hst Hr Hin. apply validate_Ok_well_formed, (runtime_config_wf v st Hst).
  intros l h r d Hroute Hd.
  destruct (rds_destination v st l h r d Hroute Hd Hin Hst) as [Hcn _]. exfalso.
  unfold cluster_names in Hcn. rewrite Hr, elem_of_sorted_unique in Hcn.
  by apply elem_of_nil in Hcn.
Qed.

(** The listeners of a fresh session after its first response. *)
Lemma fresh_listeners cfg w resp ss u st1 :
  collect decode_listener (dr_resources resp) = Ok ss →
  Forall (λ s, ls_inline_virtual_hosts s = []) ss →
  apply_listeners (dr_resources resp) (ss_ads (fresh_session cfg w)) = (Ok u, st1) →
  ads_routes st1 = ∅ ∧ ads_clusters st1 = ∅ ∧
  ∀ k l, ads_listeners st1 !! k = Some l → ls_inline_virtual_hosts l = [].
Proof.
  intros Hss Hin (ss' & Hss' & Hl & Hr & Hc & _)%apply_listeners_sotw.
  rewrite Hss in Hss'. injection Hss' as <-.
  assert (ads_routes (ss_ads (fresh_session cfg w)) = ∅ ∧
          ads_clusters (ss_ads (fresh_session cfg w)) = ∅ ∧
          ads_listeners (ss_ads (fresh_session cfg w)) = ∅) as (Fr & Fc & Fl).
  { unfold fresh_session, start_session, set_subscription. by case_decide. }
  rewrite Hr, Hc. split; [done|]. split; [done|]. intros k l. rewrite Hl, Fl.
  unfold state_of_the_world. intros [He|Ho]%latest_Some.
  - apply list_elem_of_omap in He as (s & Hs & [= _ ->]). by eapply Forall_forall in Hin.
  - case_decide; [done|]. by rewrite lookup_empty in Ho.
Qed.

(** What is published has no clusters, and no request finds a route in it. *)
Definition routeless (w : WatchSender) : Prop :=
  w_receivers w = true ∧ rc_clusters (watch_value w) = [] ∧
  ∀ port input, route_for (watch_value w) port input =
    Err (RouteNotFound (mi_host input) (mi_path input)).

Lemma first_listeners cfg w resp ss :
  w_receivers w = true → dr_type_url resp = LISTENER_TYPE →
  collect decode_listener (dr_resources resp) = Ok ss →
  Forall (λ s, ls_inline_virtual_hosts s = []) ss →
  ∃ s', handle_response (node cfg) resp (fresh_session cfg w) = (Ok tt, s') ∧
    routeless (ss_watch s').
Proof.
  intros Hw Hty Hss Hin.
  assert (rq_open (ss_requests (fresh_session cfg w)) = true ∧
          w_receivers (ss_watch (fresh_session cfg w)) = true) as [Ho Hr].
  { unfold fresh_session, start_session. by destruct (set_subscription _ _ _). }
  destruct (apply_listeners_total _ (ss_ads (fresh_session cfg w)) _ Hss) as (u & st1 & Happ).
  assert (apply_response resp (ss_ads (fresh_session cfg w)) = (Ok u, st1)) as Hresp.
  { unfold apply_response. rewrite Hty. by rewrite decide_True. }
  destruct (handle_response_open (node cfg) resp _ u st1 Ho Hr Hresp) as (s' & Hs' & _ & Hpub).
  exists s'. split; [done|].
  destruct (handle_response_state _ _ _ _ _ _ Hresp Hs') as [m Hads].
  destruct (fresh_listeners cfg w resp ss u st1 Hss Hin Happ) as (Hroutes & Hclusters & Hl).
  pose proof (handle_response_inv _ _ _ _ (fresh_session_inv cfg w) Hs') as [Hinv _ _ _ _].
  split; [rewrite Hpub; by destruct (_ && _)|].
  rewrite (published_value _ _ _ Hpub).
  2:{ apply listeners_only_wf; [done|by rewrite Hads..]. }
  split; [simpl; by rewrite Hads; simpl; rewrite Hclusters|].
  intros port input. apply listeners_only_routes; by rewrite Hads.
Qed.

End reconnect.

(** ** Properties *)

(** Reconnecting empties the routes. Whatever was published before, the first
    listener response of a new connection, with its routes left to RDS, is accepted
    and replaces it by a configuration without clusters, under which no request
    finds a route, until the route and cluster responses have come again. *)
Theorem reconnect_drops_routes {P : ProstLib} cfg w resp ss :
  w_receivers w = true → dr_type_url resp = LISTENER_TYPE →
  collect decode_listener (dr_resources resp) = Ok ss →
  Forall (λ s, ls_inline_virtual_hosts s = []) ss →
  ∃ s', handle_response (node cfg) resp (fresh_session cfg w) = (Ok tt, s') ∧
    rc_clusters (watch_value (ss_watch s')) = [] ∧
    ∀ port input, route_for (watch_value (ss_watch s')) port input =
      Err (RouteNotFound (mi_host input) (mi_path input)).
Proof.
  intros Hw Hty Hss Hin.
  destruct (first_listeners cfg w resp ss Hw Hty Hss Hin) as (s' & Hs' & _ & Hless). by exists s'.
Qed.

(** After the complete exchange of the example, a second connection. *)
Definition example_published_watch : WatchSender :=
  ss_watch (handle_response (P := example_prost) (node example_client) example_clusters
    example_session).2.

Lemma example_published_route :
  is_ok (route_for (watch_value example_published_watch) 80
    {| mi_host := "orders.example.com"; mi_path := "/"; mi_headers := [] |}) = true.
Proof. vm_compute. reflexivity. Qed.

Definition example_listener_response : DiscoveryResponse :=
  example_response LISTENER_TYPE "v2" "n9" ["listener"].

Definition example_rds_snapshot : ListenerSnapshot :=
  {| ls_listener :=
       {| l_name := "0.0.0.0:80"; l_bind := unspecified_v4 80; l_protocol := Http;
          l_virtual_hosts := []; l_tls_secret := None |};
     ls_route_names := ["http.80"]; ls_inline_virtual_hosts := [] |}.

Lemma reconnect_drops_routes_witness :
  ∃ s', handle_response (P := example_prost) (node example_client) example_listener_response
          (fresh_session example_client example_published_watch) = (Ok tt, s') ∧
    route_for (watch_value (ss_watch s')) 80
      {| mi_host := "orders.example.com"; mi_path := "/"; mi_headers := [] |} =
      Err (RouteNotFound "orders.example.com" "/").
Proof.
  destruct (reconnect_drops_routes (P := example_prost) example_client example_published_watch
    example_listener_response [example_rds_snapshot]) as (s' & Hs' & _ & Hr).
  - vm_compute. reflexivity.
  - reflexivity.
  - vm_compute. reflexivity.
  - repeat constructor.
  - exists s'. split; [exact Hs'|]. apply Hr.
Defined.

(** ** A response that cannot be decoded *)

(** A connection on which the listeners arrive, with their routes left to RDS, and then
    route configurations one of which cannot be decoded. *)
Definition poisoned {P : ProstLib} (cn : Connection) : Prop :=
  cn_endpoint cn = Ok tt ∧ cn_connect cn = Ok tt ∧ cn_open cn = Ok tt ∧
  ∃ lds ss rds e evs, cn_events cn = Message lds :: Message rds :: evs ∧
    dr_type_url lds = LISTENER_TYPE ∧ collect decode_listener (dr_resources lds) = Ok ss ∧
    Forall (λ s, ls_inline_virtual_hosts s = []) ss ∧
    dr_type_url rds = ROUTE_TYPE ∧
    collect (decode_resource decode_PbRouteConfiguration ROUTE_TYPE) (dr_resources rds) = Err e.

Section malformed.
Context {P : ProstLib}.

Lemma apply_each_fails {A B} (f : A → AdsState → result unit XdsError * AdsState)
    (dec : A → result B XdsError) l st e :
  (∀ x st b, dec x = Ok b → (f x st).1 = Ok tt) → (∀ x st e, dec x = Err e → (f x st).1 = Err e) →
  collect dec l = Err e → (apply_each f l st).1 = Err e.
Proof.
  intros Hok Herr. revert st. induction l as [|x l IH]; intros st; [done|]. simpl.
  specialize (Hok x st). specialize (Herr x st). destruct (dec x) as [b|e'].
  - specialize (Hok b eq_refl). destruct (f x st) as [[[]|] st']; [|done].
    destruct (collect dec l); [done|]. intros [= ->]. by apply IH.
  - specialize (Herr e' eq_refl). destruct (f x st) as [[|] st']; [done|]. simpl in *. congruence.
Qed.

(** The body of the loop fails, and what is published stays. *)
Lemma malformed_routes_fail n resp s e :
  dr_type_url resp = ROUTE_TYPE →
  collect (decode_resource decode_PbRouteConfiguration ROUTE_TYPE) (dr_resources resp) = Err e →
  ∃ s', handle_response n resp s = (Err e, s') ∧ ss_watch s' = ss_watch s ∧
    ss_requests s' = ss_requests s.
Proof.
  intros Hty He. unfold handle_response, apply_response. rewrite Hty, decide_False, decide_True by done.
  unfold apply_routes.
  pose proof (apply_each_fails apply_route (decode_resource decode_PbRouteConfiguration ROUTE_TYPE)
    (dr_resources resp) (set_routes (prune_requested (subscription ROUTE_TYPE (ss_ads s))
      (ads_routes (ss_ads s))) (ss_ads s)) e) as Hfail.
  destruct (apply_each _ _ _) as [r st1]. simpl in Hfail. rewrite Hfail; [by eexists|..|done].
  - intros x st0 b Hb. unfold apply_route. by rewrite Hb.
  - intros x st0 e0 Hb. unfold apply_route. by rewrite Hb.
Qed.

Lemma run_once_poisoned cfg cn w :
  w_receivers w = true → poisoned cn →
  ∃ e w', run_once cfg cn w = (Some (Err e), w') ∧ stream_error e ∧ routeless w'.
Proof.
  intros Hw (He & Hc & Ho & lds & ss & rds & e & evs & Hev & Hl & Hss & Hin & Hr & Hbad).
  destruct (first_listeners cfg w lds ss Hw Hl Hss Hin) as (s1 & Hs1 & Hless).
  destruct (malformed_routes_fail (node cfg) rds s1 e Hr Hbad) as (s2 & Hs2 & Hwatch & _).
  exists e, (ss_watch s2). unfold run_once, connect_channel. rewrite He, Hc. simpl.
  rewrite start_session_ok, Ho. simpl. rewrite Hev. simpl. rewrite Hs1, Hs2.
  split; [done|]. split; [|by rewrite Hwatch].
  apply (handle_response_error (node cfg) rds s1). by rewrite Hs2.
Qed.

Lemma run_poisoned cfg cns w :
  w_receivers w = true → cns ≠ [] → Forall poisoned cns →
  ∃ w', run cfg cns w = (None, w') ∧ routeless w'.
Proof.
  intros Hw Hne Hp. revert w Hw Hne. induction Hp as [|cn cns Hcn _ IH]; intros w Hw Hne; [done|].
  destruct (run_once_poisoned cfg cn w Hw Hcn) as (e & w1 & Hrun & He & Hless). simpl. rewrite Hrun.
  assert (∃ w', run cfg cns w1 = (None, w') ∧ routeless w') as Hrest.
  { destruct cns as [|cn' cns]; [by exists w1|]. apply IH; [apply Hless|done]. }
  destruct e; done.
Qed.

End malformed.

(** C30: One route configuration that cannot be decoded takes all routes down. The
    response it comes in, in whatever state, makes the loop body fail, and nothing is sent to
    the server for it and nothing published. So over any number of connections, one at least,
    on each of which a listener response with its routes left to RDS is followed by such a
    response, and whatever was published before them, what is published at the end has no
    clusters, and no request finds a route in it. *)
Theorem malformed_routes_outage {P : ProstLib} cfg cns w :
  (∀ resp s e, dr_type_url resp = ROUTE_TYPE →
     collect (decode_resource decode_PbRouteConfiguration ROUTE_TYPE) (dr_resources resp) = Err e →
     ∃ s', handle_response (node cfg) resp s = (Err e, s') ∧ ss_watch s' = ss_watch s ∧
       ss_requests s' = ss_requests s) ∧
  (w_receivers w = true → cns ≠ [] → Forall poisoned cns →
   ∃ w', run cfg cns w = (None, w') ∧ rc_clusters (watch_value w') = [] ∧
     ∀ port input, route_for (watch_value w') port input =
       Err (RouteNotFound (mi_host input) (mi_path input))).
Proof.
  split; [intros; by eapply malformed_routes_fail|]. intros Hw Hne Hp.
  destruct (run_poisoned cfg cns w Hw Hne Hp) as (w' & Hrun & _ & Hc & Hr). by exists w'.
Qed.

Definition example_poisoned : Connection :=
  {| cn_endpoint := Ok tt; cn_connect := Ok tt; cn_open := Ok tt;
     cn_events := [Message example_listener_response;
                   Message (example_response ROUTE_TYPE "v2" "n10" ["routes"; "truncated"])] |}.

Lemma malformed_routes_outage_witness :
  ∃ w', run (P := example_prost) example_client [example_poisoned; example_poisoned]
          example_published_watch = (None, w') ∧
    route_for (watch_value w') 80
      {| mi_host := "orders.example.com"; mi_path := "/"; mi_headers := [] |} =
      Err (RouteNotFound "orders.example.com" "/").
Proof.
  destruct (proj2 (malformed_routes_outage (P := example_prost) example_client
    [example_poisoned; example_poisoned] example_published_watch)) as (w' & Hw' & _ & Hr).
  - vm_compute. reflexivity.
  - discriminate.
  - assert (poisoned (P := example_prost) example_poisoned) as Hp;
      [|exact (Forall_cons_2 _ _ _ Hp (Forall_cons_2 _ _ _ Hp (Forall_nil_2 _)))].
    split_and!; [reflexivity..|].
    exists example_listener_response, [example_rds_snapshot],
      (example_response ROUTE_TYPE "v2" "n10" ["routes"; "truncated"]). eexists _, [].
    split_and!; [reflexivity|reflexivity|vm_compute; reflexivity|by repeat constructor|reflexivity|].
    vm_compute. reflexivity.
  - exists w'. split; [exact Hw'|apply Hr].
Defined.

(** ** Route configurations that nothing refers to any more *)

Lemma latest_absent {V} (es : list (string * V)) k old :
  (k ∉ es.*1) → latest es k old = old.
Proof.
  revert old. induction es as [|[k0 v] es IH]; intros old Hk; [done|]. simpl in Hk.
  apply not_elem_of_cons in Hk as [Hne Hk]. rewrite latest_cons, IH by done.
  by rewrite decide_False.
Qed.

(** A response that carries the route configuration [n]. *)
Definition carries_route {P : ProstLib} (resp : DiscoveryResponse) (n : string) : Prop :=
  dr_type_url resp = ROUTE_TYPE ∧
  ∃ rcs, collect (decode_resource decode_PbRouteConfiguration ROUTE_TYPE) (dr_resources resp) = Ok rcs
    ∧ n ∈ prc_name <$> rcs.

Lemma route_entries_names rcs : (omap route_entry rcs).*1 = prc_name <$> rcs.
Proof.
  induction rcs as [|rc rcs IH]; [done|]. rewrite (omap_entry_cons route_entry). simpl. by f_equal.
Qed.

Lemma apply_response_keeps_route {P : ProstLib} resp st u st' n vhosts :
  apply_response resp st = (Ok u, st') → ads_routes st !! n = Some vhosts →
  subscription ROUTE_TYPE st ≠ [] → (n ∉ subscription ROUTE_TYPE st) → ¬ carries_route resp n →
  ads_routes st' !! n = Some vhosts.
Proof.
  intros Happ Hn Hne Hsub Hcarry.
  apply apply_response_applied_sub in Happ as [Happ _].
  destruct Happ as [ss _ _ _ Hr _ _|rcs Hty Hrcs Hr _ _ _|cs _ _ _ _ _ Hr|els _ _ _ _ Hr _|_ ->];
    [by rewrite Hr| |by rewrite Hr..|done].
  rewrite Hr. unfold state_of_the_world. rewrite latest_absent.
  - rewrite decide_False; [done|]. by intros [?|?].
  - rewrite route_entries_names. intros Hin. apply Hcarry. split; [done|]. by exists rcs.
Qed.

(** C31: A route configuration that the listeners no longer refer to is never dropped:
    once its name is out of the subscription, no response removes it, unless it
    carries that very name, and all the clusters of its routes stay subscribed. *)
Theorem stale_routes_followed {P : ProstLib} cfg evs w s resp s' n vhosts :
  run_stream (node cfg) evs (fresh_session cfg w) = (None, s) →
  ads_routes (ss_ads s) !! n = Some vhosts →
  subscription ROUTE_TYPE (ss_ads s) ≠ [] → (n ∉ subscription ROUTE_TYPE (ss_ads s)) →
  ¬ carries_route resp n → handle_response (node cfg) resp s = (Ok tt, s') →
  ads_routes (ss_ads s') !! n = Some vhosts ∧
  ∀ vh r d, vh ∈ vhosts → r ∈ vh_routes vh → d ∈ r_weighted_clusters r →
    wc_name d ∈ subscription CLUSTER_TYPE (ss_ads s').
Proof.
  intros Hrun Hn Hne Hsub Hcarry Hs'.
  pose proof (run_stream_inv _ _ _ _ (fresh_session_inv cfg w) Hrun) as Hinv.
  pose proof (handle_response_inv _ _ _ _ Hinv Hs') as Hinv'.
  pose proof Hs' as (u & st1 & _ & _ & Happ & _)%handle_response_ok.
  pose proof (apply_response_keeps_route _ _ _ _ _ _ Happ Hn Hne Hsub Hcarry) as Hkeep.
  destruct (handle_response_state _ _ _ _ _ _ Happ Hs') as [m Hads].
  assert (ads_routes (ss_ads s') !! n = Some vhosts) as Hn' by (by rewrite Hads).
  split; [done|]. intros vh r d Hvh Hr Hd.
  pose proof (cluster_names_route _ _ _ _ _ _ Hn' Hvh Hr Hd) as Hc.
  destruct (si_clusters _ Hinv') as [Hnil|Hsome].
  - rewrite Hnil in Hc. by apply elem_of_nil in Hc.
  - unfold subscription. by rewrite Hsome.
Qed.

(** The listener moves from one route configuration to another. *)
Definition example_moved_events : list StreamEvent :=
  example_events ++ [Message (example_response LISTENER_TYPE "v2" "n3" ["listener-moved"])].

Definition example_moved_session : Session :=
  (run_stream (P := example_prost) (node example_client) example_moved_events
    (fresh_session example_client example_watch)).2.

Lemma example_moved_run :
  run_stream (P := example_prost) (node example_client) example_moved_events
    (fresh_session example_client example_watch) = (None, example_moved_session).
Proof. vm_compute. reflexivity. Qed.

Definition example_after_moved : Session :=
  (handle_response (P := example_prost) (node example_client) example_clusters
    example_moved_session).2.

Lemma stale_routes_followed_witness :
  ads_routes (ss_ads example_after_moved) !! "http.80"
    = Some (convert_virtual_hosts [example_pb_vhost]).
Proof.
  apply (stale_routes_followed (P := example_prost) example_client example_moved_events
    example_watch example_moved_session example_clusters example_after_moved "http.80"
    (convert_virtual_hosts [example_pb_vhost])).
  - exact example_moved_run.
  - vm_compute. reflexivity.
  - vm_compute. discriminate.
  - apply (bool_decide_unpack _). vm_compute. exact I.
  - intros [Hty _]. discriminate Hty.
  - vm_compute. reflexivity.
Defined.
