(* ===== verification/XdsConverge.v ===== *)
(** * An exchange with the control plane converges (crates/xds/src/client.rs)

    What the client of [XdsClient] is for: to end up with the configuration the
    control plane holds. The control plane is an argument, a function from requests
    to responses, of which [honest] says that it answers each request by the
    resources it holds under the names asked for. The client's side is
    [handle_response] as it is: names are found in one kind of resource and followed
    in the next. Whatever the order in which the requests are answered, and however
    often, once a listener answer has been followed by a route, a cluster and an
    endpoint answer the client has published the control plane's configuration. *)

From S2P Require Import Prelude RustString BTree Net Config Identity.
From S2P Require Import XdsProto XdsConvert AdsState XdsClient XdsReconnect.

Definition four_types : list string := [LISTENER_TYPE; ROUTE_TYPE; CLUSTER_TYPE; ENDPOINT_TYPE].

(** ** The control plane *)

Record World := {
  wd_version : string;
  wd_listeners : gmap string ListenerSnapshot;
  wd_routes : gmap string (list VirtualHost);
  wd_clusters : gmap string ClusterSnapshot;
  wd_endpoints : gmap string (list Endpoint) }.

(** The entries of an answer to a request for [names]; no names asks for all. *)
Definition answers {V} (names : list string) (entries : list (string * V)) (table : gmap string V)
    : Prop :=
  ∀ k, latest entries k None = if decide (names = [] ∨ k ∈ names) then table !! k else None.

(** A server that answers every request by what it holds. A cluster may bring its
    endpoints along if they are those that the endpoint request would bring. *)
Record honest {P : ProstLib} (server : DiscoveryRequest → DiscoveryResponse) (W : World) : Prop := {
  ho_type q : dr_type_url (server q) = dq_type_url q;
  ho_version q : dr_version_info (server q) = wd_version W;
  ho_listeners q : dq_type_url q = LISTENER_TYPE → ∃ ss,
    collect decode_listener (dr_resources (server q)) = Ok ss ∧
    answers (dq_resource_names q) (omap listener_entry ss) (wd_listeners W);
  ho_routes q : dq_type_url q = ROUTE_TYPE → ∃ rcs,
    collect (decode_resource decode_PbRouteConfiguration ROUTE_TYPE) (dr_resources (server q)) = Ok rcs ∧
    answers (dq_resource_names q) (omap route_entry rcs) (wd_routes W);
  ho_clusters q : dq_type_url q = CLUSTER_TYPE → ∃ cs,
    collect (decode_resource decode_PbCluster CLUSTER_TYPE) (dr_resources (server q)) = Ok cs ∧
    answers (dq_resource_names q) (omap cluster_entry cs) (wd_clusters W) ∧
    ∀ k v, (k, v) ∈ omap cluster_load_entry cs → wd_endpoints W !! k = Some v;
  ho_endpoints q : dq_type_url q = ENDPOINT_TYPE → ∃ els,
    collect (decode_resource decode_PbClusterLoadAssignment ENDPOINT_TYPE) (dr_resources (server q))
      = Ok els ∧
    answers (dq_resource_names q) (omap endpoint_entry els) (wd_endpoints W) }.

(** The stream that answers the last request of each of the types [tys], in that
    order; a type that was never requested is passed over. *)
Fixpoint serve {P : ProstLib} (server : DiscoveryRequest → DiscoveryResponse) (n : PbNode)
    (tys : list string) (s : Session) : result unit XdsError * Session :=
  match tys with
  | [] => (Ok tt, s)
  | ty :: tys' =>
      match last_request ty (ss_requests s) with
      | None => serve server n tys' s
      | Some q =>
          match handle_response n (server q) s with
          | (Ok _, s') => serve server n tys' s'
          | (Err e, s') => (Err e, s')
          end
      end
  end.

(** ** What the client should know *)

Definition listed {V} (names : list string) (table : gmap string V) : gmap string V :=
  base.filter (λ e, e.1 ∈ names) table.

(** The state that holds what the world [W] has for a client of the listeners
    [names]: those listeners, the route configurations they name, the clusters of
    these and the endpoints of those. *)
Definition target (W : World) (names : list string) : AdsState :=
  let st := set_listeners (if decide (names = []) then wd_listeners W
                           else listed names (wd_listeners W)) ads_default in
  let st := set_routes (listed (route_names st) (wd_routes W)) st in
  let st := set_clusters (listed (cluster_names st) (wd_clusters W)) st in
  set_endpoints (listed (eds_names st) (wd_endpoints W)) st.

Lemma lookup_listed {V} names (m : gmap string V) k :
  listed names m !! k = if decide (k ∈ names) then m !! k else None.
Proof.
  apply option_eq. intros v. unfold listed. rewrite map_lookup_filter_Some. simpl.
  case_decide; naive_solver.
Qed.

Lemma listed_nil {V} (m : gmap string V) : listed [] m = ∅.
Proof.
  apply map_eq. intros k. rewrite lookup_listed, lookup_empty, decide_False; [done|].
  apply not_elem_of_nil.
Qed.

Lemma latest_old {V} (es : list (string * V)) k old :
  latest es k old = match latest es k None with Some v => Some v | None => old end.
Proof. unfold latest. by destruct (last _). Qed.

(** What an honest answer leaves in the map of its type. *)
Lemma answers_sotw {V} names es (table m : gmap string V) k :
  answers names es table →
  state_of_the_world names es m k = if decide (names = [] ∨ k ∈ names) then table !! k else m !! k.
Proof.
  intros H. unfold state_of_the_world. rewrite latest_old, (H k).
  case_decide; [|done]. by destruct (table !! k).
Qed.

Lemma answers_listed {V} names es (table m m' : gmap string V) :
  answers names es table → names ≠ [] → m = ∅ ∨ m = listed names table →
  (∀ k, m' !! k = state_of_the_world names es m k) → m' = listed names table.
Proof.
  intros H Hne Hm Hm'. apply map_eq. intros k. rewrite Hm', (answers_sotw _ _ table), lookup_listed by done.
  destruct (decide (k ∈ names)) as [Hk|Hk].
  - by rewrite decide_True by (by right).
  - rewrite decide_False by (by intros [?|?]). destruct Hm as [-> | ->]; [done|].
    by rewrite lookup_listed, decide_False.
Qed.

(** ** One answer *)

Section converge.
Context {P : ProstLib} (server : DiscoveryRequest → DiscoveryResponse) (W : World).
Context (Hserver : honest server W).
Context (cfg : XdsClientConfig).

Definition asked : list string := sorted_unique (xc_listener_names cfg).
Definition wanted : AdsState := target W asked.

(** Everything published is what the state amounts to. *)
Definition up_to_date (s : Session) : Prop :=
  validate (runtime_config (wd_version W) (ss_ads s)) = Ok tt →
  watch_value (ss_watch s) = runtime_config (wd_version W) (ss_ads s).

(** The resources of [ty] are those of the world. *)
Definition settled (ty : string) (st : AdsState) : Prop :=
  (ty = LISTENER_TYPE → ads_listeners st = ads_listeners wanted) ∧
  (ty = ROUTE_TYPE → ads_routes st = ads_routes wanted) ∧
  (ty = CLUSTER_TYPE → ads_clusters st = ads_clusters wanted) ∧
  (ty = ENDPOINT_TYPE → ∀ k, k ∈ eds_names wanted → ads_endpoints st !! k = wd_endpoints W !! k).

(** The state on the way: each kind is not known yet, or known as it should be. *)
Record partial (st : AdsState) : Prop := {
  pa_listeners : ads_listeners st = ∅ ∨ ads_listeners st = ads_listeners wanted;
  pa_routes : ads_routes st = ∅ ∨ ads_routes st = ads_routes wanted;
  pa_clusters : ads_clusters st = ∅ ∨ ads_clusters st = ads_clusters wanted;
  pa_endpoints k v : ads_endpoints st !! k = Some v → wd_endpoints W !! k = Some v }.

(** What may be asked for: the names in the kind of resources before, once known. *)
Record asks (subs : gmap string (list string)) (st : AdsState) : Prop := {
  as_listeners : subs !! LISTENER_TYPE = Some asked;
  as_routes x : subs !! ROUTE_TYPE = Some x →
    x ≠ [] ∧ x = route_names wanted ∧ ads_listeners st = ads_listeners wanted;
  as_clusters x : subs !! CLUSTER_TYPE = Some x →
    x ≠ [] ∧ x = cluster_names wanted ∧ ads_routes st = ads_routes wanted;
  as_endpoints x : subs !! ENDPOINT_TYPE = Some x →
    x ≠ [] ∧ x = eds_names wanted ∧ ads_clusters st = ads_clusters wanted;
  as_types ty : is_Some (subs !! ty) → ty ∈ four_types }.

Record converging (s : Session) : Prop := {
  cv_inv : session_inv s;
  cv_open : rq_open (ss_requests s) = true;
  cv_receivers : w_receivers (ss_watch s) = true;
  cv_requested ty : is_Some (last_request ty (ss_requests s)) →
    is_Some (ads_subscriptions (ss_ads s) !! ty);
  cv_asks : asks (ads_subscriptions (ss_ads s)) (ss_ads s);
  cv_partial : partial (ss_ads s) }.

(** *** The names of one kind come from the kind before *)

Lemma wanted_routes : ads_routes wanted = listed (route_names wanted) (wd_routes W).
Proof. done. Qed.

Lemma wanted_clusters : ads_clusters wanted = listed (cluster_names wanted) (wd_clusters W).
Proof. done. Qed.

Lemma route_names_of st st' : ads_listeners st = ads_listeners st' → route_names st = route_names st'.
Proof. unfold route_names. by intros ->. Qed.

Lemma cluster_names_of_routes st st' : ads_routes st = ads_routes st' → cluster_names st = cluster_names st'.
Proof. unfold cluster_names. by intros ->. Qed.

Lemma eds_names_of st st' : ads_clusters st = ads_clusters st' → eds_names st = eds_names st'.
Proof. unfold eds_names. by intros ->. Qed.

(** *** The loop body on an answer that can be applied *)

Lemma new_requests_types n subs st ty :
  ty ∈ dq_type_url <$> new_requests n subs st → ty ∈ subs.*1.
Proof.
  unfold new_requests. rewrite <- list_fmap_compose. intros (e & -> & He)%list_elem_of_fmap.
  apply list_elem_of_filter in He as [_ He]. by apply list_elem_of_fmap_2.
Qed.

Lemma last_request_type ty ch : is_Some (last_request ty ch) ↔ ty ∈ dq_type_url <$> rq_sent ch.
Proof.
  unfold last_request. rewrite last_is_Some, list_elem_of_fmap. split.
  - intros Hne. destruct (base.filter _ _) as [|q l] eqn:E; [done|].
    assert (q ∈ base.filter (λ q, dq_type_url q = ty) (rq_sent ch)) as Hq by (rewrite E; by left).
    apply list_elem_of_filter in Hq as [<- Hq]. by exists q.
  - intros (q & -> & Hq) Hnil.
    assert (q ∈ base.filter (λ q0, dq_type_url q0 = dq_type_url q) (rq_sent ch)) as Hin
      by (by apply list_elem_of_filter).
    rewrite Hnil in Hin. by apply elem_of_nil in Hin.
Qed.

Lemma last_request_is ty ch q : last_request ty ch = Some q → dq_type_url q = ty.
Proof. intros H. by apply last_Some_elem_of, list_elem_of_filter in H as [? _]. Qed.

Lemma follow_keeps_open n subs s :
  rq_open (ss_requests (follow_subscriptions n subs s).2) = rq_open (ss_requests s).
Proof.
  revert s. induction subs as [|[ty names] subs IH]; intros s; [done|]. simpl.
  destruct (set_subscription _ _ _) as [[] ads]; [|by rewrite IH].
  unfold session_send, send_discovery_request. simpl.
  destruct (rq_open (ss_requests s)) eqn:E; simpl; [by rewrite IH|done].
Qed.

Lemma handle_response_served n resp s u st1 :
  session_inv s → rq_open (ss_requests s) = true → w_receivers (ss_watch s) = true →
  apply_response resp (ss_ads s) = (Ok u, st1) →
  ∃ s' m, handle_response n resp s = (Ok tt, s') ∧ session_inv s' ∧
    ss_ads s' = set_subscriptions m st1 ∧
    (∀ ty, m !! ty = latest (updates_subscriptions u) ty (ads_subscriptions (ss_ads s) !! ty)) ∧
    rq_open (ss_requests s') = true ∧ w_receivers (ss_watch s') = true ∧
    (∀ ty, is_Some (last_request ty (ss_requests s')) →
       is_Some (last_request ty (ss_requests s)) ∨ ty = dr_type_url resp ∨
       ty ∈ (updates_subscriptions u).*1) ∧
    let cfg := runtime_config (dr_version_info resp) (ss_ads s') in
    (validate cfg = Ok tt → watch_value (ss_watch s') = cfg).
Proof.
  intros Hinv Ho Hw Happ.
  destruct (handle_response_open n resp s u st1 Ho Hw Happ) as (s' & Hs' & Hsent & Hpub).
  pose proof (handle_response_inv _ _ _ _ Hinv Hs') as Hinv'.
  pose proof Hs' as (u' & st1' & s1 & s2 & Happ' & Hsend & Hfol & Hend)%handle_response_ok.
  rewrite Happ in Happ'. injection Happ' as <- <-.
  pose proof (apply_response_applied_sub _ _ _ _ Happ) as [_ Hsubs].
  apply session_send_ok in Hsend as (Ha1 & _ & Ho1 & _). simpl in Ha1.
  pose proof (follow_keeps_open n (updates_subscriptions u) s1) as Ho2.
  rewrite Hfol in Ho2. simpl in Ho2.
  destruct (follow_subs n (updates_subscriptions u) s1 s2 Hfol (updates_sorted _ _ _ _ Happ))
    as (m & Ha2 & Hm).
  apply publish_session in Hend as [Ha3 Hq3].
  exists s', m. rewrite Ha3, Ha2, Ha1. split_and!; try done.
  - intros ty. by rewrite Hm, Ha1, Hsubs.
  - congruence.
  - rewrite Hpub. by destruct (_ && _).
  - intros ty. rewrite !last_request_type, Hsent, fmap_app, elem_of_app, fmap_cons, elem_of_cons.
    intros [?|[?|?%new_requests_types]]; auto.
  - rewrite <- Ha1, <- Ha2, <- Ha3. eapply published_value. exact Hpub.
Qed.

(** *** The state after an honest answer *)

(** The names an answer makes the client follow, and the kind they come from. *)
Definition follows_next (u : DiscoveryUpdates) (st : AdsState) : Prop :=
  (du_route_names u = [] ∨
     du_route_names u = route_names wanted ∧ ads_listeners st = ads_listeners wanted) ∧
  (du_cluster_names u = [] ∨
     du_cluster_names u = cluster_names wanted ∧ ads_routes st = ads_routes wanted) ∧
  (du_eds_names u = [] ∨
     du_eds_names u = eds_names wanted ∧ ads_clusters st = ads_clusters wanted).

(** The answer to the request [q] leads from [st] to [st1]. *)
Record served (q : DiscoveryRequest) (st : AdsState) (u : DiscoveryUpdates) (st1 : AdsState)
    : Prop := {
  sv_apply : apply_response (server q) st = (Ok u, st1);
  sv_next : follows_next u st1;
  sv_partial : partial st1;
  sv_kept ty : settled ty st → settled ty st1;
  sv_settled : settled (dq_type_url q) st1 }.

Lemma served_listeners q st :
  dq_type_url q = LISTENER_TYPE → dq_resource_names q = asked →
  subscription LISTENER_TYPE st = asked → partial st → ∃ u st1, served q st u st1.
Proof.
  intros Hty Hnames Hsub [Pl Pr Pc Pe].
  destruct (ho_listeners _ _ Hserver q Hty) as (ss & Hss & Hans). rewrite Hnames in Hans.
  destruct (apply_listeners_total _ st ss Hss) as (u & st1 & Happ). exists u, st1.
  pose proof Happ as (ss' & Hss' & Hl & Hr & Hc & He & _ & Hu)%apply_listeners_sotw.
  rewrite Hss in Hss'. injection Hss' as <-. rewrite Hsub in Hl.
  assert (ads_listeners st1 = ads_listeners wanted) as Hl1.
  { unfold wanted, target. simpl. destruct (decide (asked = [])) as [E|E].
    - apply map_eq. intros k. rewrite Hl, (answers_sotw _ _ _ _ _ Hans).
      by rewrite decide_True by (by left).
    - eapply answers_listed; [exact Hans|done| |done]. destruct Pl as [?|Pl]; [by left|right].
      rewrite Pl. unfold wanted, target. simpl. by rewrite decide_False. }
  constructor.
  - unfold apply_response. rewrite (ho_type _ _ Hserver), Hty. by rewrite decide_True.
  - rewrite Hu. unfold follows_next. simpl. rewrite (route_names_of _ _ Hl1). auto.
  - constructor; rewrite ?Hr, ?Hc, ?He; auto.
  - intros ty (H1 & H2 & H3 & H4). unfold settled. by rewrite Hr, Hc, He.
  - rewrite Hty. by repeat split.
Qed.

Lemma served_routes q st :
  dq_type_url q = ROUTE_TYPE → dq_resource_names q = route_names wanted → route_names wanted ≠ [] →
  subscription ROUTE_TYPE st = route_names wanted → partial st → ∃ u st1, served q st u st1.
Proof.
  intros Hty Hnames Hne Hsub [Pl Pr Pc Pe].
  destruct (ho_routes _ _ Hserver q Hty) as (rcs & Hrcs & Hans). rewrite Hnames in Hans.
  destruct (apply_routes_total _ st rcs Hrcs) as (u & st1 & Happ). exists u, st1.
  pose proof Happ as (rcs' & Hrcs' & Hr & Hl & Hc & He & _ & Hu)%apply_routes_sotw.
  rewrite Hrcs in Hrcs'. injection Hrcs' as <-. rewrite Hsub in Hr.
  assert (ads_routes st1 = ads_routes wanted) as Hr1.
  { rewrite wanted_routes. by eapply answers_listed. }
  constructor.
  - unfold apply_response. rewrite (ho_type _ _ Hserver), Hty. by rewrite decide_False, decide_True.
  - rewrite Hu. unfold follows_next. simpl. rewrite (cluster_names_of_routes _ _ Hr1). auto.
  - constructor; rewrite ?Hl, ?Hc, ?He; auto.
  - intros ty (H1 & H2 & H3 & H4). unfold settled. by rewrite Hl, Hc, He.
  - rewrite Hty. by repeat split.
Qed.

Lemma latest_sound {V} (es : list (string * V)) (table : gmap string V) k old v :
  (∀ k v, (k, v) ∈ es → table !! k = Some v) → (∀ v, old = Some v → table !! k = Some v) →
  latest es k old = Some v → table !! k = Some v.
Proof. intros Hes Hold [?|?]%latest_Some; auto. Qed.

Lemma served_clusters q st :
  dq_type_url q = CLUSTER_TYPE → dq_resource_names q = cluster_names wanted →
  cluster_names wanted ≠ [] → subscription CLUSTER_TYPE st = cluster_names wanted → partial st →
  ∃ u st1, served q st u st1.
Proof.
  intros Hty Hnames Hne Hsub [Pl Pr Pc Pe].
  destruct (ho_clusters _ _ Hserver q Hty) as (cs & Hcs & Hans & Hload). rewrite Hnames in Hans.
  destruct (apply_clusters_total _ st cs Hcs) as (u & st1 & Happ). exists u, st1.
  pose proof Happ as (cs' & Hcs' & Hc & He & Hl & Hr & _ & Hu)%apply_clusters_sotw.
  rewrite Hcs in Hcs'. injection Hcs' as <-. rewrite Hsub in Hc.
  assert (ads_clusters st1 = ads_clusters wanted) as Hc1.
  { rewrite wanted_clusters. by eapply answers_listed. }
  constructor.
  - unfold apply_response. rewrite (ho_type _ _ Hserver), Hty.
    by rewrite decide_False, decide_False, decide_True.
  - rewrite Hu. unfold follows_next. simpl. rewrite (eds_names_of _ _ Hc1). auto.
  - constructor; rewrite ?Hl, ?Hr; auto. intros k v. rewrite He.
    apply latest_sound; [done|]. intros v'. apply Pe.
  - intros ty (H1 & H2 & H3 & H4). unfold settled. rewrite Hl, Hr. split_and!; [done..|].
    intros Hend k Hk. rewrite He. specialize (H4 Hend k Hk).
    destruct (latest _ _ _) as [v|] eqn:E.
    + symmetry. eapply latest_sound; [done| |exact E]. intros v' Hv'. congruence.
    + rewrite latest_old in E. destruct (latest _ k None); congruence.
  - rewrite Hty. by repeat split.
Qed.

Lemma served_endpoints q st :
  dq_type_url q = ENDPOINT_TYPE → dq_resource_names q = eds_names wanted → eds_names wanted ≠ [] →
  subscription ENDPOINT_TYPE st = eds_names wanted → partial st → ∃ u st1, served q st u st1.
Proof.
  intros Hty Hnames Hne Hsub [Pl Pr Pc Pe].
  destruct (ho_endpoints _ _ Hserver q Hty) as (els & Hels & Hans). rewrite Hnames in Hans.
  destruct (apply_endpoints_total _ st els Hels) as (u & st1 & Happ). exists u, st1.
  pose proof Happ as (els' & Hels' & He & Hl & Hr & Hc & _ & Hu)%apply_endpoints_sotw.
  rewrite Hels in Hels'. injection Hels' as <-. rewrite Hsub in He.
  assert (∀ k, ads_endpoints st1 !! k =
    if decide (eds_names wanted = [] ∨ k ∈ eds_names wanted) then wd_endpoints W !! k
    else ads_endpoints st !! k) as He1.
  { intros k. by rewrite He, (answers_sotw _ _ _ _ _ Hans). }
  assert (∀ k, k ∈ eds_names wanted → ads_endpoints st1 !! k = wd_endpoints W !! k) as Hend.
  { intros k Hk. by rewrite He1, decide_True by (by right). }
  constructor.
  - unfold apply_response. rewrite (ho_type _ _ Hserver), Hty.
    by rewrite decide_False, decide_False, decide_False, decide_True.
  - rewrite Hu. unfold follows_next. simpl. auto.
  - constructor; rewrite ?Hl, ?Hr, ?Hc; auto. intros k v. rewrite He1. case_decide; auto.
  - intros ty (H1 & H2 & H3 & H4). unfold settled. by rewrite Hl, Hr, Hc.
  - rewrite Hty. by repeat split.
Qed.

(** *** The session after an honest answer *)

Lemma settled_listeners st : settled LISTENER_TYPE st ↔ ads_listeners st = ads_listeners wanted.
Proof. split; [by intros (H & _); apply H|]. intros H. by repeat split. Qed.

Lemma settled_routes st : settled ROUTE_TYPE st ↔ ads_routes st = ads_routes wanted.
Proof. split; [by intros (_ & H & _); apply H|]. intros H. by repeat split. Qed.

Lemma settled_clusters st : settled CLUSTER_TYPE st ↔ ads_clusters st = ads_clusters wanted.
Proof. split; [by intros (_ & _ & H & _); apply H|]. intros H. by repeat split. Qed.

Lemma settled_endpoints st :
  settled ENDPOINT_TYPE st ↔ ∀ k, k ∈ eds_names wanted → ads_endpoints st !! k = wd_endpoints W !! k.
Proof. split; [by intros (_ & _ & _ & H); apply H|]. intros H. by repeat split. Qed.

(** The subscription of each type after the names of [u] were followed. *)
Lemma updates_for u old :
  latest (updates_subscriptions u) LISTENER_TYPE old = old ∧
  latest (updates_subscriptions u) ROUTE_TYPE old =
    (if decide (du_route_names u = []) then old else Some (du_route_names u)) ∧
  latest (updates_subscriptions u) CLUSTER_TYPE old =
    (if decide (du_cluster_names u = []) then old else Some (du_cluster_names u)) ∧
  latest (updates_subscriptions u) ENDPOINT_TYPE old =
    (if decide (du_eds_names u = []) then old else Some (du_eds_names u)) ∧
  ∀ ty, ty ∉ four_types → latest (updates_subscriptions u) ty old = old.
Proof.
  unfold updates_subscriptions. split_and!; try (by repeat case_decide).
  intros ty Hty. apply latest_absent. intros Hin. apply Hty. clear -Hin.
  repeat case_decide; simpl in Hin; set_solver.
Qed.

Lemma asks_updates u st st1 subs m :
  asks subs st → follows_next u st1 → (∀ ty, settled ty st → settled ty st1) →
  (∀ ty, m !! ty = latest (updates_subscriptions u) ty (subs !! ty)) → asks m st1.
Proof.
  intros [Al Ar Ac Ae At] (Nr & Nc & Ne) Hkept Hm.
  pose proof (λ old, updates_for u old) as Hu.
  constructor.
  - rewrite Hm. by destruct (Hu (subs !! LISTENER_TYPE)) as (-> & _).
  - intros x. rewrite Hm. destruct (Hu (subs !! ROUTE_TYPE)) as (_ & -> & _).
    destruct (decide (du_route_names u = [])) as [Hd|Hd].
    + intros (? & ? & H)%Ar. split_and!; [done..|].
      exact (proj1 (settled_listeners _) (Hkept _ (proj2 (settled_listeners _) H))).
    + intros [= <-]. by destruct Nr as [?|[? ?]].
  - intros x. rewrite Hm. destruct (Hu (subs !! CLUSTER_TYPE)) as (_ & _ & -> & _).
    destruct (decide (du_cluster_names u = [])) as [Hd|Hd].
    + intros (? & ? & H)%Ac. split_and!; [done..|].
      exact (proj1 (settled_routes _) (Hkept _ (proj2 (settled_routes _) H))).
    + intros [= <-]. by destruct Nc as [?|[? ?]].
  - intros x. rewrite Hm. destruct (Hu (subs !! ENDPOINT_TYPE)) as (_ & _ & _ & -> & _).
    destruct (decide (du_eds_names u = [])) as [Hd|Hd].
    + intros (? & ? & H)%Ae. split_and!; [done..|].
      exact (proj1 (settled_clusters _) (Hkept _ (proj2 (settled_clusters _) H))).
    + intros [= <-]. by destruct Ne as [?|[? ?]].
  - intros ty. rewrite Hm. destruct (decide (ty ∈ four_types)) as [|Hty]; [done|].
    destruct (Hu (subs !! ty)) as (_ & _ & _ & _ & H). rewrite (H ty Hty). apply At.
Qed.

Lemma updates_types u old ty :
  ty ∈ (updates_subscriptions u).*1 → is_Some (latest (updates_subscriptions u) ty old).
Proof.
  intros (e & He & Hin)%list_elem_of_fmap. unfold latest.
  destruct (last _) as [x|] eqn:E; [by eexists|]. apply last_None in E.
  assert (e ∈ base.filter (λ e, e.1 = ty) (updates_subscriptions u)) as Hf
    by (by apply list_elem_of_filter). rewrite E in Hf. by apply elem_of_nil in Hf.
Qed.

Lemma served_session q s u st1 :
  converging s → is_Some (ads_subscriptions (ss_ads s) !! dq_type_url q) →
  served q (ss_ads s) u st1 →
  ∃ s', handle_response (node cfg) (server q) s = (Ok tt, s') ∧ converging s' ∧ up_to_date s' ∧
    (∀ ty, settled ty (ss_ads s) → settled ty (ss_ads s')) ∧ settled (dq_type_url q) (ss_ads s').
Proof.
  intros [Hinv Ho Hw Hreq Hasks Hpart] Hq [Happ Hnext Hpart1 Hkept Hset].
  destruct (handle_response_served (node cfg) _ s u st1 Hinv Ho Hw Happ)
    as (s' & m & Hs' & Hinv' & Ha & Hm & Ho' & Hw' & Hreq' & Hpub).
  rewrite (ho_type _ _ Hserver) in Hreq'. rewrite (ho_version _ _ Hserver) in Hpub.
  exists s'. split; [done|]. split; [|split; [exact Hpub|by rewrite Ha]].
  assert (∀ ty, is_Some (ads_subscriptions (ss_ads s) !! ty) → is_Some (m !! ty)) as Hgrow.
  { intros ty H. rewrite Hm, latest_old. by destruct (latest _ _ None). }
  constructor; rewrite ?Ha; simpl; try done.
  - intros ty [H|[->|H]]%Hreq'; [by apply Hgrow, Hreq|by apply Hgrow|].
    rewrite Hm. by apply updates_types.
  - pose proof (asks_updates u _ _ _ m Hasks Hnext Hkept Hm) as [A1 A2 A3 A4 A5]. by constructor.
  - by destruct Hpart1; constructor.
Qed.

Lemma converging_answer s ty q :
  converging s → last_request ty (ss_requests s) = Some q →
  ∃ s', handle_response (node cfg) (server q) s = (Ok tt, s') ∧ converging s' ∧ up_to_date s' ∧
    (∀ ty', settled ty' (ss_ads s) → settled ty' (ss_ads s')) ∧ settled ty (ss_ads s').
Proof.
  intros Hs Hq. pose proof (last_request_is _ _ _ Hq) as Hty.
  destruct (cv_requested _ Hs ty ltac:(by rewrite Hq)) as [names Hsub].
  pose proof (si_requests _ (cv_inv _ Hs) ty names Hsub) as Hnames.
  rewrite Hq in Hnames. injection Hnames as Hnames.
  assert (subscription ty (ss_ads s) = names) as Hsub' by (unfold subscription; by rewrite Hsub).
  assert (∃ u st1, served q (ss_ads s) u st1) as (u & st1 & Hserved).
  { destruct Hs as [_ _ _ _ [Al Ar Ac Ae At] Hpart].
    pose proof (At ty ltac:(by rewrite Hsub)) as Hin.
    unfold four_types in Hin. rewrite !elem_of_cons, elem_of_nil in Hin.
    destruct Hin as [-> |[-> |[-> |[-> |[]]]]].
    - rewrite Al in Hsub. injection Hsub as <-. by apply served_listeners.
    - destruct (Ar _ Hsub) as (? & -> & ?). by apply served_routes.
    - destruct (Ac _ Hsub) as (? & -> & ?). by apply served_clusters.
    - destruct (Ae _ Hsub) as (? & -> & ?). by apply served_endpoints. }
  rewrite <- Hty. apply (served_session q s u st1); [done| |done]. by rewrite Hty, Hsub.
Qed.

(** A type that was never requested, when the kind before it is known: nothing is
    to be asked. *)
Lemma unrequested_routes s :
  converging s → last_request ROUTE_TYPE (ss_requests s) = None →
  settled LISTENER_TYPE (ss_ads s) → settled ROUTE_TYPE (ss_ads s).
Proof.
  intros Hs Hq Hl%settled_listeners. apply settled_routes.
  destruct (si_routes _ (cv_inv _ Hs)) as [Hnil|Hsub].
  - rewrite (route_names_of _ _ Hl) in Hnil. rewrite wanted_routes, Hnil, listed_nil.
    destruct (pa_routes _ (cv_partial _ Hs)) as [?|H]; [done|].
    by rewrite H, wanted_routes, Hnil, listed_nil.
  - pose proof (si_requests _ (cv_inv _ Hs) _ _ Hsub) as H. by rewrite Hq in H.
Qed.

Lemma unrequested_clusters s :
  converging s → last_request CLUSTER_TYPE (ss_requests s) = None →
  settled ROUTE_TYPE (ss_ads s) → settled CLUSTER_TYPE (ss_ads s).
Proof.
  intros Hs Hq Hl%settled_routes. apply settled_clusters.
  destruct (si_clusters _ (cv_inv _ Hs)) as [Hnil|Hsub].
  - rewrite (cluster_names_of_routes _ _ Hl) in Hnil. rewrite wanted_clusters, Hnil, listed_nil.
    destruct (pa_clusters _ (cv_partial _ Hs)) as [?|H]; [done|].
    by rewrite H, wanted_clusters, Hnil, listed_nil.
  - pose proof (si_requests _ (cv_inv _ Hs) _ _ Hsub) as H. by rewrite Hq in H.
Qed.

Lemma unrequested_endpoints s :
  converging s → last_request ENDPOINT_TYPE (ss_requests s) = None →
  settled CLUSTER_TYPE (ss_ads s) → settled ENDPOINT_TYPE (ss_ads s).
Proof.
  intros Hs Hq Hl%settled_clusters. apply settled_endpoints. intros k Hk.
  destruct (si_eds _ (cv_inv _ Hs)) as [Hnil|Hsub].
  - rewrite (eds_names_of _ _ Hl) in Hnil. rewrite Hnil in Hk. by apply elem_of_nil in Hk.
  - pose proof (si_requests _ (cv_inv _ Hs) _ _ Hsub) as H. by rewrite Hq in H.
Qed.

Lemma requested_listeners s : converging s → is_Some (last_request LISTENER_TYPE (ss_requests s)).
Proof.
  intros Hs. pose proof (si_requests _ (cv_inv _ Hs) _ _ (as_listeners _ _ (cv_asks _ Hs))) as H.
  by destruct (last_request _ _).
Qed.

(** The four kinds in the order in which each can be asked for. *)
Lemma unrequested_settled s ty before after :
  converging s → four_types = before ++ ty :: after → last_request ty (ss_requests s) = None →
  (∀ ty', ty' ∈ before → settled ty' (ss_ads s)) → settled ty (ss_ads s).
Proof.
  intros Hs Hsplit Hq Hbefore. pose proof (requested_listeners s Hs) as Hl.
  destruct before as [|t1 [|t2 [|t3 [|t4 before]]]]; injection Hsplit; intros; subst.
  - by rewrite Hq in Hl; destruct Hl.
  - apply unrequested_routes; [done..|]. apply Hbefore. by left.
  - apply unrequested_clusters; [done..|]. apply Hbefore. by right; left.
  - apply unrequested_endpoints; [done..|]. apply Hbefore. by right; right; left.
  - by destruct before.
Qed.

(** *** The exchange *)

Lemma serve_settles tys s before after :
  converging s → four_types = before ++ after → after `sublist_of` tys →
  (∀ ty, ty ∈ before → settled ty (ss_ads s)) → before = [] ∨ up_to_date s →
  ∃ s', serve server (node cfg) tys s = (Ok tt, s') ∧ converging s' ∧ up_to_date s' ∧
    ∀ ty, ty ∈ four_types → settled ty (ss_ads s').
Proof.
  intros Hs Hsplit Hsub. revert s before Hs Hsplit.
  induction Hsub as [|ty after tys Hsub IH|ty after tys Hsub IH]; intros s before Hs Hsplit Hb Hup.
  - rewrite app_nil_r in Hsplit. subst before. exists s. destruct Hup as [|Hup]; [done|]. done.
  - simpl. destruct (last_request ty (ss_requests s)) as [q|] eqn:Hq.
    + destruct (converging_answer s ty q Hs Hq) as (s1 & -> & Hs1 & Hu & Hkept & Hset).
      apply (IH s1 (before ++ [ty])); [done|by rewrite <- app_assoc| |by right].
      intros ty' [Hin|Hin%list_elem_of_singleton]%elem_of_app; subst; auto.
    + pose proof (unrequested_settled s ty before after Hs Hsplit Hq Hb) as Hset.
      apply (IH s (before ++ [ty])); [done|by rewrite <- app_assoc| |].
      * intros ty' [Hin|Hin%list_elem_of_singleton]%elem_of_app; subst; auto.
      * right. destruct Hup as [-> |]; [|done]. injection Hsplit as <- _.
        pose proof (requested_listeners s Hs) as Hl. rewrite Hq in Hl. by destruct Hl.
  - simpl. destruct (last_request ty (ss_requests s)) as [q|] eqn:Hq.
    + destruct (converging_answer s ty q Hs Hq) as (s1 & -> & Hs1 & Hu & Hkept & _).
      apply (IH s1 before); auto.
    + by apply (IH s before).
Qed.

Lemma fresh_converging w : w_receivers w = true → converging (fresh_session cfg w).
Proof.
  intros Hw. pose proof (fresh_session_inv cfg w) as Hinv.
  assert (set_subscription LISTENER_TYPE asked ads_default =
    (true, set_subscriptions {[LISTENER_TYPE := asked]} ads_default)) as Hsub.
  { unfold set_subscription, asked. rewrite sorted_unique_idem. by case_decide. }
  unfold fresh_session, start_session in *. change (sorted_unique (xc_listener_names cfg)) with asked in *.
  rewrite Hsub in *.
  constructor; simpl; [done..| | |].
  - intros ty. rewrite last_request_type. simpl. rewrite list_elem_of_singleton. intros ->.
    by rewrite lookup_singleton_eq.
  - constructor; simpl; [apply lookup_singleton_eq|..].
    + intros x. by rewrite lookup_singleton_ne.
    + intros x. by rewrite lookup_singleton_ne.
    + intros x. by rewrite lookup_singleton_ne.
    + intros ty. rewrite lookup_singleton. case_decide; [subst; intros _; by left|]. by intros [].
  - constructor; simpl; [by left..|]. intros k v. by rewrite lookup_empty.
Qed.

Lemma settled_config s :
  (∀ ty, ty ∈ four_types → settled ty (ss_ads s)) →
  runtime_config (wd_version W) (ss_ads s) = runtime_config (wd_version W) wanted.
Proof.
  intros Hall.
  pose proof (proj1 (settled_listeners _) (Hall LISTENER_TYPE ltac:(by left))) as Hl.
  pose proof (proj1 (settled_routes _) (Hall ROUTE_TYPE ltac:(by right; left))) as Hr.
  pose proof (proj1 (settled_clusters _) (Hall CLUSTER_TYPE ltac:(by right; right; left))) as Hc.
  pose proof (proj1 (settled_endpoints _) (Hall ENDPOINT_TYPE ltac:(by right; right; right; left))) as He.
  unfold runtime_config. rewrite Hl, Hc. f_equal.
  - apply list_fmap_ext. intros _ l _. unfold snapshot_listener. by rewrite Hr.
  - apply list_fmap_ext. intros i c Hi%list_elem_of_lookup_2. unfold snapshot_cluster. f_equal. f_equal.
    assert (cs_eds_service_name c ∈ eds_names wanted) as Hk.
    { unfold eds_names. rewrite elem_of_sorted_unique. by apply list_elem_of_fmap_2. }
    rewrite He by done. change (ads_endpoints wanted) with (listed (eds_names wanted) (wd_endpoints W)).
    by rewrite lookup_listed, decide_True.
Qed.

(** The exchange of a new connection. *)
Lemma serve_fresh w tys :
  w_receivers w = true → four_types `sublist_of` tys →
  ∃ s, serve server (node cfg) tys (fresh_session cfg w) = (Ok tt, s) ∧
    rq_open (ss_requests s) = true ∧
    runtime_config (wd_version W) (ss_ads s) = runtime_config (wd_version W) wanted ∧
    (validate (runtime_config (wd_version W) wanted) = Ok tt →
     watch_value (ss_watch s) = runtime_config (wd_version W) wanted).
Proof.
  intros Hw Hsub.
  destruct (serve_settles tys (fresh_session cfg w) [] four_types) as (s & Hs & Hc & Hup & Hall);
    [by apply fresh_converging|done..| |by left|].
  { intros ty Hty. by apply elem_of_nil in Hty. }
  pose proof (settled_config s Hall) as Hcfg. exists s.
  split; [done|]. split; [apply (cv_open _ Hc)|]. split; [done|].
  unfold up_to_date in Hup. by rewrite Hcfg in Hup.
Qed.

End converge.

(** ** Convergence *)

(** C13: The client ends up with the configuration of the control plane. On a new
    connection to a server that answers each request by what it holds, whatever was
    published before, in whatever order and however often the requests are answered,
    every answer is taken; and once the answers have come round as listeners,
    routes, clusters, endpoints, the state amounts to the listeners asked for with
    the routes, clusters and endpoints the server holds for them, and that, if it is
    consistent, is what has been published. *)
Theorem serve_converges {P : ProstLib} server W cfg w tys :
  honest server W → w_receivers w = true →
  [LISTENER_TYPE; ROUTE_TYPE; CLUSTER_TYPE; ENDPOINT_TYPE] `sublist_of` tys →
  let full := runtime_config (wd_version W) (target W (sorted_unique (xc_listener_names cfg))) in
  ∃ s, serve server (node cfg) tys (fresh_session cfg w) = (Ok tt, s) ∧
    runtime_config (wd_version W) (ss_ads s) = full ∧
    (validate full = Ok tt → watch_value (ss_watch s) = full).
Proof.
  intros Hserver Hw Htys.
  destruct (serve_fresh server W Hserver cfg w tys Hw Htys) as (s & Hs & _ & Hcfg & Hpub).
  by exists s.
Qed.

(** *** A control plane with one listener and one service *)

Definition example_server (q : DiscoveryRequest) : DiscoveryResponse :=
  let ty := dq_type_url q in
  let holds name bytes :=
    if decide (dq_resource_names q = [] ∨ name ∈ dq_resource_names q) then [bytes] else [] in
  example_response ty "v1" "n1"
    (if decide (ty = LISTENER_TYPE) then holds "0.0.0.0:80" "listener"
     else if decide (ty = ROUTE_TYPE) then holds "http.80" "routes"
     else if decide (ty = CLUSTER_TYPE) then holds "orders" "cluster"
     else if decide (ty = ENDPOINT_TYPE) then holds "orders" "endpoints"
     else []).

Definition example_world : World :=
  {| wd_version := "v1";
     wd_listeners := {["0.0.0.0:80" := example_rds_snapshot]};
     wd_routes := {["http.80" := convert_virtual_hosts [example_pb_vhost]]};
     wd_clusters := {["orders" := {| cs_name := "orders"; cs_eds_service_name := "orders";
                                     cs_tls := None |}]};
     wd_endpoints := {["orders" := endpoints_from_assignment example_pb_assignment]} |}.

Lemma answers_one {V} names k0 (v : V) :
  answers names (if decide (names = [] ∨ k0 ∈ names) then [(k0, v)] else []) {[k0 := v]}.
Proof.
  intros k. destruct (decide (names = [] ∨ k0 ∈ names)) as [H|H].
  - rewrite latest_cons, latest_nil. destruct (decide (k0 = k)) as [<-|Hne].
    + by rewrite decide_True, lookup_singleton_eq.
    + rewrite lookup_singleton_ne by done. by case_decide.
  - rewrite latest_nil. case_decide as Hk; [|done].
    rewrite lookup_singleton_ne; [done|]. intros <-. done.
Qed.

Lemma example_server_honest : honest (P := example_prost) example_server example_world.
Proof.
  constructor; [done|done|..]; intros q Hq; unfold example_server; rewrite Hq.
  - pose proof (answers_one (dq_resource_names q) "0.0.0.0:80" example_rds_snapshot) as H.
    rewrite (decide_True (P := LISTENER_TYPE = LISTENER_TYPE)) by done.
    destruct (decide (_ ∨ _)); [exists [example_rds_snapshot]|exists []];
      (split; [vm_compute; reflexivity|exact H]).
  - pose proof (answers_one (dq_resource_names q) "http.80"
      (convert_virtual_hosts [example_pb_vhost])) as H.
    rewrite (decide_False (P := ROUTE_TYPE = LISTENER_TYPE)), (decide_True (P := ROUTE_TYPE = ROUTE_TYPE))
      by done.
    destruct (decide (_ ∨ _)); [exists [example_route_configuration]|exists []];
      (split; [vm_compute; reflexivity|exact H]).
  - pose proof (answers_one (dq_resource_names q) "orders"
      {| cs_name := "orders"; cs_eds_service_name := "orders"; cs_tls := None |}) as H.
    rewrite (decide_False (P := CLUSTER_TYPE = LISTENER_TYPE)),
      (decide_False (P := CLUSTER_TYPE = ROUTE_TYPE)), (decide_True (P := CLUSTER_TYPE = CLUSTER_TYPE))
      by done.
    destruct (decide (_ ∨ _)); [exists [example_pb_cluster]|exists []];
      (split; [vm_compute; reflexivity|split; [exact H|]]); intros k v Hkv; by apply elem_of_nil in Hkv.
  - pose proof (answers_one (dq_resource_names q) "orders"
      (endpoints_from_assignment example_pb_assignment)) as H.
    rewrite (decide_False (P := ENDPOINT_TYPE = LISTENER_TYPE)),
      (decide_False (P := ENDPOINT_TYPE = ROUTE_TYPE)),
      (decide_False (P := ENDPOINT_TYPE = CLUSTER_TYPE)),
      (decide_True (P := ENDPOINT_TYPE = ENDPOINT_TYPE)) by done.
    destruct (decide (_ ∨ _)); [exists [example_pb_assignment]|exists []];
      (split; [vm_compute; reflexivity|exact H]).
Qed.

(** The endpoints are asked for too early and the listeners twice. *)
Definition example_schedule : list string :=
  [ENDPOINT_TYPE; LISTENER_TYPE; LISTENER_TYPE; ROUTE_TYPE; LISTENER_TYPE; CLUSTER_TYPE; ENDPOINT_TYPE].

Lemma serve_converges_witness :
  ∃ s, serve (P := example_prost) example_server (node example_client) example_schedule
         (fresh_session example_client example_watch) = (Ok tt, s) ∧
    watch_value (ss_watch s) = runtime_config "v1" (target example_world ["0.0.0.0:80"]).
Proof.
  destruct (serve_converges (P := example_prost) example_server example_world example_client
    example_watch example_schedule example_server_honest) as (s & Hs & _ & Hpub).
  - reflexivity.
  - unfold example_schedule. repeat constructor.
  - exists s. split; [exact Hs|]. apply Hpub. vm_compute. reflexivity.
Defined.
