(* ===== verification/XdsTyped.v ===== *)
(** * The numbers of what comes from the control plane

    The Rust types of a configuration bound its numbers: a port is a [u16], a weight
    a [u32]. In the model they are in [Z], and the messages carry ports as [u32]. Here:
    whatever messages arrive, the numbers of the configuration assembled from them are in
    range, given that the decoder yields [uint32] values in range, which is the law
    [ProstLaws]; and every port is one that a message gave, unchanged: a port that does
    not fit is passed over, not cut to its low bits. With it the theorems about machine
    arithmetic apply to every published configuration. *)

From S2P Require Import Prelude RustString BTree Net Config ProxyState.
From S2P Require Import XdsProto XdsConvert AdsState XdsClient.

(** ** Typed messages *)

(** The weights of the routes are [uint32]. *)
Definition pb_vhosts_typed (vhosts : list PbVirtualHost) : Prop :=
  ∀ vh pr action weighted cw z, vh ∈ vhosts → pr ∈ pvh_routes vh →
    pr_action pr = Some (ActRoute action) →
    ra_cluster_specifier action = Some (CsWeightedClusters weighted) →
    cw ∈ pwc_clusters weighted → cw_weight cw = Some z → fits 32 z.

(** The ports of the endpoints are [uint32]. *)
Definition assignment_typed (a : PbClusterLoadAssignment) : Prop :=
  ∀ loc lb e, loc ∈ cla_endpoints a → lb ∈ loc_lb_endpoints loc →
    lb_host_identifier lb = Some (HiEndpoint e) → port_ok (pe_address e).

(** What [prost] promises of the fields declared [uint32]. *)
Class ProstLaws (P : ProstLib) : Prop := {
  routes_uint32 bytes rc :
    decode_PbRouteConfiguration bytes = Ok rc → pb_vhosts_typed (prc_virtual_hosts rc);
  hcm_uint32 bytes hcm rc :
    decode_PbHttpConnectionManager bytes = Ok hcm →
    hcm_route_specifier hcm = Some (RsRouteConfig rc) → pb_vhosts_typed (prc_virtual_hosts rc);
  listener_uint32 bytes l : decode_PbListener bytes = Ok l → port_ok (pl_address l);
  assignment_uint32 bytes a : decode_PbClusterLoadAssignment bytes = Ok a → assignment_typed a;
  cluster_uint32 bytes c a :
    decode_PbCluster bytes = Ok c → pc_load_assignment c = Some a → assignment_typed a }.

(** ** Where ports come from *)

(** [address] holds the socket address of [host] and the number [port], whatever its
    size. *)
Definition names_socket (address : option PbAddress) (host : string) (port : Z) : Prop :=
  ∃ a s, address = Some a ∧ addr_address a = Some (AddrSocketAddress s) ∧
    sa_address s = host ∧ sa_port_specifier s = Some (PortValue port).

(** The port of a listener is the one its address holds; if that holds none, or one too
    big, it is the number after the last colon of the name, and if there is none, 80. *)
Definition listener_port_of (l : PbListener) (port : Z) : Prop :=
  (∃ host, names_socket (pl_address l) host port) ∨
  ((∀ host p, names_socket (pl_address l) host p → 2 ^ 16 ≤ p) ∧
   ((∃ host text, rsplit_once ":" (pl_name l) = Some (host, text) ∧ parse_u16 text = Some port) ∨
    port = 80)).

Definition endpoint_of (a : PbClusterLoadAssignment) (ep : Endpoint) : Prop :=
  ∃ loc lb e, loc ∈ cla_endpoints a ∧ lb ∈ loc_lb_endpoints loc ∧
    lb_host_identifier lb = Some (HiEndpoint e) ∧
    names_socket (pe_address e) (ep_address ep) (ep_port ep).

Section received.
Context {P : ProstLib} (K : DiscoveryResponse → Prop).

(** What came with one of the responses [K]: a listener, a load assignment, on its own or
    inside a cluster. *)
Definition came_listener (l : PbListener) : Prop :=
  ∃ resp res, K resp ∧ dr_type_url resp = LISTENER_TYPE ∧ res ∈ dr_resources resp ∧
    decode_PbListener (any_value res) = Ok l.

Definition came_assignment (a : PbClusterLoadAssignment) : Prop :=
  ∃ resp res, K resp ∧ res ∈ dr_resources resp ∧
    ((dr_type_url resp = ENDPOINT_TYPE ∧ decode_PbClusterLoadAssignment (any_value res) = Ok a) ∨
     (dr_type_url resp = CLUSTER_TYPE ∧ ∃ c, decode_PbCluster (any_value res) = Ok c ∧
        pc_load_assignment c = Some a)).

End received.

(** ** Typed configurations *)

Definition vhosts_typed (vhs : list VirtualHost) : Prop :=
  ∀ vh r, vh ∈ vhs → r ∈ vh_routes vh → weights_fit (r_weighted_clusters r).

Definition endpoints_typed (eps : list Endpoint) : Prop := Forall (λ ep, fits 16 (ep_port ep)) eps.

(** Every number is in the range of its Rust type. *)
Record config_typed (cfg : RuntimeConfig) : Prop := {
  ct_ports l : l ∈ rc_listeners cfg → fits 16 (addr_port (l_bind l));
  ct_weights l h r : has_route cfg l h r → weights_fit (r_weighted_clusters r);
  ct_endpoints c : c ∈ rc_clusters cfg → endpoints_typed (c_endpoints c) }.

(** The same of the state of a stream, and that its ports are those of the responses [K]. *)
Definition snapshot_typed {P : ProstLib} (K : DiscoveryResponse → Prop) (s : ListenerSnapshot)
    : Prop :=
  fits 16 (addr_port (l_bind (ls_listener s))) ∧ vhosts_typed (ls_inline_virtual_hosts s) ∧
  ∃ l, came_listener K l ∧ pl_name l = l_name (ls_listener s) ∧
    listener_port_of l (addr_port (l_bind (ls_listener s))).

Definition endpoints_from {P : ProstLib} (K : DiscoveryResponse → Prop) (eps : list Endpoint)
    : Prop :=
  endpoints_typed eps ∧ ∀ ep, ep ∈ eps → ∃ a, came_assignment K a ∧ endpoint_of a ep.

Record ads_typed {P : ProstLib} (K : DiscoveryResponse → Prop) (st : AdsState) : Prop := {
  at_listeners k s : ads_listeners st !! k = Some s → snapshot_typed K s;
  at_routes k vhs : ads_routes st !! k = Some vhs → vhosts_typed vhs;
  at_endpoints k eps : ads_endpoints st !! k = Some eps → endpoints_from K eps }.

(** ** Conversions *)

Lemma convert_virtual_hosts_typed vhosts :
  pb_vhosts_typed vhosts → vhosts_typed (convert_virtual_hosts vhosts).
Proof.
  intros Ht vh r (pvh & -> & Hvh)%list_elem_of_fmap. simpl.
  intros (pr & Hpr & Hr)%list_elem_of_omap. unfold convert_route in Hr.
  destruct (pr_action pr) as [[action|]|] eqn:Ea; simpl in Hr; [|done..].
  assert (weights_fit (convert_route_action action)) as Hw.
  { unfold convert_route_action. destruct (ra_cluster_specifier action) as [[n|w]|] eqn:Es;
      [case_decide; [constructor|by repeat constructor]| |constructor].
    apply Forall_fmap, Forall_forall. intros cw [Hcw _]%elem_of_bfilter. simpl.
    destruct (cw_weight cw) as [z|] eqn:Ez; [|done]. by eapply Ht. }
  destruct (convert_route_action action) as [|d ds]; [done|].
  destruct (pr_match pr) as [pm|]; [destruct (convert_route_match pm)|]; simpl in Hr;
    by simplify_eq.
Qed.

Lemma socket_address_names address host port :
  socket_address address = Some (host, port) → names_socket address host port.
Proof.
  unfold socket_address. destruct address as [a|]; [|done]. simpl.
  destruct (addr_address a) as [[s|pp]|] eqn:Ea; [|done..].
  destruct (sa_port_specifier s) as [[p]|] eqn:Ep; [|done].
  destruct (p <? 2 ^ 16); [|done]. intros [= <- <-]. by exists a, s.
Qed.

Lemma socket_address_none address host port :
  socket_address address = None → names_socket address host port → 2 ^ 16 ≤ port.
Proof.
  intros Hn (a & s & -> & Ea & _ & Ep). unfold socket_address in Hn. simpl in Hn.
  rewrite Ea, Ep in Hn. destruct (Z.ltb_spec port (2 ^ 16)); done.
Qed.

Lemma listener_port_from l : listener_port_of l (default 80 (listener_port l)).
Proof.
  unfold listener_port. destruct (socket_address (pl_address l)) as [[host port]|] eqn:Es.
  { left. exists host. by apply socket_address_names. }
  right. split; [intros host p; by apply socket_address_none|].
  destruct (rsplit_once ":" (pl_name l)) as [[host text]|] eqn:Er; simpl; [|by right].
  destruct (parse_u16 text) as [z|] eqn:Ez; simpl; [left|by right]. by exists host, text.
Qed.

Lemma endpoints_from_assignment_of a ep :
  ep ∈ endpoints_from_assignment a → endpoint_of a ep.
Proof.
  unfold endpoints_from_assignment. rewrite sort_endpoints_perm.
  intros (loc & Hloc & (lb & Hlb & Hep)%list_elem_of_omap)%elem_of_flat_map.
  unfold lb_endpoint in Hep. destruct (lb_host_identifier lb) as [[e|n]|] eqn:Eh; [|done..].
  destruct (socket_address (pe_address e)) as [[addr port]|] eqn:Es; [|done].
  injection Hep as <-. exists loc, lb, e. split_and!; [done..|]. by apply socket_address_names.
Qed.

Lemma endpoints_from_assignment_typed a :
  assignment_typed a → endpoints_typed (endpoints_from_assignment a).
Proof.
  intros Ht. unfold endpoints_from_assignment, endpoints_typed. rewrite sort_endpoints_perm.
  apply Forall_forall. intros ep (loc & Hloc & Hep)%elem_of_flat_map.
  apply list_elem_of_omap in Hep as (lb & Hlb & Hep). unfold lb_endpoint in Hep.
  destruct (lb_host_identifier lb) as [[e|n]|] eqn:Eh; [|done..].
  destruct (socket_address (pe_address e)) as [[addr port]|] eqn:Es; [|done].
  injection Hep as <-. simpl. eapply socket_address_port; [|done]. by eapply Ht.
Qed.

Lemma listener_port_typed l : port_ok (pl_address l) → fits 16 (default 80 (listener_port l)).
Proof.
  intros Hl. unfold listener_port.
  destruct (socket_address (pl_address l)) as [[addr port]|] eqn:Es; simpl.
  { by eapply socket_address_port. }
  destruct (rsplit_once ":" (pl_name l)) as [[host port]|]; simpl; [|by vm_compute].
  destruct (parse_u16 port) as [z|] eqn:Ez; simpl; [by eapply parse_u16_fits|by vm_compute].
Qed.

Section typed.
Context {P : ProstLib} {HP : ProstLaws P}.

Lemma decode_resource_inv {A} (dec : string → result A string) ty res x :
  decode_resource dec ty res = Ok x → dec (any_value res) = Ok x.
Proof. unfold decode_resource. destruct (dec _); [|done]. by intros [= ->]. Qed.

(** The managers of a listener come from the decoder. *)
Lemma filter_managers_decoded fs hcms :
  filter_managers fs = Ok hcms →
  Forall (λ hcm, ∃ b, decode_PbHttpConnectionManager b = Ok hcm) hcms.
Proof.
  revert hcms. induction fs as [|f fs IH]; intros hcms; simpl; [by intros [= <-]|].
  destruct (pf_config_type f) as [[a]|]; [|apply IH].
  destruct (is_http_connection_manager _ _); [|apply IH].
  destruct (decode_hcm a) as [m|] eqn:Em; [|done].
  destruct (filter_managers fs) as [ms|]; [|done]. intros [= <-].
  constructor; [|by apply IH]. eexists. by eapply decode_resource_inv.
Qed.

Lemma managers_decoded l hcms :
  http_connection_managers l = Ok hcms →
  Forall (λ hcm, ∃ b, decode_PbHttpConnectionManager b = Ok hcm) hcms.
Proof.
  unfold http_connection_managers. intros H.
  destruct (filter_managers _) as [rest|] eqn:Er;
    [|destruct (pl_api_listener l ≫= al_api_listener); [destruct (decode_hcm a)|]; done].
  apply filter_managers_decoded in Er.
  destruct (pl_api_listener l ≫= al_api_listener) as [a|]; [|by injection H as <-].
  destruct (decode_hcm a) as [m|] eqn:Em; [|done]. injection H as <-.
  constructor; [|done]. eexists. by eapply decode_resource_inv.
Qed.

Lemma snapshot_routes_typed hcms st :
  Forall (λ hcm, ∃ b, decode_PbHttpConnectionManager b = Ok hcm) hcms →
  vhosts_typed st.2 → vhosts_typed (fold_left snapshot_routes hcms st).2.
Proof.
  intros Hd. revert st. induction Hd as [|hcm hcms [b Hb] _ IH]; intros [names inline] Hst; [done|].
  simpl. apply IH. unfold snapshot_routes.
  destruct (hcm_route_specifier hcm) as [[rds|rc]|] eqn:E; [done| |done]. simpl.
  intros vh r [Hvh|Hvh]%elem_of_app; [by apply Hst|].
  eapply convert_virtual_hosts_typed; [|done]. by eapply hcm_uint32.
Qed.

Lemma listener_snapshot_typed K res l s :
  came_listener K l → decode_resource decode_PbListener LISTENER_TYPE res = Ok l →
  listener_snapshot l = Ok s → snapshot_typed K s.
Proof.
  intros HK Hl%decode_resource_inv%listener_uint32. unfold listener_snapshot.
  destruct (http_connection_managers l) as [hcms|] eqn:Eh; [|done].
  apply managers_decoded in Eh.
  pose proof (snapshot_routes_typed hcms ([], []) Eh) as Hv. simpl in Hv.
  destruct (fold_left snapshot_routes hcms ([], [])) as [names inline].
  intros [= <-]. split; [by apply listener_port_typed|]. split.
  - apply Hv. by intros vh r ?%elem_of_nil.
  - exists l. split_and!; [done..|]. apply listener_port_from.
Qed.

Lemma endpoints_from_typed (K : DiscoveryResponse → Prop) a :
  came_assignment K a → assignment_typed a → endpoints_from K (endpoints_from_assignment a).
Proof.
  intros HK Ha. split; [by apply endpoints_from_assignment_typed|].
  intros ep Hep. exists a. split; [done|]. by apply endpoints_from_assignment_of.
Qed.

(** ** The state *)

Lemma insert_typed {V} (Q : V → Prop) (m : gmap string V) k v :
  Q v → (∀ k v, m !! k = Some v → Q v) → ∀ k' v', <[k := v]> m !! k' = Some v' → Q v'.
Proof.
  intros Hv Hm k' v'. rewrite lookup_insert. case_decide; [by intros [= <-]|apply Hm].
Qed.

(** The responses [K] include the one that is applied. *)
Section applied.
Context (K : DiscoveryResponse → Prop) (resp : DiscoveryResponse) (HK : K resp).

Lemma apply_listener_typed res st :
  dr_type_url resp = LISTENER_TYPE → res ∈ dr_resources resp → ads_typed K st →
  ads_typed K (apply_listener res st).2.
Proof.
  intros Hty Hin [Hl Hr He]. unfold apply_listener.
  destruct (decode_resource _ _ _) as [l|] eqn:El; [|by constructor].
  destruct (listener_snapshot l) as [s|] eqn:Es; [|by constructor].
  assert (came_listener K l) as Hcame
    by (exists resp, res; split_and!; [done..|]; by eapply decode_resource_inv).
  constructor; simpl; [|done..]. intros k s'.
  by apply (insert_typed (snapshot_typed K)); [eapply listener_snapshot_typed|].
Qed.

Lemma apply_route_typed res st : ads_typed K st → ads_typed K (apply_route res st).2.
Proof.
  intros [Hl Hr He]. unfold apply_route.
  destruct (decode_resource _ _ _) as [rc|] eqn:E; [|by constructor].
  apply decode_resource_inv, routes_uint32, convert_virtual_hosts_typed in E.
  constructor; simpl; [done| |done]. by apply (insert_typed vhosts_typed).
Qed.

Lemma apply_cluster_typed res st :
  dr_type_url resp = CLUSTER_TYPE → res ∈ dr_resources resp → ads_typed K st →
  ads_typed K (apply_cluster res st).2.
Proof.
  intros Hty Hin [Hl Hr He]. unfold apply_cluster.
  destruct (decode_resource _ _ _) as [c|] eqn:E; [|by constructor].
  apply decode_resource_inv in E. case_decide; [by constructor|].
  destruct (pc_load_assignment c) as [a|] eqn:Ea; [|by constructor].
  assert (endpoints_from K (endpoints_from_assignment a)) as Ha.
  { apply endpoints_from_typed; [|by eapply cluster_uint32].
    exists resp, res. split_and!; [done..|]. right. split; [done|]. by exists c. }
  constructor; simpl; [done..|]. by apply (insert_typed (endpoints_from K)).
Qed.

Lemma apply_endpoint_typed res st :
  dr_type_url resp = ENDPOINT_TYPE → res ∈ dr_resources resp → ads_typed K st →
  ads_typed K (apply_endpoint res st).2.
Proof.
  intros Hty Hin [Hl Hr He]. unfold apply_endpoint.
  destruct (decode_resource _ _ _) as [a|] eqn:E; [|by constructor].
  apply decode_resource_inv in E. case_decide; [by constructor|].
  assert (endpoints_from K (endpoints_from_assignment a)) as Ha.
  { apply endpoints_from_typed; [|by eapply assignment_uint32].
    exists resp, res. split_and!; [done..|]. by left. }
  constructor; simpl; [done..|]. by apply (insert_typed (endpoints_from K)).
Qed.

Lemma apply_response_typed st : ads_typed K st → ads_typed K (apply_response resp st).2.
Proof.
  apply apply_response_ind;
    [..|apply apply_listener_typed|intros res st0 _ _; apply apply_route_typed
    |apply apply_cluster_typed|apply apply_endpoint_typed];
    intros st0 names [Hl Hr He]; constructor; simpl; try done.
  - intros k s Hk%lookup_prune_Some. by apply (Hl k).
  - intros k v Hk%lookup_prune_Some. by eapply Hr.
  - intros k v Hk%lookup_prune_Some. by eapply He.
Qed.

End applied.

(** The responses among the operations of a stream. *)
Definition received (ops : list ads_op) (resp : DiscoveryResponse) : Prop := AdsApply resp ∈ ops.

Lemma run_ads_typed K ops st :
  (∀ resp, received ops resp → K resp) → ads_typed K st → ads_typed K (run_ads ops st).
Proof.
  revert st. induction ops as [|[resp|ty names] ops IH]; intros st HK Hst; simpl; [done| |];
    (apply IH; [intros r Hr; apply HK; by right|]).
  - apply apply_response_typed; [|done]. apply HK. by left.
  - unfold set_subscription. case_decide; [done|]. by destruct Hst.
Qed.

Lemma runtime_config_typed K v st : ads_typed K st → config_typed (runtime_config v st).
Proof.
  intros [Hl Hr He]. constructor.
  - intros l (k & s & Hk & ->)%runtime_config_listener. by apply (Hl k).
  - intros l h r (Hin & Hh & Hroute). apply runtime_config_listener in Hin as (k & s & Hk & ->).
    simpl in Hh. apply snapshot_vhosts_elem in Hh as [Hh|(n & _ & vhosts & Hn & Hh)].
    + by eapply (Hl k).
    + by eapply Hr.
  - simpl. intros c (cs & -> & _)%list_elem_of_fmap. simpl.
    destruct (ads_endpoints st !! cs_eds_service_name cs) as [eps|] eqn:E; simpl; [|constructor].
    by eapply He.
Qed.

Lemma run_ads_default_typed ops : ads_typed (received ops) (run_ads ops ads_default).
Proof. apply run_ads_typed; [done|]. by constructor. Qed.

End typed.

(** ** Properties *)

(** C25: The ports of a configuration assembled from an ADS stream are those of the
    messages. Whatever was received, each listener has the name of a listener that was
    received and the very port number its address holds, or, if it holds none or one beyond
    16 bits, the number that ends its name, or 80; and each endpoint of a cluster has the
    address and the very port number of an endpoint in a load assignment that was received,
    on its own or inside a cluster. A port beyond 16 bits is never cut to its low bits: all
    ports are 16-bit and all weights 32-bit numbers. *)
Theorem ads_config_typed {P : ProstLib} {HP : ProstLaws P} ops version :
  let cfg := runtime_config version (run_ads ops ads_default) in
  (∀ l, l ∈ rc_listeners cfg → ∃ pl, came_listener (received ops) pl ∧ pl_name pl = l_name l ∧
     listener_port_of pl (addr_port (l_bind l))) ∧
  (∀ c ep, c ∈ rc_clusters cfg → ep ∈ c_endpoints c →
     ∃ a, came_assignment (received ops) a ∧ endpoint_of a ep) ∧
  config_typed cfg.
Proof.
  intros cfg. pose proof (run_ads_default_typed ops) as Hst. split_and!.
  - intros l (k & s & Hk & ->)%runtime_config_listener. by apply (at_listeners _ _ Hst k s).
  - intros c ep (cs & -> & _)%list_elem_of_fmap. simpl.
    destruct (ads_endpoints _ !! cs_eds_service_name cs) as [eps|] eqn:E; simpl;
      [|by intros ?%elem_of_nil]. by apply (at_endpoints _ _ Hst _ _ E).
  - by eapply runtime_config_typed.
Qed.

(** The decoder of the examples obeys the law. *)
Lemma only_inv {A} bytes (msg : A) s x : only bytes msg s = Ok x → x = msg.
Proof. unfold only. case_decide; [|done]. by intros [= <-]. Qed.

Lemma example_vhosts_typed : pb_vhosts_typed [example_pb_vhost].
Proof.
  intros vh pr action weighted cw z ->%list_elem_of_singleton. simpl.
  intros ->%list_elem_of_singleton. simpl. intros [= <-]. done.
Qed.

Lemma example_prost_laws : ProstLaws example_prost.
Proof.
  constructor.
  - intros b rc ->%only_inv. apply example_vhosts_typed.
  - intros b hcm rc. simpl. case_decide; [|case_decide].
    + intros [= <-] [= <-]. apply example_vhosts_typed.
    + by intros [= <-].
    + by intros ->%only_inv.
  - intros b l. simpl. case_decide; [by intros [= <-]|]. case_decide; [by intros [= <-]|].
    by intros ->%only_inv.
  - intros b a ->%only_inv. intros loc lb e ->%list_elem_of_singleton. simpl.
    intros ->%list_elem_of_singleton. simpl. intros [= <-]. by vm_compute.
  - by intros b c a ->%only_inv.
Qed.

Definition example_ads_ops : list ads_op :=
  [AdsApply (example_response CLUSTER_TYPE "v1" "n1" ["cluster"]);
   AdsApply (example_response ENDPOINT_TYPE "v1" "n2" ["endpoints"])].

Lemma ads_config_typed_witness :
  let cfg := runtime_config "v1" (run_ads (P := example_prost) example_ads_ops ads_default) in
  (∃ c ep, c ∈ rc_clusters cfg ∧ ep ∈ c_endpoints c ∧
     ∃ a, came_assignment (P := example_prost) (received example_ads_ops) a ∧ endpoint_of a ep) ∧
  config_typed cfg.
Proof.
  destruct (ads_config_typed (P := example_prost) (HP := example_prost_laws) example_ads_ops "v1")
    as (_ & He & Hc). split; [|exact Hc].
  assert (∃ c ep, c ∈ rc_clusters (runtime_config "v1"
      (run_ads (P := example_prost) example_ads_ops ads_default)) ∧ ep ∈ c_endpoints c)
    as (c & ep & H1 & H2).
  { eexists _, _. split; apply (list_elem_of_lookup_2 _ 0%nat); vm_compute; reflexivity. }
  exists c, ep. split; [exact H1|]. split; [exact H2|]. exact (He c ep H1 H2).
Defined.
