(* ===== verification/XdsChannel.v ===== *)
(** * The bounded channel of requests (crates/xds/src/client.rs)

    [run_once] hands its requests to the transport through [mpsc::channel(32)]: a
    send waits while thirty-two requests are buffered. [XdsClient] models the
    channel as one that takes everything at once; here [run_once] is a sequence of
    small steps, one per [await], interleaved with the transport, the events of the
    stream and the other ends of the channels going away at any moment.

    [stream_refines]: every such run is one of [XdsClient.run_once].
    [body_returns]: the body of the loop never waits for good, as long as the
    transport takes a request when the channel is full; and the first request,
    which is sent before anyone takes, finds room. *)

From S2P Require Import Prelude RustString BTree Net Config Identity.
From S2P Require Import XdsProto XdsConvert AdsState XdsClient.

(** ** The channel *)

(** [mpsc::channel(32)]. *)
Definition REQUEST_CAPACITY : nat := 32.

(** What the transport has taken, what is buffered, and whether the receiving end
    still exists. *)
Record BoundedChannel := {
  bc_taken : list DiscoveryRequest;
  bc_queue : list DiscoveryRequest;
  bc_open : bool }.

(** One poll of [Sender::send]: [None] while it waits for room. *)
Definition poll_send (q : DiscoveryRequest) (ch : BoundedChannel)
    : option (result unit XdsError * BoundedChannel) :=
  if bc_open ch then
    if decide (length (bc_queue ch) < REQUEST_CAPACITY)%nat
    then Some (Ok tt, {| bc_taken := bc_taken ch; bc_queue := bc_queue ch ++ [q]; bc_open := true |})
    else None
  else Some (Err RequestChannelClosed, ch).

(** The [ReceiverStream]: the transport takes the oldest request. *)
Definition poll_take (ch : BoundedChannel) : option BoundedChannel :=
  match bc_open ch, bc_queue ch with
  | true, q :: qs => Some {| bc_taken := bc_taken ch ++ [q]; bc_queue := qs; bc_open := true |}
  | _, _ => None
  end.

Definition close_channel (ch : BoundedChannel) : BoundedChannel :=
  {| bc_taken := bc_taken ch; bc_queue := bc_queue ch; bc_open := false |}.

(** ** The steps of one connection *)

(** Where [run_once] stands: the send of the first request (line 121), the opening
    of the stream (123), the wait for a message (135), a send of the loop body with
    the subscriptions still to follow (138, 150), the head of the loop over the
    subscriptions (148), what follows it (154), the end. *)
Inductive StreamPhase :=
| AtFirst (q : DiscoveryRequest)
| AtOpen
| AtMessage
| AtSend (q : DiscoveryRequest) (version_info : string) (subs : list (string * list string))
| AtFollow (version_info : string) (subs : list (string * list string))
| AtPublish (version_info : string)
| Returned (r : result unit XdsError).

Record StreamState := {
  st_phase : StreamPhase;
  st_ads : AdsState;
  st_channel : BoundedChannel;
  st_watch : WatchSender }.

Definition at_phase (p : StreamPhase) (s : StreamState) : StreamState :=
  {| st_phase := p; st_ads := st_ads s; st_channel := st_channel s; st_watch := st_watch s |}.

Definition with_ads (ads : AdsState) (s : StreamState) : StreamState :=
  {| st_phase := st_phase s; st_ads := ads; st_channel := st_channel s; st_watch := st_watch s |}.

Definition with_channel (ch : BoundedChannel) (s : StreamState) : StreamState :=
  {| st_phase := st_phase s; st_ads := st_ads s; st_channel := ch; st_watch := st_watch s |}.

Definition with_watch (w : WatchSender) (s : StreamState) : StreamState :=
  {| st_phase := st_phase s; st_ads := st_ads s; st_channel := st_channel s; st_watch := w |}.

(** [run_once] up to its first [send]. *)
Definition stream_start (cfg : XdsClientConfig) (w : WatchSender) : StreamState :=
  let listener_names := sorted_unique (xc_listener_names cfg) in
  let '(_, ads) := set_subscription LISTENER_TYPE listener_names ads_default in
  {| st_phase := AtFirst (discovery_request (node cfg) LISTENER_TYPE listener_names "" "");
     st_ads := ads;
     st_channel := {| bc_taken := []; bc_queue := []; bc_open := true |};
     st_watch := w |}.

(** A send, then [next] or the error. *)
Definition queued_send (q : DiscoveryRequest) (next : StreamPhase) (s : StreamState)
    : option StreamState :=
  match poll_send q (st_channel s) with
  | Some (Ok _, ch) => Some (at_phase next (with_channel ch s))
  | Some (Err e, ch) => Some (at_phase (Returned (Err e)) (with_channel ch s))
  | None => None
  end.

(** The next step of the client: [None] while it waits for the network or for room
    in the channel, and when it has returned. *)
Definition body_step (cfg : XdsClientConfig) (s : StreamState) : option StreamState :=
  match st_phase s with
  | AtFirst q => queued_send q AtOpen s
  | AtSend q version subs => queued_send q (AtFollow version subs) s
  | AtFollow version [] => Some (at_phase (AtPublish version) s)
  | AtFollow version ((type_url, names) :: subs) =>
      let '(changed, ads) := set_subscription type_url names (st_ads s) in
      let s := with_ads ads s in
      Some (at_phase
        (if changed
         then AtSend (discovery_request (node cfg) type_url names "" "") version subs
         else AtFollow version subs) s)
  | AtPublish version =>
      let cfg := runtime_config version (st_ads s) in
      Some (match validate cfg with
            | Ok _ =>
                if decide (cfg = watch_value (st_watch s)) then at_phase AtMessage s
                else match watch_send cfg (st_watch s) with
                     | Some w => at_phase AtMessage (with_watch w s)
                     | None => at_phase (Returned (Err RuntimeConfigClosed)) s
                     end
            | Err _ => at_phase AtMessage s
            end)
  | AtOpen | AtMessage | Returned _ => None
  end.

(** A message, up to the first send of the loop body. *)
Definition accept_message {P : ProstLib} (cfg : XdsClientConfig) (resp : DiscoveryResponse)
    (s : StreamState) : StreamState :=
  let '(applied, ads) := apply_response resp (st_ads s) in
  let s := with_ads ads s in
  match applied with
  | Err e => at_phase (Returned (Err e)) s
  | Ok updates =>
      at_phase (AtSend
        (discovery_request (node cfg) (dr_type_url resp) (subscription (dr_type_url resp) (st_ads s))
           (dr_version_info resp) (dr_nonce resp))
        (dr_version_info resp) (updates_subscriptions updates)) s
  end.

(** Who moves: the client, the transport taking a request, the answer to opening
    the stream, an event of the stream. *)
Inductive StreamMove :=
| Client
| Take
| Opened (r : result unit string)
| Deliver (ev : StreamEvent).

(** [None] when the move is not possible. The receiver of the requests is handed to
    the transport when the stream is opened: until then nobody takes or drops it. *)
Definition stream_move {P : ProstLib} (cfg : XdsClientConfig) (m : StreamMove) (s : StreamState)
    : option StreamState :=
  match m, st_phase s with
  | Client, _ => body_step cfg s
  | Deliver ReceiversDropped, _ => Some (with_watch (drop_receivers (st_watch s)) s)
  | _, AtFirst _ => None
  | Take, _ =>
      match poll_take (st_channel s) with
      | Some ch => Some (with_channel ch s)
      | None => None
      end
  | Opened r, AtOpen =>
      Some (at_phase (match map_err StreamOpen r with
                      | Ok _ => AtMessage
                      | Err e => Returned (Err e)
                      end) s)
  | Deliver (Message resp), AtMessage => Some (accept_message cfg resp s)
  | Deliver StreamEnd, AtMessage => Some (at_phase (Returned (Ok tt)) s)
  | Deliver (StreamFailure status), AtMessage =>
      Some (at_phase (Returned (Err (StreamReceive status))) s)
  | Deliver RequestsDropped, _ => Some (with_channel (close_channel (st_channel s)) s)
  | Opened _, _ | Deliver _, _ => None
  end.

Fixpoint stream_moves {P : ProstLib} (cfg : XdsClientConfig) (ms : list StreamMove) (s : StreamState)
    : option StreamState :=
  match ms with
  | [] => Some s
  | m :: ms' =>
      match stream_move cfg m s with
      | Some s' => stream_moves cfg ms' s'
      | None => None
      end
  end.

Lemma stream_moves_app {P : ProstLib} cfg ms1 ms2 s :
  stream_moves cfg (ms1 ++ ms2) s =
  match stream_moves cfg ms1 s with Some s' => stream_moves cfg ms2 s' | None => None end.
Proof. revert s. induction ms1 as [|m ms1 IH]; intros s; simpl; [done|]. by case_match. Qed.

(** Properties of all states that are reached. *)
Lemma stream_moves_inv {P : ProstLib} cfg (I : StreamState → Prop) :
  (∀ m s s', stream_move cfg m s = Some s' → I s → I s') →
  ∀ ms s s', stream_moves cfg ms s = Some s' → I s → I s'.
Proof.
  intros Hstep ms. induction ms as [|m ms IH]; intros s s'; simpl; [by intros [= <-]|].
  destruct (stream_move cfg m s) as [s1|] eqn:E; [|done]. intros Hms HI. by eauto.
Qed.

(** ** Every run is a run of [run_once] *)

(** The session of [XdsClient]: everything handed to the channel counts as sent. *)
Definition session_of (s : StreamState) : Session :=
  {| ss_ads := st_ads s;
     ss_requests := {| rq_sent := bc_taken (st_channel s) ++ bc_queue (st_channel s);
                       rq_open := bc_open (st_channel s) |};
     ss_watch := st_watch s |}.

(** The same but for who still listens. *)
#[export] Instance watch_equiv : Equiv WatchSender :=
  λ w1 w2, w_initial w1 = w_initial w2 ∧ w_sent w1 = w_sent w2.

#[export] Instance watch_equivalence : Equivalence (≡@{WatchSender}).
Proof.
  split; [done|intros w1 w2 []; split; congruence|intros w1 w2 w3 [] []; split; congruence].
Qed.

#[export] Instance watch_value_proper : Proper ((≡) ==> (=)) watch_value.
Proof. intros w1 w2 [H1 H2]. unfold watch_value. by rewrite H1, H2. Qed.

#[export] Instance drop_receivers_proper : Proper ((≡) ==> (≡)) drop_receivers.
Proof. by intros w1 w2 []. Qed.

Lemma drop_receivers_equiv w : drop_receivers w ≡ w.
Proof. done. Qed.

(** The rest of a loop body, from the middle of it. *)
Definition finish (n : PbNode) (p : StreamPhase) (s : Session) : result unit XdsError * Session :=
  match p with
  | AtSend q version subs =>
      match session_send n (dq_type_url q) (dq_resource_names q) (dq_version_info q)
              (dq_response_nonce q) s with
      | (Ok _, s) =>
          match follow_subscriptions n subs s with
          | (Ok _, s) => publish version s
          | (Err e, s) => (Err e, s)
          end
      | (Err e, s) => (Err e, s)
      end
  | AtFollow version subs =>
      match follow_subscriptions n subs s with
      | (Ok _, s) => publish version s
      | (Err e, s) => (Err e, s)
      end
  | AtPublish version => publish version s
  | _ => (Ok tt, s)
  end.

Lemma publish_requests version s ch :
  publish version (set_requests ch s) =
  let '(r, s') := publish version s in (r, set_requests ch s').
Proof. unfold publish. simpl. by repeat case_match. Qed.

Section refinement.
Context {P : ProstLib} (cfg : XdsClientConfig) (w0 : WatchSender).

(** The events [evs] of a stream bring [run_once] to the session [s]. *)
Definition streamed (evs : list StreamEvent) (s : Session) : Prop :=
  run_stream (node cfg) evs (fresh_session cfg w0) = (None, s).

(** [run_once] can return [r] with the watch channel [w]. *)
Definition returns (r : result unit XdsError) (w : WatchSender) : Prop :=
  ∃ cn w', connect_channel cfg cn = Ok tt ∧ run_once cfg cn w0 = (Some r, w') ∧ w' ≡ w.

Lemma run_stream_app n evs1 evs2 s s1 :
  run_stream n evs1 s = (None, s1) → run_stream n (evs1 ++ evs2) s = run_stream n evs2 s1.
Proof.
  revert s. induction evs1 as [|ev evs1 IH]; intros s; simpl; [by intros [= ->]|].
  destruct ev; [|done..|apply IH|apply IH].
  by destruct (handle_response n resp s) as [[[]|] s']; [apply IH|].
Qed.

Lemma streamed_snoc evs ev s s' :
  streamed evs s → run_stream (node cfg) [ev] s = (None, s') → streamed (evs ++ [ev]) s'.
Proof. unfold streamed. intros H H'. by rewrite (run_stream_app _ _ _ _ _ H). Qed.

(** A stream that ends after the events [evs]. *)
Lemma streamed_returns evs evs' s r s' w :
  streamed evs s → run_stream (node cfg) evs' s = (Some r, s') → ss_watch s' ≡ w → returns r w.
Proof.
  intros H H' Hw. exists {| cn_endpoint := Ok tt; cn_connect := Ok tt; cn_open := Ok tt;
    cn_events := evs ++ evs' |}, (ss_watch s').
  unfold run_once. rewrite start_session_ok. simpl.
  unfold streamed in H. rewrite (run_stream_app _ _ _ _ _ H), H'. done.
Qed.

Lemma open_returns status w : w0 ≡ w → returns (Err (StreamOpen status)) w.
Proof.
  intros Hw. exists {| cn_endpoint := Ok tt; cn_connect := Ok tt; cn_open := Err status;
    cn_events := [] |}, w0.
  unfold run_once. rewrite start_session_ok. simpl. split_and!; [done| |done].
  unfold fresh_session, start_session. by destruct (set_subscription _ _ _).
Qed.

(** In the middle of a loop body: the body began in the session [s0], and from there
    [handle_response] does what is left to do, whoever listens to the watch
    channel. If the requests were dropped since, they count as not yet dropped. *)
Record in_body (p : StreamPhase) (s : Session) (evs : list StreamEvent)
    (resp : DiscoveryResponse) (s0 : Session) : Prop := {
  ib_streamed : streamed evs s0;
  ib_applied : is_ok (apply_response resp (ss_ads s0)).1 = true;
  ib_watch : ss_watch s0 = ss_watch s;
  ib_open : rq_open (ss_requests s) = true → rq_open (ss_requests s0) = true;
  ib_finish : ∀ w, handle_response (node cfg) resp (set_watch w s0) =
    finish (node cfg) p (set_watch w (set_requests
      {| rq_sent := rq_sent (ss_requests s); rq_open := rq_open (ss_requests s0) |} s)) }.

Definition request_of (q : DiscoveryRequest) : Prop :=
  q = discovery_request (node cfg) (dq_type_url q) (dq_resource_names q) (dq_version_info q)
        (dq_response_nonce q).

Definition phase_inv (p : StreamPhase) (ch : BoundedChannel) (s : Session) : Prop :=
  match p with
  | AtFirst q =>
      request_of q ∧ ch = {| bc_taken := []; bc_queue := []; bc_open := true |} ∧ ss_watch s ≡ w0 ∧
      ∃ evs, streamed evs (set_requests {| rq_sent := [q]; rq_open := true |} s)
  | AtOpen => ss_watch s ≡ w0 ∧ ∃ evs, streamed evs s
  | AtMessage => ∃ evs, streamed evs s
  | AtSend q _ subs => request_of q ∧ (length subs ≤ 3)%nat ∧ ∃ evs resp s0, in_body p s evs resp s0
  | AtFollow _ subs => (length subs ≤ 3)%nat ∧ ∃ evs resp s0, in_body p s evs resp s0
  | AtPublish _ => ∃ evs resp s0, in_body p s evs resp s0
  | Returned r => returns r (ss_watch s)
  end.

Record stream_inv (s : StreamState) : Prop := {
  sv_bounded : (length (bc_queue (st_channel s)) ≤ REQUEST_CAPACITY)%nat;
  sv_phase : phase_inv (st_phase s) (st_channel s) (session_of s) }.

Lemma stream_start_inv : stream_inv (stream_start cfg w0).
Proof.
  split; [unfold stream_start; destruct (set_subscription _ _ _); simpl; lia|].
  unfold stream_start. destruct (set_subscription _ _ _) as [b ads] eqn:E. simpl.
  split_and!; [done..|]. exists []. unfold streamed, fresh_session, start_session. by rewrite E.
Qed.

(** *** The ends of the two channels going away *)

Lemma drop_receivers_inv p ch s :
  phase_inv p ch s → phase_inv p ch (set_watch (drop_receivers (ss_watch s)) s).
Proof.
  assert (∀ evs s, streamed evs s →
    ∃ evs, streamed evs (set_watch (drop_receivers (ss_watch s)) s)) as Hst.
  { intros evs s' H. exists (evs ++ [ReceiversDropped]). by eapply streamed_snoc. }
  assert (∀ evs resp s0, in_body p s evs resp s0 →
    ∃ evs resp s0, in_body p (set_watch (drop_receivers (ss_watch s)) s) evs resp s0) as Hib.
  { intros evs resp s0 [H1 H2 H3 H4 H5]. exists (evs ++ [ReceiversDropped]), resp,
      (set_watch (drop_receivers (ss_watch s0)) s0).
    split; [by eapply streamed_snoc|done|simpl; by rewrite H3|done|].
    exact H5. }
  destruct p; simpl.
  - intros (? & ? & ? & evs & H). split_and!; [done..|]. by apply Hst in H.
  - intros (? & evs & H). split; [done|]. by apply Hst in H.
  - intros [evs H]. by apply Hst in H.
  - intros (? & ? & evs & resp & s0 & H). eauto.
  - intros (? & evs & resp & s0 & H). eauto.
  - intros (evs & resp & s0 & H). eauto.
  - intros (cn & w' & H1 & H2 & H3). by exists cn, w'.
Qed.

Lemma close_requests_inv p ch s :
  (∀ q, p ≠ AtFirst q) → phase_inv p ch s → phase_inv p (close_channel ch) (close_requests s).
Proof.
  intros Hp.
  assert (∀ evs s, streamed evs s → ∃ evs, streamed evs (close_requests s)) as Hst.
  { intros evs s' H. exists (evs ++ [RequestsDropped]). by eapply streamed_snoc. }
  assert (∀ evs resp s0, in_body p s evs resp s0 →
    ∃ evs resp s0, in_body p (close_requests s) evs resp s0) as Hib.
  { intros evs resp s0 [H1 H2 H3 H4 H5]. by exists evs, resp, s0. }
  destruct p; simpl.
  - by destruct (Hp q).
  - intros (? & evs & H). eauto.
  - intros [evs H]. eauto.
  - intros (? & ? & evs & resp & s0 & H). eauto.
  - intros (? & evs & resp & s0 & H). eauto.
  - intros (evs & resp & s0 & H). eauto.
  - done.
Qed.

(** *** The steps of a loop body *)

Lemma body_sent q version subs s evs resp s0 :
  request_of q → rq_open (ss_requests s) = true →
  in_body (AtSend q version subs) s evs resp s0 →
  in_body (AtFollow version subs)
    (set_requests {| rq_sent := rq_sent (ss_requests s) ++ [q]; rq_open := true |} s) evs resp s0.
Proof.
  intros Hq Ho [H1 H2 H3 H4 H5]. specialize (H4 Ho). split; [done..|].
  intros w. rewrite (H5 w). simpl. unfold session_send, send_discovery_request. simpl.
  rewrite H4. simpl. rewrite Hq. done.
Qed.

(** A body that finds the channel closed would have found it closed at its start. *)
Lemma body_closed p s evs resp s0 :
  in_body p s evs resp s0 → returns (Err RequestChannelClosed) (ss_watch s).
Proof.
  intros [H1 H2 H3 H4 H5].
  destruct (apply_response resp (ss_ads s0)) as [[u|e] ads] eqn:E; [|done].
  eapply (streamed_returns _ [RequestsDropped; Message resp]); [exact H1| |].
  - simpl. unfold handle_response. simpl. by rewrite E.
  - simpl. by rewrite H3.
Qed.

Lemma body_follow version type_url names subs s evs resp s0 changed ads :
  set_subscription type_url names (ss_ads s) = (changed, ads) →
  in_body (AtFollow version ((type_url, names) :: subs)) s evs resp s0 →
  in_body (if changed
           then AtSend (discovery_request (node cfg) type_url names "" "") version subs
           else AtFollow version subs) (set_ads ads s) evs resp s0.
Proof.
  intros E [H1 H2 H3 H4 H5]. split; [done..|].
  intros w. rewrite (H5 w). simpl. rewrite E. destruct changed; simpl; [|done].
  by destruct (session_send _ _ _ _ _ _) as [[[]|] s'].
Qed.

Lemma body_followed version s evs resp s0 :
  in_body (AtFollow version []) s evs resp s0 → in_body (AtPublish version) s evs resp s0.
Proof. by intros [H1 H2 H3 H4 H5]. Qed.

(** The end of the body: what [publish] answers, the client does. *)
Lemma body_published version s evs resp s0 r s' :
  in_body (AtPublish version) s evs resp s0 → publish version s = (r, s') →
  match r with
  | Ok _ => ∃ evs, streamed evs s'
  | Err e => returns (Err e) (ss_watch s')
  end.
Proof.
  intros [H1 H2 H3 H4 H5] Hp. specialize (H5 (ss_watch s0)). rewrite H3 in H5 at 2. simpl in H5.
  assert (set_watch (ss_watch s0) s0 = s0) as Es0 by (by destruct s0).
  rewrite Es0 in H5.
  pose proof (publish_requests version s
    {| rq_sent := rq_sent (ss_requests s); rq_open := rq_open (ss_requests s0) |}) as Hpr.
  rewrite Hp in Hpr. unfold set_requests in Hpr at 1.
  unfold set_watch, set_requests in H5. simpl in H5. rewrite Hpr in H5.
  destruct (publish_session _ _ _ _ Hp) as [_ Hreq].
  destruct r as [[]|e].
  - assert (streamed (evs ++ [Message resp])
      (set_requests {| rq_sent := rq_sent (ss_requests s); rq_open := rq_open (ss_requests s0) |} s'))
      as Hst. { eapply streamed_snoc; [done|]. simpl. by rewrite H5. }
    destruct (rq_open (ss_requests s)) eqn:Ho.
    + rewrite H4 in Hst by done. eexists. 
      replace s' with (set_requests {| rq_sent := rq_sent (ss_requests s); rq_open := true |} s');
        [done|]. rewrite <- Ho. destruct s'; simpl in *. subst. by destruct (ss_requests s).
    + exists ((evs ++ [Message resp]) ++ [RequestsDropped]). eapply streamed_snoc; [done|]. simpl.
      f_equal. unfold close_requests, set_requests. simpl. destruct s'; simpl in *. subst.
      f_equal. destruct (ss_requests s). simpl in *. by subst.
  - eapply (streamed_returns _ [Message resp]); [done| |]; [simpl; by rewrite H5|done].
Qed.

Lemma poll_send_cases q ch r ch' :
  poll_send q ch = Some (r, ch') →
  (bc_open ch = true ∧ r = Ok tt ∧ (length (bc_queue ch) < REQUEST_CAPACITY)%nat ∧
    ch' = {| bc_taken := bc_taken ch; bc_queue := bc_queue ch ++ [q]; bc_open := true |}) ∨
  (bc_open ch = false ∧ r = Err RequestChannelClosed ∧ ch' = ch).
Proof. unfold poll_send. destruct (bc_open ch); [case_decide|]; naive_solver. Qed.

Lemma queued_send_inv q next s s' :
  stream_inv s → queued_send q next s = Some s' →
  (∀ ch, bc_open (st_channel s) = true →
     phase_inv next ch (set_requests {| rq_sent := rq_sent (ss_requests (session_of s)) ++ [q];
                                        rq_open := true |} (session_of s))) →
  (bc_open (st_channel s) = false → returns (Err RequestChannelClosed) (st_watch s)) →
  stream_inv s'.
Proof.
  intros [Hb _] Hsend Hok Hclosed. unfold queued_send in Hsend.
  destruct (poll_send q (st_channel s)) as [[r ch]|] eqn:E; [|done].
  apply poll_send_cases in E as [(Ho & -> & Hlt & ->)|(Ho & -> & ->)]; injection Hsend as <-.
  - split; simpl; [rewrite length_app; simpl; lia|]. unfold session_of. simpl.
    rewrite app_assoc. by apply Hok.
  - split; [done|]. by apply Hclosed.
Qed.

Lemma body_step_inv s s' : stream_inv s → body_step cfg s = Some s' → stream_inv s'.
Proof.
  intros Hs. pose proof Hs as [Hb Hp]. unfold body_step.
  destruct (st_phase s) as [q| | |q version subs|version [|[ty names] subs]|version|r] eqn:E; simpl in Hp;
    [|done|done| | | | |done].
  - intros Hstep. destruct Hp as (Hq & Hch & Hw & evs & Hst).
    eapply queued_send_inv; [done..|simpl|by rewrite Hch]. intros _ _. split; [done|]. exists evs.
    by rewrite Hch.
  - intros Hstep. destruct Hp as (Hq & Hlen & evs & resp & s0 & Hib).
    eapply queued_send_inv; [done..|simpl|].
    + intros _ Ho. split; [done|]. exists evs, resp, s0. by apply (body_sent _ _ _ (session_of s)).
    + intros _. by eapply (body_closed _ (session_of s)).
  - intros [= <-]. destruct Hp as (Hlen & evs & resp & s0 & Hib). split; [done|].
    exists evs, resp, s0. by apply body_followed.
  - destruct Hp as (Hlen & evs & resp & s0 & Hib). simpl in Hlen.
    destruct (set_subscription ty names (st_ads s)) as [changed ads] eqn:Es. intros [= <-].
    split; [done|]. apply (body_follow _ _ _ _ (session_of s) _ _ _ _ _ Es) in Hib.
    destruct changed; simpl; (split_and?; [done|lia|by exists evs, resp, s0]) ||
      (split; [lia|by exists evs, resp, s0]).
  - destruct Hp as (evs & resp & s0 & Hib). intros [= <-].
    destruct (publish version (session_of s)) as [r s1] eqn:Ep.
    pose proof (body_published _ _ _ _ _ _ _ Hib Ep) as H. unfold publish, watch_send in *. simpl in Ep.
    destruct (validate _) as [[]|] eqn:V; [case_decide as Hd; [|destruct (w_receivers (st_watch s))]|];
      injection Ep as <- <-; (split; [done|]); exact H.
Qed.

Lemma accept_message_inv resp s :
  stream_inv s → st_phase s = AtMessage → stream_inv (accept_message cfg resp s).
Proof.
  intros [Hb Hp] E. rewrite E in Hp. destruct Hp as [evs Hst]. unfold accept_message.
  destruct (apply_response resp (st_ads s)) as [[u|e] ads] eqn:Ha; (split; [done|]); simpl.
  - split_and!; [done|unfold updates_subscriptions; repeat case_decide; simpl; lia|].
    exists evs, resp, (session_of s). split; [done|simpl; by rewrite Ha|done..|].
    intros w. unfold handle_response. simpl. rewrite Ha. by destruct (session_send _ _ _ _ _ _).
  - eapply (streamed_returns _ [Message resp]); [done|simpl; unfold handle_response; simpl; by rewrite Ha|done].
Qed.

Lemma poll_take_inv s ch :
  stream_inv s → (∀ q, st_phase s ≠ AtFirst q) → poll_take (st_channel s) = Some ch →
  stream_inv (with_channel ch s).
Proof.
  intros [Hb Hp] Hn. unfold poll_take. destruct (bc_open _) eqn:Ho; [|done].
  destruct (bc_queue (st_channel s)) as [|q qs] eqn:Eq; [done|]. intros [= <-].
  split; simpl in *; [lia|].
  replace (session_of _) with (session_of s).
  - destruct (st_phase s) eqn:E; [by destruct (Hn q0)|done..].
  - unfold session_of. simpl. by rewrite Eq, Ho, <- app_assoc.
Qed.

Lemma stream_move_inv m s s' : stream_move cfg m s = Some s' → stream_inv s → stream_inv s'.
Proof.
  intros Hm Hs. pose proof Hs as [Hb Hp]. destruct m as [| |r|ev].
  - by eapply body_step_inv.
  - simpl in Hm. destruct (poll_take (st_channel s)) as [ch|] eqn:E; [|by destruct (st_phase s)].
    assert (∀ q, st_phase s ≠ AtFirst q) as Hn by (intros q Hq; by rewrite Hq in Hm).
    assert (Some (with_channel ch s) = Some s') as [= <-] by (by destruct (st_phase s)).
    by apply poll_take_inv.
  - simpl in Hm. destruct (st_phase s) eqn:E; try done. injection Hm as <-. split; [done|].
    destruct Hp as (Hw & evs & Hst). destruct r as [[]|status]; simpl; [by exists evs|].
    by apply open_returns.
  - destruct ev as [resp| |status| |]; simpl in Hm.
    + destruct (st_phase s) eqn:E; try done. injection Hm as <-. by apply accept_message_inv.
    + destruct (st_phase s) eqn:E; try done. injection Hm as <-. split; [done|].
      destruct Hp as [evs Hst]. by eapply (streamed_returns _ [StreamEnd]).
    + destruct (st_phase s) eqn:E; try done. injection Hm as <-. split; [done|].
      destruct Hp as [evs Hst]. by eapply (streamed_returns _ [StreamFailure status]).
    + assert (∀ q, st_phase s ≠ AtFirst q) as Hn by (intros q Hq; by rewrite Hq in Hm).
      assert (Some (with_channel (close_channel (st_channel s)) s) = Some s') as [= <-]
        by (by destruct (st_phase s)).
      split; [done|]. by apply (close_requests_inv _ _ (session_of s)).
    + injection Hm as <-. split; [done|]. by apply (drop_receivers_inv _ _ (session_of s)).
Qed.

Lemma reached_inv ms s : stream_moves cfg ms (stream_start cfg w0) = Some s → stream_inv s.
Proof.
  intros H. eapply stream_moves_inv; [|exact H|apply stream_start_inv]. apply stream_move_inv.
Qed.

(** C16: However the small steps of a connection interleave with the transport taking
    requests from the bounded channel, with the events of the stream and with the
    two channels losing their other end, nothing is observed that [run_once] over an
    unbounded channel does not show. What the connection returns, and all that it has
    published by then, [run_once] returns and publishes for some answers of the
    network; and whenever it waits for a message its state is the one that some
    events of the stream lead to, the requests taken and buffered being those sent.
    At most thirty-two requests are ever buffered. *)
Theorem stream_refines ms s :
  stream_moves cfg ms (stream_start cfg w0) = Some s →
  (length (bc_queue (st_channel s)) ≤ 32)%nat ∧
  match st_phase s with
  | Returned r =>
      ∃ cn w, connect_channel cfg cn = Ok tt ∧ run_once cfg cn w0 = (Some r, w) ∧ w ≡ st_watch s
  | AtMessage => ∃ evs, run_stream (node cfg) evs (fresh_session cfg w0) = (None, session_of s)
  | _ => True
  end.
Proof. intros [Hb Hp]%reached_inv. split; [done|]. by destruct (st_phase s). Qed.

(** ** No wait for good *)

(** Nothing is left to do before the network answers. *)
Definition at_rest (p : StreamPhase) : bool :=
  match p with AtOpen | AtMessage | Returned _ => true | _ => false end.

(** The client moves; when the channel is full, the transport takes a request. *)
Definition relieve (s : StreamState) : option StreamState :=
  if at_rest (st_phase s) then None
  else match stream_move cfg Client s with
       | Some s' => Some s'
       | None => stream_move cfg Take s
       end.

Fixpoint relieved (fuel : nat) (s : StreamState) : StreamState :=
  match fuel with
  | O => s
  | S fuel' => match relieve s with Some s' => relieved fuel' s' | None => s end
  end.

Definition stream_rank (s : StreamState) : nat :=
  match st_phase s with
  | AtFirst _ => 1
  | AtSend _ _ subs =>
      (if decide (length (bc_queue (st_channel s)) < REQUEST_CAPACITY)%nat then 3 else 4)
      + 3 * length subs
  | AtFollow _ subs => 2 + 3 * length subs
  | AtPublish _ => 1
  | AtOpen | AtMessage | Returned _ => 0
  end.

Lemma stream_rank_rest s : stream_rank s = 0%nat → at_rest (st_phase s) = true.
Proof. unfold stream_rank. destruct (st_phase s); try case_decide; simpl; done || lia. Qed.

Lemma queued_send_rank q next s :
  (length (bc_queue (st_channel s)) < REQUEST_CAPACITY)%nat ∨ bc_open (st_channel s) = false →
  ∃ s', queued_send q next s = Some s' ∧ (st_phase s' = next ∨ ∃ r, st_phase s' = Returned r).
Proof.
  intros H. unfold queued_send, poll_send. destruct (bc_open (st_channel s)).
  - destruct H as [H|H]; [|done]. rewrite decide_True by done. eauto.
  - eauto.
Qed.

Lemma relieve_rank s :
  stream_inv s → at_rest (st_phase s) = false →
  ∃ s', relieve s = Some s' ∧ (stream_rank s' < stream_rank s)%nat.
Proof.
  intros [Hb Hp] Hr. unfold relieve. rewrite Hr. simpl. unfold body_step, stream_rank at 2.
  destruct (st_phase s) as [q| | |q version subs|version [|[ty names] subs]|version|r] eqn:E; try done.
  - destruct Hp as (_ & Hch & _).
    destruct (queued_send_rank q AtOpen s) as (s' & Hs & Hph); [left; rewrite Hch; simpl; unfold REQUEST_CAPACITY; lia|].
    exists s'. rewrite Hs. split; [done|]. unfold stream_rank. destruct Hph as [-> |[r ->]]; lia.
  - destruct (bc_open (st_channel s)) eqn:Ho.
    + case_decide as Hlen.
      * destruct (queued_send_rank q (AtFollow version subs) s) as (s' & Hs & Hph); [by left|].
        exists s'. rewrite Hs. split; [done|]. unfold stream_rank. destruct Hph as [-> |[r ->]]; lia.
      * unfold queued_send, poll_send, poll_take. rewrite Ho, decide_False by done.
        destruct (bc_queue (st_channel s)) as [|q' qs] eqn:Eq; [simpl in Hlen; unfold REQUEST_CAPACITY in Hlen; lia|].
        eexists. split; [done|]. unfold stream_rank. simpl. rewrite E. simpl in Hb.
        rewrite decide_True by lia. lia.
    + destruct (queued_send_rank q (AtFollow version subs) s) as (s' & Hs & Hph); [by right|].
      exists s'. rewrite Hs. split; [done|]. unfold stream_rank.
      destruct Hph as [-> |[r ->]]; case_decide; lia.
  - eexists. split; [done|]. unfold stream_rank. simpl. lia.
  - destruct (set_subscription ty names (st_ads s)) as [changed ads]. eexists. split; [done|].
    unfold stream_rank. destruct changed; simpl; [case_decide|]; lia.
  - eexists. split; [done|]. unfold stream_rank. repeat case_match; simpl in *; simplify_eq; lia.
Qed.

Lemma relieve_move s s' :
  relieve s = Some s' → ∃ m, (m = Client ∨ m = Take) ∧ stream_move cfg m s = Some s'.
Proof.
  unfold relieve. destruct (at_rest _); [done|].
  destruct (stream_move cfg Client s) as [s1|] eqn:E; intros H; [exists Client|exists Take]; auto.
  rewrite E. auto.
Qed.

Lemma relieved_spec fuel s :
  stream_inv s → (stream_rank s ≤ fuel)%nat →
  at_rest (st_phase (relieved fuel s)) = true ∧
  ∃ ms, Forall (λ m, m = Client ∨ m = Take) ms ∧ stream_moves cfg ms s = Some (relieved fuel s).
Proof.
  revert s. induction fuel as [|fuel IH]; intros s Hs Hf; simpl.
  - split; [apply stream_rank_rest; lia|]. by exists [].
  - destruct (at_rest (st_phase s)) eqn:Hr.
    + unfold relieve. rewrite Hr. split; [done|]. by exists [].
    + destruct (relieve_rank s Hs Hr) as (s' & E & Hlt). rewrite E.
      apply relieve_move in E as (m & Hm & E).
      destruct (IH s') as (Hrest & ms & Hms & Hrun); [by eapply stream_move_inv|lia|].
      split; [done|]. exists (m :: ms). split; [by constructor|]. simpl. by rewrite E.
Qed.

Lemma stream_rank_bound s : stream_inv s → (stream_rank s ≤ 13)%nat.
Proof.
  intros [_ Hp]. unfold stream_rank. destruct (st_phase s); simpl in Hp; try lia.
  destruct Hp as (_ & Hl & _). case_decide; lia.
Qed.

(** C17: The bounded channel never blocks a connection for good. From any point of any
    run, thirteen moves of the client, or of the transport taking a request when
    the channel is full, bring the client to where only the network can go on: it
    waits for the stream to open or for a message, or it has returned. And the first
    request, which is sent before there is anyone to take it, never waits. *)
Theorem body_returns ms s :
  stream_moves cfg ms (stream_start cfg w0) = Some s →
  at_rest (st_phase (relieved 13 s)) = true ∧
  (∃ ms', Forall (λ m, m = Client ∨ m = Take) ms' ∧ stream_moves cfg ms' s = Some (relieved 13 s)) ∧
  ∀ q, st_phase s = AtFirst q → ∃ s', stream_move cfg Client s = Some s' ∧ st_phase s' = AtOpen.
Proof.
  intros Hs%reached_inv.
  destruct (relieved_spec 13 s Hs (stream_rank_bound s Hs)) as [Hrest Hms]. split_and!; [done..|].
  intros q E. destruct Hs as [_ Hp]. rewrite E in Hp. destruct Hp as (_ & Hch & _).
  simpl. unfold body_step, queued_send, poll_send. rewrite E, Hch. simpl. eauto.
Qed.

(** ** What the server has been asked for *)

(** The transport takes all that is buffered. *)
Lemma take_all s :
  (∀ q, st_phase s ≠ AtFirst q) → bc_open (st_channel s) = true →
  stream_moves cfg (replicate (length (bc_queue (st_channel s))) Take) s =
  Some (with_channel {| bc_taken := bc_taken (st_channel s) ++ bc_queue (st_channel s);
                        bc_queue := []; bc_open := true |} s).
Proof.
  intros Hn Ho. remember (bc_queue (st_channel s)) as qs eqn:Eq. revert s Hn Ho Eq.
  induction qs as [|q qs IH]; intros s Hn Ho Eq.
  - simpl. f_equal. rewrite app_nil_r. destruct s as [p ads [t q o] w]; simpl in *. by subst.
  - assert (stream_move cfg Take s = Some (with_channel
      {| bc_taken := bc_taken (st_channel s) ++ [q]; bc_queue := qs; bc_open := true |} s)) as Hm.
    { simpl. unfold poll_take. rewrite Ho, <- Eq. by destruct (st_phase s); [destruct (Hn q0)|..]. }
    change (replicate (length (q :: qs)) Take) with (Take :: replicate (length qs) Take).
    cbn [stream_moves]. rewrite Hm, IH; [|done..]. simpl. by rewrite <- app_assoc.
Qed.

(** C18: A client that waits for a message, its requests still being taken, is asking for
    what it follows: once the transport has taken what is buffered, the last request
    of each type that the server got asks for exactly the names subscribed. *)
Theorem taken_follows ms s :
  stream_moves cfg ms (stream_start cfg w0) = Some s →
  st_phase s = AtMessage → bc_open (st_channel s) = true →
  ∃ s', stream_moves cfg (replicate (length (bc_queue (st_channel s))) Take) s = Some s' ∧
    st_phase s' = AtMessage ∧ bc_queue (st_channel s') = [] ∧
    ∀ ty names, ads_subscriptions (st_ads s') !! ty = Some names →
      dq_resource_names <$>
        last_request ty {| rq_sent := bc_taken (st_channel s'); rq_open := true |} = Some names.
Proof.
  intros [_ Hp]%reached_inv Hph Ho. rewrite Hph in Hp. destruct Hp as [evs Hst].
  eexists. split; [apply take_all; [by rewrite Hph|done]|]. split_and!; [done..|].
  apply run_stream_inv in Hst; [|apply fresh_session_inv]. exact (si_requests _ Hst).
Qed.

End refinement.

(** ** Examples *)

(** The listeners of [XdsClient.example_client], answered once. *)
Definition example_lds : StreamMove :=
  Deliver (Message (example_response LISTENER_TYPE "v1" "n1" ["listener"])).

Definition connected_moves : list StreamMove := [Client; Opened (Ok tt); example_lds].

Definition reached (ms : list StreamMove) : StreamState :=
  default (stream_start example_client example_watch)
    (stream_moves (P := example_prost) example_client ms (stream_start example_client example_watch)).

(** The transport goes away between the two requests of a body. *)
Definition dropped_moves : list StreamMove :=
  connected_moves ++ [Client; Take; Deliver RequestsDropped; Client; Client].

Lemma dropped_run :
  stream_moves (P := example_prost) example_client dropped_moves
    (stream_start example_client example_watch) = Some (reached dropped_moves).
Proof. vm_compute. reflexivity. Qed.

Lemma stream_refines_witness :
  ∃ cn w, connect_channel example_client cn = Ok tt ∧
    run_once (P := example_prost) example_client cn example_watch
      = (Some (Err RequestChannelClosed), w) ∧ w ≡ example_watch.
Proof.
  pose proof (stream_refines (P := example_prost) example_client example_watch dropped_moves
    (reached dropped_moves) dropped_run) as [_ H].
  assert (st_phase (reached dropped_moves) = Returned (Err RequestChannelClosed)) as E
    by (vm_compute; reflexivity).
  assert (st_watch (reached dropped_moves) = example_watch) as Ew by (vm_compute; reflexivity).
  rewrite E, Ew in H. exact H.
Defined.

(** A transport that takes nothing while the server answers thirty-one times. *)
Definition stalled_moves : list StreamMove :=
  connected_moves ++ replicate 5 Client
  ++ concat (replicate 29 (example_lds :: replicate 4 Client)) ++ [example_lds].

Lemma stalled_run :
  stream_moves (P := example_prost) example_client stalled_moves
    (stream_start example_client example_watch) = Some (reached stalled_moves).
Proof. vm_compute. reflexivity. Qed.

Lemma body_returns_witness :
  length (bc_queue (st_channel (reached stalled_moves))) = 32%nat ∧
  stream_move (P := example_prost) example_client Client (reached stalled_moves) = None ∧
  at_rest (st_phase (relieved (P := example_prost) example_client 13 (reached stalled_moves))) = true.
Proof.
  split; [vm_compute; reflexivity|]. split; [vm_compute; reflexivity|].
  exact (proj1 (body_returns (P := example_prost) example_client example_watch stalled_moves
    (reached stalled_moves) stalled_run)).
Defined.

(** The first body to its end, nothing taken yet. *)
Definition buffered_moves : list StreamMove := connected_moves ++ replicate 5 Client.

Lemma buffered_run :
  stream_moves (P := example_prost) example_client buffered_moves
    (stream_start example_client example_watch) = Some (reached buffered_moves).
Proof. vm_compute. reflexivity. Qed.

Lemma taken_follows_witness :
  ∃ s', stream_moves (P := example_prost) example_client (replicate 3 Take)
      (reached buffered_moves) = Some s' ∧ bc_queue (st_channel s') = [].
Proof.
  destruct (taken_follows (P := example_prost) example_client example_watch buffered_moves
    (reached buffered_moves) buffered_run) as (s' & Hs & _ & Hq & _);
    [vm_compute; reflexivity|vm_compute; reflexivity|].
  assert (length (bc_queue (st_channel (reached buffered_moves))) = 3%nat) as El
    by (vm_compute; reflexivity).
  rewrite El in Hs. exists s'. split; [exact Hs|exact Hq].
Defined.
