(* ===== verification/Source.v ===== *)
(** * Configuration files (crates/xds/src/source.rs)

    [StaticConfigFile::load] and [BootstrapConfig::load]: a file is read and given
    to [serde_json] or [serde_yaml], by the extension of its path. The file system
    and the two parsers are parameters. *)

From S2P Require Import Prelude RustString Net Config Http.

(** ** Paths *)

(** [Path::file_name]: the last component, where empty and [.] components do not
    count and [..] is not a name. *)
Definition file_name (path : string) : option string :=
  match last (base.filter (λ c, c ≠ "" ∧ c ≠ ".") (split_on "/" path)) with
  | Some name => if decide (name = "..") then None else Some name
  | None => None
  end.

(** [Path::extension]: what follows the last dot, unless the dot comes first. *)
Definition extension (path : string) : option string :=
  name ← file_name path;
  '(stem, ext) ← rsplit_once "." name;
  if decide (stem = "") then None else Some ext.

(** ** Data *)

Record StaticConfigFile := { scf_path : string }.

Record BootstrapConfig := {
  bc_xds_address : option string;
  bc_http_addr : option SocketAddr;
  bc_admin_addr : option SocketAddr;
  bc_listener_names : list string;
  bc_pod_name : option string;
  bc_namespace : option string;
  bc_pod_ip : option string;
  bc_node_name : option string;
  bc_cluster_id : option string;
  bc_dns_domain : option string }.

(** [from_str] of [serde_json] and [serde_yaml] at the two types, with the message
    of the error. *)
Class SerdeLib := {
  json_RuntimeConfig : string → result RuntimeConfig string;
  yaml_RuntimeConfig : string → result RuntimeConfig string;
  json_BootstrapConfig : string → result BootstrapConfig string;
  yaml_BootstrapConfig : string → result BootstrapConfig string }.

(** ** Loading *)

(** The trait [RuntimeConfigSource]. *)
Class RuntimeConfigSource (S : Type) := load : S → result (option RuntimeConfig) DxgateError.

Section load.
Context {L : SerdeLib} (fs : FileSystem).

Definition static_load (self : StaticConfigFile) : result (option RuntimeConfig) DxgateError :=
  let? raw := map_err Io (fs (scf_path self)) in
  let? cfg :=
    (if decide (extension (scf_path self) = Some "json")
     then map_err InvalidConfig (json_RuntimeConfig raw)
     else map_err InvalidConfig (yaml_RuntimeConfig raw)) in
  Ok (Some cfg).

#[export] Instance StaticConfigFile_source : RuntimeConfigSource StaticConfigFile := static_load.

Definition bootstrap_load (path : string) : result BootstrapConfig DxgateError :=
  let? raw := map_err Io (fs path) in
  if decide (extension path = Some "json")
  then map_err InvalidConfig (json_BootstrapConfig raw)
  else map_err InvalidConfig (yaml_BootstrapConfig raw).

End load.

(** ** Lemmas *)

(** The last component of a path that ends in a name. *)
Lemma split_on_last c p name :
  contains_char c name = false →
  ∃ l, split_on c (p +:+ String c name) = l ++ [name].
Proof.
  intros Hn. induction p as [|a p (l & IH)].
  - rewrite str_app_nil_l. exists [""]. simpl. rewrite decide_True by done.
    by rewrite (split_on_absent c name Hn).
  - rewrite str_app_cons. simpl. rewrite IH. case_decide.
    + by exists ("" :: l).
    + destruct l as [|h l]; simpl.
      * exfalso. destruct (split_on_two c p name) as (x & y & t & E). rewrite E in IH. done.
      * by exists (String a h :: l).
Qed.

Lemma file_name_last dir name :
  contains_char "/" name = false → name ∉ [""; "."; ".."] →
  file_name (dir +:+ "/" +:+ name) = Some name.
Proof.
  rewrite !not_elem_of_cons. intros Hn (H1 & H2 & H3 & _).
  destruct (split_on_last "/" dir name Hn) as [l Hl]. unfold file_name.
  change ("/" +:+ name) with (String "/" name). rewrite Hl.
  rewrite filter_app, filter_cons, filter_nil, decide_True by done.
  rewrite last_snoc. by rewrite decide_False.
Qed.

Lemma extension_json_iff dir name :
  contains_char "/" name = false → name ∉ [""; "."; ".."] →
  extension (dir +:+ "/" +:+ name) = Some "json" ↔
  ∃ stem, stem ≠ "" ∧ name = stem +:+ ".json".
Proof.
  intros Hn Hname. unfold extension. rewrite (file_name_last dir name Hn Hname). simpl. split.
  - destruct (rsplit_once "." name) as [[stem ext]|] eqn:E; [|done]. simpl.
    apply rsplit_once_inv in E as [-> _]. case_decide; [done|]. intros [= ->]. by exists stem.
  - intros (stem & Hs & ->). change ".json" with (String "." "json").
    rewrite rsplit_once_app by done. simpl. by rewrite decide_False.
Qed.

(** ** Properties *)

(** A static configuration and a bootstrap file in a directory are read the same
    way. A file that cannot be read is an I/O error; what can be read is JSON
    exactly when the file is called [<stem>.json] with a stem that is not empty, and
    YAML otherwise ([.json] alone is YAML); what the parser refuses is an invalid
    configuration with the parser's message, and a static file that parses is always
    a configuration. *)
Theorem load_by_extension {L : SerdeLib} (fs : FileSystem) dir name raw :
  contains_char "/" name = false → name ∉ [""; "."; ".."] →
  let path := dir +:+ "/" +:+ name in
  let json := ∃ stem, stem ≠ "" ∧ name = stem +:+ ".json" in
  (∀ msg, fs path = Err msg →
     static_load fs {| scf_path := path |} = Err (Io msg) ∧ bootstrap_load fs path = Err (Io msg)) ∧
  (fs path = Ok raw → json →
     static_load fs {| scf_path := path |} =
       match json_RuntimeConfig raw with Ok c => Ok (Some c) | Err e => Err (InvalidConfig e) end ∧
     bootstrap_load fs path = map_err InvalidConfig (json_BootstrapConfig raw)) ∧
  (fs path = Ok raw → ¬ json →
     static_load fs {| scf_path := path |} =
       match yaml_RuntimeConfig raw with Ok c => Ok (Some c) | Err e => Err (InvalidConfig e) end ∧
     bootstrap_load fs path = map_err InvalidConfig (yaml_BootstrapConfig raw)).
Proof.
  intros Hn Hname path json. pose proof (extension_json_iff dir name Hn Hname) as Hext.
  unfold static_load, bootstrap_load. simpl. split_and!.
  - intros msg ->. done.
  - intros ->. simpl. intros Hj. rewrite !decide_True by (by apply Hext).
    by destruct (json_RuntimeConfig raw).
  - intros ->. simpl. intros Hj. rewrite !decide_False by (by intros ?%Hext).
    by destruct (yaml_RuntimeConfig raw).
Qed.

(** Parsers that read the text as a version. *)
Definition example_serde : SerdeLib :=
  {| json_RuntimeConfig := λ s, Ok (empty_config s);
     yaml_RuntimeConfig := λ _, Err "invalid type";
     json_BootstrapConfig := λ _, Err "missing field";
     yaml_BootstrapConfig := λ _, Err "invalid type" |}.

Lemma load_by_extension_witness :
  static_load (L := example_serde) (λ _, Ok "v7") {| scf_path := "/etc/dxgate/dxgate.json" |} =
    Ok (Some (empty_config "v7")).
Proof.
  apply (load_by_extension (L := example_serde) (λ _, Ok "v7") "/etc/dxgate" "dxgate.json" "v7").
  - reflexivity.
  - apply (bool_decide_unpack _). vm_compute. exact I.
  - reflexivity.
  - exists "dxgate". split; [discriminate|reflexivity].
Defined.
