(* ===== verification/Build.v ===== *)
(** * The build script and the module tree (crates/xds/build.rs, crates/xds/src/proto.rs)

    [build.rs] walks the directory [proto] and hands every [.proto] file it finds, in
    the order of paths, to [tonic_build]; [proto.rs] includes what that generates, one
    module per protobuf package. The directory walk is a recursion over what
    [fs::read_dir] and [Path::is_dir] answer, which are parameters, as is the compiler;
    it has fuel, and a file system whose directories do not contain themselves needs no
    more than its depth.

    A path is its list of components. [Path] compares by component, not by byte:
    [a/b] is before [a-b]. *)

From S2P Require Import Prelude RustString BTree Source.

(** ** Paths *)

Abbreviation Path := (list string).

Fixpoint path_leb (p q : Path) : bool :=
  match p, q with
  | [], _ => true
  | _ :: _, [] => false
  | x :: p', y :: q' => if decide (x = y) then path_leb p' q' else bool_decide (String.le x y)
  end.

Definition path_le (p q : Path) : Prop := path_leb p q = true.

#[export] Instance path_le_dec : RelDecision path_le.
Proof. intros p q. unfold path_le. apply _. Defined.

#[export] Instance path_le_trans : Transitive path_le.
Proof.
  unfold path_le. intros p. induction p as [|x p IH]; [done|].
  intros [|y q] [|z r]; simpl; try done. repeat case_decide; subst; try done.
  - apply IH.
  - rewrite !bool_decide_eq_true. intros H1 H2.
    match goal with Hne : _ ≠ _ |- _ => destruct Hne; by apply (anti_symm String.le) end.
  - rewrite !bool_decide_eq_true. by trans y.
Qed.

#[export] Instance path_le_total : Total path_le.
Proof.
  unfold path_le. intros p. induction p as [|x p IH]; [by left|].
  intros [|y q]; simpl; [by right|]. repeat case_decide; subst; try done.
  rewrite !bool_decide_eq_true. apply (total String.le).
Qed.

#[export] Instance path_le_antisymm : AntiSymm (=) path_le.
Proof.
  unfold path_le. intros p. induction p as [|x p IH]; intros [|y q]; simpl; try done.
  repeat case_decide; subst; try done.
  - intros H1 H2. f_equal. by apply IH.
  - rewrite !bool_decide_eq_true. intros H1 H2. by destruct (anti_symm String.le x y H1 H2).
Qed.

(** [protos.sort()]. *)
Definition sort_paths (l : list Path) : list Path := merge_sort path_le l.

(** [path.extension() == Some("proto")], for a path that ends in a name. *)
Definition is_proto (p : Path) : bool :=
  bool_decide ((last p ≫= extension) = Some "proto").

(** ** The build script *)

Class BuildLib := {
  (** The names in a directory, each of which may fail. *)
  read_dir : Path → result (list (result string string)) string;
  is_dir : Path → bool;
  (** [tonic_build::configure().build_server(false).compile(protos, includes)]. *)
  compile : list Path → list Path → result unit string }.

Section build.
Context {B : BuildLib}.

(** The loop over a directory's entries; [visit] is the recursive call. *)
Fixpoint visit_entries (visit : Path → list Path → option (result unit string * list Path))
    (dir : Path) (entries : list (result string string)) (out : list Path)
    : option (result unit string * list Path) :=
  match entries with
  | [] => Some (Ok tt, out)
  | Err e :: _ => Some (Err e, out)
  | Ok name :: entries' =>
      let path := dir ++ [name] in
      if is_dir path then
        '(r, out') ← visit path out;
        match r with
        | Ok _ => visit_entries visit dir entries' out'
        | Err e => Some (Err e, out')
        end
      else if is_proto path then visit_entries visit dir entries' (out ++ [path])
      else visit_entries visit dir entries' out
  end.

(** [None] when the fuel, the depth of the recursion, runs out. *)
Fixpoint collect_proto_files (fuel : nat) (dir : Path) (out : list Path)
    : option (result unit string * list Path) :=
  match fuel with
  | O => None
  | S fuel' =>
      match read_dir dir with
      | Err e => Some (Err e, out)
      | Ok entries => visit_entries (collect_proto_files fuel') dir entries out
      end
  end.

Definition rerun_line (proto : Path) : string := "cargo:rerun-if-changed=" +:+ join "/" proto.

(** [main], with what it prints. *)
Definition build_main (fuel : nat) : option (result unit string * list string) :=
  let proto_root := ["proto"] in
  '(r, protos) ← collect_proto_files fuel proto_root [];
  match r with
  | Err e => Some (Err e, [])
  | Ok _ =>
      let protos := sort_paths protos in
      Some (compile protos [proto_root], rerun_line <$> protos)
  end.

(** ** What the walk finds *)

(** [p] is a [.proto] file in or below [dir]. *)
Inductive proto_file (dir : Path) : Path → Prop :=
| Proto_here es name :
    read_dir dir = Ok es → Ok name ∈ es → is_dir (dir ++ [name]) = false →
    is_proto (dir ++ [name]) = true → proto_file dir (dir ++ [name])
| Proto_below es name p :
    read_dir dir = Ok es → Ok name ∈ es → is_dir (dir ++ [name]) = true →
    proto_file (dir ++ [name]) p → proto_file dir p.

(** A directory tree that can be read: no directory is below itself, and no name is
    twice in a directory. *)
Record readable (depth : Path → nat) (root : Path) : Prop := {
  rd_names : ∀ dir, dir = root ∨ is_dir dir = true →
    ∃ names, read_dir dir = Ok (Ok <$> names) ∧ NoDup names;
  rd_depth : ∀ dir es name, read_dir dir = Ok es → Ok name ∈ es →
    is_dir (dir ++ [name]) = true → (depth (dir ++ [name]) < depth dir)%nat }.

Lemma proto_file_below dir p : proto_file dir p → ∃ name rest, p = dir ++ name :: rest.
Proof.
  induction 1 as [dir es name|dir es name p _ _ _ _ (n & rest & ->)]; [by exists name, []|].
  rewrite <- app_assoc. simpl. by eexists _, _.
Qed.

(** What one entry contributes. *)
Definition entry_file (dir : Path) (name : string) (p : Path) : Prop :=
  if is_dir (dir ++ [name]) then proto_file (dir ++ [name]) p
  else is_proto (dir ++ [name]) = true ∧ p = dir ++ [name].

Lemma entry_file_name dir name p : entry_file dir name p → ∃ rest, p = dir ++ name :: rest.
Proof.
  unfold entry_file. destruct (is_dir _).
  - intros (n & rest & ->)%proto_file_below. rewrite <- app_assoc. by eexists.
  - intros [_ ->]. by exists [].
Qed.

Lemma proto_file_entries dir names p :
  read_dir dir = Ok (Ok <$> names) →
  proto_file dir p ↔ ∃ name, name ∈ names ∧ entry_file dir name p.
Proof.
  intros Hr. unfold entry_file. split.
  - assert (∀ es name, read_dir dir = Ok es → Ok name ∈ es → name ∈ names) as Hin.
    { intros es name Hes. rewrite Hr in Hes. injection Hes as <-.
      intros (n & [= ->] & ?)%list_elem_of_fmap. done. }
    intros [es name Hes Hn Hd Hp|es name q Hes Hn Hd Hq]; exists name;
      (split; [by eapply Hin|]); by rewrite Hd.
  - intros (name & Hn & He). destruct (is_dir _) eqn:Hd.
    + eapply Proto_below; [done| |done|done]. by apply list_elem_of_fmap_2.
    + destruct He as [Hp ->]. eapply Proto_here; [done| |done|done]. by apply list_elem_of_fmap_2.
Qed.

(** What a walk adds to [out]: each file once. *)
Definition finds (r : option (result unit string * list Path)) (out : list Path)
    (P : Path → Prop) : Prop :=
  ∃ l, r = Some (Ok tt, out ++ l) ∧ NoDup l ∧ ∀ p, p ∈ l ↔ P p.

Lemma visit_entries_finds visit dir names out :
  NoDup names →
  (∀ name out, name ∈ names → is_dir (dir ++ [name]) = true →
     finds (visit (dir ++ [name]) out) out (proto_file (dir ++ [name]))) →
  finds (visit_entries visit dir (Ok <$> names) out) out
    (λ p, ∃ name, name ∈ names ∧ entry_file dir name p).
Proof.
  intros Hnd. revert out. induction Hnd as [|name names Hname Hnd IH]; intros out Hv.
  { exists []. rewrite app_nil_r. split_and!; [done|constructor|]. set_solver. }
  assert (∃ l : list Path, finds (visit_entries visit dir (Ok <$> name :: names) out) out
    (λ p, p ∈ l ∨ ∃ n, n ∈ names ∧ entry_file dir n p) ∧ ∀ p, p ∈ l ↔ entry_file dir name p)
    as (l & (k & Hk & Hknd & Hkin) & Hl).
  2:{ exists k. split_and!; [done|done|]. intros p. rewrite Hkin, Hl. set_solver. }
  assert (∀ l : list Path, NoDup l → (∀ p, p ∈ l ↔ entry_file dir name p) →
    finds (visit_entries visit dir (Ok <$> names) (out ++ l)) out
      (λ p, p ∈ l ∨ ∃ n, n ∈ names ∧ entry_file dir n p)) as Hrest.
  { intros l Hlnd Hl. destruct (IH (out ++ l)) as (k & Hk & Hknd & Hkin).
    { intros n out' Hn. apply Hv. by right. }
    exists (l ++ k). rewrite app_assoc. split_and!; [done| |].
    - apply NoDup_app. split_and!; [done| |done]. intros p Hp Hpk.
      apply Hl, entry_file_name in Hp as [r1 ->].
      apply Hkin in Hpk as (n & Hn & [r2 E%app_inv_head]%entry_file_name). by simplify_eq.
    - intros p. rewrite elem_of_app, Hkin. done. }
  simpl. unfold entry_file at 2. destruct (is_dir (dir ++ [name])) eqn:Hd.
  - destruct (Hv name out ltac:(by left) Hd) as (l & -> & Hlnd & Hl). simpl. exists l.
    split; [|done]. apply Hrest; [done|]. intros p. rewrite Hl. unfold entry_file. by rewrite Hd.
  - assert (∀ l : list Path, (∀ p, p ∈ l ↔ is_proto (dir ++ [name]) = true ∧ p = dir ++ [name]) →
      ∀ p, p ∈ l ↔ entry_file dir name p) as He by (unfold entry_file; by rewrite Hd).
    destruct (is_proto (dir ++ [name])).
    + exists [dir ++ [name]]. split; [|set_solver]. apply Hrest; [apply NoDup_singleton|].
      apply He. set_solver.
    + exists []. split; [|set_solver]. rewrite <- (app_nil_r out) at 1.
      apply Hrest; [constructor|]. apply He. set_solver.
Qed.

Lemma collect_finds depth root fuel dir out :
  readable depth root → (dir = root ∨ is_dir dir = true) → (depth dir < fuel)%nat →
  finds (collect_proto_files fuel dir out) out (proto_file dir).
Proof.
  intros Hr. revert dir out. induction fuel as [|fuel IH]; intros dir out Hdir Hd; [lia|]. simpl.
  destruct (rd_names _ _ Hr dir Hdir) as (names & Hn & Hnd). rewrite Hn.
  destruct (visit_entries_finds (collect_proto_files fuel) dir names out Hnd) as (l & Hl & ? & Hin).
  { intros name out' Hname Hdn. apply IH; [by right|].
    enough (depth (dir ++ [name]) < depth dir)%nat by lia.
    eapply (rd_depth _ _ Hr); [exact Hn| |done]. by apply list_elem_of_fmap_2. }
  exists l. split_and!; [done..|]. intros p. by rewrite Hin, (proto_file_entries dir names p Hn).
Qed.

(** The compiler's input: the [.proto] files below [proto], each once, in order. *)
Definition proto_list (l : list Path) : Prop :=
  StronglySorted path_le l ∧ NoDup l ∧ ∀ p, p ∈ l ↔ proto_file ["proto"] p.

Lemma proto_list_unique l1 l2 : proto_list l1 → proto_list l2 → l1 = l2.
Proof.
  intros (Hs1 & Hn1 & H1) (Hs2 & Hn2 & H2). apply (StronglySorted_unique path_le); [done..|].
  apply NoDup_Permutation; [done..|]. intros p. by rewrite H1, H2.
Qed.

(** C40: The build script compiles the [.proto] files of the repository, all of them and
    nothing else. On any directory tree that can be read it terminates, with fuel for the
    depth of the tree; the list it hands to the protobuf compiler, and announces to cargo
    line by line, is the one strictly ordered list of the files below [proto] whose
    extension is [proto], so it does not depend on the order in which the file system
    lists its directories. *)
Theorem build_compiles_protos depth fuel :
  readable depth ["proto"] → (depth ["proto"] < fuel)%nat →
  ∃ l, proto_list l ∧ (∀ l', proto_list l' → l' = l) ∧
    build_main fuel = Some (compile l [["proto"]], rerun_line <$> l).
Proof.
  intros Hr Hf. destruct (collect_finds depth ["proto"] fuel ["proto"] [] Hr) as (l & Hl & Hnd & Hin);
    [by left|done|].
  assert (proto_list (sort_paths l)) as Hpl.
  { unfold sort_paths. split_and!.
    - apply StronglySorted_merge_sort; apply _.
    - by rewrite merge_sort_Permutation.
    - intros p. by rewrite merge_sort_Permutation, Hin. }
  exists (sort_paths l). split_and!; [done|by intros; apply proto_list_unique|].
  unfold build_main. by rewrite Hl.
Qed.

End build.

(** ** The module tree *)

(** [pub mod name { ... }] and [tonic::include_proto!(package)]. *)
#[warnings="-register-all"]
Inductive ProtoItem :=
| Mod (name : string) (items : list ProtoItem)
| IncludeProto (package : string).

(** [proto.rs]. *)
Definition proto_rs : list ProtoItem :=
  [Mod "cluster" [Mod "v1" [IncludeProto "cluster.v1"]];
   Mod "core" [Mod "v1" [IncludeProto "core.v1"]];
   Mod "endpoint" [Mod "v1" [IncludeProto "endpoint.v1"]];
   Mod "extensions" [
     Mod "filters" [
       Mod "http" [Mod "router" [Mod "v1" [IncludeProto "extensions.filters.http.router.v1"]]];
       Mod "network" [Mod "http_connection_manager" [
         Mod "v1" [IncludeProto "extensions.filters.network.http_connection_manager.v1"]]]];
     Mod "transport_sockets" [
       Mod "tls" [Mod "v1" [IncludeProto "extensions.transport_sockets.tls.v1"]]]];
   Mod "google" [Mod "rpc" [IncludeProto "google.rpc"]];
   Mod "listener" [Mod "v1" [IncludeProto "listener.v1"]];
   Mod "route" [Mod "v1" [IncludeProto "route.v1"]];
   Mod "service" [
     Mod "discovery" [Mod "v1" [IncludeProto "service.discovery.v1"]];
     Mod "secret" [Mod "v1" [IncludeProto "service.secret.v1"]]];
   Mod "r#type" [Mod "matcher" [Mod "v1" [IncludeProto "r#type.matcher.v1"]]]].

(** The packages included, each with the path of its module. *)
Fixpoint includes (path : list string) (item : ProtoItem) : list (list string * string) :=
  match item with
  | Mod name items => List.flat_map (includes (path ++ [name])) items
  | IncludeProto package => [(path, package)]
  end.

Definition included : list (list string * string) := List.flat_map (includes []) proto_rs.

(** A segment that is a keyword is a raw identifier in Rust. *)
Definition rust_segment (s : string) : string := if decide (s = "type") then "r#type" else s.

Definition rust_package (package : string) : string :=
  join "." (rust_segment <$> split_on "." package).

(** ** The repository's own tree *)

(** A file system given by the files in it. *)
Definition children (files : list Path) (dir : Path) : list string :=
  remove_dups (omap (λ p, if decide (take (length dir) p = dir) then p !! length dir else None) files).

Definition tree_build (files : list Path) : BuildLib :=
  {| read_dir := λ dir, Ok (Ok <$> children files dir);
     is_dir := λ p, negb (bool_decide (children files p = []));
     compile := λ _ _, Ok tt |}.

(** The files under [crates/xds/proto]. *)
Definition repository_files : list Path :=
  split_on "/" <$>
    ["proto/cluster/v1/cluster.pb.go";
     "proto/cluster/v1/cluster.proto";
     "proto/core/v1/address.pb.go";
     "proto/core/v1/address.proto";
     "proto/core/v1/base.pb.go";
     "proto/core/v1/base.proto";
     "proto/core/v1/config_source.pb.go";
     "proto/core/v1/config_source.proto";
     "proto/core/v1/health_check.pb.go";
     "proto/core/v1/health_check.proto";
     "proto/endpoint/v1/endpoint.pb.go";
     "proto/endpoint/v1/endpoint.proto";
     "proto/endpoint/v1/endpoint_components.pb.go";
     "proto/endpoint/v1/endpoint_components.proto";
     "proto/extensions/filters/v1/http/router/router.pb.go";
     "proto/extensions/filters/v1/http/router/router.proto";
     "proto/extensions/filters/v1/network/http_connection_manager/http_connection_manager.pb.go";
     "proto/extensions/filters/v1/network/http_connection_manager/http_connection_manager.proto";
     "proto/extensions/transport_sockets/tls/v1/tls.pb.go";
     "proto/extensions/transport_sockets/tls/v1/tls.proto";
     "proto/google/rpc/status.pb.go";
     "proto/google/rpc/status.proto";
     "proto/listener/v1/listener.pb.go";
     "proto/listener/v1/listener.proto";
     "proto/listener/v1/listener_components.pb.go";
     "proto/listener/v1/listener_components.proto";
     "proto/route/v1/route.pb.go";
     "proto/route/v1/route.proto";
     "proto/route/v1/route_components.pb.go";
     "proto/route/v1/route_components.proto";
     "proto/service/discovery/v1/ads.pb.go";
     "proto/service/discovery/v1/ads.proto";
     "proto/service/discovery/v1/ads_grpc.pb.go";
     "proto/service/discovery/v1/discovery.pb.go";
     "proto/service/discovery/v1/discovery.proto";
     "proto/service/secret/v1/sds.pb.go";
     "proto/service/secret/v1/sds.proto";
     "proto/service/secret/v1/sds_grpc.pb.go";
     "proto/type/matcher/v1/regex.pb.go";
     "proto/type/matcher/v1/regex.proto"].

(** The [package] line of each [.proto] file. *)
Definition packages : list (string * string) :=
    [("proto/cluster/v1/cluster.proto", "cluster.v1");
     ("proto/core/v1/address.proto", "core.v1");
     ("proto/core/v1/base.proto", "core.v1");
     ("proto/core/v1/config_source.proto", "core.v1");
     ("proto/core/v1/health_check.proto", "core.v1");
     ("proto/endpoint/v1/endpoint.proto", "endpoint.v1");
     ("proto/endpoint/v1/endpoint_components.proto", "endpoint.v1");
     ("proto/extensions/filters/v1/http/router/router.proto", "extensions.filters.http.router.v1");
     ("proto/extensions/filters/v1/network/http_connection_manager/http_connection_manager.proto", "extensions.filters.network.http_connection_manager.v1");
     ("proto/extensions/transport_sockets/tls/v1/tls.proto", "extensions.transport_sockets.tls.v1");
     ("proto/google/rpc/status.proto", "google.rpc");
     ("proto/listener/v1/listener.proto", "listener.v1");
     ("proto/listener/v1/listener_components.proto", "listener.v1");
     ("proto/route/v1/route.proto", "route.v1");
     ("proto/route/v1/route_components.proto", "route.v1");
     ("proto/service/discovery/v1/ads.proto", "service.discovery.v1");
     ("proto/service/discovery/v1/discovery.proto", "service.discovery.v1");
     ("proto/service/secret/v1/sds.proto", "service.secret.v1");
     ("proto/type/matcher/v1/regex.proto", "type.matcher.v1")].

Lemma children_length files dir name :
  name ∈ children files dir → ∃ p, p ∈ files ∧ (length dir < length p)%nat.
Proof.
  unfold children. rewrite elem_of_remove_dups. intros (p & Hp & Hin)%list_elem_of_omap.
  exists p. case_decide; [|done]. split; [done|]. by eapply lookup_lt_Some.
Qed.

(** Such a file system is a tree. *)
Lemma tree_readable files root n :
  Forall (λ p, length p ≤ n)%nat files →
  readable (B := tree_build files) (λ p, n - length p)%nat root.
Proof.
  intros Hn. split; simpl.
  - intros dir _. exists (children files dir). split; [done|apply NoDup_remove_dups].
  - intros dir es name _ _. rewrite negb_true_iff, bool_decide_eq_false.
    destruct (children files (dir ++ [name])) as [|c cs] eqn:E; [done|]. intros _.
    destruct (children_length files (dir ++ [name]) c) as (p & Hp & Hlen); [rewrite E; by left|].
    eapply Forall_forall in Hn; [|exact Hp]. rewrite length_app in *. simpl in *. lia.
Qed.

Lemma repository_depth : Forall (λ p, length p ≤ 8)%nat repository_files.
Proof. apply (bool_decide_unpack _). vm_compute. exact I. Qed.

Lemma build_compiles_protos_witness :
  ∃ l, proto_list (B := tree_build repository_files) l ∧
    (∀ l', proto_list (B := tree_build repository_files) l' → l' = l) ∧
    build_main (B := tree_build repository_files) 9 = Some (Ok tt, rerun_line <$> l).
Proof.
  apply (build_compiles_protos (B := tree_build repository_files) (λ p, 8 - length p)%nat 9).
  - exact (tree_readable repository_files ["proto"] 8 repository_depth).
  - simpl. lia.
Defined.

(** The module tree fits the protobuf files. On the repository's own files, the
    build script announces exactly the files whose [package] lines are listed; their
    packages, with the keyword [type] made a raw identifier, are exactly the packages
    that [proto.rs] includes, each once, and each in the module that its own name
    spells, so the paths that generated code uses to refer to other packages exist. *)
Theorem modules_match_protos :
  build_main (B := tree_build repository_files) 9 =
    Some (Ok tt, (λ e, "cargo:rerun-if-changed=" +:+ e.1) <$> packages) ∧
  (∀ package, package ∈ included.*2 ↔ package ∈ rust_package <$> packages.*2) ∧
  NoDup included.*2 ∧
  Forall (λ e, e.1 = split_on "." e.2) included.
Proof.
  split_and!; [vm_compute; reflexivity| |apply (bool_decide_unpack _); vm_compute; exact I..].
  assert (Forall (λ p, p ∈ rust_package <$> packages.*2) included.*2 ∧
    Forall (λ p, p ∈ included.*2) (rust_package <$> packages.*2)) as [H1 H2].
  { apply (bool_decide_unpack _). vm_compute. exact I. }
  intros package. rewrite Forall_forall in H1, H2. split; [apply H1|apply H2].
Qed.
