(* ===== verification/Admin.v ===== *)
(** * The admin server (crates/admin/src/lib.rs)

    The handlers behind [/healthz], [/readyz], [/metrics] and [/debug/*], as
    functions of the shared state. [serde_json::Value] is [json]; what [serde]
    makes of the repository's own types is a parameter. *)

From S2P Require Import Prelude RustString Config ProxyState Http.

#[local] Set Warnings "-register-all".

Inductive json :=
| JNull
| JBool (b : bool)
| JNumber (n : Z)
| JString (s : string)
| JArray (l : list json)
| JObject (fields : list (string * json)).

(** [serde::Serialize] at the types the handlers return. *)
Class SerializeLib := {
  ser_clusters : list Cluster → json;
  ser_weighted_clusters : list WeightedCluster → json;
  ser_config : RuntimeConfig → json;
  ser_readiness : Readiness → json }.

Record BuildInfo := { bi_name : string; bi_version : string }.

Record AdminServer := { adm_state : Inner; adm_build : BuildInfo }.

(** [AdminServer::new], with the version of the package. *)
Definition new_admin (pkg_version : string) (st : Inner) : AdminServer :=
  {| adm_state := st; adm_build := {| bi_name := "dxgate"; bi_version := pkg_version |} |}.

(** A response: its status and its body, JSON or text. *)
Inductive admin_body :=
| Build (b : BuildInfo)
| Value (j : json)
| Text (s : string).

Definition OK_STATUS : Z := 200.

Definition newline : string := String "010" "".

Section admin.
Context {L : SerializeLib}.

Definition healthz (admin : AdminServer) : Z * admin_body := (OK_STATUS, Build (adm_build admin)).

(** The response to [/readyz], from the answer of [readiness]. *)
Definition readyz_response (r : Readiness) : Z * admin_body :=
  let status := if rd_ready r then OK_STATUS else SERVICE_UNAVAILABLE in
  (status, Value (ser_readiness r)).

Definition readyz (admin : AdminServer) : Z * admin_body :=
  readyz_response (readiness (adm_state admin)).

Definition metrics (admin : AdminServer) : Z * admin_body :=
  let r := readiness (adm_state admin) in
  (OK_STATUS, Text
    ("# HELP dxgate_ready Whether dxgate has accepted runtime config" +:+ newline
     +:+ "# TYPE dxgate_ready gauge" +:+ newline
     +:+ "dxgate_ready " +:+ show_u (if rd_ready r then 1 else 0) +:+ newline
     +:+ "# HELP dxgate_config_conflicts Current rejected config conflicts" +:+ newline
     +:+ "# TYPE dxgate_config_conflicts gauge" +:+ newline
     +:+ "dxgate_config_conflicts " +:+ show_u (Z.of_nat (length (rd_conflicts r))) +:+ newline)).

Definition debug_config (admin : AdminServer) : Z * admin_body :=
  (OK_STATUS, Value (ser_config (st_config (adm_state admin)))).

(** One entry of [/debug/routes]. *)
Definition route_entry_json (l : Listener) (h : VirtualHost) (r : Route) : json :=
  JObject [("listener", JString (l_name l)); ("virtualHost", JString (vh_name h));
           ("route", JString (r_name r)); ("domains", JArray (JString <$> vh_domains h));
           ("weightedClusters", ser_weighted_clusters (r_weighted_clusters r))].

Definition debug_routes (admin : AdminServer) : Z * admin_body :=
  let cfg := st_config (adm_state admin) in
  (OK_STATUS, Value (JArray
    (List.flat_map (λ l, List.flat_map (λ h, route_entry_json l h <$> vh_routes h)
       (l_virtual_hosts l)) (rc_listeners cfg)))).

Definition debug_clusters (admin : AdminServer) : Z * admin_body :=
  (OK_STATUS, Value (ser_clusters (rc_clusters (st_config (adm_state admin))))).

(** The router of [serve]: [None] is axum's own 404. *)
Definition admin_route (path : string) (admin : AdminServer) : option (Z * admin_body) :=
  if decide (path = "/healthz") then Some (healthz admin)
  else if decide (path = "/readyz") then Some (readyz admin)
  else if decide (path = "/metrics") then Some (metrics admin)
  else if decide (path = "/debug/config") then Some (debug_config admin)
  else if decide (path = "/debug/routes") then Some (debug_routes admin)
  else if decide (path = "/debug/clusters") then Some (debug_clusters admin)
  else None.

End admin.

(** ** Properties *)

(** [/readyz] answers 200 exactly when the configuration applied last was
    accepted, and 503 before the first one and after a rejected one, although the
    last accepted configuration is still served then; [/healthz] answers 200
    whatever the state. *)
Theorem readyz_status {L : SerializeLib} checks init os version :
  let admin := new_admin version (run_ops checks os (new_state init)) in
  let ready := ∃ cfg, last (applied os) = Some cfg ∧ accepted cfg in
  ((readyz admin).1 = 200 ↔ ready) ∧ ((readyz admin).1 = 503 ↔ ¬ ready) ∧
  (healthz admin).1 = 200 ∧
  (debug_config admin).2 = Value (ser_config (spec_config init (applied os))).
Proof.
  destruct (run_ops_meets checks init [] os (new_state init)) as (Hc & _ & Hr); [done|].
  simpl in Hc, Hr. unfold readyz, readyz_response, debug_config. simpl. rewrite Hc, Hr.
  assert (spec_ready (applied os) = true ↔ ∃ cfg, last (applied os) = Some cfg ∧ accepted cfg) as Hs.
  { unfold spec_ready. destruct (last (applied os)) as [cfg|]; [|naive_solver].
    rewrite bool_decide_eq_true. naive_solver. }
  unfold OK_STATUS, SERVICE_UNAVAILABLE.
  destruct (spec_ready (applied os)); naive_solver.
Qed.

(** [/debug/routes] lists the routes of the served configuration, all of them and
    no others, each with its listener and virtual host. *)
Theorem debug_routes_complete {L : SerializeLib} admin entry :
  (∃ entries, debug_routes admin = (200, Value (JArray entries)) ∧ entry ∈ entries) ↔
  ∃ l h r, has_route (st_config (adm_state admin)) l h r ∧ entry = route_entry_json l h r.
Proof.
  unfold debug_routes, has_route. split.
  - intros (es & [= <-] & Hin). rewrite elem_of_flat_map in Hin.
    destruct Hin as (l & Hl & Hin). rewrite elem_of_flat_map in Hin.
    destruct Hin as (h & Hh & Hin). apply list_elem_of_fmap in Hin as (r & -> & Hr).
    by exists l, h, r.
  - intros (l & h & r & (Hl & Hh & Hr) & ->). eexists. split; [done|].
    rewrite elem_of_flat_map. exists l. split; [done|]. rewrite elem_of_flat_map.
    exists h. split; [done|]. by apply list_elem_of_fmap_2.
Qed.
