(* ===== verification/App.v ===== *)
(** * The program (crates/app/src/main.rs)

    The arguments and how a bootstrap file overrides them, and the start of [main]:
    the shared state, the watch channel and the static configuration. After that
    the tasks run side by side; the two that touch the configuration, the ADS client
    and the task that applies what is published, are the steps of a transition system
    here. Of the proxy only the picker counter shows; [Gateway] adds its requests and
    the admin server, and cuts the applying task into its single accesses.

    [main] applies the static configuration before it sends it, and before the ADS
    client exists, so no two calls of [apply_config] overlap: a call is one step.
    A [watch] channel keeps only its last value: the task may miss values, and
    then applies the latest. *)

From S2P Require Import Prelude RustString Net Config Identity ProxyState Http.
From S2P Require Import XdsProto XdsConvert AdsState XdsClient Source.

(** ** Arguments *)

Record Args := {
  a_xds_address : string;
  a_http_addr : SocketAddr;
  a_admin_addr : SocketAddr;
  a_static_config : option string;
  a_bootstrap : option string;
  a_listener_names : list string;
  a_pod_name : string;
  a_namespace : string;
  a_pod_ip : string;
  a_node_name : option string;
  a_cluster_id : string;
  a_dns_domain : string }.

(** The defaults that [clap] fills in. *)
Definition default_args : Args :=
  {| a_xds_address := "http://dubbod.dubbo-system.svc:15012";
     a_http_addr := unspecified_v4 HTTP_LISTENER_PORT;
     a_admin_addr := unspecified_v4 ADMIN_PORT;
     a_static_config := None; a_bootstrap := None; a_listener_names := [];
     a_pod_name := "dxgate"; a_namespace := "dubbo-system"; a_pod_ip := "127.0.0.1";
     a_node_name := None; a_cluster_id := DEFAULT_CLUSTER_ID; a_dns_domain := DEFAULT_DNS_DOMAIN |}.

(** [if let Some(value) = field { target = value }]. *)
Definition override {A} (field : option A) (target : A) : A := default target field.

Definition apply_bootstrap (b : BootstrapConfig) (args : Args) : Args :=
  {| a_xds_address := override (bc_xds_address b) (a_xds_address args);
     a_http_addr := override (bc_http_addr b) (a_http_addr args);
     a_admin_addr := override (bc_admin_addr b) (a_admin_addr args);
     a_static_config := a_static_config args;
     a_bootstrap := a_bootstrap args;
     a_listener_names := if decide (bc_listener_names b = []) then a_listener_names args
                         else bc_listener_names b;
     a_pod_name := override (bc_pod_name b) (a_pod_name args);
     a_namespace := override (bc_namespace b) (a_namespace args);
     a_pod_ip := override (bc_pod_ip b) (a_pod_ip args);
     a_node_name := match bc_node_name b with
                    | Some value => Some value
                    | None => a_node_name args
                    end;
     a_cluster_id := override (bc_cluster_id b) (a_cluster_id args);
     a_dns_domain := override (bc_dns_domain b) (a_dns_domain args) |}.

(** ** The start of [main] *)

Definition identity_of (args : Args) : RouterIdentity :=
  {| id_pod_name := a_pod_name args; id_namespace := a_namespace args;
     id_pod_ip := a_pod_ip args; id_node_name := a_node_name args;
     id_cluster_id := a_cluster_id args; id_dns_domain := a_dns_domain args |}.

Definition client_config_of (args : Args) : XdsClientConfig :=
  {| xc_endpoint := a_xds_address args; xc_identity := identity_of args;
     xc_listener_names := a_listener_names args; xc_reconnect_delay := 10 |}.

(** The bootstrap file; an error ends the program with [InvalidData]. *)
Definition read_bootstrap {L : SerdeLib} (fs : FileSystem) (args : Args) : result Args string :=
  match a_bootstrap args with
  | Some path =>
      let? b := map_err show_DxgateError (bootstrap_load fs path) in Ok (apply_bootstrap b args)
  | None => Ok args
  end.

Definition initial_config : RuntimeConfig := empty_config "bootstrap".

Definition initial_watch : WatchSender :=
  {| w_initial := initial_config; w_sent := []; w_receivers := true |}.

(** The static configuration: applied, and sent if it was accepted. *)
Definition apply_static (loaded : result (option RuntimeConfig) DxgateError)
    (st : Inner) (w : WatchSender) : Inner * WatchSender :=
  match loaded with
  | Ok (Some cfg) =>
      let '(r, st) := apply_config cfg st in
      match r with
      | Err _ => (st, w)
      | Ok _ => (st, default w (watch_send cfg w))
      end
  | Ok None => (st, w)
  | Err _ => (st, w)
  end.

Definition start {L : SerdeLib} (fs : FileSystem) (args : Args) : Inner * WatchSender :=
  let st := new_state initial_config in
  match a_static_config args with
  | Some path => apply_static (static_load fs {| scf_path := path |}) st initial_watch
  | None => (st, initial_watch)
  end.

(** ** The end of [main] *)

(** What a spawned server answers when it is joined: its own result, or that it
    panicked or was cancelled. *)
Inductive task_end :=
| Joined (r : result unit string)
| JoinFailed (err : string).

(** What [tokio::select!] waits for. *)
Inductive main_event :=
| ProxyEnded (t : task_end)
| AdminEnded (t : task_end)
| CtrlC.

(** [result.unwrap_or_else(|err| Err(std::io::Error::other(err)))?]. *)
Definition join_result (t : task_end) : result unit string :=
  match t with Joined r => r | JoinFailed err => Err err end.

Definition select_exit (ev : main_event) : result unit string :=
  match ev with
  | ProxyEnded t => join_result t
  | AdminEnded t => join_result t
  | CtrlC => Ok tt
  end.

(** [main]: what it returns, given the event that ends it. *)
Definition main_exit {L : SerdeLib} (fs : FileSystem) (args : Args) (ev : main_event)
    : result unit string :=
  let? _args := read_bootstrap fs args in select_exit ev.

(** The program fails for a bootstrap file it cannot read or a server that fails, and
    for nothing else: a static file that cannot be read is not an error. *)
Lemma main_exit_error {L : SerdeLib} fs args ev e :
  main_exit fs args ev = Err e ↔
  (∃ path err, a_bootstrap args = Some path ∧ bootstrap_load fs path = Err err ∧
     e = show_DxgateError err) ∨
  (∃ args', read_bootstrap fs args = Ok args' ∧
     (∃ t, (ev = ProxyEnded t ∨ ev = AdminEnded t) ∧ join_result t = Err e)).
Proof.
  assert (select_exit ev = Err e ↔
    ∃ t, (ev = ProxyEnded t ∨ ev = AdminEnded t) ∧ join_result t = Err e) as Hsel.
  { split; [|by intros (t & [-> | ->] & ?)]. destruct ev as [t|t|]; simpl; [by eauto..|done]. }
  unfold main_exit. destruct (read_bootstrap fs args) as [args'|msg] eqn:Er; simpl.
  - rewrite Hsel. split; [by eauto|]. intros [(path & err & Hp & He & _)|(? & _ & ?)]; [|done].
    unfold read_bootstrap in Er. by rewrite Hp, He in Er.
  - unfold read_bootstrap in Er. destruct (a_bootstrap args) as [path|]; [|done].
    destruct (bootstrap_load fs path) as [b|err] eqn:E; [done|]. injection Er as <-.
    split; [intros [= <-]; left; by exists path, err|].
    intros [(? & ? & [= <-] & He & ->)|(? & ? & _)]; [|done]. by rewrite E in He; simplify_eq.
Qed.

(** ** The tasks *)

(** The ADS task: between connections, on a stream, or over. *)
Inductive client_task :=
| Disconnected
| Streaming (s : Session)
| Exited.

(** The running program: the shared state, the watch channel, how many of the
    values sent the applying task has seen, and the ADS task. *)
Record System := {
  sy_state : Inner;
  sy_watch : WatchSender;
  sy_seen : nat;
  sy_client : client_task }.

(** [config_rx.changed()] answers when there is an unseen value. *)
Definition unseen (s : System) : bool := (sy_seen s <? length (w_sent (sy_watch s)))%nat.

(** The body of the applying task, with [config_rx.borrow()] the last value. *)
Definition apply_task (s : System) : System :=
  if unseen s
  then {| sy_state := (apply_config (watch_value (sy_watch s)) (sy_state s)).2;
          sy_watch := sy_watch s; sy_seen := length (w_sent (sy_watch s));
          sy_client := sy_client s |}
  else s.

Definition with_client (c : client_task) (w : WatchSender) (s : System) : System :=
  {| sy_state := sy_state s; sy_watch := w; sy_seen := sy_seen s; sy_client := c |}.

(** [run_once] up to its loop. *)
Definition client_connect (cfg : XdsClientConfig) (cn : Connection) (s : System) : System :=
  match connect_channel cfg cn with
  | Err (InvalidEndpoint _ _) => with_client Exited (sy_watch s) s
  | Err _ => with_client Disconnected (sy_watch s) s
  | Ok _ =>
      let '(r, ss) := start_session cfg (sy_watch s) in
      match r, cn_open cn with
      | Ok _, Ok _ => with_client (Streaming ss) (sy_watch s) s
      | _, _ => with_client Disconnected (sy_watch s) s
      end
  end.

(** One turn of the loop of [run_once]. *)
Definition client_message {P : ProstLib} (cfg : XdsClientConfig) (resp : DiscoveryResponse)
    (ss : Session) (s : System) : System :=
  match handle_response (node cfg) resp (set_watch (sy_watch s) ss) with
  | (Ok _, ss') => with_client (Streaming ss') (ss_watch ss') s
  | (Err _, ss') => with_client Disconnected (ss_watch ss') s
  end.

(** One step of the ADS task: it connects, takes a message, finds its requests no longer
    read, or loses its stream. *)
Inductive client_step {P : ProstLib} (cfg : XdsClientConfig) : System → System → Prop :=
| Step_connect cn s :
    sy_client s = Disconnected → client_step cfg s (client_connect cfg cn s)
| Step_message resp ss s :
    sy_client s = Streaming ss → client_step cfg s (client_message cfg resp ss s)
| Step_requests_dropped ss s :
    sy_client s = Streaming ss →
    client_step cfg s (with_client (Streaming (close_requests ss)) (sy_watch s) s)
| Step_stream_end ss s :
    sy_client s = Streaming ss → client_step cfg s (with_client Disconnected (sy_watch s) s).

(** One step of the two tasks that touch the configuration. *)
Inductive config_step {P : ProstLib} (cfg : XdsClientConfig) : System → System → Prop :=
| Step_client s s' : client_step cfg s s' → config_step cfg s s'
| Step_apply s : unseen s = true → config_step cfg s (apply_task s).

Definition with_shared (st : Inner) (s : System) : System :=
  {| sy_state := st; sy_watch := sy_watch s; sy_seen := sy_seen s; sy_client := sy_client s |}.

(** One step of the program, where all that shows of a request is that it moves the
    picker counter. *)
Inductive app_step {P : ProstLib} (cfg : XdsClientConfig) : System → System → Prop :=
| Step_config s s' : config_step cfg s s' → app_step cfg s s'
| Step_request s : app_step cfg s (with_shared (bump (sy_state s)) s).

Definition initial_system {L : SerdeLib} (fs : FileSystem) (args : Args) : System :=
  let '(st, w) := start fs args in
  {| sy_state := st; sy_watch := w; sy_seen := 0; sy_client := Disconnected |}.

Definition app_reachable {L : SerdeLib} {P : ProstLib} (fs : FileSystem) (args : Args) (s : System)
    : Prop :=
  rtc (app_step (client_config_of args)) (initial_system fs args) s.

(** ** The invariant *)

(** A state that serves [cfg] and is ready. *)
Definition serves (cfg : RuntimeConfig) (st : Inner) : Prop :=
  st_config st = cfg ∧ st_ready st = true ∧ st_conflicts st = [].

(** Every value published is accepted; what is served is the value seen last, and
    before the first one what the start left: nothing applied, a static
    configuration rejected, or one accepted and published. *)
Record app_inv (s : System) : Prop := {
  ap_accepted : Forall accepted (w_sent (sy_watch s));
  ap_bounded : (sy_seen s ≤ length (w_sent (sy_watch s)))%nat;
  ap_served :
    match sy_seen s with
    | O => (st_config (sy_state s) = initial_config ∧ st_ready (sy_state s) = false) ∨
           ∃ cfg, w_sent (sy_watch s) !! O = Some cfg ∧ serves cfg (sy_state s)
    | S n => ∃ cfg, w_sent (sy_watch s) !! n = Some cfg ∧ serves cfg (sy_state s)
    end }.

Lemma apply_config_serves cfg st : accepted cfg → serves cfg (apply_config cfg st).2.
Proof. intros H. unfold apply_config. rewrite H. done. Qed.

Lemma apply_config_rejects cfg st :
  ¬ accepted cfg → st_config (apply_config cfg st).2 = st_config st ∧
  st_ready (apply_config cfg st).2 = false.
Proof.
  unfold accepted, apply_config. destruct (validate cfg) as [[]|cs]; [done|]. done.
Qed.

Lemma initial_system_inv {L : SerdeLib} fs args : app_inv (initial_system fs args).
Proof.
  assert (app_inv {| sy_state := new_state initial_config; sy_watch := initial_watch;
                     sy_seen := 0; sy_client := Disconnected |}) as Hnew.
  { constructor; simpl; [constructor|lia|by left]. }
  unfold initial_system, start. destruct (a_static_config args) as [path|]; [|done].
  unfold apply_static. destruct (static_load fs _) as [[cfg|]|e]; [|done..].
  destruct (decide (accepted cfg)) as [Ha|Ha].
  - pose proof (apply_config_serves cfg (new_state initial_config) Ha) as Hs.
    unfold accepted in Ha. unfold apply_config in *. rewrite Ha in *. simpl in *.
    constructor; simpl; [by repeat constructor|lia|]. right. by exists cfg.
  - pose proof (apply_config_rejects cfg (new_state initial_config) Ha) as [Hc Hr].
    unfold accepted in Ha. unfold apply_config in *. destruct (validate cfg) as [[]|cs]; [done|].
    simpl in *. constructor; simpl; [constructor|lia|by left].
Qed.

Lemma published_after_accepted prev l : published_after prev l → Forall accepted l.
Proof.
  revert prev. induction l as [|x l IH]; intros prev; [constructor|].
  intros (Hx & _ & H). constructor; [done|by eapply IH].
Qed.

(** More publications leave what was published where it is. *)
Lemma publishes_inv w s c : app_inv s → publishes (sy_watch s) w → app_inv (with_client c w s).
Proof.
  intros [Ha Hb Hs] [_ (l & El & Hl)].
  assert (Forall accepted l) as Hacc by by eapply published_after_accepted.
  constructor; simpl; rewrite El.
  - by apply Forall_app.
  - rewrite length_app. lia.
  - assert (∀ n cfg, w_sent (sy_watch s) !! n = Some cfg →
      (w_sent (sy_watch s) ++ l) !! n = Some cfg) as Hpre by (intros; by apply lookup_app_l_Some).
    destruct (sy_seen s); naive_solver.
Qed.

(** The shared state as the watch channel explains it: not ready and nothing applied, or
    ready and serving what was published. *)
Lemma app_inv_ready s :
  app_inv s →
  (st_config (sy_state s) = initial_config ∧ st_ready (sy_state s) = false) ∨
  (st_config (sy_state s) ∈ w_sent (sy_watch s) ∧ st_ready (sy_state s) = true ∧
   st_conflicts (sy_state s) = []).
Proof.
  intros [_ _ Hs]. assert (∀ n cfg, w_sent (sy_watch s) !! n = Some cfg → serves cfg (sy_state s) →
    st_config (sy_state s) ∈ w_sent (sy_watch s) ∧ st_ready (sy_state s) = true ∧
    st_conflicts (sy_state s) = []) as Hserves.
  { intros n cfg Hn (-> & -> & ->). split; [by eapply list_elem_of_lookup_2|done]. }
  destruct (sy_seen s); naive_solver.
Qed.

Lemma with_shared_same s : with_shared (sy_state s) s = s.
Proof. by destruct s. Qed.

Lemma initial_system_seen {L : SerdeLib} fs args : sy_seen (initial_system fs args) = 0%nat.
Proof. unfold initial_system. by destruct (start fs args). Qed.

Lemma unseen_lt s : unseen s = true → (sy_seen s < length (w_sent (sy_watch s)))%nat.
Proof. unfold unseen. by rewrite Nat.ltb_lt. Qed.

Lemma watch_value_last w : w_sent w ≠ [] →
  w_sent w !! pred (length (w_sent w)) = Some (watch_value w).
Proof.
  intros Hne. unfold watch_value. rewrite <- last_lookup.
  destruct (last (w_sent w)) eqn:E; [done|]. by apply last_None in E.
Qed.

Lemma watch_accepted s : app_inv s → unseen s = true → accepted (watch_value (sy_watch s)).
Proof.
  intros Hs Hu%unseen_lt. assert (w_sent (sy_watch s) ≠ []) as Hne.
  { intros H. rewrite H in Hu. simpl in Hu. lia. }
  apply watch_value_last, list_elem_of_lookup_2 in Hne.
  by eapply Forall_forall in Hne; [|apply (ap_accepted _ Hs)].
Qed.

Lemma apply_task_serves s :
  app_inv s → unseen s = true → serves (watch_value (sy_watch s)) (sy_state (apply_task s)).
Proof.
  intros Hs Hu. pose proof (watch_accepted s Hs Hu). unfold apply_task. rewrite Hu. simpl.
  by apply apply_config_serves.
Qed.

(** When all has been seen, the last value published is served. *)
Lemma nothing_unseen s :
  app_inv s → w_sent (sy_watch s) ≠ [] → unseen s = false →
  serves (watch_value (sy_watch s)) (sy_state s).
Proof.
  intros [Ha Hb Hs] Hne Hu. unfold unseen in Hu. apply Nat.ltb_ge in Hu.
  pose proof (watch_value_last _ Hne) as Hlast.
  destruct (length (w_sent (sy_watch s))) as [|n] eqn:E.
  { by apply nil_length_inv in E. }
  assert (sy_seen s = S n) as Hseen by lia. rewrite Hseen in Hs.
  destruct Hs as (cfg & Hcfg & Hserves). simpl in Hlast. by simplify_eq.
Qed.

Lemma served_accepted s :
  app_inv s →
  (st_config (sy_state s) = initial_config ∧ st_ready (sy_state s) = false) ∨
  accepted (st_config (sy_state s)).
Proof.
  intros [Ha Hb Hs].
  assert (∀ n cfg, w_sent (sy_watch s) !! n = Some cfg → serves cfg (sy_state s) →
    accepted (st_config (sy_state s))) as Hacc.
  { intros n cfg Hn (-> & _). apply list_elem_of_lookup_2 in Hn. by eapply Forall_forall in Hn. }
  destruct (sy_seen s) as [|n].
  - destruct Hs as [?|(cfg & ? & ?)]; [by left|right; by eapply Hacc].
  - destruct Hs as (cfg & ? & ?). right. by eapply Hacc.
Qed.

Lemma apply_task_inv s : app_inv s → unseen s = true → app_inv (apply_task s).
Proof.
  intros Hs Hu. pose proof (apply_task_serves s Hs Hu) as Hserves. revert Hserves.
  unfold apply_task. rewrite Hu. simpl. intros Hserves. destruct Hs as [Ha Hb _].
  apply unseen_lt in Hu. constructor; simpl; [done|lia|].
  destruct (length (w_sent (sy_watch s))) eqn:E; [lia|].
  exists (watch_value (sy_watch s)). split; [|done].
  rewrite <- watch_value_last, E by (by intros H; rewrite H in E). done.
Qed.

Section system.
Context {P : ProstLib} (cfg : XdsClientConfig).

Lemma client_step_publishes s s' :
  client_step cfg s s' →
  publishes (sy_watch s) (sy_watch s') ∧ s' = with_client (sy_client s') (sy_watch s') s.
Proof.
  intros [cn ? _|resp ss ? _|ss ? _|ss ? _]; [| |by split..].
  - unfold client_connect. repeat case_match; by split.
  - unfold client_message.
    pose proof (handle_response_publishes (node cfg) resp (set_watch (sy_watch s0) ss)) as Hp.
    destruct (handle_response _ _ _) as [[[]|] ss']; by split.
Qed.

Lemma app_step_inv s s' : app_inv s → app_step cfg s s' → app_inv s'.
Proof.
  intros Hs Hstep. destruct Hstep as [s s' [s1 s2 Hc|s1 Hu]|s].
  - apply client_step_publishes in Hc as [Hp ->]. by apply publishes_inv.
  - by apply apply_task_inv.
  - by destruct Hs.
Qed.

Lemma app_step_inv_rtc s s' : app_inv s → rtc (app_step cfg) s s' → app_inv s'.
Proof. intros Hs Hr. induction Hr; [done|]. by eauto using app_step_inv. Qed.

(** Nothing undoes readiness: the states of two systems one step apart. *)
Lemma app_step_ready s s' :
  app_inv s → app_step cfg s s' → st_ready (sy_state s) = true → st_ready (sy_state s') = true.
Proof.
  intros Hs Hstep. destruct Hstep as [s s' [s1 s2 Hc|s1 Hu]|s]; [| |done].
  - apply client_step_publishes in Hc as [_ ->]. done.
  - intros _. by destruct (apply_task_serves s1 Hs Hu) as (_ & ? & _).
Qed.

Lemma app_steps_ready s s' :
  app_inv s → rtc (app_step cfg) s s' →
  st_ready (sy_state s) = true → st_ready (sy_state s') = true.
Proof. intros Hs Hr. induction Hr; [done|]. by eauto using app_step_inv, app_step_ready. Qed.

End system.

Lemma app_reachable_inv {L : SerdeLib} {P : ProstLib} fs args s :
  app_reachable fs args s → app_inv s.
Proof. apply app_step_inv_rtc, initial_system_inv. Qed.

(** ** Properties *)

(** Once ready, always ready: in the program as [main] puts it together, whatever
    the static file holds, whatever the control plane sends and however the tasks
    interleave, no step makes a ready proxy unready; the task that applies published
    configurations never sees one rejected. *)
Theorem app_stays_ready {L : SerdeLib} {P : ProstLib} fs args s s' :
  app_reachable fs args s → rtc (app_step (client_config_of args)) s s' →
  st_ready (sy_state s) = true →
  st_ready (sy_state s') = true ∧
  (unseen s' = true → (apply_config (watch_value (sy_watch s')) (sy_state s')).1 = Ok tt).
Proof.
  intros Hr%app_reachable_inv Hsteps Hready. split; [by eapply app_steps_ready|].
  apply app_step_inv_rtc in Hsteps; [|done]. intros Hu. unfold apply_config.
  pose proof (watch_accepted s' Hsteps Hu) as Ha. unfold accepted in Ha. by rewrite Ha.
Qed.

(** What is served follows what is published. In every reachable state the proxy
    serves its initial configuration, not ready, or an accepted one; and one turn
    of the applying task is enough to serve the latest published configuration,
    ready and without conflicts. *)
Theorem app_serves_latest {L : SerdeLib} {P : ProstLib} fs args s :
  app_reachable fs args s →
  ((st_config (sy_state s) = initial_config ∧ st_ready (sy_state s) = false) ∨
   accepted (st_config (sy_state s))) ∧
  (sy_seen s ≤ length (w_sent (sy_watch s)))%nat ∧
  (w_sent (sy_watch s) ≠ [] →
   st_config (sy_state (apply_task s)) = watch_value (sy_watch s) ∧
   st_ready (sy_state (apply_task s)) = true ∧
   st_conflicts (sy_state (apply_task s)) = []).
Proof.
  intros Hr%app_reachable_inv. split; [by apply served_accepted|].
  split; [apply (ap_bounded _ Hr)|]. intros Hne.
  destruct (unseen s) eqn:Hu; [by apply apply_task_serves|].
  unfold apply_task. rewrite Hu. by apply nothing_unseen.
Qed.

(** ** A concrete run *)

Definition example_fs_none : FileSystem := λ _, Err "No such file or directory".

Definition example_connection : Connection :=
  {| cn_endpoint := Ok tt; cn_connect := Ok tt; cn_open := Ok tt; cn_events := [] |}.

Definition on_stream (f : Session → System) (s : System) : System :=
  match sy_client s with Streaming ss => f ss | _ => s end.

Definition example_message (ty nonce bytes : string) (s : System) : System :=
  on_stream (λ ss, client_message (P := example_prost) (client_config_of default_args)
    (example_response ty "v1" nonce [bytes]) ss s) s.

Definition example_start : System := initial_system (L := example_serde) example_fs_none default_args.
Definition example_connected : System :=
  client_connect (client_config_of default_args) example_connection example_start.
Definition example_listener_sent : System := example_message LISTENER_TYPE "n1" "listener" example_connected.
Definition example_routes_sent : System := example_message ROUTE_TYPE "n2" "routes" example_listener_sent.
Definition example_published : System := example_message CLUSTER_TYPE "n3" "cluster" example_routes_sent.
Definition example_applied : System := apply_task example_published.

Lemma example_message_step ty nonce bytes s :
  match sy_client s with Streaming _ => True | _ => False end →
  config_step (P := example_prost) (client_config_of default_args) s
    (example_message ty nonce bytes s).
Proof.
  unfold example_message, on_stream. destruct (sy_client s) as [|ss|] eqn:E; [done| |done].
  intros _. by apply Step_client, Step_message.
Qed.

Lemma stream_end_step {P : ProstLib} cfg s :
  match sy_client s with Streaming _ => True | _ => False end →
  config_step cfg s (with_client Disconnected (sy_watch s) s).
Proof.
  destruct (sy_client s) as [|ss|] eqn:E; [done| |done]. intros _. by eapply Step_client, Step_stream_end.
Qed.

Lemma config_steps_app {P : ProstLib} cfg s s' :
  rtc (config_step cfg) s s' → rtc (app_step cfg) s s'.
Proof. intros Hr. induction Hr; [done|]. by eapply rtc_l; [apply Step_config|]. Qed.

Lemma example_published_steps :
  rtc (config_step (P := example_prost) (client_config_of default_args))
    example_start example_published.
Proof.
  do 3 (eapply rtc_r; [|apply example_message_step; vm_compute; exact I]).
  eapply rtc_r; [|apply Step_client, Step_connect; vm_compute; reflexivity]. apply rtc_refl.
Qed.

Lemma example_published_reachable :
  app_reachable (L := example_serde) (P := example_prost) example_fs_none default_args
    example_published.
Proof. exact (config_steps_app _ _ _ example_published_steps). Qed.

Lemma example_reachable :
  app_reachable (L := example_serde) (P := example_prost) example_fs_none default_args example_applied.
Proof.
  eapply rtc_r; [exact example_published_reachable|]. apply Step_config, Step_apply. vm_compute. reflexivity.
Qed.

Lemma example_sent : w_sent (sy_watch example_published) ≠ [].
Proof.
  apply (length_S_nonnil _ 1). vm_compute. reflexivity.
Qed.

Lemma example_stream_end :
  app_step (P := example_prost) (client_config_of default_args) example_applied
    (with_client Disconnected (sy_watch example_applied) example_applied).
Proof.
  apply Step_config, stream_end_step. vm_compute. exact I.
Qed.

Lemma app_serves_latest_witness :
  st_config (sy_state (apply_task example_published)) = watch_value (sy_watch example_published) ∧
  rc_version (watch_value (sy_watch example_published)) = "v1".
Proof.
  destruct (app_serves_latest (L := example_serde) (P := example_prost) example_fs_none default_args
    example_published example_published_reachable) as (_ & _ & H).
  split; [exact (proj1 (H example_sent))|vm_compute; reflexivity].
Defined.

Lemma app_stays_ready_witness :
  st_ready (sy_state (with_client Disconnected (sy_watch example_applied) example_applied)) = true.
Proof.
  apply (app_stays_ready (L := example_serde) (P := example_prost) example_fs_none default_args
    example_applied).
  - exact example_reachable.
  - exact (rtc_once _ _ example_stream_end).
  - vm_compute. reflexivity.
Defined.
