(* ===== verification/AppClient.v ===== *)
(** * The ADS task as a loop and as steps (crates/app/src/main.rs, crates/xds/src/client.rs)

    [XdsClient.run] is the loop of the client over a list of connections, each with the
    events of its stream. [App] has the same client as a task that takes one step at a
    time, so that it can interleave with the task that applies configurations. The two
    agree: the values that the watch channel can come to hold are the same
    ([client_steps_run]).

    In [main] the receiver of the watch channel lives in the applying task, which does
    not end before the sender: no [ReceiversDropped] among the events. *)

From S2P Require Import Prelude RustString Net Config Identity ProxyState.
From S2P Require Import XdsProto XdsConvert AdsState XdsClient App.

Section client.
Context {P : ProstLib} (cfg : XdsClientConfig).

Definition keeps_receivers (evs : list StreamEvent) : Prop := ReceiversDropped ∉ evs.

Definition with_events (cn : Connection) (evs : list StreamEvent) : Connection :=
  {| cn_endpoint := cn_endpoint cn; cn_connect := cn_connect cn; cn_open := cn_open cn;
     cn_events := evs |}.

Lemma connect_with_events cn evs :
  connect_channel cfg (with_events cn evs) = connect_channel cfg cn.
Proof. done. Qed.

Definition opens (cn : Connection) : Prop :=
  connect_channel cfg cn = Ok tt ∧ cn_open cn = Ok tt.

Lemma fresh_session_watch w : ss_watch (fresh_session cfg w) = w.
Proof. unfold fresh_session, start_session. by destruct (set_subscription _ _ _). Qed.

Lemma run_once_opens cn w :
  opens cn →
  run_once cfg cn w =
  let '(r, s) := run_stream (node cfg) (cn_events cn) (fresh_session cfg w) in (r, ss_watch s).
Proof. intros [Hc Ho]. unfold run_once. by rewrite Hc, start_session_ok, Ho. Qed.

(** ** From steps to the loop *)

(** After the events [evs] the loop goes on from [s']; after the connections [cns] from
    [w']. *)
Definition stream_at (evs : list StreamEvent) (s s' : Session) : Prop :=
  ∀ evs', run_stream (node cfg) (evs ++ evs') s = run_stream (node cfg) evs' s'.

Definition conns_at (cns : list Connection) (w w' : WatchSender) : Prop :=
  ∀ cns', run cfg (cns ++ cns') w = run cfg cns' w'.

Lemma stream_at_snoc ev evs s s1 s2 :
  stream_at evs s s1 → stream_at [ev] s1 s2 → stream_at (evs ++ [ev]) s s2.
Proof. intros H1 H2 evs'. rewrite <- app_assoc, H1. apply H2. Qed.

Lemma conns_at_snoc cn cns w w1 w2 :
  conns_at cns w w1 → conns_at [cn] w1 w2 → conns_at (cns ++ [cn]) w w2.
Proof. intros H1 H2 cns'. rewrite <- app_assoc, H1. apply H2. Qed.

(** A connection that ends, other than for its endpoint. *)
Lemma conns_at_ended cn w r w' :
  run_once cfg cn w = (Some r, w') → (∀ e src, r ≠ Err (InvalidEndpoint e src)) →
  conns_at [cn] w w'.
Proof.
  intros Hr Hne cns'. simpl. rewrite Hr. destruct r as [[]|[]]; try done.
  by destruct (Hne endpoint source).
Qed.

(** A stream open since [w], after the events [evs]. *)
Record streaming_from (w : WatchSender) (cn : Connection) (evs : list StreamEvent) (ss : Session)
    : Prop := {
  sf_opens : opens cn;
  sf_receivers : keeps_receivers evs;
  sf_at : stream_at evs (fresh_session cfg w) ss }.

Definition all_keep (cns : list Connection) : Prop :=
  Forall (λ cn, keeps_receivers (cn_events cn)) cns.

(** What the loop has done to bring the task where it is. *)
Definition client_inv (w0 : WatchSender) (s : System) : Prop :=
  match sy_client s with
  | Disconnected => ∃ cns, all_keep cns ∧ conns_at cns w0 (sy_watch s)
  | Streaming ss =>
      ss_watch ss = sy_watch s ∧
      ∃ cns w cn evs, all_keep cns ∧ conns_at cns w0 w ∧ streaming_from w cn evs ss
  | Exited => ∃ cns, all_keep cns ∧ (run cfg cns w0).2 = sy_watch s
  end.

Lemma keeps_snoc evs ev : keeps_receivers evs → ev ≠ ReceiversDropped → keeps_receivers (evs ++ [ev]).
Proof. unfold keeps_receivers. set_solver. Qed.

Lemma all_keep_snoc cns cn :
  all_keep cns → keeps_receivers (cn_events cn) → all_keep (cns ++ [cn]).
Proof. intros. apply Forall_app. by repeat constructor. Qed.

Lemma streaming_from_snoc w cn evs ss ev ss' :
  streaming_from w cn evs ss → ev ≠ ReceiversDropped → stream_at [ev] ss ss' →
  streaming_from w cn (evs ++ [ev]) ss'.
Proof.
  intros [Ho Hk Ha] Hev Hs. split; [done|by apply keeps_snoc|by eapply stream_at_snoc].
Qed.

(** An event that ends the stream leads back to the reconnecting loop. *)
Lemma stream_ends_inv w0 cns w cn evs ss ev r ss' :
  all_keep cns → conns_at cns w0 w → streaming_from w cn evs ss → ev ≠ ReceiversDropped →
  run_stream (node cfg) [ev] ss = (Some r, ss') →
  ∃ cns', all_keep cns' ∧ conns_at cns' w0 (ss_watch ss').
Proof.
  intros Hall Hcns [Ho Hk Ha] Hev Hr.
  exists (cns ++ [with_events cn (evs ++ [ev])]).
  split; [apply all_keep_snoc; [done|by apply keeps_snoc]|].
  eapply conns_at_snoc; [exact Hcns|]. apply (conns_at_ended _ _ r).
  - rewrite run_once_opens by exact Ho. simpl. rewrite (Ha [ev]). by rewrite Hr.
  - intros e src ->. pose proof (run_stream_error (node cfg) [ev] ss) as He.
    rewrite Hr in He. by apply (He _ eq_refl).
Qed.

Lemma refused_inv w0 s cns cn e :
  all_keep cns → conns_at cns w0 (sy_watch s) →
  run_once cfg (with_events cn []) (sy_watch s) = (Some (Err e), sy_watch s) →
  (∀ e' src, e ≠ InvalidEndpoint e' src) →
  client_inv w0 (with_client Disconnected (sy_watch s) s).
Proof.
  intros Hall Hcns Hr He. exists (cns ++ [with_events cn []]).
  split; [apply all_keep_snoc; [done|apply not_elem_of_nil]|].
  eapply conns_at_snoc; [exact Hcns|]. eapply conns_at_ended; [exact Hr|]. naive_solver.
Qed.

Lemma client_connect_loop w0 cn s :
  client_inv w0 s → sy_client s = Disconnected → client_inv w0 (client_connect cfg cn s).
Proof.
  unfold client_inv at 1. intros Hs Hd. rewrite Hd in Hs. destruct Hs as (cns & Hall & Hcns).
  unfold client_connect.
  destruct (connect_channel cfg cn) as [[]|e] eqn:Ec.
  - rewrite start_session_ok. destruct (cn_open cn) as [[]|st] eqn:Eo.
    + split; [apply fresh_session_watch|]. exists cns, (sy_watch s), cn, [].
      split_and!; [done..|]. split; [done|apply not_elem_of_nil|by intros evs'].
    + eapply (refused_inv _ _ _ cn (StreamOpen st)); [done..| |done].
      unfold run_once. rewrite connect_with_events, Ec, start_session_ok. simpl.
      rewrite Eo. simpl. by rewrite fresh_session_watch.
  - assert (run_once cfg (with_events cn []) (sy_watch s) = (Some (Err e), sy_watch s)) as Hr.
    { unfold run_once. by rewrite connect_with_events, Ec. }
    destruct e; try (by eapply refused_inv; [exact Hall|exact Hcns|exact Hr|]).
    exists (cns ++ [with_events cn []]).
    split; [apply all_keep_snoc; [done|apply not_elem_of_nil]|].
    rewrite Hcns. simpl. by rewrite Hr.
Qed.

Lemma set_watch_same ss w : ss_watch ss = w → set_watch w ss = ss.
Proof. intros <-. by destruct ss. Qed.

Lemma client_message_loop w0 resp ss s :
  client_inv w0 s → sy_client s = Streaming ss → client_inv w0 (client_message cfg resp ss s).
Proof.
  unfold client_inv at 1. intros Hs Hd. rewrite Hd in Hs.
  destruct Hs as (Hw & cns & w & cn & evs & Hall & Hcns & Hf).
  unfold client_message. rewrite set_watch_same by exact Hw.
  destruct (handle_response (node cfg) resp ss) as [[[]|e] ss'] eqn:E.
  - split; [done|]. exists cns, w, cn, (evs ++ [Message resp]). split_and!; [done..|].
    eapply streaming_from_snoc; [exact Hf|done|]. intros evs'. simpl. by rewrite E.
  - eapply (stream_ends_inv _ _ _ _ _ _ (Message resp)); [done..|]. simpl. by rewrite E.
Qed.

Lemma config_step_loop w0 s s' : client_inv w0 s → config_step cfg s s' → client_inv w0 s'.
Proof.
  intros Hs Hstep. destruct Hstep as [s s' Hc|s Hu];
    [destruct Hc as [cn s Hd|resp ss s Hd|ss s Hd|ss s Hd]|].
  - by apply client_connect_loop.
  - by apply client_message_loop.
  - unfold client_inv in *. rewrite Hd in Hs. destruct Hs as (Hw & cns & w & cn & evs & ? & ? & Hf).
    split; [done|]. exists cns, w, cn, (evs ++ [RequestsDropped]). split_and!; [done..|].
    by eapply streaming_from_snoc.
  - unfold client_inv in *. rewrite Hd in Hs. destruct Hs as (Hw & cns & w & cn & evs & ? & ? & Hf).
    simpl. rewrite <- Hw. by eapply (stream_ends_inv _ _ _ _ _ _ StreamEnd).
  - unfold client_inv, apply_task in *. by rewrite Hu.
Qed.

Lemma client_inv_run w0 s :
  client_inv w0 s → ∃ cns, all_keep cns ∧ (run cfg cns w0).2 = sy_watch s.
Proof.
  unfold client_inv. destruct (sy_client s) as [|ss|]; [|..|done].
  - intros (cns & Hall & Hcns). exists cns. split; [done|].
    specialize (Hcns []). rewrite app_nil_r in Hcns. by rewrite Hcns.
  - intros (<- & cns & w & cn & evs & Hall & Hcns & [Ho Hk Ha]).
    exists (cns ++ [with_events cn evs]). split; [by apply all_keep_snoc|].
    rewrite Hcns. simpl. rewrite run_once_opens by exact Ho. simpl.
    specialize (Ha []). rewrite app_nil_r in Ha. by rewrite Ha.
Qed.

(** ** From the loop to steps *)

Lemma run_stream_steps evs ss s :
  keeps_receivers evs → sy_client s = Streaming ss → ss_watch ss = sy_watch s →
  ∃ s', rtc (config_step cfg) s s' ∧ sy_watch s' = ss_watch (run_stream (node cfg) evs ss).2 ∧
    ((run_stream (node cfg) evs ss).1 ≠ None → sy_client s' = Disconnected).
Proof.
  revert ss s. induction evs as [|ev evs IH]; intros ss s Hk Hd Hw.
  { exists s. by split_and!. }
  apply not_elem_of_cons in Hk as [Hev Hk].
  assert (∃ s', rtc (config_step cfg) s s' ∧ sy_watch s' = ss_watch ss ∧ sy_client s' = Disconnected)
    as Hend.
  { eexists. split_and!; [by eapply rtc_once, Step_client, Step_stream_end|done|done]. }
  destruct ev as [resp| |status| |]; simpl; [| | | |done].
  - assert (config_step cfg s (client_message cfg resp ss s)) as Hstep
      by by apply Step_client, Step_message.
    unfold client_message in Hstep. rewrite set_watch_same in Hstep by exact Hw.
    destruct (handle_response (node cfg) resp ss) as [[[]|e] ss'].
    + destruct (IH ss' (with_client (Streaming ss') (ss_watch ss') s) Hk eq_refl eq_refl) as (s' & ? & ? & ?).
      exists s'. split_and!; [by eapply rtc_l|done|done].
    + eexists. split_and!; [by apply rtc_once|done|done].
  - naive_solver.
  - naive_solver.
  - destruct (IH (close_requests ss) (with_client (Streaming (close_requests ss)) (sy_watch s) s)
      Hk eq_refl Hw) as (s' & ? & ? & ?).
    exists s'. split_and!; [|done|done]. eapply rtc_l; [by apply Step_client, Step_requests_dropped|done].
Qed.

Lemma run_once_steps cn s :
  keeps_receivers (cn_events cn) → sy_client s = Disconnected →
  ∃ s', rtc (config_step cfg) s s' ∧ sy_watch s' = (run_once cfg cn (sy_watch s)).2 ∧
    match (run_once cfg cn (sy_watch s)).1 with
    | None | Some (Err (InvalidEndpoint _ _)) => True
    | Some _ => sy_client s' = Disconnected
    end.
Proof.
  intros Hk Hd. pose proof (Step_client _ _ _ (Step_connect cfg cn s Hd)) as Hstep. unfold client_connect in Hstep.
  unfold run_once. destruct (connect_channel cfg cn) as [[]|e].
  - rewrite start_session_ok in *. destruct (cn_open cn) as [[]|st]; simpl.
    + edestruct (run_stream_steps (cn_events cn) (fresh_session cfg (sy_watch s))
        (with_client (Streaming (fresh_session cfg (sy_watch s))) (sy_watch s) s))
        as (s' & Hs & Hw & Hr); [done|done|apply fresh_session_watch|].
      destruct (run_stream _ _ _) as [[r|] ss]; simpl in *;
        (exists s'; split_and!; [by eapply rtc_l|done|]); [|done].
      specialize (Hr ltac:(done)). by destruct r as [|[]].
    + eexists. split_and!; [by apply rtc_once| |done]. simpl. by rewrite fresh_session_watch.
  - destruct e; (eexists; split_and!; [by apply rtc_once|done|done]).
Qed.

Lemma run_steps cns s :
  all_keep cns → sy_client s = Disconnected →
  ∃ s', rtc (config_step cfg) s s' ∧ sy_watch s' = (run cfg cns (sy_watch s)).2.
Proof.
  revert s. induction cns as [|cn cns IH]; intros s Hall Hd; [by exists s|].
  inversion Hall as [|?? Hk Hall']; subst. simpl.
  destruct (run_once_steps cn s Hk Hd) as (s1 & Hs1 & Hw1 & Hr1).
  assert (sy_client s1 = Disconnected → ∃ s',
    rtc (config_step cfg) s s' ∧ sy_watch s' = (run cfg cns (sy_watch s1)).2) as Hgo.
  { intros Hd1. destruct (IH s1 Hall' Hd1) as (s2 & Hs2 & Hw2). exists s2.
    split; [by etrans|done]. }
  destruct (run_once cfg cn (sy_watch s)) as [[[[]|e]|] w1]; simpl in *; subst.
  - by apply Hgo.
  - destruct e; try (by apply Hgo). by exists s1.
  - by exists s1.
Qed.

End client.

(** C15: The ADS task of the running program is the client's loop. From a state in which
    it is not connected, the steps of the tasks, in any order and with any answers of
    the control plane, can leave the watch channel exactly in the states in which the
    loop of [XdsClient::run] leaves it over some list of connections (the watch
    channel keeps its receiver throughout): the interleaving with the applying task
    neither adds nor removes a publication. *)
Theorem client_steps_run {P : ProstLib} cfg s w :
  sy_client s = Disconnected →
  (∃ s', rtc (config_step cfg) s s' ∧ sy_watch s' = w) ↔
  (∃ cns, Forall (λ cn, ReceiversDropped ∉ cn_events cn) cns ∧ (run cfg cns (sy_watch s)).2 = w).
Proof.
  intros Hd. split.
  - intros (s' & Hr & <-). apply (client_inv_run cfg (sy_watch s)).
    assert (client_inv cfg (sy_watch s) s) as Hs.
    { unfold client_inv. rewrite Hd. exists []. split; [constructor|by intros cns']. }
    clear Hd. revert Hs. generalize (sy_watch s). intros w0 Hs.
    induction Hr; [done|]. by eauto using config_step_loop.
  - intros (cns & Hall & <-). by apply run_steps.
Qed.

Lemma client_steps_run_witness :
  ∃ cns, Forall (λ cn, ReceiversDropped ∉ cn_events cn) cns ∧
    (run (P := example_prost) (client_config_of default_args) cns initial_watch).2
    = sy_watch example_published.
Proof.
  apply (client_steps_run (P := example_prost) (client_config_of default_args) example_start
    (sy_watch example_published) eq_refl).
  exists example_published. split; [exact example_published_steps|reflexivity].
Defined.
