(* ===== verification/Gateway.v ===== *)
(** * The whole gateway (crates/app/src/main.rs with crates/proxy and crates/admin)

    [main] runs its tasks on one shared state: the ADS client, the task that applies what
    it publishes, the proxy, which serves any number of requests at once ([ServerConc]),
    and the admin server, which answers any number of probes. Here all of them take their
    steps in any order, one access to shared state at a time: the applying task wakes up,
    borrows the value of the watch channel and then takes the locks of [apply_config] one
    after the other ([ProxyConc.thread]), and a probe reads the three fields of its answer
    one after the other. Files and the network may answer differently at every step.

    A probe holds the lock of the configuration between its second and its third read, as
    in [ProxyConc]: the applying task queues up behind it, and requests and probes that
    want to read the configuration wait behind the queue.

    The applying task of [App], one step there, is a run of its small steps
    ([apply_task_small_steps]). *)

From S2P Require Import Prelude RustString Net Config ProxyState ProxyConc Http Mtls Server.
From S2P Require Import ServerConc XdsProto XdsConvert AdsState XdsClient Source Admin App.

Section gateway.
Context {L : SerdeLib} {P : ProstLib} {H : HttpLib} {T : TlsLib}.

(** ** State and steps *)

(** A request sent upstream, with the request it was sent for and the configuration
    that one works with. *)
Record Sent := {
  se_config : RuntimeConfig;
  se_for : Request H;
  se_client : OutClient T;
  se_request : Request H }.

(** The applying task: waiting in [changed], woken up, or inside [apply_config]. *)
Inductive apply_loop :=
| ApplyIdle
| ApplyWoken
| Applying (t : thread).

(** The ADS task and the shared state, the applying task, the clients of the proxy, its
    requests and the probes of the admin server in the order they came in, and all that
    was sent upstream. *)
Record GatewayState := {
  gw_app : System;
  gw_apply : apply_loop;
  gw_mtls : MtlsSupport T;
  gw_threads : list (request_thread H);
  gw_probes : list thread;
  gw_sent : list Sent }.

Definition gw_server (g : GatewayState) : ProxyServer T :=
  {| sv_state := sy_state (gw_app g); sv_mtls := gw_mtls g |}.

Definition set_app (s : System) (g : GatewayState) : GatewayState :=
  {| gw_app := s; gw_apply := gw_apply g; gw_mtls := gw_mtls g; gw_threads := gw_threads g;
     gw_probes := gw_probes g; gw_sent := gw_sent g |}.

Definition set_apply (a : apply_loop) (g : GatewayState) : GatewayState :=
  {| gw_app := gw_app g; gw_apply := a; gw_mtls := gw_mtls g; gw_threads := gw_threads g;
     gw_probes := gw_probes g; gw_sent := gw_sent g |}.

Definition set_probes (ts : list thread) (g : GatewayState) : GatewayState :=
  {| gw_app := gw_app g; gw_apply := gw_apply g; gw_mtls := gw_mtls g;
     gw_threads := gw_threads g; gw_probes := ts; gw_sent := gw_sent g |}.

Definition accept_request (req : Request H) (g : GatewayState) : GatewayState :=
  {| gw_app := gw_app g; gw_apply := gw_apply g; gw_mtls := gw_mtls g;
     gw_threads := gw_threads g ++ [RqStart req]; gw_probes := gw_probes g;
     gw_sent := gw_sent g |}.

(** What a step of thread [t] sends, with its configuration and request. *)
Definition tag_sent (t : request_thread H) (tr : list (OutClient T * Request H)) : list Sent :=
  match thread_config t with
  | Some (cfg, req) =>
      (λ p, {| se_config := cfg; se_for := req; se_client := p.1; se_request := p.2 |}) <$> tr
  | None => []
  end.

(** The lock of the configuration: a probe holds it for reading, the applying task is in
    its queue. *)
Definition lock_held (g : GatewayState) : bool := existsb holds_config (gw_probes g).

Definition lock_queued (g : GatewayState) : bool :=
  match gw_apply g with Applying t => queued t | _ => false end.

(** A request starts by reading the configuration. *)
Definition request_waits (g : GatewayState) (t : request_thread H) : bool :=
  match t with RqStart _ => lock_queued g | _ => false end.

(** One step of request [i], with the files and the network as they are then. *)
Definition advance (fs : FileSystem) (net : OutClient T → Request H → result Response string)
    (i : nat) (g : GatewayState) : option GatewayState :=
  t ← gw_threads g !! i;
  if request_waits g t then None
  else
    '(t', srv', tr) ← request_step false fs net t (gw_server g);
    Some {| gw_app := with_shared (sv_state srv') (gw_app g); gw_apply := gw_apply g;
            gw_mtls := sv_mtls srv'; gw_threads := <[i := t']> (gw_threads g);
            gw_probes := gw_probes g; gw_sent := gw_sent g ++ tag_sent t' tr |}.

(** [changed] marks the latest value as seen; [borrow] reads the value that is the latest
    by then, and does not mark it. *)
Definition mark_seen (s : System) : System :=
  {| sy_state := sy_state s; sy_watch := sy_watch s;
     sy_seen := length (w_sent (sy_watch s)); sy_client := sy_client s |}.

Definition apply_loop_step (g : GatewayState) : option GatewayState :=
  match gw_apply g with
  | ApplyIdle =>
      if unseen (gw_app g) then Some (set_apply ApplyWoken (set_app (mark_seen (gw_app g)) g))
      else None
  | ApplyWoken => Some (set_apply (Applying (ApplyStart (watch_value (sy_watch (gw_app g))))) g)
  | Applying t =>
      if waits (lock_held g) false t
      then match t with
           | ApplyConfig cfg => Some (set_apply (Applying (ApplyQueued cfg)) g)
           | _ => None
           end
      else
        match thread_step t (sy_state (gw_app g)) with
        | Some (t', st') => Some (set_apply (Applying t') (set_app (with_shared st' (gw_app g)) g))
        | None => Some (set_apply ApplyIdle g)
        end
  end.

(** A probe, [/readyz] or [/metrics], calls [readiness]. *)
Definition accept_probe (g : GatewayState) : GatewayState :=
  set_probes (gw_probes g ++ [ReadReady]) g.

Definition probe_step (i : nat) (g : GatewayState) : option GatewayState :=
  t ← gw_probes g !! i;
  if waits (lock_held g) (lock_queued g) t then None
  else
    '(t', st') ← thread_step t (sy_state (gw_app g));
    Some (set_probes (<[i := t']> (gw_probes g)) (set_app (with_shared st' (gw_app g)) g)).

Inductive gateway_step (cfg : XdsClientConfig) : GatewayState → GatewayState → Prop :=
| Gw_client g s' : client_step cfg (gw_app g) s' → gateway_step cfg g (set_app s' g)
| Gw_apply g g' : apply_loop_step g = Some g' → gateway_step cfg g g'
| Gw_accept req g : gateway_step cfg g (accept_request req g)
| Gw_request fs net i g g' : advance fs net i g = Some g' → gateway_step cfg g g'
| Gw_accept_probe g : gateway_step cfg g (accept_probe g)
| Gw_probe i g g' : probe_step i g = Some g' → gateway_step cfg g g'.

Definition gateway_start (fs : FileSystem) (mtls : MtlsSupport T) (args : Args) : GatewayState :=
  {| gw_app := initial_system fs args; gw_apply := ApplyIdle; gw_mtls := mtls;
     gw_threads := []; gw_probes := []; gw_sent := [] |}.

Definition gateway_reachable (fs : FileSystem) (mtls : MtlsSupport T) (args : Args)
    (g : GatewayState) : Prop :=
  rtc (gateway_step (client_config_of args)) (gateway_start fs mtls args) g.

(** Up to [n] steps of the applying task, with nothing in between. *)
Fixpoint apply_runs (n : nat) (g : GatewayState) : GatewayState :=
  match n with
  | O => g
  | S n' => match apply_loop_step g with Some g' => apply_runs n' g' | None => g end
  end.

(** ** What is published and what is served *)

(** The configurations served so far are among these. *)
Definition published (s : System) (cfg : RuntimeConfig) : Prop :=
  cfg = initial_config ∨ cfg ∈ w_sent (sy_watch s).

(** [cfg] was sent, and not before the last value marked as seen. *)
Definition sent_since (s : System) (cfg : RuntimeConfig) : Prop :=
  ∃ k, (sy_seen s ≤ S k)%nat ∧ w_sent (sy_watch s) !! k = Some cfg.

(** What the applying task knows at its program point. *)
Definition apply_inv (s : System) (a : apply_loop) : Prop :=
  let st := sy_state s in
  match a with
  | ApplyIdle => sy_seen s = 0%nat ∨ (sent_since s (st_config st) ∧ st_ready st = true)
  | ApplyWoken => (0 < sy_seen s)%nat
  | Applying (ApplyStart cfg) | Applying (ApplyConfig cfg) | Applying (ApplyQueued cfg) =>
      sent_since s cfg
  | Applying ApplyClear => sent_since s (st_config st)
  | Applying ApplyReady => sent_since s (st_config st) ∧ st_conflicts st = []
  | Applying (ApplyDone _) => sent_since s (st_config st) ∧ st_ready st = true
  | Applying _ => False
  end.

Record config_inv (s : System) (a : apply_loop) : Prop := {
  ci_accepted : Forall accepted (w_sent (sy_watch s));
  ci_bounded : (sy_seen s ≤ length (w_sent (sy_watch s)))%nat;
  ci_published : published s (st_config (sy_state s));
  ci_ready : st_ready (sy_state s) = true →
    st_config (sy_state s) ∈ w_sent (sy_watch s) ∧ st_conflicts (sy_state s) = [];
  ci_apply : apply_inv s a }.

(** What a probe knows, given what was published: once it has read [true], it will answer
    with the version of a published configuration and no conflicts. *)
Definition probe_inv (s : System) (t : thread) : Prop :=
  let versions v := ∃ cfg, cfg ∈ w_sent (sy_watch s) ∧ rc_version cfg = v in
  match t with
  | ReadReady => True
  | ReadVersion b => b = true → st_ready (sy_state s) = true
  | ReadConflicts b v => b = true → st_ready (sy_state s) = true ∧ versions v
  | ReadDone r => rd_ready r = true → rd_conflicts r = [] ∧ versions (rd_version r)
  | _ => False
  end.

Record gateway_inv (g : GatewayState) : Prop := {
  gi_config : config_inv (gw_app g) (gw_apply g);
  gi_threads : Forall (request_inv (published (gw_app g))) (gw_threads g);
  gi_probes : Forall (probe_inv (gw_app g)) (gw_probes g);
  gi_sent : ∀ e, e ∈ gw_sent g →
    se_config e ∈ w_sent (sy_watch (gw_app g)) ∧
    sent_for (se_config e) (se_for e) (se_client e) (se_request e) }.

(** What every step may change of what others rely on: more is published, and readiness
    is kept. *)
Record grows (s s' : System) : Prop := {
  gr_sent : ∃ l, w_sent (sy_watch s') = w_sent (sy_watch s) ++ l;
  gr_ready : st_ready (sy_state s) = true → st_ready (sy_state s') = true }.

Lemma grows_elem s s' cfg :
  grows s s' → cfg ∈ w_sent (sy_watch s) → cfg ∈ w_sent (sy_watch s').
Proof. intros [[l ->] _] Hin. set_solver. Qed.

Lemma grows_published s s' cfg : grows s s' → published s cfg → published s' cfg.
Proof. intros Hg [->|?]; [by left|right; by eapply grows_elem]. Qed.

Lemma grows_lookup s s' k cfg :
  grows s s' → w_sent (sy_watch s) !! k = Some cfg → w_sent (sy_watch s') !! k = Some cfg.
Proof. intros [[l ->] _]. by apply lookup_app_l_Some. Qed.

Lemma grows_sent_since s s' cfg :
  grows s s' → sy_seen s' = sy_seen s → sent_since s cfg → sent_since s' cfg.
Proof. intros Hg Hs (k & Hk & Hl). exists k. rewrite Hs. split; [done|by eapply grows_lookup]. Qed.

Lemma grows_probe s s' t : grows s s' → probe_inv s t → probe_inv s' t.
Proof.
  intros Hg. pose proof (gr_ready _ _ Hg) as Hr.
  assert (∀ v, (∃ cfg, cfg ∈ w_sent (sy_watch s) ∧ rc_version cfg = v) →
    ∃ cfg, cfg ∈ w_sent (sy_watch s') ∧ rc_version cfg = v) as Hv.
  { intros v (cfg & Hin & <-). exists cfg. split; [by eapply grows_elem|done]. }
  destruct t as [| | | | | | | | |b|b v|r]; simpl; naive_solver.
Qed.

Lemma grows_inv s s' (ts : list (request_thread H)) ps :
  grows s s' → Forall (request_inv (published s)) ts → Forall (probe_inv s) ps →
  Forall (request_inv (published s')) ts ∧ Forall (probe_inv s') ps.
Proof.
  intros Hg Ht Hp. split; (eapply Forall_impl; [done|]); intros t.
  - apply request_inv_mono. intros cfg. by apply grows_published.
  - by apply grows_probe.
Qed.

Lemma grows_same s s' :
  sy_watch s' = sy_watch s → st_ready (sy_state s') = st_ready (sy_state s) → grows s s'.
Proof.
  intros Hw Hr. split; [exists []; by rewrite Hw, app_nil_r|by rewrite Hr].
Qed.

(** The initial configuration has no listener, so a request it starts with is never
    sent. *)
Lemma initial_no_upstream input c ep : ¬ upstream_of initial_config input c ep.
Proof. intros (route & w & Hr & _). done. Qed.

Lemma sent_for_published s cfg req cl req' :
  published s cfg → sent_for cfg req cl req' → cfg ∈ w_sent (sy_watch s).
Proof.
  intros [->|?] Hs; [|done]. destruct Hs as (c & ep & uri & Hu & _).
  by apply initial_no_upstream in Hu.
Qed.

Lemma sent_since_elem s cfg : sent_since s cfg → cfg ∈ w_sent (sy_watch s).
Proof. intros (k & _ & Hk). by eapply list_elem_of_lookup_2. Qed.

Lemma published_accepted s a cfg : config_inv s a → published s cfg → accepted cfg.
Proof. intros [Ha _ _ _ _] [->|Hin]; [reflexivity|]. by eapply Forall_forall in Hin. Qed.

(** ** The steps *)

(** A step that changes only what the ADS task owns, or only the picker counter. *)
Lemma client_step_inv cfg s s' a :
  config_inv s a → client_step cfg s s' → config_inv s' a ∧ grows s s'.
Proof.
  intros [Ha Hb Hp Hr Hs] [[_ (l & El & Hl)] Es]%client_step_publishes.
  assert (grows s s') as Hg.
  { split; [by exists l|]. rewrite Es. done. }
  assert (Forall accepted l) as Hacc by by eapply published_after_accepted.
  assert (sy_state s' = sy_state s ∧ sy_seen s' = sy_seen s) as [Est Eseen] by by rewrite Es.
  split; [|done]. constructor.
  - rewrite El. by apply Forall_app.
  - rewrite El, Eseen, length_app. lia.
  - rewrite Est. by eapply grows_published.
  - rewrite Est. intros [Hin Hc]%Hr. split; [by eapply grows_elem|done].
  - assert (∀ cfg, sent_since s cfg → sent_since s' cfg) as Hss
      by (intros; by eapply grows_sent_since).
    destruct a as [| |[]]; simpl in *; rewrite ?Est, ?Eseen; naive_solver.
Qed.

Lemma counter_step_inv s a st' :
  config_inv s a → st' = sy_state s ∨ st' = bump (sy_state s) →
  config_inv (with_shared st' s) a ∧ grows s (with_shared st' s).
Proof.
  intros Hs Hst. assert (st_config st' = st_config (sy_state s) ∧
    st_ready st' = st_ready (sy_state s) ∧ st_conflicts st' = st_conflicts (sy_state s))
    as (Ec & Er & Ecs) by by destruct Hst as [-> | ->].
  split; [|by apply grows_same]. destruct Hs as [Ha Hb Hp Hr Hi].
  constructor; simpl; [done|done|by rewrite Ec|by rewrite Ec, Er, Ecs|].
  destruct a as [| |[]]; simpl in *; rewrite ?Ec, ?Er, ?Ecs; done.
Qed.

(** The lock and atomic accesses of the applying task: nothing is ever rejected. *)
Lemma apply_thread_inv s t t' st' :
  config_inv s (Applying t) → thread_step t (sy_state s) = Some (t', st') →
  config_inv (with_shared st' s) (Applying t') ∧ grows s (with_shared st' s).
Proof.
  intros Hs Hstep. pose proof Hs as [Ha Hb Hp Hr Hi].
  assert (∀ cfg, sent_since s cfg → accepted cfg) as Hacc.
  { intros cfg Hin%sent_since_elem. by eapply Forall_forall in Hin. }
  assert (∀ cfg, sent_since s cfg → config_inv (with_shared (store_config cfg (sy_state s)) s)
    (Applying ApplyClear) ∧ grows s (with_shared (store_config cfg (sy_state s)) s)) as Hwrite.
  { intros cfg Hc. split; [|by apply grows_same]. pose proof (sent_since_elem _ _ Hc).
    constructor; simpl; [done..|by right| |done]. intros [_ ?]%Hr. done. }
  destruct t as [cfg|cfg|cfg| | | | | | | | |]; simpl in Hi, Hstep; try done; simplify_eq.
  - apply Hacc in Hi as Hv. unfold accepted in Hv. rewrite Hv.
    split; [|by apply grows_same]. by constructor.
  - by apply Hwrite.
  - by apply Hwrite.
  - split; [|by apply grows_same].
    constructor; simpl; [done..| |done]. intros [? _]%Hr. done.
  - destruct Hi as [Hi Hc]. pose proof (sent_since_elem _ _ Hi).
    split; [|by split; [exists []; by rewrite app_nil_r|]]. by constructor.
Qed.

Lemma apply_loop_inv g g' :
  config_inv (gw_app g) (gw_apply g) → apply_loop_step g = Some g' →
  config_inv (gw_app g') (gw_apply g') ∧ grows (gw_app g) (gw_app g').
Proof.
  intros Hs. unfold apply_loop_step. destruct (gw_apply g) as [| |t] eqn:Ea.
  - destruct (unseen (gw_app g)) eqn:Hu; [|done]. intros [= <-]. simpl.
    split; [|by apply grows_same]. destruct Hs as [Ha Hb Hp Hr Hi].
    apply unseen_lt in Hu. constructor; simpl; [done|done|done|done|lia].
  - intros [= <-]. simpl. split; [|by apply grows_same].
    destruct Hs as [Ha Hb Hp Hr Hi]. simpl in Hi. constructor; simpl; [done..|].
    exists (pred (length (w_sent (sy_watch (gw_app g))))). split; [lia|].
    apply watch_value_last. intros E. rewrite E in Hb. simpl in Hb. lia.
  - destruct (waits _ _ t).
    { destruct t; try done. intros [= <-]. simpl. split; [|by apply grows_same].
      destruct Hs as [Ha Hb Hp Hr Hi]. by constructor. }
    destruct (thread_step t _) as [[t' st']|] eqn:Et; intros [= <-]; simpl.
    + by eapply apply_thread_inv.
    + split; [|by apply grows_same]. destruct Hs as [Ha Hb Hp Hr Hi].
      constructor; simpl; [done..|]. destruct t; simpl in *; try done. by right.
Qed.

Lemma probe_thread_inv s a t t' st' :
  config_inv s a → probe_inv s t → thread_step t (sy_state s) = Some (t', st') →
  st' = sy_state s ∧ probe_inv s t'.
Proof.
  intros [_ _ _ Hr _] Ht Hstep.
  destruct t as [| | | | | | | | |b|b v|r]; simpl in *; try done; simplify_eq; (split; [done|]).
  - simpl. auto.
  - intros Hb. specialize (Ht Hb). split; [done|]. destruct (Hr Ht) as [Hin _]. by eexists.
  - simpl. intros Hb. destruct (Ht Hb) as [Hready Hv]. split; [by apply Hr|done].
Qed.

Lemma advance_spec fs net i g g' :
  advance fs net i g = Some g' →
  ∃ t t' srv' tr, gw_threads g !! i = Some t ∧
    request_step false fs net t (gw_server g) = Some (t', srv', tr) ∧
    g' = {| gw_app := with_shared (sv_state srv') (gw_app g); gw_apply := gw_apply g;
            gw_mtls := sv_mtls srv'; gw_threads := <[i := t']> (gw_threads g);
            gw_probes := gw_probes g; gw_sent := gw_sent g ++ tag_sent t' tr |}.
Proof.
  unfold advance. destruct (gw_threads g !! i) as [t|]; [|done]. simpl.
  destruct (request_waits g t); [done|]. destruct (request_step _ _ _ _ _) as [[[t' srv'] tr]|] eqn:E; [|done].
  intros [= <-]. by exists t, t', srv', tr.
Qed.

Lemma probe_step_spec i g g' :
  probe_step i g = Some g' →
  ∃ t t' st', gw_probes g !! i = Some t ∧ thread_step t (sy_state (gw_app g)) = Some (t', st') ∧
    g' = set_probes (<[i := t']> (gw_probes g)) (set_app (with_shared st' (gw_app g)) g).
Proof.
  unfold probe_step. destruct (gw_probes g !! i) as [t|]; [|done]. simpl.
  destruct (waits _ _ t); [done|].
  destruct (thread_step t _) as [[t' st']|] eqn:E; [|done]. intros [= <-]. by exists t, t', st'.
Qed.

Lemma tag_sent_elem t tr e :
  e ∈ tag_sent t tr →
  thread_config t = Some (se_config e, se_for e) ∧ (se_client e, se_request e) ∈ tr.
Proof.
  unfold tag_sent. destruct (thread_config t) as [[cfg req]|]; [|by intros ?%elem_of_nil].
  intros ([cl r] & -> & Hin)%list_elem_of_fmap. done.
Qed.

(** Steps that leave requests, probes and what was sent alone. *)
Lemma config_changes g s' a :
  gateway_inv g → config_inv s' a → grows (gw_app g) s' → gateway_inv (set_apply a (set_app s' g)).
Proof.
  intros [Hc Ht Hp Hs] Hc' Hg. destruct (grows_inv _ _ _ _ Hg Ht Hp) as [Ht' Hp'].
  constructor; simpl; [done..|]. intros e [Hin He]%Hs. split; [by eapply grows_elem|done].
Qed.

Lemma advance_inv fs net i g g' :
  gateway_inv g → advance fs net i g = Some g' → gateway_inv g' ∧ grows (gw_app g) (gw_app g').
Proof.
  intros [Hc Ht Hp Hs] (t & t' & srv' & tr & Hi & Hstep & ->)%advance_spec.
  assert (request_after (published (gw_app g)) fs net (gw_mtls g) t' tr) as Hafter.
  { apply (request_step_inv _ fs net t (gw_server g) t' srv' tr);
      [by intros; eapply published_accepted|by apply (ci_published _ _ Hc)| |done].
    by eapply Forall_lookup_1. }
  pose proof (request_after_inv _ _ _ _ _ _ Hafter) as Ht'.
  apply request_step_state in Hstep. apply counter_step_inv with (s := gw_app g) (a := gw_apply g)
    in Hstep as [Hc' Hg]; [|done].
  assert (Forall (request_inv (published (gw_app g))) (<[i := t']> (gw_threads g))) as Hts
    by by apply Forall_insert.
  destruct (grows_inv _ _ _ _ Hg Hts Hp) as [Hts' Hp']. split; [|done].
  constructor; simpl; [done..|].
  intros e [He|He]%elem_of_app; [by apply Hs|]. apply tag_sent_elem in He as [Hcfg Hin].
  apply (request_after_sent _ _ _ _ _ _ _ _ Hafter) in Hin as (cfg & req & Hcfg' & Hk & Hsent). rewrite Hcfg in Hcfg'.
  injection Hcfg' as <- <-. split; [by eapply sent_for_published|done].
Qed.

Lemma probe_step_inv i g g' :
  gateway_inv g → probe_step i g = Some g' → gateway_inv g' ∧ grows (gw_app g) (gw_app g').
Proof.
  intros [Hc Ht Hp Hs] (t & t' & st' & Hi & Hstep & ->)%probe_step_spec.
  destruct (probe_thread_inv _ _ t t' st' Hc (Forall_lookup_1 _ _ _ _ Hp Hi) Hstep) as [-> Ht'].
  rewrite with_shared_same. split; [|by apply grows_same].
  constructor; simpl; [done..| |done]. by apply Forall_insert.
Qed.

Lemma gateway_step_inv cfg g g' :
  gateway_inv g → gateway_step cfg g g' → gateway_inv g' ∧ grows (gw_app g) (gw_app g').
Proof.
  intros Hg Hstep.
  destruct Hstep as [g s' Hc|g g' Ha|req g|fs net i g g' Ha|g|i g g' Hp].
  - destruct (client_step_inv cfg _ _ _ (gi_config _ Hg) Hc) as [Hc' Hgr].
    split; [|done]. by apply (config_changes g s' (gw_apply g)).
  - destruct (apply_loop_inv g g' (gi_config _ Hg) Ha) as [Hc' Hgr]. split; [|done].
    replace g' with (set_apply (gw_apply g') (set_app (gw_app g') g)); [by apply config_changes|].
    unfold apply_loop_step in Ha. repeat case_match; by simplify_eq/=.
  - split; [|by apply grows_same]. destruct Hg as [Hc Ht Hp Hs]. constructor; simpl; [done| |done..].
    apply Forall_app. split; [done|]. by repeat constructor.
  - by eapply advance_inv.
  - split; [|by apply grows_same]. destruct Hg as [Hc Ht Hp Hs]. constructor; simpl; [done..| |done].
    apply Forall_app. split; [done|]. by repeat constructor.
  - by eapply probe_step_inv.
Qed.

Lemma gateway_start_inv fs mtls args : gateway_inv (gateway_start fs mtls args).
Proof.
  constructor; simpl; [|constructor|constructor|by intros ? ?%elem_of_nil].
  pose proof (initial_system_inv fs args) as Hi. pose proof (initial_system_seen fs args) as Hs.
  destruct (app_inv_ready _ Hi) as [[Hc Hn]|(Hin & Hr & Hcs)]; destruct Hi as [Ha Hb _].
  - constructor; [done|done|by left|by rewrite Hn|by left].
  - constructor; [done|done|by right|done|by left].
Qed.

Lemma gateway_reachable_inv fs mtls args g : gateway_reachable fs mtls args g → gateway_inv g.
Proof.
  intros Hr. unfold gateway_reachable in Hr.
  apply (rtc_ind_r (λ g, gateway_inv g) (gateway_start fs mtls args)) in Hr; [done| |].
  - apply gateway_start_inv.
  - intros g1 g2 _ Hstep Hg1. by eapply gateway_step_inv.
Qed.

(** ** The applying task *)

(** How many steps the applying task can take before it waits. *)
Definition apply_rank (g : GatewayState) : nat :=
  (match gw_apply g with
   | ApplyIdle => 0
   | ApplyWoken => 7
   | Applying (ApplyStart _) => 6
   | Applying (ApplyConfig _) => 5
   | Applying (ApplyQueued _) => 4
   | Applying ApplyClear => 3
   | Applying ApplyReady => 2
   | Applying _ => 1
   end + if unseen (gw_app g) then 8 else 0)%nat.

Lemma apply_rank_bound g : (apply_rank g ≤ 15)%nat.
Proof. unfold apply_rank. repeat case_match; lia. Qed.

Lemma mark_seen_unseen s : unseen (mark_seen s) = false.
Proof. unfold unseen. simpl. apply Nat.ltb_irrefl. Qed.

Lemma unseen_with_shared st s : unseen (with_shared st s) = unseen s.
Proof. done. Qed.

Lemma apply_loop_rank g :
  config_inv (gw_app g) (gw_apply g) →
  match apply_loop_step g with
  | Some g' => (apply_rank g' < apply_rank g)%nat ∧ sy_watch (gw_app g') = sy_watch (gw_app g) ∧
      gw_probes g' = gw_probes g
  | None => lock_held g = false → gw_apply g = ApplyIdle ∧ unseen (gw_app g) = false
  end.
Proof.
  intros [Ha _ _ _ Hi]. unfold apply_loop_step, apply_rank.
  destruct (gw_apply g) as [| |t] eqn:Ea; simpl.
  - destruct (unseen (gw_app g)) eqn:Hu; [|done]. simpl. rewrite mark_seen_unseen. by split; [lia|].
  - by split; [lia|].
  - assert (∀ cfg, sent_since (gw_app g) cfg → validate cfg = Ok tt) as Hv.
    { intros cfg Hin%sent_since_elem. eapply Forall_forall in Hin; [|exact Ha]. exact Hin. }
    destruct (lock_held g); destruct t as [cfg|cfg|cfg| | | | |r| | | |]; simpl in *; try done;
      rewrite ?unseen_with_shared; try (rewrite (Hv _ Hi)); simpl; by split; [lia|].
Qed.

Lemma apply_runs_inv n g :
  gateway_inv g → gateway_inv (apply_runs n g) ∧ sy_watch (gw_app (apply_runs n g)) = sy_watch (gw_app g).
Proof.
  revert g. induction n as [|n IH]; intros g Hg; [done|]. simpl.
  pose proof (apply_loop_rank g (gi_config _ Hg)) as Hw.
  destruct (apply_loop_step g) as [g1|] eqn:E; [|done]. destruct Hw as (_ & <- & _).
  apply IH. eapply (gateway_step_inv (client_config_of default_args)); [exact Hg|by apply Gw_apply].
Qed.

Lemma apply_runs_waits n g :
  gateway_inv g → lock_held g = false → (apply_rank g ≤ n)%nat →
  gw_apply (apply_runs n g) = ApplyIdle ∧ unseen (gw_app (apply_runs n g)) = false.
Proof.
  revert g. induction n as [|n IH]; intros g Hg Hl Hn; simpl.
  - pose proof (apply_loop_rank g (gi_config _ Hg)) as Hr.
    destruct (apply_loop_step g); [lia|by apply Hr].
  - pose proof (apply_loop_rank g (gi_config _ Hg)) as Hr.
    destruct (apply_loop_step g) as [g1|] eqn:E; [|by apply Hr]. destruct Hr as (Hr & _ & Hp).
    apply IH; [|by unfold lock_held; rewrite Hp|lia].
    eapply (gateway_step_inv (client_config_of default_args)); [exact Hg|by apply Gw_apply].
Qed.

(** A task that waits has applied the latest value. *)
Lemma waiting_serves_latest s :
  config_inv s ApplyIdle → w_sent (sy_watch s) ≠ [] → unseen s = false →
  serves (watch_value (sy_watch s)) (sy_state s).
Proof.
  intros [_ Hb _ Hr Hi] Hne Hu. unfold unseen in Hu. apply Nat.ltb_ge in Hu.
  pose proof (watch_value_last _ Hne) as Hlast.
  assert (length (w_sent (sy_watch s)) ≠ 0%nat) as Hlen by by intros ?%nil_length_inv.
  simpl in Hi. destruct Hi as [?|[(k & Hk & Hc) Hready]]; [lia|].
  pose proof (lookup_lt_Some _ _ _ Hc). replace k with (pred (length (w_sent (sy_watch s)))) in Hc by lia.
  rewrite Hlast in Hc. injection Hc as Hc. destruct (Hr Hready) as [_ ?]. by split_and!.
Qed.

Lemma apply_runs_serves g :
  gateway_inv g → lock_held g = false → w_sent (sy_watch (gw_app g)) ≠ [] →
  let g' := apply_runs 15 g in
  gw_apply g' = ApplyIdle ∧ unseen (gw_app g') = false ∧
  sy_watch (gw_app g') = sy_watch (gw_app g) ∧
  serves (watch_value (sy_watch (gw_app g))) (sy_state (gw_app g')).
Proof.
  intros Hr Hl Hne g'.
  destruct (apply_runs_inv 15 g Hr) as [Hg' Hw]. fold g' in Hg', Hw.
  destruct (apply_runs_waits 15 g Hr Hl (apply_rank_bound g)) as [Hidle Hu]. fold g' in Hidle, Hu.
  split_and!; [done..|]. rewrite <- Hw in *. pose proof (gi_config _ Hg') as Hc.
  rewrite Hidle in Hc. by apply waiting_serves_latest.
Qed.

(** The step of [App] for the applying task, as a run of small ones. *)
Lemma apply_task_small_steps g :
  gw_apply g = ApplyIdle → lock_held g = false → unseen (gw_app g) = true →
  apply_runs 7 g = set_app (apply_task (gw_app g)) g.
Proof.
  destruct g as [s a m ts ps tr]. unfold lock_held. cbn [gw_apply gw_app gw_probes].
  intros -> Hl Hu. unfold apply_task. rewrite Hu. cbn [apply_runs].
  unfold apply_loop_step at 1. cbn [gw_apply gw_app]. rewrite Hu.
  cbn -[unseen with_shared mark_seen lock_held waits].
  destruct (validate _) as [[]|cs] eqn:E; cbn -[unseen with_shared mark_seen lock_held]; cbn in E;
    unfold lock_held; cbn -[unseen with_shared mark_seen]; rewrite ?Hl; cbn -[unseen with_shared mark_seen].
  - unfold apply_config. by rewrite E.
  - rewrite !unseen_with_shared, mark_seen_unseen. unfold apply_config. by rewrite E.
Qed.

Lemma apply_runs_steps cfg n (g : GatewayState) : rtc (gateway_step cfg) g (apply_runs n g).
Proof.
  revert g. induction n as [|n IH]; intros g; simpl; [done|].
  destruct (apply_loop_step g) eqn:E; [|done]. eapply rtc_l; [by apply Gw_apply|apply IH].
Qed.

(** ** The lock of the configuration *)

(** Those of the first [n] probes that hold the lock read once more, which ends them. *)
Fixpoint drain (n : nat) (g : GatewayState) : GatewayState :=
  match n with
  | O => g
  | S n' =>
      let g' := drain n' g in
      match gw_probes g' !! n' with
      | Some (ReadConflicts _ _) => default g' (probe_step n' g')
      | _ => g'
      end
  end.

Definition drain_probes (g : GatewayState) : GatewayState := drain (length (gw_probes g)) g.

(** What a request waits for: the probes that hold the lock, and the applying task, which
    is in its queue. *)
Definition unblock (g : GatewayState) : GatewayState :=
  default (drain_probes g) (apply_loop_step (drain_probes g)).

Lemma drain_steps cfg n g : rtc (gateway_step cfg) g (drain n g).
Proof.
  induction n as [|n IH]; simpl; [done|]. etrans; [exact IH|].
  destruct (gw_probes (drain n g) !! n) as [[]|]; try done.
  destruct (probe_step n (drain n g)) eqn:E; [|done]. by eapply rtc_once, Gw_probe.
Qed.

Lemma drain_spec n g :
  ∃ ps, drain n g = set_probes ps g ∧ length ps = length (gw_probes g) ∧
    (∀ i t, (i < n)%nat → ps !! i = Some t → holds_config t = false) ∧
    ∀ i, (n ≤ i)%nat → ps !! i = gw_probes g !! i.
Proof.
  induction n as [|n (ps & Hd & Hlen & Hlt & Hge)].
  { exists (gw_probes g). split_and!; [by destruct g|done| |done]. intros. lia. }
  assert (∀ t, ps !! n = Some t → holds_config t = false → ∃ ps', set_probes ps g = set_probes ps' g ∧
    length ps' = length (gw_probes g) ∧ (∀ i t, (i < S n)%nat → ps' !! i = Some t →
      holds_config t = false) ∧ ∀ i, (S n ≤ i)%nat → ps' !! i = gw_probes g !! i) as Hkeep.
  { intros t Ht Hh. exists ps. split_and!; [done..| |intros; apply Hge; lia].
    intros i u Hi Hu. destruct (decide (i = n)) as [->|]; [congruence|].
    eapply Hlt; [|done]. lia. }
  simpl. rewrite Hd. cbn [gw_probes set_probes].
  destruct (ps !! n) as [t|] eqn:Et; [|by exists ps; split_and!; [done..| |intros; apply Hge; lia];
    intros i u Hi Hu; destruct (decide (i = n)) as [->|]; [congruence|]; eapply Hlt; [|done]; lia].
  destruct t; try by eapply Hkeep.
  unfold probe_step. cbn [gw_probes set_probes]. rewrite Et. simpl.
  eexists (<[n := _]> ps). split_and!.
  - by destruct g as [[] ? ? ? ? ?].
  - by rewrite length_insert.
  - intros i u Hi. destruct (decide (i = n)) as [->|].
    + rewrite list_lookup_insert_eq by (by eapply lookup_lt_Some). by intros [= <-].
    + rewrite list_lookup_insert_ne by done. eapply Hlt. lia.
  - intros i Hi. rewrite list_lookup_insert_ne by lia. apply Hge. lia.
Qed.

Lemma drain_probes_spec g :
  ∃ ps, drain_probes g = set_probes ps g ∧ lock_held (drain_probes g) = false.
Proof.
  unfold drain_probes. destruct (drain_spec (length (gw_probes g)) g) as (ps & -> & Hlen & Hlt & _).
  exists ps. split; [done|]. unfold lock_held. simpl. apply not_true_iff_false.
  intros (t & Hin & Ht)%existsb_exists. apply list_elem_of_In, list_elem_of_lookup in Hin as [i Hi].
  rewrite (Hlt i t) in Ht; [done| |done]. rewrite <- Hlen. by eapply lookup_lt_Some.
Qed.

Lemma unblock_steps cfg g : rtc (gateway_step cfg) g (unblock g).
Proof.
  unfold unblock. etrans; [apply (drain_steps cfg (length (gw_probes g)))|].
  unfold drain_probes. destruct (apply_loop_step _) eqn:E; [|done]. by eapply rtc_once, Gw_apply.
Qed.

Lemma unblock_spec g :
  lock_queued g = true → lock_queued (unblock g) = false ∧ gw_threads (unblock g) = gw_threads g.
Proof.
  unfold unblock. destruct (drain_probes_spec g) as (ps & -> & Hl). unfold lock_queued.
  destruct (gw_apply g) as [| |[]] eqn:Ea; try done. intros _. unfold apply_loop_step.
  cbn [gw_apply set_probes]. by rewrite Ea, Hl.
Qed.

Lemma drained_serves fs mtls args g :
  gateway_reachable fs mtls args g → w_sent (sy_watch (gw_app g)) ≠ [] →
  let g' := apply_runs 15 (drain_probes g) in
  gw_apply g' = ApplyIdle ∧ unseen (gw_app g') = false ∧
  sy_watch (gw_app g') = sy_watch (gw_app g) ∧
  serves (watch_value (sy_watch (gw_app g))) (sy_state (gw_app g')).
Proof.
  intros Hr Hne. assert (gateway_inv (drain_probes g)) as Hg.
  { eapply (gateway_reachable_inv fs mtls args). unfold gateway_reachable in *.
    etrans; [exact Hr|exact (drain_steps _ _ g)]. }
  destruct (drain_probes_spec g) as (ps & Hd & Hl).
  pose proof (apply_runs_serves (drain_probes g) Hg Hl) as Hs. rewrite Hd in *. by apply Hs.
Qed.

(** A request either steps, or is done, or waits for the lock. *)
Lemma advance_progress fs net i g t :
  gw_threads g !! i = Some t →
  match advance fs net i g with
  | Some g' => ∃ t', gw_threads g' !! i = Some t' ∧ (thread_rank t' < thread_rank t)%nat
  | None => thread_rank t = 0%nat ∨ request_waits g t = true
  end.
Proof.
  intros Hi. pose proof (request_step_rank false fs net t (gw_server g)) as Hrank.
  unfold advance. rewrite Hi. simpl. destruct (request_waits g t); [by right|].
  destruct (request_step _ _ _ _ _) as [[[t' srv'] tr]|]; [|by left]. simpl.
  exists t'. split; [|done]. apply list_lookup_insert_eq. by eapply lookup_lt_Some.
Qed.

(** The step that answers a request: the answer is what the files and the network of that
    step give under the configuration the request works with. *)
Definition answering (fs : FileSystem) (net : OutClient T → Request H → result Response string)
    (g g' : GatewayState) (t' : request_thread H) : Prop :=
  ∀ cfg req r, t' = RqDone cfg req r →
    ∃ answer tr, r = Ret answer ∧ answered cfg fs net (gw_mtls g) req answer tr ∧
      gw_sent g' = gw_sent g ++ tag_sent t' tr.

Lemma advance_answering fs net i g g' :
  gateway_inv g → advance fs net i g = Some g' →
  ∃ t', gw_threads g' !! i = Some t' ∧ answering fs net g g' t'.
Proof.
  intros Hg Hadv. pose proof Hg as [Hc Ht _ _].
  apply advance_spec in Hadv as (t & t' & srv' & tr & Hi & Hstep & ->). exists t'. split.
  - apply list_lookup_insert_eq. by eapply lookup_lt_Some.
  - intros cfg req r ->.
    assert (request_after (published (gw_app g)) fs net (gw_mtls g) (RqDone cfg req r) tr)
      as (_ & answer & -> & Ha).
    { apply (request_step_inv _ fs net t (gw_server g) _ srv' tr);
        [by intros; eapply published_accepted|by apply (ci_published _ _ Hc)| |done].
      by eapply Forall_lookup_1. }
    by exists answer, tr.
Qed.

(** Where an answered request comes from: a step that answered it. *)
Definition was_answered (fs : FileSystem) (mtls : MtlsSupport T) (args : Args) (i : nat)
    (t : request_thread H) (g : GatewayState) : Prop :=
  ∃ fs' net g0 g1, gateway_reachable fs mtls args g0 ∧ advance fs' net i g0 = Some g1 ∧
    gw_threads g1 !! i = Some t ∧ rtc (gateway_step (client_config_of args)) g1 g ∧
    answering fs' net g0 g1 t.

Lemma was_answered_step fs mtls args i t g g' :
  was_answered fs mtls args i t g → gateway_step (client_config_of args) g g' →
  was_answered fs mtls args i t g'.
Proof.
  intros (fs' & net & g0 & g1 & H0 & Ha & Ht & Hr & Hans) Hstep.
  exists fs', net, g0, g1. split_and!; [done..| |done]. by eapply rtc_r.
Qed.

Lemma answered_requests fs mtls args g i cfg req r :
  gateway_reachable fs mtls args g → gw_threads g !! i = Some (RqDone cfg req r) →
  was_answered fs mtls args i (RqDone cfg req r) g.
Proof.
  intros Hr. unfold gateway_reachable in Hr. remember (RqDone cfg req r) as t eqn:Et. revert i.
  refine (rtc_ind_r (λ g, ∀ i, gw_threads g !! i = Some t → was_answered fs mtls args i t g)
    (gateway_start fs mtls args) _ _ g Hr); [done|].
  clear g Hr. intros g g' Hr Hstep IH i Hi.
  assert (gw_threads g !! i = Some t → was_answered fs mtls args i t g') as Hold
    by (intros Hi0; eapply was_answered_step; [by apply IH|done]).
  destruct Hstep as [g s' Hc|g g' Ha|rq g|fs' net j g g' Ha|g|j g g' Hp].
  - by apply Hold.
  - apply Hold. rewrite <- Hi. unfold apply_loop_step in Ha. repeat case_match; by simplify_eq/=.
  - apply lookup_app_Some in Hi as [Hi|[_ Hi]]; [by apply Hold|].
    by apply list_lookup_singleton_Some in Hi as [_ <-].
  - destruct (decide (j = i)) as [->|Hne].
    + destruct (advance_answering fs' net i g g') as (t' & Ht' & Hans);
        [by eapply gateway_reachable_inv|done|]. rewrite Ht' in Hi. injection Hi as ->.
      by exists fs', net, g, g'.
    + apply Hold. apply advance_spec in Ha as (t0 & t1 & srv' & tr & _ & _ & ->). simpl in Hi.
      by rewrite list_lookup_insert_ne in Hi.
  - by apply Hold.
  - apply Hold. by apply probe_step_spec in Hp as (t0 & t1 & st' & _ & _ & ->).
Qed.

(** ** Probes *)

(** A probe that started when the gateway was ready. *)
Definition late_probe (t : thread) : Prop :=
  match t with
  | ReadReady => True
  | ReadVersion b | ReadConflicts b _ => b = true
  | ReadDone r => rd_ready r = true
  | _ => False
  end.

Definition late_probes (n : nat) (g : GatewayState) : Prop :=
  st_ready (sy_state (gw_app g)) = true ∧ (n ≤ length (gw_probes g))%nat ∧
  ∀ i t, (n ≤ i)%nat → gw_probes g !! i = Some t → late_probe t.

Lemma late_probes_step cfg n g g' :
  gateway_inv g → late_probes n g → gateway_step cfg g g' → late_probes n g'.
Proof.
  intros Hg (Hr & Hlen & Hp) Hstep. destruct (gateway_step_inv cfg g g' Hg Hstep) as [_ Hgr].
  pose proof (gr_ready _ _ Hgr Hr) as Hr'. unfold late_probes.
  destruct Hstep as [g s' Hc|g g' Ha|req g|fs net i g g' Ha|g|i g g' Hprobe]; [done| |done| | |].
  - assert (gw_probes g' = gw_probes g) as ->; [|done].
    unfold apply_loop_step in Ha. repeat case_match; by simplify_eq/=.
  - apply advance_spec in Ha as (t & t' & srv' & tr & _ & _ & ->). done.
  - split_and!; [done|simpl; rewrite length_app; lia|]. intros i t Hi.
    intros [Hlk|[_ Hlk]]%lookup_app_Some; [by eapply Hp|].
    by apply list_lookup_singleton_Some in Hlk as [_ <-].
  - apply probe_step_spec in Hprobe as (t & t' & st' & Hi & Hstep & ->).
    split_and!; [done|simpl; by rewrite length_insert|]. intros j u Hj. simpl.
    intros [(<- & <- & _)|[_ Hlk]]%list_lookup_insert_Some; [|by eapply Hp].
    specialize (Hp _ _ Hj Hi). destruct t; simpl in *; try done; by simplify_eq/=.
Qed.

(** ** Properties *)

(** C1: What leaves the gateway was allowed by a configuration that was published.
    Whatever the files, the control plane and the network answer, and however requests,
    publications and configuration changes interleave: every request ever sent
    upstream was sent under a configuration that was validated and published, to the
    URI of a healthy endpoint of a cluster that its route for the incoming request
    names, without the [Host] header, and over TLS exactly when that cluster asks for
    it. *)
Theorem gateway_sends_published fs mtls args g e :
  gateway_reachable fs mtls args g → e ∈ gw_sent g →
  se_config e ∈ w_sent (sy_watch (gw_app g)) ∧ accepted (se_config e) ∧
  sent_for (se_config e) (se_for e) (se_client e) (se_request e).
Proof.
  intros Hr%gateway_reachable_inv He. destruct (gi_sent _ Hr e He) as [Hp Hs].
  split_and!; [done| |done]. eapply published_accepted; [apply (gi_config _ Hr)|by right].
Qed.

(** C2: Every request the gateway accepts is answered: in every reachable state a
    request that is not answered is at most four steps of its own from its answer,
    whatever other tasks do in between. It can take its next step, unless it wants to
    read the configuration while the applying task is in the queue of the lock; then it
    can once the probes that hold the lock and the applying task have taken one step
    each. The step that answers a request, whatever the files and the network give it, is
    never a panic, and answers by its reason ([Server.answered]) under the configuration
    the request read, which was published or the initial one: 404 if no route matches, 503 if a
    cluster of the route has no healthy endpoint, 502 if the chosen upstream's URI or
    client cannot be made or if the network fails the request sent to it, and otherwise
    the response the network gives. Every answered request was answered by such a step. *)
Theorem gateway_answers fs mtls args g i t :
  gateway_reachable fs mtls args g → gw_threads g !! i = Some t →
  (thread_rank t ≤ 4)%nat ∧
  (∀ fs' net, match advance fs' net i g with
    | Some g' => ∃ t', gw_threads g' !! i = Some t' ∧ (thread_rank t' < thread_rank t)%nat ∧
        ∀ cfg req r, t' = RqDone cfg req r →
          ∃ answer tr, r = Ret answer ∧ answered cfg fs' net (gw_mtls g) req answer tr ∧
            gw_sent g' = gw_sent g ++ tag_sent t' tr
    | None => thread_rank t = 0%nat ∨
        rtc (gateway_step (client_config_of args)) g (unblock g) ∧
        gw_threads (unblock g) !! i = Some t ∧ is_Some (advance fs' net i (unblock g))
    end) ∧
  match t with
  | RqDone cfg req r =>
      published (gw_app g) cfg ∧ accepted cfg ∧
      ∃ fs' net g0 g1, gateway_reachable fs mtls args g0 ∧ advance fs' net i g0 = Some g1 ∧
        gw_threads g1 !! i = Some t ∧ rtc (gateway_step (client_config_of args)) g1 g ∧
        ∃ answer tr, r = Ret answer ∧ answered cfg fs' net (gw_mtls g0) req answer tr ∧
          gw_sent g1 = gw_sent g0 ++ tag_sent t tr
  | _ => (0 < thread_rank t)%nat
  end.
Proof.
  intros Hreach Hi. pose proof (gateway_reachable_inv _ _ _ _ Hreach) as Hr. split_and!.
  - destruct t; simpl; lia.
  - intros fs' net. pose proof (advance_progress fs' net i g t Hi) as Hp.
    destruct (advance fs' net i g) as [g'|] eqn:Ea.
    + destruct Hp as (t' & Ht' & Hlt), (advance_answering _ _ _ _ _ Hr Ea) as (t0 & Ht0 & Hans).
      rewrite Ht' in Ht0. injection Ht0 as <-. by exists t'.
    + destruct Hp as [?|Hw]; [by left|right].
      destruct t; try done. simpl in Hw. destruct (unblock_spec g Hw) as [Hq Hth].
      split; [apply unblock_steps|]. rewrite Hth. split; [done|].
      unfold advance. rewrite Hth, Hi. simpl. rewrite Hq. simpl. by eexists.
  - pose proof (Forall_lookup_1 _ _ _ _ (gi_threads _ Hr) Hi) as Ht.
    destruct t as [| | | |cfg req r]; simpl in Ht |- *; [lia..|].
    split_and!; [done|by eapply published_accepted; [apply (gi_config _ Hr)|]|].
    destruct (answered_requests _ _ _ _ _ _ _ _ Hreach Hi) as (fs' & net & g0 & g1 & ? & ? & ? & ? & Ha).
    exists fs', net, g0, g1. split_and!; [done..|]. by apply Ha.
Qed.

(** C11: The admin server tells what the gateway does, although its answers are put
    together from several reads while configurations are being applied. Every answer of
    [/readyz] with status 200 carries the version of a configuration that was validated
    and published, and no conflicts. Once the gateway is ready it stays ready: every probe
    that starts then is answered 200, whatever the control plane sends meanwhile. *)
Theorem gateway_probes {Ser : SerializeLib} fs mtls args g i r :
  gateway_reachable fs mtls args g → gw_probes g !! i = Some (ReadDone r) →
  ((readyz_response r).1 = 200 →
     rd_conflicts r = [] ∧
     ∃ cfg, cfg ∈ w_sent (sy_watch (gw_app g)) ∧ accepted cfg ∧ rc_version cfg = rd_version r) ∧
  ∀ g0, gateway_reachable fs mtls args g0 → st_ready (sy_state (gw_app g0)) = true →
    rtc (gateway_step (client_config_of args)) g0 g → (length (gw_probes g0) ≤ i)%nat →
    (readyz_response r).1 = 200.
Proof.
  intros Hr%gateway_reachable_inv Hi. unfold readyz_response. simpl. split.
  - destruct (rd_ready r) eqn:E; [|done]. intros _.
    pose proof (Forall_lookup_1 _ _ _ _ (gi_probes _ Hr) Hi) as Hp. simpl in Hp.
    destruct (Hp E) as (Hc & cfg & Hin & Hv). split; [done|]. exists cfg. split_and!; [done| |done].
    eapply published_accepted; [apply (gi_config _ Hr)|by right].
  - intros g0 Hg0%gateway_reachable_inv Hready Hsteps Hlen.
    assert (late_probes (length (gw_probes g0)) g) as (_ & _ & Hp).
    { assert (late_probes (length (gw_probes g0)) g0) as Hl.
      { split_and!; [done..|]. intros j t Hj Hlk. apply lookup_lt_Some in Hlk. lia. }
      clear Hready Hlen Hi Hr. revert Hl. generalize (length (gw_probes g0)) as n. intros n.
      induction Hsteps as [|g1 g2 g3 Hstep _ IH]; [done|]. intros Hl.
      apply IH; [by eapply gateway_step_inv|by eapply late_probes_step]. }
    specialize (Hp i _ Hlen Hi). simpl in Hp. by rewrite Hp.
Qed.

(** C12: What is served catches up with what is published. In every reachable state, once
    anything was published and the probes that hold the lock of the configuration have
    taken their last step, fifteen steps of the applying task, whatever it is in the
    middle of, are enough for it to wait again with the latest published configuration
    served, ready and without conflicts. *)
Theorem gateway_catches_up fs mtls args g :
  gateway_reachable fs mtls args g → w_sent (sy_watch (gw_app g)) ≠ [] →
  let g' := apply_runs 15 (drain_probes g) in
  rtc (gateway_step (client_config_of args)) g g' ∧
  gw_apply g' = ApplyIdle ∧ unseen (gw_app g') = false ∧
  sy_watch (gw_app g') = sy_watch (gw_app g) ∧
  serves (watch_value (sy_watch (gw_app g))) (sy_state (gw_app g')).
Proof.
  intros Hr Hne g'.
  split; [etrans; [exact (drain_steps _ (length (gw_probes g)) g)|apply apply_runs_steps]|]. by eapply drained_serves.
Qed.

End gateway.

(** ** A concrete run *)

Lemma gateway_config_steps {P : ProstLib} {H : HttpLib} {T : TlsLib} cfg (g : GatewayState) s' :
  gw_apply g = ApplyIdle → lock_held g = false → rtc (config_step cfg) (gw_app g) s' →
  rtc (gateway_step cfg) g (set_app s' g).
Proof.
  intros Hi Hl Hr. remember (gw_app g) as s eqn:Es. revert g Hi Hl Es.
  induction Hr as [s|s s1 s2 Hstep _ IH]; intros g Hi Hl ->; [by destruct g|].
  transitivity (set_app s1 g); [|by apply (IH (set_app s1 g))].
  inversion Hstep as [? ? Hc|? Hu]; subst.
  - by apply rtc_once, Gw_client.
  - rewrite <- apply_task_small_steps by done. apply apply_runs_steps.
Qed.

Definition example_eds_sent : System := example_message ENDPOINT_TYPE "n4" "endpoints" example_published.

Definition orders_request : Request list_http :=
  @Build_Request list_http "GET" "/orders/7" [("host", "orders.example.com")] "".

Definition example_gateway : GatewayState :=
  accept_request orders_request
    (set_app (apply_task example_eds_sent)
       (gateway_start (L := example_serde) (T := list_tls) example_fs_none MtlsDisabled default_args)).

Definition example_advance (g : GatewayState) : GatewayState :=
  default g (advance (H := list_http) (T := list_tls) example_fs_none echo_net 0 g).

Definition example_answered : GatewayState :=
  example_advance (example_advance (example_advance (example_advance example_gateway))).

Definition example_probe (g : GatewayState) : GatewayState :=
  default g (probe_step (H := list_http) (T := list_tls) 0 g).

Definition example_probed : GatewayState :=
  example_probe (example_probe (example_probe (accept_probe example_answered))).

Lemma example_gateway_reachable :
  gateway_reachable (L := example_serde) (P := example_prost) example_fs_none MtlsDisabled
    default_args example_gateway.
Proof.
  eapply rtc_r; [|apply Gw_accept]. apply gateway_config_steps; [reflexivity|reflexivity|].
  eapply rtc_r; [|apply Step_apply; vm_compute; reflexivity].
  eapply rtc_r; [exact example_published_steps|]. apply example_message_step. vm_compute. exact I.
Qed.

Lemma example_advance_step {P : ProstLib} cfg g :
  gateway_step cfg g (example_advance g) ∨ example_advance g = g.
Proof.
  unfold example_advance. destruct (advance _ _ _ _) as [g'|] eqn:E; [left|by right].
  by eapply Gw_request.
Qed.

Lemma example_advance_steps {L : SerdeLib} {P : ProstLib} fs mtls args g :
  gateway_reachable fs mtls args g → gateway_reachable fs mtls args (example_advance g).
Proof.
  intros Hg. unfold gateway_reachable in *.
  destruct (example_advance_step (client_config_of args) g) as [Hs| ->]; [|done].
  by eapply rtc_r.
Qed.

Lemma example_answered_reachable :
  gateway_reachable (L := example_serde) (P := example_prost) example_fs_none MtlsDisabled
    default_args example_answered.
Proof. do 4 apply example_advance_steps. exact example_gateway_reachable. Qed.

Definition orders_sent : Sent (H := list_http) (T := list_tls) :=
  {| se_config := st_config (sy_state (apply_task example_eds_sent));
     se_for := orders_request; se_client := PlainClient;
     se_request := @Build_Request list_http "GET" "http://10.0.0.7:8080/orders/7" [] "" |}.

Lemma orders_sent_in : orders_sent ∈ gw_sent example_answered.
Proof. apply (list_elem_of_lookup_2 _ 0). vm_compute. reflexivity. Qed.

Lemma gateway_sends_published_witness :
  se_config orders_sent ∈ w_sent (sy_watch (gw_app example_answered)) ∧
  accepted (se_config orders_sent) ∧
  sent_for (se_config orders_sent) (se_for orders_sent) (se_client orders_sent)
    (se_request orders_sent).
Proof.
  exact (gateway_sends_published (L := example_serde) (P := example_prost) example_fs_none
    MtlsDisabled default_args example_answered orders_sent
    example_answered_reachable orders_sent_in).
Defined.

Definition orders_answer : request_thread list_http :=
  RqDone (st_config (sy_state (apply_task example_eds_sent))) orders_request
    (Ret (Ok (200, "http://10.0.0.7:8080/orders/7"))).

Lemma orders_answer_in : gw_threads example_answered !! 0%nat = Some orders_answer.
Proof. vm_compute. reflexivity. Qed.

Lemma gateway_answers_witness :
  thread_rank orders_answer = 0%nat ∧
  published (gw_app example_answered) (st_config (sy_state (apply_task example_eds_sent))).
Proof.
  destruct (gateway_answers (L := example_serde) (P := example_prost) example_fs_none
    MtlsDisabled default_args example_answered 0 orders_answer
    example_answered_reachable orders_answer_in) as (_ & _ & Hp & _).
  split; [reflexivity|exact Hp].
Defined.

Lemma example_probe_steps {L : SerdeLib} {P : ProstLib} fs mtls args g :
  gateway_reachable fs mtls args g → gateway_reachable fs mtls args (example_probe g).
Proof.
  intros Hg. unfold gateway_reachable, example_probe in *.
  destruct (probe_step 0 g) as [g'|] eqn:E; [|done]. eapply rtc_r; [exact Hg|by eapply Gw_probe].
Qed.

Lemma example_probed_reachable :
  gateway_reachable (L := example_serde) (P := example_prost) example_fs_none MtlsDisabled
    default_args example_probed.
Proof.
  do 3 apply example_probe_steps. eapply rtc_r; [exact example_answered_reachable|].
  apply Gw_accept_probe.
Qed.

Definition example_serialize : SerializeLib :=
  {| ser_clusters := λ _, JNull; ser_weighted_clusters := λ _, JNull;
     ser_config := λ cfg, JString (rc_version cfg); ser_readiness := λ r, JBool (rd_ready r) |}.

Definition orders_readiness : Readiness :=
  {| rd_ready := true; rd_version := "v1"; rd_conflicts := [] |}.

Lemma orders_readiness_in : gw_probes example_probed !! 0%nat = Some (ReadDone orders_readiness).
Proof. vm_compute. reflexivity. Qed.

Lemma gateway_probes_witness :
  ∃ cfg, cfg ∈ w_sent (sy_watch (gw_app example_probed)) ∧ accepted cfg ∧ rc_version cfg = "v1".
Proof.
  destruct (gateway_probes (L := example_serde) (P := example_prost) (Ser := example_serialize)
    example_fs_none MtlsDisabled default_args example_probed 0 orders_readiness
    example_probed_reachable orders_readiness_in) as [H _].
  exact (proj2 (H eq_refl)).
Defined.

Definition example_behind : GatewayState :=
  set_app example_published
    (gateway_start (L := example_serde) (H := list_http) (T := list_tls) example_fs_none MtlsDisabled
       default_args).

Lemma example_behind_reachable :
  gateway_reachable (L := example_serde) (P := example_prost) example_fs_none MtlsDisabled
    default_args example_behind.
Proof. apply gateway_config_steps; [reflexivity|reflexivity|exact example_published_steps]. Qed.

Lemma gateway_catches_up_witness :
  serves (watch_value (sy_watch (gw_app example_behind)))
    (sy_state (gw_app (apply_runs 15 (drain_probes example_behind)))).
Proof.
  destruct (gateway_catches_up (L := example_serde) (P := example_prost) example_fs_none
    MtlsDisabled default_args example_behind example_behind_reachable example_sent)
    as (_ & _ & _ & _ & H).
  exact H.
Defined.
