(* ===== verification/GatewayRecover.v ===== *)
(** * The gateway recovers (crates/app/src/main.rs with crates/xds/src/client.rs)

    From the control plane to what is served, through all the tasks: whatever state the
    gateway has come to, as long as its ADS task has not given up, a new connection to
    a server that answers by what it holds ([XdsConverge.honest]) brings the server's
    configuration into service, with requests, probes and the applying task taking their
    steps in between as they like. *)

From S2P Require Import Prelude RustString BTree Net Config ProxyState ProxyConc Http Mtls Server.
From S2P Require Import ServerConc XdsProto XdsConvert AdsState XdsClient XdsReconnect XdsConverge.
From S2P Require Import Source Admin App Gateway.

(** ** The watch channel keeps its receiver *)

Lemma publish_receivers v s :
  w_receivers (ss_watch (publish v s).2) = w_receivers (ss_watch s).
Proof.
  unfold publish, watch_send. destruct (validate _); [|done]. case_decide; [done|].
  by destruct (w_receivers (ss_watch s)) eqn:E.
Qed.

Lemma handle_response_receivers {P : ProstLib} n resp s :
  w_receivers (ss_watch (handle_response n resp s).2) = w_receivers (ss_watch s).
Proof.
  unfold handle_response. destruct (apply_response _ _) as [[u|] ads]; [|done].
  pose proof (session_send_watch n (dr_type_url resp) (subscription (dr_type_url resp) ads)
    (dr_version_info resp) (dr_nonce resp) (set_ads ads s)) as H1. simpl.
  destruct (session_send _ _ _ _ _ _) as [[[]|] s1]; simpl in *; [|by rewrite H1].
  pose proof (follow_watch n (updates_subscriptions u) s1) as H2.
  destruct (follow_subscriptions _ _ _) as [[[]|] s2]; simpl in *; rewrite <- H1, <- H2; [|done].
  apply publish_receivers.
Qed.

Section recover.
Context {L : SerdeLib} {P : ProstLib} {H : HttpLib} {T : TlsLib}.

Lemma client_step_receivers cfg s s' :
  client_step cfg s s' → w_receivers (sy_watch s') = w_receivers (sy_watch s).
Proof.
  intros [cn ? _|resp ss s0 _|ss ? _|ss ? _]; [| |done..].
  - unfold client_connect. by repeat case_match.
  - unfold client_message.
    pose proof (handle_response_receivers (node cfg) resp (set_watch (sy_watch s0) ss)) as Hp.
    by destruct (handle_response _ _ _) as [[[]|] ss'].
Qed.

(** ** The other tasks *)

(** A step that leaves the ADS task where it is. *)
Definition beside (cfg : XdsClientConfig) (g g' : GatewayState) : Prop :=
  gateway_step cfg g g' ∧ sy_client (gw_app g') = sy_client (gw_app g) ∧
  sy_watch (gw_app g') = sy_watch (gw_app g).

(** Every step but those of the ADS task does. *)
Lemma other_tasks_beside cfg g g' :
  gateway_step cfg g g' → (∃ s', client_step cfg (gw_app g) s' ∧ g' = set_app s' g) ∨ beside cfg g g'.
Proof.
  intros Hstep. pose proof Hstep as Hstep'.
  destruct Hstep as [g s' Hc|g g' Ha|req g|fs net i g g' Ha|g|i g g' Hp].
  - left. by exists s'.
  - right. split; [done|]. unfold apply_loop_step in Ha. repeat case_match; by simplify_eq/=.
  - by right.
  - right. split; [done|]. by apply advance_spec in Ha as (t & t' & srv' & tr & _ & _ & ->).
  - by right.
  - right. split; [done|]. by apply probe_step_spec in Hp as (t & t' & st' & _ & _ & ->).
Qed.

(** The channel is the one [main] made. *)
Definition main_channel (w : WatchSender) : Prop :=
  w_receivers w = true ∧ w_initial w = initial_config.

Lemma gateway_step_channel cfg g g' :
  gateway_step cfg g g' → main_channel (sy_watch (gw_app g)) → main_channel (sy_watch (gw_app g')).
Proof.
  intros [(s' & Hc & ->)|(_ & _ & ->)]%other_tasks_beside; [|done]. intros [Hr Hi]. simpl.
  pose proof (client_step_receivers _ _ _ Hc). apply client_step_publishes in Hc as [[Hw _] _].
  split; congruence.
Qed.

Lemma gateway_reachable_channel fs mtls args g :
  gateway_reachable fs mtls args g → main_channel (sy_watch (gw_app g)).
Proof.
  intros Hr. unfold gateway_reachable in Hr.
  apply (rtc_ind_r (λ g, main_channel (sy_watch (gw_app g))) (gateway_start fs mtls args)) in Hr;
    [done| |].
  - simpl. unfold initial_system, start. destruct (a_static_config args); [|done].
    unfold apply_static. destruct (static_load fs _) as [[cfg|]|]; [|done..].
    by destruct (apply_config _ _) as [[] st].
  - intros g1 g2 _ Hstep Hg1. by eapply gateway_step_channel.
Qed.

(** ** Reconnecting *)

(** A connection attempt on which nothing fails. *)
Definition good_connection : Connection :=
  {| cn_endpoint := Ok tt; cn_connect := Ok tt; cn_open := Ok tt; cn_events := [] |}.

(** The gateway on a new stream, after the one before it ended. *)
Definition reconnect (cfg : XdsClientConfig) (g : GatewayState) : GatewayState :=
  set_app (client_connect cfg good_connection
    (with_client Disconnected (sy_watch (gw_app g)) (gw_app g))) g.

Lemma reconnect_steps cfg g :
  sy_client (gw_app g) ≠ Exited → rtc (gateway_step cfg) g (reconnect cfg g).
Proof.
  intros Hne.
  eapply rtc_r with (y := set_app (with_client Disconnected (sy_watch (gw_app g)) (gw_app g)) g).
  - destruct (sy_client (gw_app g)) as [|ss|] eqn:E; [| |done].
    + rewrite <- E. by destruct g as [[] ? ? ? ? ?].
    + by eapply rtc_once, Gw_client, Step_stream_end.
  - by apply (Gw_client _ (set_app _ g)), Step_connect.
Qed.

Lemma reconnect_session cfg g :
  sy_client (gw_app (reconnect cfg g)) = Streaming (fresh_session cfg (sy_watch (gw_app g))) ∧
  sy_watch (gw_app (reconnect cfg g)) = sy_watch (gw_app g).
Proof. unfold reconnect, client_connect. simpl. by rewrite start_session_ok. Qed.

(** ** The exchange among the other tasks *)

(** The answer of [server] to the last request of type [ty] reaches the ADS task. *)
Definition client_answer (server : DiscoveryRequest → DiscoveryResponse) (cfg : XdsClientConfig)
    (ty : string) (g : GatewayState) : GatewayState :=
  match sy_client (gw_app g) with
  | Streaming ss =>
      match last_request ty (ss_requests ss) with
      | Some q => set_app (client_message cfg (server q) ss (gw_app g)) g
      | None => g
      end
  | _ => g
  end.

(** The ADS task gets the answers of the types [tys], in that order, and the other tasks
    take any steps before, between and after. *)
Inductive exchange (server : DiscoveryRequest → DiscoveryResponse) (cfg : XdsClientConfig)
    : list string → GatewayState → GatewayState → Prop :=
| Ex_done g : exchange server cfg [] g g
| Ex_beside tys g g1 g2 :
    beside cfg g g1 → exchange server cfg tys g1 g2 → exchange server cfg tys g g2
| Ex_answer ty tys g g2 :
    exchange server cfg tys (client_answer server cfg ty g) g2 →
    exchange server cfg (ty :: tys) g g2.

Lemma client_answer_steps server cfg ty g : rtc (gateway_step cfg) g (client_answer server cfg ty g).
Proof.
  unfold client_answer. destruct (sy_client (gw_app g)) as [|ss|] eqn:E; [done| |done].
  destruct (last_request _ _); [|done]. by eapply rtc_once, Gw_client, Step_message.
Qed.

Lemma exchange_steps server cfg tys g g' :
  exchange server cfg tys g g' → rtc (gateway_step cfg) g g'.
Proof.
  induction 1 as [|tys g g1 g2 [Hb _] _ IH|ty tys g g2 _ IH]; [done|by eapply rtc_l|].
  etrans; [apply client_answer_steps|done].
Qed.

(** The exchange as the stream sees it. *)
Lemma exchange_serve server cfg tys g g' ss s' :
  exchange server cfg tys g g' → sy_client (gw_app g) = Streaming ss →
  serve server (node cfg) tys (set_watch (sy_watch (gw_app g)) ss) = (Ok tt, s') →
  sy_watch (gw_app g') = ss_watch s'.
Proof.
  intros Hex. revert ss. induction Hex as [g|tys g g1 g2 (_ & Hc & Hw) _ IH|ty tys g g2 _ IH];
    intros ss Hss.
  - intros [= <-]. done.
  - rewrite <- Hw. rewrite <- Hc in Hss. by apply IH.
  - simpl. unfold client_answer in IH. rewrite Hss in IH.
    change (ss_requests (set_watch _ ss)) with (ss_requests ss).
    destruct (last_request ty (ss_requests ss)) as [q|]; [|by apply IH].
    unfold client_message in IH.
    destruct (handle_response _ _ _) as [[[]|] s1] eqn:E; [|done]. simpl in IH.
    intros Hs. apply (IH s1 eq_refl). by destruct s1.
Qed.

Lemma exchange_exists server cfg tys g : ∃ g', exchange server cfg tys g g'.
Proof.
  revert g. induction tys as [|ty tys IH]; intros g; [by eexists; constructor|].
  destruct (IH (client_answer server cfg ty g)) as [g' Hg']. exists g'. by constructor.
Qed.

(** C3: The gateway recovers. Let the configuration that an honest server holds for the
    configured listeners be one that [validate] accepts, and not the one the gateway starts
    with. From every state the gateway can reach, as long as the ADS task has not given up, a
    reconnection is possible; and whenever, after one, that server's answers have come
    round as listeners, routes, clusters, endpoints, in any order and number before that and
    with the other tasks taking any steps in between, the last step of each probe that holds
    the lock and fifteen more of the applying task are enough to serve exactly that
    configuration, ready and without conflicts. *)
Theorem gateway_recovers fs mtls args g server W tys :
  let cfg := client_config_of args in
  let full := runtime_config (wd_version W) (target W (sorted_unique (a_listener_names args))) in
  gateway_reachable fs mtls args g → sy_client (gw_app g) ≠ Exited →
  honest server W → validate full = Ok tt → full ≠ initial_config →
  [LISTENER_TYPE; ROUTE_TYPE; CLUSTER_TYPE; ENDPOINT_TYPE] `sublist_of` tys →
  rtc (gateway_step cfg) g (reconnect cfg g) ∧
  (∃ g1, exchange server cfg tys (reconnect cfg g) g1) ∧
  ∀ g1, exchange server cfg tys (reconnect cfg g) g1 →
    gateway_reachable fs mtls args (apply_runs 15 (drain_probes g1)) ∧
    serves full (sy_state (gw_app (apply_runs 15 (drain_probes g1)))).
Proof.
  intros cfg full Hreach Hne Hserver Hfull Hinit Htys.
  pose proof (reconnect_steps cfg g Hne) as Hsteps.
  split; [done|]. split; [apply exchange_exists|]. intros g1 Hex.
  assert (gateway_reachable fs mtls args g1) as Hreach1.
  { unfold gateway_reachable in *. etrans; [done|]. etrans; [done|by eapply exchange_steps]. }
  split.
  { unfold gateway_reachable in *. etrans; [exact Hreach1|].
    etrans; [exact (drain_steps _ (length (gw_probes g1)) g1)|apply apply_runs_steps]. }
  destruct (reconnect_session cfg g) as [Hss Hw].
  destruct (serve_fresh server W Hserver cfg (sy_watch (gw_app g)) tys) as (s & Hs & _ & _ & Hpub);
    [by eapply gateway_reachable_channel|done|].
  eapply exchange_serve in Hex; [|done|].
  2:{ rewrite Hw. replace (set_watch _ _) with (fresh_session cfg (sy_watch (gw_app g))); [exact Hs|].
      unfold fresh_session, start_session. by destruct (set_subscription _ _ _). }
  assert (watch_value (sy_watch (gw_app g1)) = full) as Hv by (rewrite Hex; by apply Hpub).
  destruct (gateway_reachable_channel _ _ _ _ Hreach1) as [_ Hw1].
  rewrite <- Hv. eapply drained_serves; [exact Hreach1|]. intros Hnil. apply Hinit. rewrite <- Hv.
  unfold watch_value. by rewrite Hnil.
Qed.

End recover.

(** ** After the run of [Gateway] *)

Definition example_full : RuntimeConfig := runtime_config "v1" (target example_world []).

(** The route is there, and it leads to the service. *)
Lemma example_full_routes :
  r_weighted_clusters <$> match route_for example_full 80 {| mi_host := "orders.example.com";
    mi_path := "/"; mi_headers := [] |} with Ok r => Some r | Err _ => None end
  = Some [{| wc_name := "orders"; wc_weight := 100 |}].
Proof. vm_compute. reflexivity. Qed.

Lemma example_answered_streams : sy_client (gw_app example_answered) ≠ Exited.
Proof.
  intros E. apply (f_equal (λ c, match c with Exited => false | _ => true end)) in E.
  vm_compute in E. discriminate E.
Qed.

Lemma gateway_recovers_witness :
  ∃ g1 : GatewayState (H := list_http) (T := list_tls), serves example_full (sy_state (gw_app (apply_runs 15 (drain_probes g1)))).
Proof.
  destruct (gateway_recovers (L := example_serde) (P := example_prost) example_fs_none MtlsDisabled
    default_args example_answered example_server example_world example_schedule
    example_answered_reachable example_answered_streams) as (_ & (g1 & Hg1) & Hend).
  - exact example_server_honest.
  - vm_compute. reflexivity.
  - vm_compute. discriminate.
  - unfold example_schedule. repeat constructor.
  - exists g1. exact (proj2 (Hend g1 Hg1)).
Defined.
