(* ===== verification/GatewayOutage.v ===== *)
(** * The outage of a reconnection (crates/app/src/main.rs with crates/xds/src/client.rs)

    What [XdsReconnect.reconnect_drops_routes] shows of the ADS client, through all the
    tasks: from the first listener response of a new connection on, and until more of the
    configuration arrives, the gateway answers every request 404, and it stays ready. *)

From S2P Require Import Prelude RustString BTree Net Config ProxyState ProxyConc Http Mtls Server.
From S2P Require Import ServerConc XdsProto XdsConvert AdsState XdsClient XdsReconnect XdsConverge.
From S2P Require Import Source Admin App Gateway GatewayRecover.

Section outage.
Context {L : SerdeLib} {P : ProstLib} {H : HttpLib} {T : TlsLib}.

(** ** No routes *)

(** A configuration in which no request finds a route. *)
Definition no_routes (cfg : RuntimeConfig) : Prop :=
  ∀ port input, route_for cfg port input = Err (RouteNotFound (mi_host input) (mi_path input)).

Lemma initial_no_routes : no_routes initial_config.
Proof. done. Qed.

(** What [forward] answers under such a configuration: nothing is picked or sent. *)
Lemma no_routes_forward checks fs net srv req :
  no_routes (st_config (sv_state srv)) →
  forward checks fs net srv req =
  (Ret (Err (NOT_FOUND, show_DxgateError (RouteNotFound (mi_host (match_input req)) (request_path req)))),
   srv, []).
Proof.
  intros Hr. unfold forward, choose_upstream. rewrite Hr. by destruct srv.
Qed.

(** ** The applying task at rest *)

Definition rested (g : GatewayState) : Prop :=
  gw_apply g = ApplyIdle ∧ unseen (gw_app g) = false.

(** It stays at rest while nothing is published. *)
Lemma beside_rested cfg g g' :
  rested g → beside cfg g g' → rested g' ∧ sy_watch (gw_app g') = sy_watch (gw_app g).
Proof.
  intros [Ha Hu] (Hstep & _ & Hw). split; [|done]. revert Hw.
  destruct Hstep as [g s' Hc|g g' Hl|req g|fs net i g g' Hadv|g|i g g' Hp]; intros Hw.
  - apply client_step_publishes in Hc as [_ Es]. split; [done|].
    unfold unseen in *. simpl in *. rewrite Hw. by rewrite Es.
  - unfold apply_loop_step in Hl. by rewrite Ha, Hu in Hl.
  - done.
  - by apply advance_spec in Hadv as (t & t' & srv' & tr & _ & _ & ->).
  - done.
  - by apply probe_step_spec in Hp as (t & t' & st' & _ & _ & ->).
Qed.

Lemma besides_rested cfg g g' :
  rtc (beside cfg) g g' → rested g →
  rested g' ∧ sy_watch (gw_app g') = sy_watch (gw_app g) ∧ rtc (gateway_step cfg) g g'.
Proof.
  induction 1 as [g|g g1 g2 Hb _ IH]; intros Hs; [done|].
  destruct (beside_rested _ _ _ Hs Hb) as [Hs1 Hw1]. destruct (IH Hs1) as (Hs2 & Hw2 & Hr).
  split; [done|]. split; [congruence|]. eapply rtc_l; [by destruct Hb|done].
Qed.

(** At rest, the latest value published is served, or nothing ever was published. *)
Lemma rested_config g :
  gateway_inv g → rested g →
  if decide (w_sent (sy_watch (gw_app g)) = [])
  then st_config (sy_state (gw_app g)) = initial_config
  else serves (watch_value (sy_watch (gw_app g))) (sy_state (gw_app g)).
Proof.
  intros Hg [Ha Hu]. pose proof (gi_config _ Hg) as Hc. rewrite Ha in Hc.
  case_decide as Hn; [|by apply waiting_serves_latest].
  destruct (ci_published _ _ Hc) as [|Hin]; [done|]. rewrite Hn in Hin. by apply elem_of_nil in Hin.
Qed.

Lemma drained_rested fs mtls args g :
  gateway_reachable fs mtls args g →
  rested (apply_runs 15 (drain_probes g)) ∧
  sy_watch (gw_app (apply_runs 15 (drain_probes g))) = sy_watch (gw_app g) ∧
  rtc (gateway_step (client_config_of args)) g (apply_runs 15 (drain_probes g)).
Proof.
  intros Hr.
  assert (rtc (gateway_step (client_config_of args)) g (drain_probes g)) as Hd
    by exact (drain_steps _ (length (gw_probes g)) g).
  assert (gateway_inv (drain_probes g)) as Hg.
  { apply (gateway_reachable_inv fs mtls args). unfold gateway_reachable in *. by etrans. }
  destruct (drain_probes_spec g) as (ps & Eg & Hl).
  destruct (apply_runs_inv 15 _ Hg) as [_ Hw]. split_and!.
  - by apply apply_runs_waits, apply_rank_bound.
  - rewrite Hw. by rewrite Eg.
  - etrans; [exact Hd|apply apply_runs_steps].
Qed.

(** ** The outage *)

(** The first answer of a new connection, in the watch channel. *)
Lemma listeners_exchanged cfg g g1 resp ss :
  w_receivers (sy_watch (gw_app g)) = true → dr_type_url resp = LISTENER_TYPE →
  collect decode_listener (dr_resources resp) = Ok ss →
  Forall (λ s, ls_inline_virtual_hosts s = []) ss →
  exchange (λ _, resp) cfg [LISTENER_TYPE] (reconnect cfg g) g1 →
  routeless (sy_watch (gw_app g1)) ∧
  publishes (sy_watch (gw_app g)) (sy_watch (gw_app g1)).
Proof.
  intros Hw Hty Hss Hin Hex. destruct (reconnect_session cfg g) as [Hsession Hwatch].
  destruct (first_listeners cfg _ resp ss Hw Hty Hss Hin) as (s' & Hs' & Hless).
  pose proof (handle_response_publishes (node cfg) resp
    (fresh_session cfg (sy_watch (gw_app g)))) as Hpub. rewrite Hs' in Hpub. simpl in Hpub.
  eapply exchange_serve in Hex; [|exact Hsession|]; [rewrite Hex; split; [exact Hless|]|].
  - unfold fresh_session, start_session in Hpub. by destruct (set_subscription _ _ _).
  - rewrite Hwatch. replace (set_watch _ _) with (fresh_session cfg (sy_watch (gw_app g))).
    + simpl. destruct (last_request _ _) as [q|] eqn:Eq; [by rewrite Hs'|].
      unfold fresh_session, start_session in Eq. by destruct (set_subscription _ _ _).
    + unfold fresh_session, start_session. by destruct (set_subscription _ _ _).
Qed.

(** C4: Reconnecting interrupts the service. From every state the gateway can reach, as
    long as the ADS task has not given up, it can reconnect; and when, after that, the
    first listener response with its routes left to RDS has come in, the probes that hold
    the lock and the applying task have taken their steps, then as long as nothing more
    is published, and whatever the other tasks do, every request that the handler takes up
    is answered 404 with nothing sent upstream. If anything had been published before, the gateway says all
    the while that it is ready. *)
Theorem reconnect_outage fs mtls args g resp ss :
  let cfg := client_config_of args in
  gateway_reachable fs mtls args g → sy_client (gw_app g) ≠ Exited →
  dr_type_url resp = LISTENER_TYPE → collect decode_listener (dr_resources resp) = Ok ss →
  Forall (λ s, ls_inline_virtual_hosts s = []) ss →
  rtc (gateway_step cfg) g (reconnect cfg g) ∧
  (∃ g1, exchange (λ _, resp) cfg [LISTENER_TYPE] (reconnect cfg g) g1) ∧
  ∀ g1 g2, exchange (λ _, resp) cfg [LISTENER_TYPE] (reconnect cfg g) g1 →
    rtc (beside cfg) (apply_runs 15 (drain_probes g1)) g2 →
    gateway_reachable fs mtls args g2 ∧
    (w_sent (sy_watch (gw_app g)) ≠ [] → rd_ready (readiness (sy_state (gw_app g2))) = true) ∧
    ∀ checks fs' net req, forward checks fs' net (gw_server g2) req =
      (Ret (Err (NOT_FOUND,
         show_DxgateError (RouteNotFound (mi_host (match_input req)) (request_path req)))),
       gw_server g2, []).
Proof.
  intros cfg Hreach Hne Hty Hss Hin. pose proof (reconnect_steps cfg g Hne) as Hsteps.
  split; [done|]. split; [apply exchange_exists|]. intros g1 g2 Hex Hbeside.
  destruct (gateway_reachable_channel _ _ _ _ Hreach) as [Hw _].
  destruct (listeners_exchanged cfg g g1 resp ss Hw Hty Hss Hin Hex) as [(_ & _ & Hroutes) [_ (l & El & _)]].
  assert (gateway_reachable fs mtls args g1) as Hreach1.
  { unfold gateway_reachable in *. etrans; [exact Hreach|]. etrans; [exact Hsteps|].
    by eapply exchange_steps. }
  destruct (drained_rested fs mtls args g1 Hreach1) as (Hset & Hwd & Hd).
  destruct (besides_rested cfg _ _ Hbeside Hset) as (Hset2 & Hw2 & Hb).
  assert (gateway_reachable fs mtls args g2) as Hreach2.
  { unfold gateway_reachable in *. etrans; [exact Hreach1|]. by etrans. }
  pose proof (rested_config g2 (gateway_reachable_inv _ _ _ _ Hreach2) Hset2) as Hc.
  rewrite Hw2, Hwd in Hc. split; [done|]. split.
  - intros Hsent. rewrite decide_False in Hc; [by destruct Hc as (_ & Hr & _)|].
    rewrite El. by intros [? _]%app_nil.
  - intros checks fs' net req. apply no_routes_forward. simpl. case_decide.
    + rewrite Hc. exact initial_no_routes.
    + destruct Hc as [-> _]. exact Hroutes.
Qed.

End outage.

(** ** After the run of [Gateway] *)

(** The gateway of the example serves its route; the listeners come again, and the route
    is gone. *)
Lemma reconnect_outage_witness :
  ∃ g1 : GatewayState (H := list_http) (T := list_tls),
    rd_ready (readiness (sy_state (gw_app (apply_runs 15 (drain_probes g1))))) = true ∧
    (forward false example_fs_none echo_net (gw_server (apply_runs 15 (drain_probes g1)))
       orders_request).1.1 =
    Ret (Err (NOT_FOUND, "route not found for host=orders.example.com path=/orders/7")).
Proof.
  destruct (reconnect_outage (L := example_serde) (P := example_prost) example_fs_none MtlsDisabled
    default_args example_answered example_listener_response [example_rds_snapshot]
    example_answered_reachable example_answered_streams) as (_ & (g1 & Hg1) & Hend).
  - reflexivity.
  - vm_compute. reflexivity.
  - repeat constructor.
  - exists g1. destruct (Hend g1 (apply_runs 15 (drain_probes g1)) Hg1) as (_ & Hready & Hf);
      [apply rtc_refl|].
    split; [apply Hready; vm_compute; discriminate|]. rewrite Hf. reflexivity.
Defined.
