(* ===== verification/MtlsTest.v ===== *)
(** * The test that opens a TLS connection (crates/proxy/src/server.rs, [mod tests])

    [mtls_client_connects_with_bootstrap_certificate] makes a CA and two certificates,
    writes them and a gRPC bootstrap to files, starts a TLS server that asks for a
    client certificate, and has a client from the pool fetch a page. The program's part,
    [from_bootstrap] and [client_for] with all they read, is the one of [Mtls]; the
    certificates are [rcgen]'s, the connection is [rustls]'s and [hyper]'s, and both are
    parameters here, with what the test needs of them as hypotheses.

    The file also holds the vocabulary of the tests, which [Conformance] uses too. *)

From S2P Require Import Prelude RustString Config ProxyState Http Mtls Admin.

(** ** Assertions *)

(** A test passes when it runs to its end. *)
Abbreviation test := (option unit).

Definition assert (b : bool) : test := if b then Some tt else None.
Definition assert_eq {A} `{EqDecision A} (x y : A) : test := assert (bool_decide (x = y)).

Definition unwrap {A E} (r : result A E) : option A :=
  match r with Ok a => Some a | Err _ => None end.
Definition unwrap_err {A E} (r : result A E) : option E :=
  match r with Ok _ => None | Err e => Some e end.
Definition is_err {A E} (r : result A E) : bool :=
  match r with Ok _ => false | Err _ => true end.

(** What a call that did not panic returns. *)
Definition returned {A} (o : outcome A) : option A :=
  match o with Ret a => Some a | Panic => None end.

(** A file system after [fs::write]. *)
Definition fs_write (path contents : string) (fs : FileSystem) : FileSystem :=
  λ p, if decide (p = path) then Ok contents else fs p.

(** ** Certificates *)

(** [rcgen::CertificateParams], the fields that the test sets. *)
Record CertificateParams := {
  cp_subject_alt_names : list string;
  cp_is_ca : bool;
  cp_common_name : option string }.

Class RcgenLib := {
  RcgenCertificate : Type;
  from_params : CertificateParams → result RcgenCertificate string;
  serialize_pem : RcgenCertificate → result string string;
  serialize_der : RcgenCertificate → result string string;
  serialize_pem_with_signer : RcgenCertificate → RcgenCertificate → result string string;
  serialize_der_with_signer : RcgenCertificate → RcgenCertificate → result string string;
  serialize_private_key_pem : RcgenCertificate → string;
  serialize_private_key_der : RcgenCertificate → string }.

(** The server's side of [rustls], and a request to a server over a connection of its
    own: the server is its configuration and what it writes, given what it reads; [None]
    when it still waits. *)
Class TlsServerLib (T : TlsLib) := {
  ServerConfig : Type;
  build_server_config : RootCertStore → list string → string → result ServerConfig string;
  https_get : ServerConfig → (list string → option string) → MtlsClient T → string →
    result (Z * string) string }.

Section test.
Context {T : TlsLib} {R : RcgenLib} {N : TlsServerLib T}.

Definition test_ca : option RcgenCertificate :=
  unwrap (from_params {| cp_subject_alt_names := ["dubbo.test"]; cp_is_ca := true;
                         cp_common_name := Some "dubbo test ca" |}).

Definition signed_cert (dns_name : string) : option RcgenCertificate :=
  unwrap (from_params {| cp_subject_alt_names := [dns_name]; cp_is_ca := false;
                         cp_common_name := Some dns_name |}).

Definition server_config (ca server_cert : RcgenCertificate) : option ServerConfig :=
  ca_der ← unwrap (serialize_der ca);
  client_roots ← unwrap (roots_add roots_empty ca_der);
  chain ← unwrap (serialize_der_with_signer server_cert ca);
  unwrap (build_server_config client_roots [chain] (serialize_private_key_der server_cert)).

(** [std::env::temp_dir().join(format!("{prefix}-{nanos}"))]. *)
Definition temp_dir (env_temp_dir prefix : string) (nanos : Z) : string :=
  env_temp_dir +:+ "/" +:+ prefix +:+ "-" +:+ show_u nanos.

(** ** The server *)

Definition crlf : string := String "013" (String "010" "").

(** The loop that reads the request: up to the end of the stream, which is an empty
    read, or an empty line. *)
Fixpoint read_request (reads : list string) (request : string) : option string :=
  match reads with
  | [] => None
  | buf :: reads' =>
      if decide (buf = "") then Some request
      else
        let request := request +:+ buf in
        if contains (crlf +:+ crlf) request then Some request else read_request reads' request
  end.

Definition server_reply : string :=
  "HTTP/1.1 200 OK" +:+ crlf +:+ "content-length: 2" +:+ crlf +:+ crlf +:+ "ok".

Definition test_server (reads : list string) : option string :=
  _ ← read_request reads ""; Some server_reply.

(** ** The test *)

Definition bootstrap_value (cert_chain key root : string) : json :=
  JObject [("certificate_providers", JObject [("default", JObject [
    ("plugin_name", JString "file_watcher");
    ("config", JObject [("certificate_file", JString cert_chain);
                        ("private_key_file", JString key);
                        ("ca_certificate_file", JString root)])])])].

Definition test_tls_settings : UpstreamTls :=
  {| tls_sni := Some "nginx.app.svc.cluster.local"; tls_certificate_provider := None;
     tls_validation_provider := None; tls_alpn_protocols := ["h2"] |}.

(** [to_string] and [from_str] are [serde_json]'s. *)
Definition mtls_client_connects_with_bootstrap_certificate (to_string : json → string)
    (from_str : string → result GrpcBootstrap string) (fs : FileSystem) (env_temp_dir : string)
    (nanos port : Z) : test :=
  ca ← test_ca;
  server_cert ← signed_cert "nginx.app.svc.cluster.local";
  client_cert ← signed_cert "dxgate.default.svc.cluster.local";
  let dir := temp_dir env_temp_dir "dxgate-mtls" nanos in
  let cert_chain := dir +:+ "/cert-chain.pem" in
  let key := dir +:+ "/key.pem" in
  let root := dir +:+ "/root-cert.pem" in
  let bootstrap := dir +:+ "/grpc-bootstrap.json" in
  chain_pem ← unwrap (serialize_pem_with_signer client_cert ca);
  let fs := fs_write cert_chain chain_pem fs in
  let fs := fs_write key (serialize_private_key_pem client_cert) fs in
  root_pem ← unwrap (serialize_pem ca);
  let fs := fs_write root root_pem fs in
  let fs := fs_write bootstrap (to_string (bootstrap_value cert_chain key root)) fs in
  acceptor ← server_config ca server_cert;
  pool ← unwrap (from_bootstrap from_str fs bootstrap);
  client ← unwrap (client_for fs test_tls_settings pool).1;
  response ← unwrap (https_get acceptor test_server client
    ("https://127.0.0.1:" +:+ show_u port +:+ "/"));
  _ ← assert_eq response.1 200;
  assert_eq response.2 "ok".

(** ** What the test needs of the libraries *)

(** [asks acceptor sni] is what the verifier of a client is asked when it connects to the
    server under that name, [accepts] which client certificates the server takes, and
    [parse_reply] how [hyper] reads the bytes of a response. *)
Context (asks : ServerConfig → option string → VerifyArgs).
Context (accepts : ServerConfig → list string → Prop).
Context (parse_reply : string → result (Z * string) string).

(** Certificates can be made and written, and what was written is read again. *)
Record rcgen_works : Prop := {
  rw_params p : ∃ c, from_params p = Ok c;
  rw_chain c ca : ∃ pem der, serialize_pem_with_signer c ca = Ok pem ∧ pem_certs pem = Ok [der];
  rw_chain_der c ca : ∃ der, serialize_der_with_signer c ca = Ok der;
  rw_root ca : ∃ pem der, serialize_pem ca = Ok pem ∧ pem_certs pem = Ok [der];
  rw_root_der ca : ∃ der, serialize_der ca = Ok der;
  rw_key c : ∃ key, pem_pkcs8_private_keys (serialize_private_key_pem c) = Ok [key] }.

(** [rustls] takes the certificates of the test. A client that trusts the CA accepts the
    server's certificate, or objects to its name only, and the server accepts a
    certificate that the CA signed. *)
Record rustls_works : Prop := {
  rl_add der : ∃ roots, roots_add roots_empty der = Ok roots;
  rl_server roots chain key : ∃ conf, build_server_config roots chain key = Ok conf;
  rl_client verifier certs key : ∃ conf, build_client_config verifier certs key = Ok conf;
  rl_trusts ca cert acceptor pem der roots sni :
    server_config ca cert = Some acceptor → serialize_pem ca = Ok pem → pem_certs pem = Ok [der] →
    roots_add roots_empty der = Ok roots →
    webpki_verify roots (asks acceptor sni) = Ok tt ∨
    ∃ e, webpki_verify roots (asks acceptor sni) = Err e ∧ not_valid_for_name e = true;
  rl_accepts ca cert acceptor client pem certs :
    server_config ca cert = Some acceptor → serialize_pem_with_signer client ca = Ok pem →
    pem_certs pem = Ok certs → accepts acceptor certs }.

(** When each side takes the other's certificate, the server reads a request in some
    pieces and the client gets what the server writes. *)
Record network_works : Prop := {
  nw_get acceptor serve verifier certs key conf sni uri :
    build_client_config verifier certs key = Ok conf →
    verifier (asks acceptor sni) = Ok tt → accepts acceptor certs →
    ∃ reads, contains (crlf +:+ crlf) (foldr String.app "" reads) = true ∧
      ∀ reply, serve reads = Some reply →
        https_get acceptor serve {| mc_config := conf; mc_server_name := sni |} uri
        = parse_reply reply;
  nw_reply : parse_reply server_reply = Ok (200, "ok") }.

(** A bootstrap with one provider. *)
Definition one_provider (cert key root : string) : GrpcBootstrap :=
  {| gb_certificate_providers := {["default" := {| cp_config :=
    {| fw_certificate_file := Some cert; fw_private_key_file := Some key;
       fw_ca_certificate_file := Some root |} |}]} |}.

(** [serde_json] reads what it wrote for the files in [dir]. *)
Definition bootstrap_read (to_string : json → string)
    (from_str : string → result GrpcBootstrap string) (dir : string) : Prop :=
  let cert_chain := dir +:+ "/cert-chain.pem" in
  let key := dir +:+ "/key.pem" in
  let root := dir +:+ "/root-cert.pem" in
  from_str (to_string (bootstrap_value cert_chain key root)) = Ok (one_provider cert_chain key root).

(** ** The test passes *)

Lemma read_request_ends reads request :
  contains (crlf +:+ crlf) (request +:+ foldr String.app "" reads) = true →
  contains (crlf +:+ crlf) request = false → is_Some (read_request reads request).
Proof.
  revert request. induction reads as [|buf reads IH]; intros request; cbn [foldr read_request].
  - rewrite str_app_nil_r. congruence.
  - intros Hc Hn. case_decide; [done|].
    destruct (contains _ (request +:+ buf)) eqn:E; [done|]. apply IH; [|done].
    by rewrite str_app_assoc.
Qed.

Lemma test_server_replies reads :
  contains (crlf +:+ crlf) (foldr String.app "" reads) = true → test_server reads = Some server_reply.
Proof.
  intros Hc. unfold test_server. destruct (read_request_ends reads "") as [req ->]; done.
Qed.

Lemma fs_write_same path contents fs : fs_write path contents fs path = Ok contents.
Proof. unfold fs_write. by rewrite decide_True. Qed.

Lemma fs_write_other path contents fs p : p ≠ path → fs_write path contents fs p = fs p.
Proof. intros H. unfold fs_write. by rewrite decide_False. Qed.

Lemma dir_inj dir a b : dir +:+ a = dir +:+ b → a = b.
Proof. induction dir as [|c dir IH]; [done|]. intros [= H]. by apply IH. Qed.

Lemma load_certs_one fs path label pem der :
  fs path = Ok pem → pem_certs pem = Ok [der] → load_certs fs path label = Ok [der].
Proof. intros H1 H2. unfold load_certs. rewrite H1. cbn [map_err]. by rewrite H2. Qed.

Lemma load_private_key_one fs path pem der :
  fs path = Ok pem → pem_pkcs8_private_keys pem = Ok [der] → load_private_key fs path = Ok der.
Proof.
  intros H1 H2. unfold load_private_key, load_private_keys. rewrite H1. cbn [map_err]. by rewrite H2.
Qed.

Lemma load_roots_one fs path pem der roots :
  fs path = Ok pem → pem_certs pem = Ok [der] → roots_add roots_empty der = Ok roots →
  load_roots fs path = Ok roots.
Proof.
  intros H1 H2 H3. unfold load_roots. rewrite (load_certs_one _ _ _ pem der) by done.
  cbn [add_roots]. by rewrite H3.
Qed.

Lemma one_provider_config fs cert key root certs key_der roots tls :
  tls_certificate_provider tls = None → tls_validation_provider tls = None →
  load_certs fs cert "data-plane client certificate" = Ok certs →
  load_private_key fs key = Ok key_der → load_roots fs root = Ok roots →
  tls_config fs (one_provider cert key root) tls =
    map_err (λ e, "build data-plane mTLS client config: " +:+ e)
      (build_client_config (spiffe_verify roots) certs key_der).
Proof.
  intros Hcp Hvp Hc Hk Hr. unfold tls_config. rewrite Hcp, Hvp. cbn [default from_option].
  unfold provider, one_provider. cbn [gb_certificate_providers]. rewrite lookup_singleton_eq.
  cbn [fmap option_fmap option_map ok_or cp_config].
  change (required_path _ "certificate_file" "default") with (Ok (E := string) cert).
  change (required_path _ "private_key_file" "default") with (Ok (E := string) key).
  change (required_path _ "ca_certificate_file" "default") with (Ok (E := string) root).
  cbn beta iota. by rewrite Hc, Hk, Hr.
Qed.

Lemma test_ca_works : rcgen_works → ∃ ca, test_ca = Some ca.
Proof. intros Hg. unfold test_ca. pose proof (rw_params Hg) as Hp. edestruct Hp as [c ->]. by exists c. Qed.

Lemma signed_cert_works name : rcgen_works → ∃ c, signed_cert name = Some c.
Proof. intros Hg. unfold signed_cert. pose proof (rw_params Hg) as Hp. edestruct Hp as [c ->]. by exists c. Qed.

Lemma server_config_works ca cert :
  rcgen_works → rustls_works → ∃ acceptor, server_config ca cert = Some acceptor.
Proof.
  intros Hg Hl. unfold server_config.
  destruct (rw_root_der Hg ca) as [der ->]. destruct (rl_add Hl der) as [roots Hroots].
  destruct (rw_chain_der Hg cert ca) as [chain ->]. cbn. rewrite Hroots. cbn.
  destruct (rl_server Hl roots [chain] (serialize_private_key_der cert)) as [conf ->].
  by eexists.
Qed.

(** What the client's verifier says of the server. *)
Lemma spiffe_trusts roots args :
  (webpki_verify roots args = Ok tt ∨
   ∃ e, webpki_verify roots args = Err e ∧ not_valid_for_name e = true) →
  spiffe_verify roots args = Ok tt.
Proof. unfold spiffe_verify. intros [->|(e & -> & ->)]; done. Qed.

(** The exchange, once the files are what the test wrote. *)
Lemma mtls_exchange fs cert key root ca server_cert client_cert acceptor chain_pem root_pem uri :
  rcgen_works → rustls_works → network_works →
  server_config ca server_cert = Some acceptor →
  serialize_pem_with_signer client_cert ca = Ok chain_pem → serialize_pem ca = Ok root_pem →
  fs cert = Ok chain_pem → fs key = Ok (serialize_private_key_pem client_cert) →
  fs root = Ok root_pem →
  ∃ client, (client_for fs test_tls_settings (empty_pool (one_provider cert key root))).1 = Ok client ∧
    https_get acceptor test_server client uri = Ok (200, "ok").
Proof.
  intros Hg Hl Hn Hacc Hchain Hroot Fc Fk Fr.
  destruct (rw_chain Hg client_cert ca) as (pem & der & Hpem & Hder).
  rewrite Hchain in Hpem. injection Hpem as <-.
  destruct (rw_root Hg ca) as (rpem & rder & Hrpem & Hrder).
  rewrite Hroot in Hrpem. injection Hrpem as <-.
  destruct (rw_key Hg client_cert) as [kder Hkder]. destruct (rl_add Hl rder) as [roots Hroots].
  destruct (rl_client Hl (spiffe_verify roots) [der] kder) as [conf Hconf].
  exists {| mc_config := conf; mc_server_name := Some "nginx.app.svc.cluster.local" |}. split.
  - unfold client_for, build_client. cbn [empty_pool mp_poisoned mp_clients mp_bootstrap].
    rewrite lookup_empty, (one_provider_config fs cert key root [der] kder roots)
      by eauto using load_certs_one, load_private_key_one, load_roots_one.
    by rewrite Hconf.
  - destruct (nw_get Hn acceptor test_server (spiffe_verify roots) [der] kder conf
      (Some "nginx.app.svc.cluster.local") uri Hconf) as (reads & Hreads & Hget).
    + apply spiffe_trusts. by eapply (rl_trusts Hl).
    + by eapply (rl_accepts Hl).
    + rewrite (Hget server_reply); [apply (nw_reply Hn)|by apply test_server_replies].
Qed.

Lemma mtls_test_passes to_string from_str fs env_temp_dir nanos port :
  rcgen_works → rustls_works → network_works →
  bootstrap_read to_string from_str (temp_dir env_temp_dir "dxgate-mtls" nanos) →
  mtls_client_connects_with_bootstrap_certificate to_string from_str fs env_temp_dir nanos port
  = Some tt.
Proof.
  intros Hg Hl Hn Hread. unfold mtls_client_connects_with_bootstrap_certificate.
  destruct (test_ca_works Hg) as [ca ->].
  destruct (signed_cert_works "nginx.app.svc.cluster.local" Hg) as [server_cert ->].
  destruct (signed_cert_works "dxgate.default.svc.cluster.local" Hg) as [client_cert ->].
  destruct (rw_chain Hg client_cert ca) as (chain_pem & der & Hchain & Hder).
  destruct (rw_root Hg ca) as (root_pem & rder & Hroot & Hrder).
  destruct (server_config_works ca server_cert Hg Hl) as [acceptor Hacc].
  cbn [mbind option_bind]. rewrite Hchain, Hroot, Hacc. cbn [unwrap mbind option_bind].
  cbv zeta. set (dir := temp_dir _ _ _). set (fs' := fs_write _ (to_string _) _).
  assert (∀ a b, a ≠ b → dir +:+ a ≠ dir +:+ b) as Hdir by (intros a b Hab ?%dir_inj; done).
  unfold from_bootstrap.
  assert (fs' (dir +:+ "/grpc-bootstrap.json") = Ok (to_string (bootstrap_value
    (dir +:+ "/cert-chain.pem") (dir +:+ "/key.pem") (dir +:+ "/root-cert.pem")))) as ->
    by apply fs_write_same.
  cbn [map_err].
  unfold bootstrap_read in Hread. fold dir in Hread. cbv zeta in Hread. rewrite Hread.
  cbn [map_err unwrap mbind option_bind].
  destruct (mtls_exchange fs' (dir +:+ "/cert-chain.pem") (dir +:+ "/key.pem")
    (dir +:+ "/root-cert.pem")
    ca server_cert client_cert acceptor chain_pem root_pem ("https://127.0.0.1:" +:+ show_u port +:+ "/") Hg Hl Hn Hacc
    Hchain Hroot) as (client & Hclient & Hget).
  - unfold fs'. by rewrite !fs_write_other, fs_write_same by (by apply Hdir).
  - unfold fs'. by rewrite !fs_write_other, fs_write_same by (by apply Hdir).
  - unfold fs'. by rewrite !fs_write_other, fs_write_same by (by apply Hdir).
  - unfold empty_pool in Hclient. rewrite Hclient. cbn [unwrap mbind option_bind].
    rewrite Hget. vm_compute. reflexivity.
Qed.

End test.

(** ** Libraries on texts

    A certificate is its name; a PEM text is its blob behind [cert:] or [key:]; a server
    is its chain, and the client is asked whether it knows an issuer that it knows. *)

Definition text_rcgen : RcgenLib :=
  {| RcgenCertificate := string;
     from_params p := Ok (default "" (cp_common_name p));
     serialize_pem c := Ok "cert:CA";
     serialize_der c := Ok "CA";
     serialize_pem_with_signer c ca := Ok "cert:signed";
     serialize_der_with_signer c ca := Ok "signed";
     serialize_private_key_pem c := "key:private";
     serialize_private_key_der c := "private" |}.

(** A [TlsLib] as [list_tls], whose store takes every certificate. *)
Definition text_tls : TlsLib :=
  {| pem_certs := pem_lines "cert:";
     pem_pkcs8_private_keys := pem_lines "key:";
     pem_rsa_private_keys := pem_lines "rsa:";
     RootCertStore := list string;
     roots_empty := [];
     roots_add := λ rs c, Ok (rs ++ [c]);
     VerifyArgs := string;
     TlsError := string;
     not_valid_for_name e := bool_decide (e = "name");
     webpki_verify := λ rs issuer, if decide (issuer ∈ rs) then Err "name" else Err "unknown issuer";
     ClientConfig := list string * string;
     build_client_config := λ _ certs key, Ok (certs, key) |}.

Definition text_reply (bytes : string) : result (Z * string) string :=
  if decide (bytes = server_reply) then Ok (200, "ok") else Err "invalid HTTP version parsed".

Definition text_server : TlsServerLib text_tls :=
  {| ServerConfig := list string;
     build_server_config := λ _ chain _, Ok chain;
     https_get := λ _ serve _ _,
       match serve ["GET / HTTP/1.1" +:+ crlf; "host: 127.0.0.1" +:+ crlf +:+ crlf] with
       | Some reply => text_reply reply
       | None => Err "connection closed before message completed"
       end |}.

Lemma text_rcgen_works : rcgen_works (T := text_tls) (R := text_rcgen).
Proof. constructor; simpl; by repeat eexists. Qed.

Lemma text_rustls_works :
  rustls_works (T := text_tls) (R := text_rcgen) (N := text_server) (λ _ _, "CA") (λ _ _, True).
Proof.
  constructor; simpl; [by eexists..| |done].
  intros _ _ _ pem der roots _ _ [= <-] Hpem [= <-]. injection Hpem as <-. right. by exists "name".
Qed.

Lemma text_network_works :
  network_works (T := text_tls) (N := text_server) (λ _ _, "CA") (λ _ _, True) text_reply.
Proof.
  constructor; [|reflexivity]. intros acceptor serve verifier certs key conf sni uri _ _ _.
  exists ["GET / HTTP/1.1" +:+ crlf; "host: 127.0.0.1" +:+ crlf +:+ crlf].
  split; [vm_compute; reflexivity|]. intros reply Hreply. cbn [https_get text_server]. by rewrite Hreply.
Qed.
