(* ===== verification/Conformance.v ===== *)
(** * The repository's tests

    Every unit test of the sources and the end-to-end test of the proxy, as executable
    definitions on the model: the inputs and the assertions are the ones of the test,
    [unwrap] and a failed assertion end it. (The test that opens a TLS connection is in
    [MtlsTest].) That the tests pass
    ([repository_tests_pass]) checks the definitions of the other files against what the
    authors of the code expect of it.

    The tests read JSON, YAML and protobuf bytes with the libraries the code uses. Those
    stay parameters here; what is assumed of them is how they read the very inputs of
    the tests. *)

From S2P Require Import Prelude RustString Net Config Identity ProxyState Http Mtls Server.
From S2P Require Import XdsProto XdsConvert AdsState Source App MtlsTest.

(** ** crates/core *)

Definition detects_listener_conflict : test :=
  bind ← parse_socket_addr_v4 "0.0.0.0:80";
  let cfg := {|
    rc_version := "test";
    rc_listeners := [
      {| l_name := "http"; l_bind := bind; l_protocol := Http; l_virtual_hosts := [];
         l_tls_secret := None |};
      {| l_name := "https"; l_bind := bind; l_protocol := Https; l_virtual_hosts := [];
         l_tls_secret := Some "secret" |}];
    rc_clusters := []; rc_secrets := [] |} in
  assert (is_err (validate cfg)).

Definition validates_missing_weighted_cluster_references : test :=
  bind ← parse_socket_addr_v4 "0.0.0.0:80";
  let cfg := {|
    rc_version := "test";
    rc_listeners := [
      {| l_name := "http"; l_bind := bind; l_protocol := Http;
         l_virtual_hosts := [
           {| vh_name := "wildcard"; vh_domains := ["*"];
              vh_routes := [
                {| r_name := "missing";
                   r_matches := [{| rm_path := Prefix "/"; rm_headers := [] |}];
                   r_weighted_clusters := [{| wc_name := "missing-cluster"; wc_weight := 100 |}] |}]
           |}];
         l_tls_secret := None |}];
    rc_clusters := []; rc_secrets := [] |} in
  conflicts ← unwrap_err (validate cfg);
  first ← conflicts !! 0%nat;
  assert_eq (cc_kind first) "missing-cluster".

Definition routes_by_host_path_and_header_match : test :=
  bind ← parse_socket_addr_v4 "0.0.0.0:80";
  let cfg := {|
    rc_version := "test";
    rc_listeners := [
      {| l_name := "http"; l_bind := bind; l_protocol := Http;
         l_virtual_hosts := [
           {| vh_name := "example"; vh_domains := ["*.example.com"];
              vh_routes := [
                {| r_name := "admin";
                   r_matches := [
                     {| rm_path := Exact "/admin";
                        rm_headers := [{| hm_name := "x-env"; hm_value := "prod" |}] |}];
                   r_weighted_clusters := [{| wc_name := "admin"; wc_weight := 100 |}] |};
                {| r_name := "default";
                   r_matches := [{| rm_path := Prefix "/"; rm_headers := [] |}];
                   r_weighted_clusters := [{| wc_name := "default"; wc_weight := 100 |}] |}] |}];
         l_tls_secret := None |}];
    rc_clusters := [
      {| c_name := "admin"; c_endpoints := []; c_tls := None |};
      {| c_name := "default"; c_endpoints := []; c_tls := None |}];
    rc_secrets := [] |} in
  let headers := [("x-env", "prod")] in
  route ← unwrap (route_for cfg HTTP_LISTENER_PORT
    {| mi_host := "api.example.com"; mi_path := "/admin"; mi_headers := headers |});
  _ ← assert_eq (r_name route) "admin";
  route ← unwrap (route_for cfg HTTP_LISTENER_PORT
    {| mi_host := "api.example.com"; mi_path := "/users"; mi_headers := [] |});
  _ ← assert_eq (r_name route) "default";
  assert (is_err (route_for cfg HTTP_LISTENER_PORT
    {| mi_host := "api.other.test"; mi_path := "/users"; mi_headers := [] |})).

Definition builds_dubbo_router_node_id : test :=
  let id := {|
    id_pod_name := "dxgate-abc"; id_namespace := "dubbo-system"; id_pod_ip := "10.0.0.10";
    id_node_name := Some "node-a"; id_cluster_id := DEFAULT_CLUSTER_ID;
    id_dns_domain := DEFAULT_DNS_DOMAIN |} in
  assert_eq (node_id id)
    "router~10.0.0.10~dxgate-abc.dubbo-system~dubbo-system.svc.cluster.local".

(** ** crates/proxy/src/state.rs *)

Definition valid_config (version : string) : option RuntimeConfig :=
  bind ← parse_socket_addr_v4 "0.0.0.0:80";
  Some {|
    rc_version := version;
    rc_listeners := [
      {| l_name := "http"; l_bind := bind; l_protocol := Http;
         l_virtual_hosts := [
           {| vh_name := "wildcard"; vh_domains := ["*"];
              vh_routes := [
                {| r_name := "default";
                   r_matches := [{| rm_path := Prefix "/"; rm_headers := [] |}];
                   r_weighted_clusters := [{| wc_name := "backend"; wc_weight := 100 |}] |}] |}];
         l_tls_secret := None |}];
    rc_clusters := [
      {| c_name := "backend";
         c_endpoints := [{| ep_address := "127.0.0.1"; ep_port := 8080; ep_healthy := true;
                            ep_node_name := None |}];
         c_tls := None |}];
    rc_secrets := [] |}.

(** [invalid.clusters.clear()]. *)
Definition clear_clusters (cfg : RuntimeConfig) : RuntimeConfig :=
  {| rc_version := rc_version cfg; rc_listeners := rc_listeners cfg; rc_clusters := [];
     rc_secrets := rc_secrets cfg |}.

Definition apply_config_updates_readiness_and_conflicts : test :=
  let state := new_state (empty_config "bootstrap") in
  ok ← valid_config "ok";
  let '(r, state) := apply_config ok state in
  _ ← unwrap r;
  let rd := readiness state in
  _ ← assert (rd_ready rd);
  _ ← assert_eq (rd_version rd) "ok";
  _ ← assert_eq (rd_conflicts rd) [];
  invalid ← clear_clusters <$> valid_config "bad";
  let '(r, state) := apply_config invalid state in
  conflicts ← unwrap_err r;
  let rd := readiness state in
  _ ← assert (negb (rd_ready rd));
  _ ← assert_eq (rd_conflicts rd) conflicts;
  first ← rd_conflicts rd !! 0%nat;
  assert_eq (cc_kind first) "missing-cluster".

(** [n] turns of the loop that picks a cluster, with overflow checks as in a test
    build. *)
Fixpoint picked_names (n : nat) (clusters : list WeightedCluster) (state : Inner)
    : option (list string) :=
  match n with
  | O => Some []
  | S n' =>
      let '(picked, state) := pick_cluster true clusters state in
      w ← returned picked ≫= id;
      names ← picked_names n' clusters state;
      Some (wc_name w :: names)
  end.

Definition weighted_cluster_picker_is_deterministic : test :=
  let state := new_state (empty_config "test") in
  let clusters := [{| wc_name := "a"; wc_weight := 2 |}; {| wc_name := "b"; wc_weight := 1 |}] in
  names ← picked_names 6 clusters state;
  assert_eq names ["a"; "a"; "b"; "a"; "a"; "b"].

Definition endpoint_picker_skips_unhealthy_endpoints : test :=
  let state := new_state (empty_config "test") in
  let endpoints := [
    {| ep_address := "10.0.0.1"; ep_port := 8080; ep_healthy := false; ep_node_name := None |};
    {| ep_address := "10.0.0.2"; ep_port := 8080; ep_healthy := true; ep_node_name := None |}] in
  let '(picked, state) := pick_endpoint "backend" endpoints state in
  endpoint ← returned picked ≫= unwrap;
  _ ← assert_eq (ep_address endpoint) "10.0.0.2";
  let unhealthy := [
    {| ep_address := "10.0.0.3"; ep_port := 8080; ep_healthy := false; ep_node_name := None |}] in
  let '(picked, _) := pick_endpoint "backend" unhealthy state in
  r ← returned picked;
  assert (is_err r).

(** ** crates/proxy/src/server.rs *)

Definition mtls_cache_key_tracks_provider_and_alpn : test :=
  let tls := {|
    tls_sni := Some "nginx.app.svc.cluster.local"; tls_certificate_provider := Some "workload";
    tls_validation_provider := Some "roots"; tls_alpn_protocols := ["h2"; "http/1.1"] |} in
  assert_eq (mtls_cache_key tls) "nginx.app.svc.cluster.local|workload|roots|h2,http/1.1".

(** A quoted string in a JSON text, and a line. *)
Definition quoted (s : string) : string := String "034" (s +:+ String "034" "").
Definition line (s : string) : string := s +:+ String "010" "".

Definition grpc_bootstrap_json : string :=
  line "{"
  +:+ line ("              " +:+ quoted "certificate_providers" +:+ ": {")
  +:+ line ("                " +:+ quoted "default" +:+ ": {")
  +:+ line ("                  " +:+ quoted "plugin_name" +:+ ": " +:+ quoted "file_watcher" +:+ ",")
  +:+ line ("                  " +:+ quoted "config" +:+ ": {")
  +:+ line ("                    " +:+ quoted "certificate_file" +:+ ": "
            +:+ quoted "/etc/dubbo/proxy/cert-chain.pem" +:+ ",")
  +:+ line ("                    " +:+ quoted "private_key_file" +:+ ": "
            +:+ quoted "/etc/dubbo/proxy/key.pem" +:+ ",")
  +:+ line ("                    " +:+ quoted "ca_certificate_file" +:+ ": "
            +:+ quoted "/etc/dubbo/proxy/root-cert.pem")
  +:+ line "                  }"
  +:+ line "                }"
  +:+ line "              }"
  +:+ "            }".

(** [from_str] is [serde_json]'s, at [GrpcBootstrap]. *)
Definition parses_grpc_xds_bootstrap_file_watcher_provider
    (from_str : string → result GrpcBootstrap string) : test :=
  bootstrap ← unwrap (from_str grpc_bootstrap_json);
  prov ← unwrap (provider bootstrap "default");
  cert ← unwrap (required_path prov "certificate_file" "default");
  _ ← assert_eq cert "/etc/dubbo/proxy/cert-chain.pem";
  key ← unwrap (required_path prov "private_key_file" "default");
  _ ← assert_eq key "/etc/dubbo/proxy/key.pem";
  ca ← unwrap (required_path prov "ca_certificate_file" "default");
  assert_eq ca "/etc/dubbo/proxy/root-cert.pem".

(** ** crates/app *)

Definition base_args : option Args :=
  http ← parse_socket_addr_v4 "0.0.0.0:80";
  admin ← parse_socket_addr_v4 "0.0.0.0:15021";
  Some {|
    a_xds_address := "http://old:15012"; a_http_addr := http; a_admin_addr := admin;
    a_static_config := None; a_bootstrap := Some "/etc/dxgate/bootstrap.json";
    a_listener_names := []; a_pod_name := "dxgate"; a_namespace := "dubbo-system";
    a_pod_ip := "127.0.0.1"; a_node_name := None; a_cluster_id := "old-cluster";
    a_dns_domain := "cluster.local" |}.

Definition bootstrap_overrides_control_plane_fields : test :=
  args ← base_args;
  http ← parse_socket_addr_v4 "0.0.0.0:8080";
  let args := apply_bootstrap {|
    bc_xds_address := Some "http://dubbod.dubbo-system.svc:15012"; bc_http_addr := Some http;
    bc_admin_addr := None; bc_listener_names := ["public-dubbo.app.svc.cluster.local:80"];
    bc_pod_name := None; bc_namespace := None; bc_pod_ip := None; bc_node_name := None;
    bc_cluster_id := Some "Kubernetes"; bc_dns_domain := Some "svc.local" |} args in
  _ ← assert_eq (a_xds_address args) "http://dubbod.dubbo-system.svc:15012";
  _ ← assert_eq (addr_port (a_http_addr args)) 8080;
  _ ← assert_eq (a_cluster_id args) "Kubernetes";
  _ ← assert_eq (a_dns_domain args) "svc.local";
  _ ← assert_eq (a_pod_name args) "dxgate";
  assert_eq (a_listener_names args) ["public-dubbo.app.svc.cluster.local:80"].

(** ** crates/xds/src/source.rs *)

(** [temp_dir].join([dxgate-{name}-{pid}-{nanos}]). *)
Definition temp_file (temp_dir : string) (pid nanos : Z) (name : string) : string :=
  temp_dir +:+ "/" +:+ "dxgate-" +:+ name +:+ "-" +:+ show_u pid +:+ "-" +:+ show_u nanos.

Definition bootstrap_json : string :=
  line "{"
  +:+ line ("  " +:+ quoted "xds_address" +:+ ": "
            +:+ quoted "http://dubbod.dubbo-system.svc:15012" +:+ ",")
  +:+ line ("  " +:+ quoted "listener_names" +:+ ": ["
            +:+ quoted "public-dubbo.app.svc.cluster.local:80" +:+ "],")
  +:+ line ("  " +:+ quoted "cluster_id" +:+ ": " +:+ quoted "Kubernetes" +:+ ",")
  +:+ line ("  " +:+ quoted "dns_domain" +:+ ": " +:+ quoted "cluster.local")
  +:+ "}".

Definition bootstrap_yaml : string :=
  line "xds_address: http://dubbod.dubbo-system.svc:15012" +:+ line "http_addr: 0.0.0.0:8080".

Definition bootstrap_config_loads_json {L : SerdeLib} (fs : FileSystem) (path : string) : test :=
  cfg ← unwrap (bootstrap_load (fs_write path bootstrap_json fs) path);
  _ ← assert_eq (bc_xds_address cfg) (Some "http://dubbod.dubbo-system.svc:15012");
  _ ← assert_eq (bc_listener_names cfg) ["public-dubbo.app.svc.cluster.local:80"];
  _ ← assert_eq (bc_cluster_id cfg) (Some "Kubernetes");
  assert_eq (bc_dns_domain cfg) (Some "cluster.local").

Definition bootstrap_config_loads_yaml {L : SerdeLib} (fs : FileSystem) (path : string) : test :=
  cfg ← unwrap (bootstrap_load (fs_write path bootstrap_yaml fs) path);
  _ ← assert_eq (bc_xds_address cfg) (Some "http://dubbod.dubbo-system.svc:15012");
  addr ← bc_http_addr cfg;
  assert_eq (addr_port addr) 8080.

(** ** crates/xds/src/client.rs *)

Definition identity_metadata_selects_dubbod_grpc_generator : test :=
  let identity := {|
    id_pod_name := "dxgate-abc"; id_namespace := "app"; id_pod_ip := "10.0.0.10";
    id_node_name := Some "node-a"; id_cluster_id := "Kubernetes";
    id_dns_domain := "svc.cluster.local" |} in
  assert_eq (md_generator (metadata identity)) "grpc".

Definition response (type_url : string) (resources : list Any) : DiscoveryResponse :=
  {| dr_version_info := "v1"; dr_resources := resources; dr_type_url := type_url;
     dr_nonce := "nonce" |}.

(** [any], of a message that was encoded. *)
Definition any (type_url encoded : string) : Any :=
  {| any_type_url := type_url; any_value := encoded |}.

Definition socket (address_value : string) (port : Z) : PbAddress :=
  {| addr_address := Some (AddrSocketAddress
       {| sa_address := address_value; sa_port_specifier := Some (PortValue port) |}) |}.

Definition test_route_name : string := "outbound|80||orders.app.svc.cluster.local".
Definition test_cluster_name : string := "outbound|8080||orders.app.svc.cluster.local".

Definition test_manager : PbHttpConnectionManager :=
  {| hcm_route_specifier := Some (RsRds {| rds_route_config_name := test_route_name |}) |}.

Definition test_listener (manager : string) : PbListener :=
  {| pl_name := "dxgate.app.svc.cluster.local:80"; pl_address := Some (socket "10.96.0.10" 80);
     pl_filter_chains := [];
     pl_api_listener := Some {| al_api_listener := Some (any HCM_TYPE manager) |} |}.

Definition test_route : PbRouteConfiguration :=
  {| prc_name := test_route_name;
     prc_virtual_hosts := [
       {| pvh_name := "orders"; pvh_domains := ["orders.example.com"];
          pvh_routes := [
            {| pr_name := "orders-default";
               pr_match := Some {| prm_path_specifier := Some (PsPrefix "/"); prm_headers := [] |};
               pr_action := Some (ActRoute
                 {| ra_cluster_specifier := Some (CsCluster test_cluster_name) |}) |}] |}] |}.

Definition test_tls : PbUpstreamTlsContext :=
  {| utc_sni := "orders.app.svc.cluster.local";
     utc_common_tls_context := Some
       {| ctc_certificate_provider_instance := Some
            {| cpi_instance_name := "workload"; cpi_certificate_name := "default" |};
          ctc_alpn_protocols := ["h2"];
          ctc_validation_context_type := Some (CombinedValidationContext
            {| cvc_provider_instance := Some
                 {| cpi_instance_name := "roots"; cpi_certificate_name := "ROOTCA" |} |}) |} |}.

Definition test_cluster (tls : string) : PbCluster :=
  {| pc_name := test_cluster_name;
     pc_eds_cluster_config := Some {| eds_service_name_field := test_cluster_name |};
     pc_load_assignment := None;
     pc_transport_socket := Some
       {| ts_name := "envoy.transport_sockets.tls";
          ts_config_type := Some (TsTypedConfig (any
            "type.googleapis.com/extensions.transport_sockets.tls.v1.UpstreamTlsContext" tls)) |} |}.

Definition test_assignment : PbClusterLoadAssignment :=
  {| cla_cluster_name := test_cluster_name;
     cla_endpoints := [
       {| loc_lb_endpoints := [
            {| lb_host_identifier := Some (HiEndpoint
                 {| pe_address := Some (socket "10.244.0.20" 8080) |});
               lb_health_status := 1 |}] |}] |}.

(** The bytes that [encode_to_vec] gives for the messages of the test. *)
Record TestBytes := {
  tb_manager : string;
  tb_listener : string;
  tb_route : string;
  tb_tls : string;
  tb_cluster : string;
  tb_assignment : string }.

(** [decode] gives back the messages that were encoded. *)
Record bytes_decode (P : ProstLib) (b : TestBytes) : Prop := {
  bd_manager : decode_PbHttpConnectionManager (tb_manager b) = Ok test_manager;
  bd_listener : decode_PbListener (tb_listener b) = Ok (test_listener (tb_manager b));
  bd_route : decode_PbRouteConfiguration (tb_route b) = Ok test_route;
  bd_tls : decode_PbUpstreamTlsContext (tb_tls b) = Ok test_tls;
  bd_cluster : decode_PbCluster (tb_cluster b) = Ok (test_cluster (tb_tls b));
  bd_assignment : decode_PbClusterLoadAssignment (tb_assignment b) = Ok test_assignment }.

(** A call of [apply_response] on the state. *)
Abbreviation handler := (AdsState → result DiscoveryUpdates XdsError * AdsState).

(** The test, given what its four responses do to the state. *)
Definition ads_state_test (lds rds cds eds : handler) : test :=
  let state := (set_subscription LISTENER_TYPE ["dxgate.app.svc.cluster.local:80"] ads_default).2 in
  let '(r, state) := lds state in
  updates ← unwrap r;
  _ ← assert_eq (du_route_names updates) [test_route_name];
  let state := (set_subscription ROUTE_TYPE (du_route_names updates) state).2 in
  let '(r, state) := rds state in
  updates ← unwrap r;
  _ ← assert_eq (du_cluster_names updates) [test_cluster_name];
  let state := (set_subscription CLUSTER_TYPE (du_cluster_names updates) state).2 in
  let '(r, state) := cds state in
  updates ← unwrap r;
  _ ← assert_eq (du_eds_names updates) [test_cluster_name];
  let state := (set_subscription ENDPOINT_TYPE (du_eds_names updates) state).2 in
  let '(r, state) := eds state in
  _ ← unwrap r;
  let cfg := runtime_config "v1" state in
  _ ← unwrap (validate cfg);
  listener ← rc_listeners cfg !! 0%nat;
  bind ← parse_socket_addr_v4 "0.0.0.0:80";
  _ ← assert_eq (l_bind listener) bind;
  vhost ← l_virtual_hosts listener !! 0%nat;
  _ ← assert_eq (vh_domains vhost) ["orders.example.com"];
  c ← rc_clusters cfg !! 0%nat;
  endpoint ← c_endpoints c !! 0%nat;
  _ ← assert_eq (ep_address endpoint) "10.244.0.20";
  _ ← assert_eq (c_tls c ≫= tls_sni) (Some "orders.app.svc.cluster.local");
  tls ← c_tls c;
  _ ← assert_eq (tls_certificate_provider tls) (Some "workload");
  _ ← assert_eq (tls_validation_provider tls) (Some "roots");
  assert_eq (tls_alpn_protocols tls) ["h2"].

Definition ads_state_builds_runtime_config_from_lds_rds_cds_and_eds {P : ProstLib} (b : TestBytes)
    : test :=
  ads_state_test
    (apply_response (response LISTENER_TYPE [any LISTENER_TYPE (tb_listener b)]))
    (apply_response (response ROUTE_TYPE [any ROUTE_TYPE (tb_route b)]))
    (apply_response (response CLUSTER_TYPE [any CLUSTER_TYPE (tb_cluster b)]))
    (apply_response (response ENDPOINT_TYPE [any ENDPOINT_TYPE (tb_assignment b)])).

Lemma ads_state_test_ext (lds rds cds eds lds' rds' cds' eds' : handler) :
  (∀ st, lds st = lds' st) → (∀ st, rds st = rds' st) → (∀ st, cds st = cds' st) →
  (∀ st, eds st = eds' st) →
  ads_state_test lds rds cds eds = ads_state_test lds' rds' cds' eds'.
Proof.
  intros H1 H2 H3 H4. unfold ads_state_test. rewrite H1.
  destruct (lds' _) as [[u1|e1] st1]; [|done]. cbn [unwrap mbind option_bind].
  destruct (assert_eq (du_route_names u1) _) as [[]|]; [|done]. rewrite H2.
  destruct (rds' _) as [[u2|e2] st2]; [|done]. cbn [unwrap mbind option_bind].
  destruct (assert_eq (du_cluster_names u2) _) as [[]|]; [|done]. rewrite H3.
  destruct (cds' _) as [[u3|e3] st3]; [|done]. cbn [unwrap mbind option_bind].
  destruct (assert_eq (du_eds_names u3) _) as [[]|]; [|done]. by rewrite H4.
Qed.

(** The messages decide what a response does, not how their bytes look. *)
Section decoded.
Context (P P' : ProstLib) (b b' : TestBytes) (Hb : bytes_decode P b) (Hb' : bytes_decode P' b').

Lemma decoded_listener st :
  apply_response (P := P) (response LISTENER_TYPE [any LISTENER_TYPE (tb_listener b)]) st =
  apply_response (P := P') (response LISTENER_TYPE [any LISTENER_TYPE (tb_listener b')]) st.
Proof.
  unfold apply_response. cbn [response dr_type_url dr_resources]. rewrite !decide_True by done.
  unfold apply_listeners. cbn [apply_each]. unfold apply_listener, decode_resource.
  cbn [any any_value]. rewrite (bd_listener _ _ Hb), (bd_listener _ _ Hb').
  cbn [map_err]. unfold listener_snapshot, http_connection_managers, decode_hcm, decode_resource.
  cbn [test_listener pl_api_listener al_api_listener mbind option_bind any any_value].
  rewrite (bd_manager _ _ Hb), (bd_manager _ _ Hb'). done.
Qed.

Lemma decoded_route st :
  apply_response (P := P) (response ROUTE_TYPE [any ROUTE_TYPE (tb_route b)]) st =
  apply_response (P := P') (response ROUTE_TYPE [any ROUTE_TYPE (tb_route b')]) st.
Proof.
  unfold apply_response. cbn [response dr_type_url dr_resources].
  rewrite !(decide_False (P := ROUTE_TYPE = LISTENER_TYPE)), !decide_True by done.
  unfold apply_routes. cbn [apply_each]. unfold apply_route, decode_resource.
  cbn [any any_value]. by rewrite (bd_route _ _ Hb), (bd_route _ _ Hb').
Qed.

Lemma decoded_tls :
  upstream_tls_from_cluster (P := P) (test_cluster (tb_tls b)) =
  upstream_tls_from_cluster (P := P') (test_cluster (tb_tls b')).
Proof.
  unfold upstream_tls_from_cluster. simpl. rewrite (bd_tls _ _ Hb), (bd_tls _ _ Hb'). done.
Qed.

Lemma decoded_cluster st :
  apply_response (P := P) (response CLUSTER_TYPE [any CLUSTER_TYPE (tb_cluster b)]) st =
  apply_response (P := P') (response CLUSTER_TYPE [any CLUSTER_TYPE (tb_cluster b')]) st.
Proof.
  unfold apply_response. cbn [response dr_type_url dr_resources].
  rewrite !(decide_False (P := CLUSTER_TYPE = LISTENER_TYPE)),
    !(decide_False (P := CLUSTER_TYPE = ROUTE_TYPE)), !decide_True by done.
  unfold apply_clusters. cbn [apply_each]. unfold apply_cluster, decode_resource.
  cbn [any any_value]. rewrite (bd_cluster _ _ Hb), (bd_cluster _ _ Hb').
  cbn [map_err]. by rewrite decoded_tls.
Qed.

Lemma decoded_assignment st :
  apply_response (P := P) (response ENDPOINT_TYPE [any ENDPOINT_TYPE (tb_assignment b)]) st =
  apply_response (P := P') (response ENDPOINT_TYPE [any ENDPOINT_TYPE (tb_assignment b')]) st.
Proof.
  unfold apply_response. cbn [response dr_type_url dr_resources].
  rewrite !(decide_False (P := ENDPOINT_TYPE = LISTENER_TYPE)),
    !(decide_False (P := ENDPOINT_TYPE = ROUTE_TYPE)),
    !(decide_False (P := ENDPOINT_TYPE = CLUSTER_TYPE)), !decide_True by done.
  unfold apply_endpoints. cbn [apply_each]. unfold apply_endpoint, decode_resource.
  cbn [any any_value]. by rewrite (bd_assignment _ _ Hb), (bd_assignment _ _ Hb').
Qed.

End decoded.

(** A library that reads the names of the messages. *)
Definition test_bytes : TestBytes :=
  {| tb_manager := "manager"; tb_listener := "listener"; tb_route := "route"; tb_tls := "tls";
     tb_cluster := "cluster"; tb_assignment := "assignment" |}.

Definition test_prost : ProstLib :=
  {| decode_PbListener := λ _, Ok (test_listener "manager");
     decode_PbRouteConfiguration := λ _, Ok test_route;
     decode_PbCluster := λ _, Ok (test_cluster "tls");
     decode_PbClusterLoadAssignment := λ _, Ok test_assignment;
     decode_PbHttpConnectionManager := λ _, Ok test_manager;
     decode_PbUpstreamTlsContext := λ _, Ok test_tls |}.

Lemma test_bytes_decode : bytes_decode test_prost test_bytes.
Proof. by constructor. Qed.

Lemma ads_test_passes P b :
  bytes_decode P b →
  ads_state_builds_runtime_config_from_lds_rds_cds_and_eds (P := P) b = Some tt.
Proof.
  intros Hb. transitivity
    (ads_state_builds_runtime_config_from_lds_rds_cds_and_eds (P := test_prost) test_bytes).
  - pose proof test_bytes_decode as Ht. apply ads_state_test_ext; intros st.
    + by apply decoded_listener.
    + by apply decoded_route.
    + by apply decoded_cluster.
    + by apply decoded_assignment.
  - vm_compute. reflexivity.
Qed.

(** ** crates/proxy/tests *)

(** [runtime_config] of the test topology. *)
Definition e2e_config (backend_ip : string) (backend_port : Z) : option RuntimeConfig :=
  bind ← parse_socket_addr_v4 "0.0.0.0:80";
  Some {|
    rc_version := "e2e";
    rc_listeners := [
      {| l_name := "http-80"; l_bind := bind; l_protocol := Http;
         l_virtual_hosts := [
           {| vh_name := "wildcard"; vh_domains := ["*"];
              vh_routes := [
                {| r_name := "default";
                   r_matches := [{| rm_path := Prefix "/"; rm_headers := [] |}];
                   r_weighted_clusters := [{| wc_name := "backend"; wc_weight := 100 |}] |}] |}];
         l_tls_secret := None |}];
    rc_clusters := [
      {| c_name := "backend";
         c_endpoints := [{| ep_address := backend_ip; ep_port := backend_port;
                            ep_healthy := true; ep_node_name := None |}];
         c_tls := None |}];
    rc_secrets := [] |}.

Section e2e.
Context {H : HttpLib} {T : TlsLib}.

(** [spawn_backend]: [/health], and an echo of the path for everything else. [ok] makes a
    response of status 200 with a text. *)
Definition backend (ok : string → Response) (req : Request H) : Response :=
  let path := default "/" (path_and_query (req_uri req)) in
  if decide (head (split_on "?" path) = Some "/health") then ok "ok"
  else ok ("dxgate example backend path=" +:+ path).

(** The end-to-end test: [req] is what arrives at the proxy, the network leads to the
    backend. The answer, if the test gets that far. *)
Definition proxy_forwards_http_request_to_configured_backend (ok : string → Response)
    (fs : FileSystem) (mtls : MtlsSupport T) (backend_ip : string) (backend_port : Z)
    (req : Request H) : option Response :=
  cfg ← e2e_config backend_ip backend_port;
  let '(r, state) := apply_config cfg (new_state (empty_config "bootstrap")) in
  _ ← unwrap r;
  let server := {| sv_state := state; sv_mtls := mtls |} in
  returned (forward true fs (λ _ req', Ok (backend ok req')) server req).1.1 ≫= unwrap.

(** With a [Uri] that keeps the path it was parsed from, the test gets the answer it
    asserts, whatever headers and method the request carries and wherever the backend
    listens. *)
Lemma e2e_test_passes ok fs mtls backend_ip backend_port req uri :
  let path := "/orders/42?debug=true" in
  let ep := {| ep_address := backend_ip; ep_port := backend_port; ep_healthy := true;
               ep_node_name := None |} in
  path_and_query (req_uri req) = Some path →
  parse_uri ("http://" +:+ endpoint_authority ep +:+ path) = Ok uri →
  path_and_query uri = Some path →
  proxy_forwards_http_request_to_configured_backend ok fs mtls backend_ip backend_port req =
    Some (ok "dxgate example backend path=/orders/42?debug=true").
Proof.
  intros path ep Hpath Huri Hup.
  set (c := {| c_name := "backend"; c_endpoints := [ep]; c_tls := None |}).
  assert (∃ cfg st st', e2e_config backend_ip backend_port = Some cfg ∧
    apply_config cfg (new_state (empty_config "bootstrap")) = (Ok tt, st) ∧ st_config st = cfg ∧
    ∀ host headers, choose_upstream true cfg
      {| mi_host := host; mi_path := path; mi_headers := headers |} st = (Ret (Ok (c, ep)), st'))
    as (cfg & st & st' & Hcfg & Happly & <- & Hchoose).
  { eexists _, _, _. split_and!; [vm_compute; reflexivity..|]. intros host headers.
    vm_compute. reflexivity. }
  unfold proxy_forwards_http_request_to_configured_backend. rewrite Hcfg. simpl.
  rewrite Happly. simpl. unfold forward. cbn [sv_state]. unfold match_input.
  assert (request_path req = path) as Hrp by (unfold request_path; by rewrite Hpath).
  rewrite Hrp, Hchoose. change (upstream_uri c ep path) with ("http://" +:+ endpoint_authority ep +:+ path).
  rewrite Huri. simpl. unfold backend. simpl.
  by rewrite Hup.
Qed.

End e2e.

(** ** The bootstrap tests *)

Lemma temp_file_extension dir pid nanos stem ext :
  0 ≤ pid → 0 ≤ nanos → contains_char "/" (stem +:+ "." +:+ ext) = false →
  contains_char "." ext = false →
  extension (temp_file dir pid nanos (stem +:+ "." +:+ ext)) =
    Some (ext +:+ "-" +:+ show_u pid +:+ "-" +:+ show_u nanos).
Proof.
  intros Hp Hn Hslash Hdot. unfold temp_file, extension.
  set (tail := "-" +:+ show_u pid +:+ "-" +:+ show_u nanos).
  assert (∀ c, Ascii.is_nat c = None → c ≠ "-"%char → contains_char c tail = false) as Htail.
  { intros c Hc Hne. unfold tail. rewrite !contains_char_app. simpl.
    rewrite !show_u_no_char by done. by rewrite bool_decide_eq_false_2. }
  assert ("dxgate-" +:+ (stem +:+ "." +:+ ext) +:+ tail =
    ("dxgate-" +:+ stem) +:+ String "." (ext +:+ tail)) as ->.
  { rewrite !str_app_assoc. done. }
  rewrite file_name_last.
  - cbv [mbind option_bind]. rewrite rsplit_once_app.
    + by rewrite decide_False.
    + by rewrite contains_char_app, Hdot, Htail.
  - rewrite contains_char_app in *. change (String "." (ext +:+ tail)) with ("." +:+ (ext +:+ tail)).
    rewrite !contains_char_app in *. rewrite Htail by done.
    apply orb_false_iff in Hslash as [-> [-> ->]%orb_false_iff]. done.
  - rewrite !not_elem_of_cons. split_and!; try done. apply not_elem_of_nil.
Qed.

Lemma temp_bootstrap_yaml {L : SerdeLib} fs dir pid nanos ext contents :
  0 ≤ pid → 0 ≤ nanos → ext ∈ ["json"; "yaml"] →
  let path := temp_file dir pid nanos ("bootstrap" +:+ "." +:+ ext) in
  bootstrap_load (fs_write path contents fs) path =
    map_err InvalidConfig (yaml_BootstrapConfig contents).
Proof.
  intros Hp Hn Hext path. unfold bootstrap_load, fs_write. rewrite decide_True by done.
  cbn [map_err]. rewrite decide_False; [done|]. unfold path.
  rewrite temp_file_extension by (done || set_unfold; naive_solver).
  intros [= E]. assert (contains_char "-" (ext +:+ "-" +:+ show_u pid +:+ "-" +:+ show_u nanos) = true)
    as Hc by (by rewrite !contains_char_app, orb_true_r).
  by rewrite E in Hc.
Qed.

(** What the libraries make of the texts of the tests. *)
Record texts_read (L : SerdeLib) (from_str : string → result GrpcBootstrap string) : Prop := {
  tr_grpc : from_str grpc_bootstrap_json = Ok {| gb_certificate_providers := {["default" :=
    {| cp_config := {| fw_certificate_file := Some "/etc/dubbo/proxy/cert-chain.pem";
                       fw_private_key_file := Some "/etc/dubbo/proxy/key.pem";
                       fw_ca_certificate_file := Some "/etc/dubbo/proxy/root-cert.pem" |} |}]} |};
  tr_json : yaml_BootstrapConfig bootstrap_json = Ok
    {| bc_xds_address := Some "http://dubbod.dubbo-system.svc:15012"; bc_http_addr := None;
       bc_admin_addr := None; bc_listener_names := ["public-dubbo.app.svc.cluster.local:80"];
       bc_pod_name := None; bc_namespace := None; bc_pod_ip := None; bc_node_name := None;
       bc_cluster_id := Some "Kubernetes"; bc_dns_domain := Some "cluster.local" |};
  tr_yaml : yaml_BootstrapConfig bootstrap_yaml = Ok
    {| bc_xds_address := Some "http://dubbod.dubbo-system.svc:15012";
       bc_http_addr := Some (SocketAddrV4 0 8080); bc_admin_addr := None; bc_listener_names := [];
       bc_pod_name := None; bc_namespace := None; bc_pod_ip := None; bc_node_name := None;
       bc_cluster_id := None; bc_dns_domain := None |} }.

(** ** Properties *)

(** The definitions pass the repository's tests. With a protobuf library that
    decodes the messages the tests encode, and parsers that read the texts of the tests
    as what they say, each of the fourteen tests that need no socket runs to its end,
    with every assertion true; the two that write a file do so for every process id,
    time and temporary directory. The end-to-end test gets the answer it expects from
    a backend at any address, given a URI library that keeps the path it parsed. And the
    test of the mTLS client passes, given certificates that are read back as they were
    written and a network that connects two sides that take each other's certificate. *)
Theorem repository_tests_pass (P : ProstLib) (L : SerdeLib) b from_str fs dir pid nanos :
  bytes_decode P b → texts_read L from_str → 0 ≤ pid → 0 ≤ nanos →
  Forall (λ t, t = Some tt)
    [detects_listener_conflict;
     validates_missing_weighted_cluster_references;
     routes_by_host_path_and_header_match;
     builds_dubbo_router_node_id;
     apply_config_updates_readiness_and_conflicts;
     weighted_cluster_picker_is_deterministic;
     endpoint_picker_skips_unhealthy_endpoints;
     parses_grpc_xds_bootstrap_file_watcher_provider from_str;
     mtls_cache_key_tracks_provider_and_alpn;
     identity_metadata_selects_dubbod_grpc_generator;
     ads_state_builds_runtime_config_from_lds_rds_cds_and_eds b;
     bootstrap_config_loads_json fs (temp_file dir pid nanos "bootstrap.json");
     bootstrap_config_loads_yaml fs (temp_file dir pid nanos "bootstrap.yaml");
     bootstrap_overrides_control_plane_fields] ∧
  (∀ (H : HttpLib) (T : TlsLib) ok mtls ip port (req : Request H) uri,
    let path := "/orders/42?debug=true" in
    path_and_query (req_uri req) = Some path →
    parse_uri ("http://" +:+ endpoint_authority {| ep_address := ip; ep_port := port;
      ep_healthy := true; ep_node_name := None |} +:+ path) = Ok uri →
    path_and_query uri = Some path →
    proxy_forwards_http_request_to_configured_backend (T := T) ok fs mtls ip port req =
      Some (ok "dxgate example backend path=/orders/42?debug=true")) ∧
  ∀ (T : TlsLib) (R : RcgenLib) (N : TlsServerLib T) asks accepts parse_reply to_string port,
    rcgen_works → rustls_works asks accepts → network_works asks accepts parse_reply →
    bootstrap_read to_string from_str (temp_dir dir "dxgate-mtls" nanos) →
    mtls_client_connects_with_bootstrap_certificate to_string from_str fs dir nanos port = Some tt.
Proof.
  intros Hb [Hg Hj Hy] Hp Hn.
  split; [|split; [by intros; eapply e2e_test_passes|by intros; eapply mtls_test_passes]].
  do 7 (apply Forall_cons_2; [vm_compute; reflexivity|]).
  apply Forall_cons_2.
  { unfold parses_grpc_xds_bootstrap_file_watcher_provider. rewrite Hg. vm_compute. reflexivity. }
  do 2 (apply Forall_cons_2; [vm_compute; reflexivity|]).
  apply Forall_cons_2; [by apply ads_test_passes|].
  apply Forall_cons_2.
  { unfold bootstrap_config_loads_json.
    rewrite (temp_bootstrap_yaml fs dir pid nanos "json") by (done || set_solver).
    rewrite Hj. vm_compute. reflexivity. }
  apply Forall_cons_2.
  { unfold bootstrap_config_loads_yaml.
    rewrite (temp_bootstrap_yaml fs dir pid nanos "yaml") by (done || set_solver).
    rewrite Hy. vm_compute. reflexivity. }
  apply Forall_cons_2; [vm_compute; reflexivity|apply Forall_nil_2].
Qed.

Definition test_serde : SerdeLib :=
  {| json_RuntimeConfig := λ _, Err "unused";
     yaml_RuntimeConfig := λ _, Err "unused";
     json_BootstrapConfig := λ _, Err "unused";
     yaml_BootstrapConfig := λ s, Ok
       {| bc_xds_address := Some "http://dubbod.dubbo-system.svc:15012";
          bc_http_addr := if starts_with "{" s then None else Some (SocketAddrV4 0 8080);
          bc_admin_addr := None;
          bc_listener_names :=
            if starts_with "{" s then ["public-dubbo.app.svc.cluster.local:80"] else [];
          bc_pod_name := None; bc_namespace := None; bc_pod_ip := None; bc_node_name := None;
          bc_cluster_id := if starts_with "{" s then Some "Kubernetes" else None;
          bc_dns_domain := if starts_with "{" s then Some "cluster.local" else None |} |}.

(** The text of the mTLS test is called [bootstrap]; anything else is the text of the
    parsing test. *)
Definition test_from_str (s : string) : result GrpcBootstrap string :=
  let dir := "/tmp/dxgate-mtls-1700000000000000000" in
  Ok (if decide (s = "bootstrap")
      then one_provider (dir +:+ "/cert-chain.pem") (dir +:+ "/key.pem") (dir +:+ "/root-cert.pem")
      else one_provider "/etc/dubbo/proxy/cert-chain.pem" "/etc/dubbo/proxy/key.pem"
             "/etc/dubbo/proxy/root-cert.pem").

Lemma test_texts_read : texts_read test_serde test_from_str.
Proof. by constructor. Qed.

Lemma repository_tests_pass_witness :
  bootstrap_config_loads_json (L := test_serde) (λ _, Err "No such file or directory")
    (temp_file "/tmp" 4711 1700000000000000000 "bootstrap.json") = Some tt ∧
  mtls_client_connects_with_bootstrap_certificate (T := text_tls) (R := text_rcgen)
    (N := text_server) (λ _, "bootstrap") test_from_str (λ _, Err "No such file or directory") "/tmp"
    1700000000000000000 40123 = Some tt.
Proof.
  destruct (repository_tests_pass test_prost test_serde test_bytes test_from_str
    (λ _, Err "No such file or directory") "/tmp" 4711 1700000000000000000
    test_bytes_decode test_texts_read ltac:(lia) ltac:(lia)) as (Hunit & _ & Hmtls).
  split; [exact (Forall_lookup_1 _ _ 11 _ Hunit eq_refl)|].
  apply (Hmtls text_tls text_rcgen text_server (λ _ _, "CA") (λ _ _, True) text_reply).
  - exact text_rcgen_works.
  - exact text_rustls_works.
  - exact text_network_works.
  - vm_compute. reflexivity.
Defined.

(** The test [bootstrap_config_loads_json] does not reach the JSON reader. The name
    of its temporary file ends in the process id and the time, so its extension is
    [json-<pid>-<nanos>] and the file is given to the YAML reader: whatever the JSON
    reader does, even if it rejects everything, the test ends the same. *)
Theorem json_test_reads_yaml (L : SerdeLib) fs dir pid nanos json :
  0 ≤ pid → 0 ≤ nanos →
  let path := temp_file dir pid nanos "bootstrap.json" in
  extension path = Some ("json-" +:+ show_u pid +:+ "-" +:+ show_u nanos) ∧
  bootstrap_config_loads_json (L := L) fs path =
  bootstrap_config_loads_json (L := {| json_RuntimeConfig := json_RuntimeConfig;
    yaml_RuntimeConfig := yaml_RuntimeConfig; json_BootstrapConfig := json;
    yaml_BootstrapConfig := yaml_BootstrapConfig |}) fs path.
Proof.
  intros Hp Hn path. split.
  - by apply (temp_file_extension dir pid nanos "bootstrap" "json").
  - unfold bootstrap_config_loads_json.
    rewrite !(temp_bootstrap_yaml fs dir pid nanos "json") by (done || set_solver). done.
Qed.

Lemma json_test_reads_yaml_witness :
  extension (temp_file "/tmp" 1 2 "bootstrap.json") = Some ("json-" +:+ show_u 1 +:+ "-" +:+ show_u 2).
Proof.
  destruct (json_test_reads_yaml test_serde (λ _, Err "") "/tmp" 1 2 (λ _, Err "refused")
    ltac:(lia) ltac:(lia)) as [H _]. exact H.
Defined.
