(* ===== verification/LoadTests.v ===== *)
(** * What the load tests measure (crates/proxy/tests)

    [percentile] of tests/support/mod.rs and the assertion of tests/sla.rs, on latencies
    that are given, in nanoseconds. The clock, the sockets and the floating-point rate of
    tests/performance.rs are not modelled. *)

From stdpp Require Import sorting.
From S2P Require Import Prelude ProxyState.

(** ** The percentile *)

(** It sorts the slice it is given; indexing past the end panics. *)
Definition percentile (latencies : list Z) (percentile : nat) : outcome Z * list Z :=
  let latencies := merge_sort Z.le latencies in
  let rank := ((length latencies * percentile + 99) / 100)%nat in
  (match latencies !! (rank - 1)%nat with
   | Some d => Ret d
   | None => Panic
   end, latencies).

(** The assertion of the SLA test: [p95 <= Duration::from_millis(budget)]. *)
Definition sla_assertion (latencies : list Z) (p95_budget_ms : Z) : outcome bool :=
  match (percentile latencies 95).1 with
  | Ret p95 => Ret (p95 <=? p95_budget_ms * 1000000)
  | Panic => Panic
  end.

(** ** Nearest rank *)

Definition within (budget : Z) (latencies : list Z) : nat :=
  length (base.filter (λ d, d ≤ budget) latencies).

Lemma within_perm budget l l' : l ≡ₚ l' → within budget l = within budget l'.
Proof. intros Hp. unfold within. by rewrite Hp. Qed.

Lemma within_none budget l : Forall (λ d, budget < d) l → within budget l = 0%nat.
Proof.
  unfold within. induction 1 as [|d l Hd _ IH]; [done|]. rewrite filter_cons_False; [done|lia].
Qed.

(** In a sorted list the entry at [i] is within the budget exactly when more than [i]
    entries are. *)
Lemma sorted_within budget l i d :
  StronglySorted Z.le l → l !! i = Some d → d ≤ budget ↔ (i < within budget l)%nat.
Proof.
  intros Hs. revert i. induction Hs as [|a l Hl IH Ha]; intros i; [done|].
  unfold within. rewrite filter_cons. case_decide as Hb.
  - destruct i as [|i]; simpl; [intros [= <-]; lia|]. intros Hi. rewrite (IH i Hi).
    unfold within. lia.
  - assert (within budget l = 0%nat) as H0.
    { apply within_none. eapply Forall_impl; [exact Ha|]. simpl. lia. }
    unfold within in H0. rewrite H0. intros Hi. split; [|lia]. intros Hd.
    destruct i as [|i]; [injection Hi as ->; lia|]. simpl in Hi.
    eapply Forall_lookup_1 in Ha; [|exact Hi]. lia.
Qed.

(** [percentile] is the nearest-rank percentile: of a list that is not empty it is an
    entry, and it is within a budget exactly when the given share of all entries is. *)
Theorem percentile_nearest_rank latencies p :
  latencies ≠ [] → (1 ≤ p ≤ 100)%nat →
  ∃ d, (percentile latencies p).1 = Ret d ∧ d ∈ latencies ∧
    ∀ budget, d ≤ budget ↔ (length latencies * p ≤ 100 * within budget latencies)%nat.
Proof.
  intros Hne Hp. unfold percentile. cbn [fst].
  pose proof (merge_sort_Permutation Z.le latencies) as Hperm.
  assert (StronglySorted Z.le (merge_sort Z.le latencies)) as Hs by apply (StronglySorted_merge_sort _ _).
  assert (0 < length latencies)%nat as Hn by (destruct latencies; simpl; [done|lia]).
  rewrite (Permutation_length Hperm). set (n := length latencies) in *.
  set (rank := ((n * p + 99) / 100)%nat).
  assert (n * p ≤ 100 * rank)%nat as Hlo.
  { unfold rank. pose proof (Nat.div_mod_eq (n * p + 99) 100).
    pose proof (Nat.mod_upper_bound (n * p + 99) 100). lia. }
  assert (100 * rank ≤ n * p + 99)%nat as Hhi by (unfold rank; apply Nat.Div0.mul_div_le).
  assert (rank - 1 < length (merge_sort Z.le latencies))%nat as Hlt.
  { rewrite (Permutation_length Hperm). fold n. nia. }
  apply lookup_lt_is_Some in Hlt as [d Hd]. rewrite Hd. exists d.
  split; [done|]. split; [rewrite <- Hperm; by eapply list_elem_of_lookup_2|].
  intros budget. rewrite (sorted_within budget _ _ d Hs Hd), (within_perm budget _ _ Hperm). nia.
Qed.

(** The SLA test passes exactly when at least 95 of 100 requests were within the budget;
    without any requests it panics. *)
Theorem sla_assertion_spec latencies budget :
  (latencies = [] → sla_assertion latencies budget = Panic) ∧
  (latencies ≠ [] → sla_assertion latencies budget =
     Ret (length latencies * 95 <=? 100 * within (budget * 1000000) latencies)%nat).
Proof.
  split; [intros ->; reflexivity|]. intros Hne.
  destruct (percentile_nearest_rank latencies 95 Hne ltac:(lia)) as (d & Hd & _ & Hb).
  unfold sla_assertion. rewrite Hd. f_equal. apply eq_bool_prop_intro.
  rewrite !Is_true_true, Z.leb_le, Nat.leb_le. apply Hb.
Qed.
